(** * BusTub buffer pool core: LRU-K replacer, buffer pool manager, disk scheduler

    A shallow embedding of
      - src/include/buffer/lru_k_replacer.h and src/buffer/lru_k_replacer.cpp,
      - src/buffer/buffer_pool_manager.cpp,
      - src/storage/disk/disk_scheduler.cpp,
    in their single-threaded reading: every member function runs to
    completion under the latches it takes, so a call is one state
    transition.  Exceptions are results of an error monad.  What the
    sources leave to the build (whether [BUSTUB_ASSERT] evaluates its
    argument, the number of workers) is a parameter of the pool. *)

From Stdlib Require Import ZArith List Lia Bool String Sorted.
From stdpp Require Import base option list gmap.

Local Open Scope Z_scope.

(** ** Machine integers and exceptions *)

(** [size_t] is 64 bits wide: arithmetic on it wraps modulo [2^64]. *)
Definition SIZE_T_MODULUS : Z := 2 ^ 64.

Definition to_size_t (z : Z) : Z := z mod SIZE_T_MODULUS.

(** [frame_id_t] and [page_id_t] are the signed 32-bit integers of
    common/config.h; a value of these types is a [Z]. *)
Abbreviation frame_id_t := Z (only parsing).
Abbreviation page_id_t := Z (only parsing).

(** The largest [page_id_t], and the value of an arithmetic result in
    this type: the increment of a [std::atomic<page_id_t>] wraps from
    [2^31 - 1] to [-2^31]. *)
Definition PAGE_ID_MAX : Z := 2 ^ 31 - 1.

Definition to_page_id_t (z : Z) : Z := (z + 2 ^ 31) mod 2 ^ 32 - 2 ^ 31.

(** [bustub::Exception] carries its message. *)
Inductive except (A : Type) : Type :=
| Ok (a : A)
| Throw (msg : string).
Arguments Ok {A} a.
Arguments Throw {A} msg.

#[global] Instance except_ret : MRet except := fun A a => Ok a.

#[global] Instance except_bind : MBind except := fun A B f m =>
  match m with
  | Ok a => f a
  | Throw msg => Throw msg
  end.

(** ** The LRU-K replacer *)

Module Replacer.

(** [struct LRUKNode]: [history_] is the [std::queue], least recent
    timestamp in front. *)
Record LRUKNode : Type := mkNode {
  history_ : list Z;
  timestamp_added_ : Z;
  is_evictable_ : bool;
  present_in_pq_ : bool
}.

(** [explicit LRUKNode(size_t timestamp_added)]. *)
Definition LRUKNode_new (timestamp_added : Z) : LRUKNode :=
  {| history_ := [timestamp_added];
     timestamp_added_ := timestamp_added;
     is_evictable_ := false;
     present_in_pq_ := true |}.

(** [history_.front()]; the queue of a node is never empty (the
    constructor pushes), the default is not reached on such a node. *)
Definition front (h : list Z) : Z := default 0 (head h).

(** [history_.size()] as a [size_t]. *)
Definition size (h : list Z) : Z := Z.of_nat (length h).

Definition TIMESTAMP_NEG_INF : Z := 0.

(** [struct PQNode]. *)
Record PQNode : Type := mkPQ {
  frame_id_ : frame_id_t;
  kth_last_timestamp_ : Z;
  earliest_timestamp_ : Z
}.

#[global] Instance PQNode_eq_dec : EqDecision PQNode.
Proof. solve_decision. Defined.

(** [explicit PQNode(frame_id_t frame_id, size_t k, LRUKNode const &)]. *)
Definition PQNode_new (frame_id : frame_id_t) (k : Z) (node : LRUKNode) : PQNode :=
  {| frame_id_ := frame_id;
     kth_last_timestamp_ :=
       if size (history_ node) =? k then front (history_ node) else TIMESTAMP_NEG_INF;
     earliest_timestamp_ := front (history_ node) |}.

(** [std::tie(a1, a2) > std::tie(b1, b2)]. *)
Definition tie_gt (a b : Z * Z) : bool :=
  (b.1 <? a.1) || ((b.1 =? a.1) && (b.2 <? a.2)).

(** [PQNode::operator<]. *)
Definition PQNode_lt (a b : PQNode) : bool :=
  tie_gt (kth_last_timestamp_ a, earliest_timestamp_ a)
         (kth_last_timestamp_ b, earliest_timestamp_ b).

(** [std::priority_queue<PQNode>] as the list of its elements.  [top] is an
    element that is not [operator<] any other one.  Which of several
    equivalent elements the standard heap yields is not specified; the
    model takes the one pushed first. *)
Fixpoint pq_top (q : list PQNode) : option PQNode :=
  match q with
  | [] => None
  | e :: q' =>
      match pq_top q' with
      | None => Some e
      | Some m => if PQNode_lt m e then Some e else Some m
      end
  end.

Fixpoint pq_pop (q : list PQNode) : list PQNode :=
  match q with
  | [] => []
  | e :: q' =>
      match pq_top q' with
      | None => []
      | Some m => if PQNode_lt m e then q' else e :: pq_pop q'
      end
  end.

Definition pq_emplace (e : PQNode) (q : list PQNode) : list PQNode := e :: q.

(** [class LRUKReplacer] without its latches. *)
Record LRUKReplacer : Type := mkReplacer {
  replacer_size_ : Z;
  node_store_ : list (option LRUKNode);
  pq_ : list PQNode;
  current_timestamp_ : Z;
  k_ : Z;
  num_evictable_ : Z
}.

(** [LRUKReplacer::LRUKReplacer(size_t num_frames, size_t k)]. *)
Definition LRUKReplacer_new (num_frames k : Z) : LRUKReplacer :=
  {| replacer_size_ := num_frames;
     node_store_ := replicate (Z.to_nat num_frames) None;
     pq_ := [];
     current_timestamp_ := 1;
     k_ := k;
     num_evictable_ := 0 |}.

(** [node_store_[frame_id]]: the index is the frame id as a [size_t]. *)
Definition slot (frame_id : frame_id_t) : nat := Z.to_nat (to_size_t frame_id).

Definition node_at (r : LRUKReplacer) (frame_id : frame_id_t) : option LRUKNode :=
  mjoin (node_store_ r !! slot frame_id).

Definition set_node (frame_id : frame_id_t) (n : option LRUKNode) (r : LRUKReplacer)
  : LRUKReplacer :=
  {| replacer_size_ := replacer_size_ r;
     node_store_ := <[slot frame_id := n]> (node_store_ r);
     pq_ := pq_ r;
     current_timestamp_ := current_timestamp_ r;
     k_ := k_ r;
     num_evictable_ := num_evictable_ r |}.

Definition set_pq (q : list PQNode) (r : LRUKReplacer) : LRUKReplacer :=
  {| replacer_size_ := replacer_size_ r;
     node_store_ := node_store_ r;
     pq_ := q;
     current_timestamp_ := current_timestamp_ r;
     k_ := k_ r;
     num_evictable_ := num_evictable_ r |}.

Definition set_num_evictable (n : Z) (r : LRUKReplacer) : LRUKReplacer :=
  {| replacer_size_ := replacer_size_ r;
     node_store_ := node_store_ r;
     pq_ := pq_ r;
     current_timestamp_ := current_timestamp_ r;
     k_ := k_ r;
     num_evictable_ := n |}.

Definition set_current_timestamp (t : Z) (r : LRUKReplacer) : LRUKReplacer :=
  {| replacer_size_ := replacer_size_ r;
     node_store_ := node_store_ r;
     pq_ := pq_ r;
     current_timestamp_ := t;
     k_ := k_ r;
     num_evictable_ := num_evictable_ r |}.

Definition set_present_in_pq (b : bool) (n : LRUKNode) : LRUKNode :=
  {| history_ := history_ n;
     timestamp_added_ := timestamp_added_ n;
     is_evictable_ := is_evictable_ n;
     present_in_pq_ := b |}.

Definition set_is_evictable (b : bool) (n : LRUKNode) : LRUKNode :=
  {| history_ := history_ n;
     timestamp_added_ := timestamp_added_ n;
     is_evictable_ := b;
     present_in_pq_ := present_in_pq_ n |}.

Definition set_history (h : list Z) (n : LRUKNode) : LRUKNode :=
  {| history_ := h;
     timestamp_added_ := timestamp_added_ n;
     is_evictable_ := is_evictable_ n;
     present_in_pq_ := present_in_pq_ n |}.

(** The test of [Evict] that the popped entry no longer describes the
    node: lines 50-65 of lru_k_replacer.cpp. *)
Definition outdated (k : Z) (top : PQNode) (node : LRUKNode) : bool :=
  if size (history_ node) =? k
  then negb (kth_last_timestamp_ top =? front (history_ node))
  else negb (kth_last_timestamp_ top =? TIMESTAMP_NEG_INF)
       || negb (earliest_timestamp_ top =? front (history_ node)).

(** One iteration of the [while (not pq_.empty())] loop of [Evict] after
    the pop: either the loop goes on in a new state, or [Evict] returns. *)
Inductive iteration : Type :=
| Continue (r : LRUKReplacer)
| Return (r : LRUKReplacer) (frame_id : frame_id_t).

Definition Evict_body (top : PQNode) (r : LRUKReplacer) : iteration :=
  match node_at r (frame_id_ top) with
  | None => Continue r
  | Some node =>
      if earliest_timestamp_ top <? timestamp_added_ node then Continue r
      else if outdated (k_ r) top node
      then Continue (set_pq (pq_emplace (PQNode_new (frame_id_ top) (k_ r) node) (pq_ r)) r)
      else if negb (is_evictable_ node)
      then Continue (set_node (frame_id_ top) (Some (set_present_in_pq false node)) r)
      else Return (set_num_evictable (to_size_t (num_evictable_ r - 1))
                     (set_node (frame_id_ top) None r))
                  (frame_id_ top)
  end.

(** [LRUKReplacer::Evict]: [None] in the result is [return false].  The
    loop is run on fuel; the outer [None] is fuel running out. *)
Fixpoint Evict_loop (fuel : nat) (r : LRUKReplacer)
  : option (LRUKReplacer * option frame_id_t) :=
  match fuel with
  | O => None
  | S fuel' =>
      match pq_top (pq_ r) with
      | None => Some (r, None)
      | Some top =>
          match Evict_body top (set_pq (pq_pop (pq_ r)) r) with
          | Continue r' => Evict_loop fuel' r'
          | Return r' frame_id => Some (r', Some frame_id)
          end
      end
  end.

(** Every iteration either shortens the queue or replaces an outdated
    entry by one that is not: twice the length of the queue, and one
    more to see it empty, is enough fuel ([Evict_loop_total]). *)
Definition Evict_fuel (r : LRUKReplacer) : nat := S (2 * length (pq_ r)).

Definition Evict (r : LRUKReplacer) : LRUKReplacer * option frame_id_t :=
  default (r, None) (Evict_loop (Evict_fuel r) r).

(** [LRUKReplacer::RecordAccess]. *)
Definition RecordAccess (frame_id : frame_id_t) (r : LRUKReplacer) : except LRUKReplacer :=
  if replacer_size_ r <=? to_size_t frame_id then Throw "Invalid frame_id"
  else
    let r' :=
      match node_at r frame_id with
      | None =>
          let node := LRUKNode_new (current_timestamp_ r) in
          set_pq (pq_emplace (PQNode_new frame_id (k_ r) node) (pq_ r))
            (set_node frame_id (Some node) r)
      | Some node =>
          let h := if size (history_ node) =? k_ r
                   then tail (history_ node) else history_ node in
          set_node frame_id (Some (set_history (h ++ [current_timestamp_ r]) node)) r
      end in
    Ok (set_current_timestamp (to_size_t (current_timestamp_ r + 1)) r').

(** [LRUKReplacer::SetEvictable]. *)
Definition SetEvictable (frame_id : frame_id_t) (set_evictable : bool) (r : LRUKReplacer)
  : except LRUKReplacer :=
  if replacer_size_ r <=? to_size_t frame_id then Throw "Invalid frame_id"
  else
    match node_at r frame_id with
    | None => Throw "Invalid frame_id"
    | Some node =>
        if Bool.eqb (is_evictable_ node) set_evictable then Ok r
        else if set_evictable
        then
          let node1 := set_is_evictable true node in
          let r1 :=
            if present_in_pq_ node1 then set_node frame_id (Some node1) r
            else set_node frame_id (Some (set_present_in_pq true node1))
                   (set_pq (pq_emplace (PQNode_new frame_id (k_ r) node1) (pq_ r)) r) in
          Ok (set_num_evictable (to_size_t (num_evictable_ r + 1)) r1)
        else
          Ok (set_num_evictable (to_size_t (num_evictable_ r - 1))
                (set_node frame_id (Some (set_is_evictable false node)) r))
    end.

(** [LRUKReplacer::Remove]. *)
Definition Remove (frame_id : frame_id_t) (r : LRUKReplacer) : except LRUKReplacer :=
  if replacer_size_ r <=? to_size_t frame_id then Throw "Invalid frame_id"
  else
    match node_at r frame_id with
    | None => Throw "Invalid frame_id"
    | Some node =>
        if negb (is_evictable_ node) then Throw "Frame not evictable"
        else Ok (set_node frame_id None r)
    end.

(** [LRUKReplacer::Size]. *)
Definition Size (r : LRUKReplacer) : Z := num_evictable_ r.

End Replacer.

(** ** The disk scheduler *)

Module Scheduler.

(** The payload of a page, a buffer of [BUSTUB_PAGE_SIZE] bytes. *)
Abbreviation page_data := (list Byte.byte) (only parsing).

(** [struct DiskRequest].  [data_] is the buffer the request points to;
    [callback_] names the promise the worker fulfils. *)
Record DiskRequest : Type := mkRequest {
  is_write_ : bool;
  data_ : page_data;
  page_id_ : page_id_t;
  callback_ : nat
}.

(** Modelled from the spec: the disk manager (storage/disk/disk_manager.h)
    is an external collaborator; [write_page] persists the buffer as the
    page contents and [read_page] fills the buffer with them.  [observed_]
    is the sequence of calls it has received, as a mock records them. *)
Record DiskManager : Type := mkDisk {
  contents_ : gmap Z page_data;
  observed_ : list (bool * page_id_t)
}.

Definition DiskManager_new : DiskManager :=
  {| contents_ := ∅; observed_ := [] |}.

Definition WritePage (page_id : page_id_t) (data : page_data) (d : DiskManager) : DiskManager :=
  {| contents_ := <[page_id := data]> (contents_ d);
     observed_ := observed_ d ++ [(true, page_id)] |}.

(** The contract does not say what a page that was never written holds;
    here it reads as zero bytes. *)
Definition ReadPage (page_id : page_id_t) (buffer : page_data) (d : DiskManager)
  : page_data * DiskManager :=
  (default (replicate (length buffer) Byte.x00) (contents_ d !! page_id),
   {| contents_ := contents_ d;
      observed_ := observed_ d ++ [(false, page_id)] |}).

(** Modelled from the spec: [Channel<T>] (common/channel.h) is a FIFO;
    [Put] appends and [Get] takes the front, blocking while it is empty. *)
Abbreviation Channel := (list (option DiskRequest)) (only parsing).

(** [class WorkerShard]: its queue, and whether its thread is still in
    the loop of [WorkerShard::StartWorkerThread]. *)
Record WorkerShard : Type := mkShard {
  shard_queue_ : Channel;
  worker_running_ : bool
}.

(** [class DiskScheduler]; [promises_] holds the values set through the
    callbacks. *)
Record DiskScheduler : Type := mkScheduler {
  request_queue_ : Channel;
  background_running_ : bool;
  workers_ : list WorkerShard;
  disk_manager_ : DiskManager;
  promises_ : gmap nat bool
}.

Section NumWorkers.

(** [NUM_WORKERS] is a constant of storage/disk/disk_scheduler.h. *)
Variable NUM_WORKERS : Z.

(** [DiskScheduler::ShardHash(size_t page_id)]. *)
Definition ShardHash (page_id : Z) : Z := page_id mod NUM_WORKERS.

(** The shard of a request: the [page_id_t] is converted to the
    [size_t] parameter of [ShardHash]. *)
Definition shard_of (page_id : page_id_t) : nat :=
  Z.to_nat (ShardHash (to_size_t page_id)).

(** [DiskScheduler::DiskScheduler]. *)
Definition DiskScheduler_new (disk_manager : DiskManager) : DiskScheduler :=
  {| request_queue_ := [];
     background_running_ := true;
     workers_ := replicate (Z.to_nat NUM_WORKERS)
                   {| shard_queue_ := []; worker_running_ := true |};
     disk_manager_ := disk_manager;
     promises_ := ∅ |}.

(** [DiskScheduler::Schedule]. *)
Definition Schedule (r : DiskRequest) (s : DiskScheduler) : DiskScheduler :=
  {| request_queue_ := request_queue_ s ++ [Some r];
     background_running_ := background_running_ s;
     workers_ := workers_ s;
     disk_manager_ := disk_manager_ s;
     promises_ := promises_ s |}.

Definition put_shard (i : nat) (x : option DiskRequest) (ws : list WorkerShard)
  : list WorkerShard :=
  match ws !! i with
  | Some w => <[i := {| shard_queue_ := shard_queue_ w ++ [x];
                        worker_running_ := worker_running_ w |}]> ws
  | None => ws
  end.

(** One iteration of [DiskScheduler::StartWorkerThread], the dispatcher:
    [None] when the thread has left its loop or blocks on an empty queue. *)
Definition dispatch (s : DiskScheduler) : option DiskScheduler :=
  if background_running_ s then
    match request_queue_ s with
    | [] => None
    | None :: q =>
        Some {| request_queue_ := q;
                background_running_ := false;
                workers_ := workers_ s;
                disk_manager_ := disk_manager_ s;
                promises_ := promises_ s |}
    | Some r :: q =>
        Some {| request_queue_ := q;
                background_running_ := true;
                workers_ := put_shard (shard_of (page_id_ r)) (Some r) (workers_ s);
                disk_manager_ := disk_manager_ s;
                promises_ := promises_ s |}
    end
  else None.

(** What a worker does with a request: the call of the disk manager. *)
Definition serve (r : DiskRequest) (d : DiskManager) : DiskManager :=
  if is_write_ r then WritePage (page_id_ r) (data_ r) d
  else (ReadPage (page_id_ r) (data_ r) d).2.

(** One iteration of [WorkerShard::StartWorkerThread] in shard [i]. *)
Definition work (i : nat) (s : DiskScheduler) : option DiskScheduler :=
  match workers_ s !! i with
  | None => None
  | Some w =>
      if worker_running_ w then
        match shard_queue_ w with
        | [] => None
        | None :: q =>
            Some {| request_queue_ := request_queue_ s;
                    background_running_ := background_running_ s;
                    workers_ := <[i := {| shard_queue_ := q; worker_running_ := false |}]>
                                  (workers_ s);
                    disk_manager_ := disk_manager_ s;
                    promises_ := promises_ s |}
        | Some r :: q =>
            Some {| request_queue_ := request_queue_ s;
                    background_running_ := background_running_ s;
                    workers_ := <[i := {| shard_queue_ := q; worker_running_ := true |}]>
                                  (workers_ s);
                    disk_manager_ := serve r (disk_manager_ s);
                    promises_ := <[callback_ r := true]> (promises_ s) |}
        end
      else None
  end.

(** The first half of [DiskScheduler::~DiskScheduler]: the sentinel for
    the dispatcher. *)
Definition stop_dispatcher (s : DiskScheduler) : DiskScheduler :=
  {| request_queue_ := request_queue_ s ++ [None];
     background_running_ := background_running_ s;
     workers_ := workers_ s;
     disk_manager_ := disk_manager_ s;
     promises_ := promises_ s |}.

(** Its second half, for one worker, after the dispatcher was joined. *)
Definition stop_worker (i : nat) (s : DiskScheduler) : option DiskScheduler :=
  if background_running_ s then None
  else Some {| request_queue_ := request_queue_ s;
               background_running_ := false;
               workers_ := put_shard i None (workers_ s);
               disk_manager_ := disk_manager_ s;
               promises_ := promises_ s |}.

(** The threads interleave: an execution is a sequence of the atomic
    actions above. *)
Inductive action : Type :=
| ASchedule (r : DiskRequest)
| ADispatch
| AWork (i : nat)
| AStopDispatcher
| AStopWorker (i : nat).

Definition step (a : action) (s : DiskScheduler) : option DiskScheduler :=
  match a with
  | ASchedule r => Some (Schedule r s)
  | ADispatch => dispatch s
  | AWork i => work i s
  | AStopDispatcher => Some (stop_dispatcher s)
  | AStopWorker i => stop_worker i s
  end.

Fixpoint exec (tr : list action) (s : DiskScheduler) : option DiskScheduler :=
  match tr with
  | [] => Some s
  | a :: tr' => match step a s with Some s' => exec tr' s' | None => None end
  end.

(** The requests submitted along an execution, in submission order. *)
Fixpoint submitted (tr : list action) : list DiskRequest :=
  match tr with
  | [] => []
  | ASchedule r :: tr' => r :: submitted tr'
  | _ :: tr' => submitted tr'
  end.

End NumWorkers.

(** The requests waiting in a channel. *)
Definition pending (q : Channel) : list DiskRequest := omap id q.

(** The operations on one page in a sequence of requests, and in what the
    disk manager observed. *)
Definition on_page (p : page_id_t) (rs : list DiskRequest) : list (bool * page_id_t) :=
  (λ r, (is_write_ r, page_id_ r)) <$> filter (λ r, page_id_ r = p) rs.

Definition seen_on_page (p : page_id_t) (d : DiskManager) : list (bool * page_id_t) :=
  filter (λ o, o.2 = p) (observed_ d).

End Scheduler.

(** ** The buffer pool manager *)

Module Pool.
Import Replacer.

Abbreviation page_data := (list Byte.byte) (only parsing).

(** Modelled from the spec: the sentinel of an unassigned frame,
    [INVALID_PAGE_ID] of common/config.h. *)
Definition INVALID_PAGE_ID : page_id_t := -1.

(** Modelled from the spec: a page frame ([class Page],
    storage/page/page.h) has a payload, the resident page id or the
    sentinel, a pin count and a dirty flag. *)
Record Page : Type := mkPage {
  data_ : page_data;
  page_id_ : page_id_t;
  pin_count_ : Z;
  is_dirty_ : bool
}.

Definition Page_new (page_size : nat) : Page :=
  {| data_ := replicate page_size Byte.x00;
     page_id_ := INVALID_PAGE_ID;
     pin_count_ := 0;
     is_dirty_ := false |}.

(** [Page::ResetMemory]: the payload is zeroed, nothing else. *)
Definition ResetMemory (p : Page) : Page :=
  {| data_ := replicate (length (data_ p)) Byte.x00;
     page_id_ := page_id_ p;
     pin_count_ := pin_count_ p;
     is_dirty_ := is_dirty_ p |}.

Definition set_page_id (x : page_id_t) (p : Page) : Page :=
  {| data_ := data_ p; page_id_ := x; pin_count_ := pin_count_ p; is_dirty_ := is_dirty_ p |}.

Definition set_pin_count (x : Z) (p : Page) : Page :=
  {| data_ := data_ p; page_id_ := page_id_ p; pin_count_ := x; is_dirty_ := is_dirty_ p |}.

Definition set_is_dirty (x : bool) (p : Page) : Page :=
  {| data_ := data_ p; page_id_ := page_id_ p; pin_count_ := pin_count_ p; is_dirty_ := x |}.

Definition set_data (x : page_data) (p : Page) : Page :=
  {| data_ := x; page_id_ := page_id_ p; pin_count_ := pin_count_ p; is_dirty_ := is_dirty_ p |}.

(** What the sources leave to the build.  [BUSTUB_ASSERT]
    (common/macros.h, not among the sources) is [assert]: a build with
    [NDEBUG] does not evaluate its argument, and the pool's only calls of
    [std::future::get] are in arguments of [BUSTUB_ASSERT]
    ([assert_evaluates]).  [NUM_WORKERS] is the constant of
    storage/disk/disk_scheduler.h. *)
Record Build : Type := mkBuild {
  assert_evaluates : bool;
  NUM_WORKERS : Z
}.

(** A request that was scheduled and not waited for: whether it is a
    write, its page id, and the frame whose buffer its [data_] points
    to. *)
Abbreviation Request := (bool * page_id_t * frame_id_t)%type (only parsing).

(** [class BufferPoolManager] without its latches.  [disk_] is the disk
    manager behind the scheduler as of the requests the pool has waited
    for: the future of a request resolves after the worker has called the
    disk manager ([WorkerShard::StartWorkerThread]), so a request that was
    waited for is a call of it.  [in_flight_] holds, in the order of the
    calls of [Schedule], the requests that were not waited for: the
    scheduler serves them at a time of its own, from and into the buffers
    they point to, and this is no step of a member function.  So [disk_]
    and the payloads in [pages_] are those that the member functions and
    the requests waited for have made; what the requests in flight will
    make of them is left open.  [deallocated_] records the calls of
    [DeallocatePage]. *)
Record BufferPoolManager : Type := mkPool {
  build_ : Build;
  in_flight_ : list Request;
  pool_size_ : Z;
  pages_ : list Page;
  page_table_ : gmap Z Z;
  free_list_ : list frame_id_t;
  replacer_ : LRUKReplacer;
  disk_ : Scheduler.DiskManager;
  next_page_id_ : page_id_t;
  deallocated_ : list page_id_t
}.

(** [BufferPoolManager::BufferPoolManager]; the counter of page ids
    starts at 0 (buffer_pool_manager.h). *)
Definition BufferPoolManager_new (build : Build) (page_size : nat) (pool_size : Z)
    (disk_manager : Scheduler.DiskManager) (replacer_k : Z) : BufferPoolManager :=
  {| build_ := build;
     in_flight_ := [];
     pool_size_ := pool_size;
     pages_ := replicate (Z.to_nat pool_size) (Page_new page_size);
     page_table_ := ∅;
     free_list_ := seqZ 0 pool_size;
     replacer_ := LRUKReplacer_new pool_size replacer_k;
     disk_ := disk_manager;
     next_page_id_ := 0;
     deallocated_ := [] |}.

Definition set_pages (x : list Page) (s : BufferPoolManager) : BufferPoolManager :=
  {| build_ := build_ s; in_flight_ := in_flight_ s; pool_size_ := pool_size_ s; pages_ := x; page_table_ := page_table_ s;
     free_list_ := free_list_ s; replacer_ := replacer_ s; disk_ := disk_ s;
     next_page_id_ := next_page_id_ s; deallocated_ := deallocated_ s |}.

Definition set_page_table (x : gmap Z Z) (s : BufferPoolManager) : BufferPoolManager :=
  {| build_ := build_ s; in_flight_ := in_flight_ s; pool_size_ := pool_size_ s; pages_ := pages_ s; page_table_ := x;
     free_list_ := free_list_ s; replacer_ := replacer_ s; disk_ := disk_ s;
     next_page_id_ := next_page_id_ s; deallocated_ := deallocated_ s |}.

Definition set_free_list (x : list frame_id_t) (s : BufferPoolManager) : BufferPoolManager :=
  {| build_ := build_ s; in_flight_ := in_flight_ s; pool_size_ := pool_size_ s; pages_ := pages_ s; page_table_ := page_table_ s;
     free_list_ := x; replacer_ := replacer_ s; disk_ := disk_ s;
     next_page_id_ := next_page_id_ s; deallocated_ := deallocated_ s |}.

Definition set_replacer (x : LRUKReplacer) (s : BufferPoolManager) : BufferPoolManager :=
  {| build_ := build_ s; in_flight_ := in_flight_ s; pool_size_ := pool_size_ s; pages_ := pages_ s; page_table_ := page_table_ s;
     free_list_ := free_list_ s; replacer_ := x; disk_ := disk_ s;
     next_page_id_ := next_page_id_ s; deallocated_ := deallocated_ s |}.

Definition set_disk (x : Scheduler.DiskManager) (s : BufferPoolManager) : BufferPoolManager :=
  {| build_ := build_ s; in_flight_ := in_flight_ s; pool_size_ := pool_size_ s; pages_ := pages_ s; page_table_ := page_table_ s;
     free_list_ := free_list_ s; replacer_ := replacer_ s; disk_ := x;
     next_page_id_ := next_page_id_ s; deallocated_ := deallocated_ s |}.

Definition set_next_page_id (x : page_id_t) (s : BufferPoolManager) : BufferPoolManager :=
  {| build_ := build_ s; in_flight_ := in_flight_ s; pool_size_ := pool_size_ s; pages_ := pages_ s; page_table_ := page_table_ s;
     free_list_ := free_list_ s; replacer_ := replacer_ s; disk_ := disk_ s;
     next_page_id_ := x; deallocated_ := deallocated_ s |}.

Definition set_in_flight (x : list Request) (s : BufferPoolManager) : BufferPoolManager :=
  {| build_ := build_ s; in_flight_ := x; pool_size_ := pool_size_ s; pages_ := pages_ s;
     page_table_ := page_table_ s;
     free_list_ := free_list_ s; replacer_ := replacer_ s; disk_ := disk_ s;
     next_page_id_ := next_page_id_ s; deallocated_ := deallocated_ s |}.

Definition set_deallocated (x : list page_id_t) (s : BufferPoolManager) : BufferPoolManager :=
  {| build_ := build_ s; in_flight_ := in_flight_ s; pool_size_ := pool_size_ s; pages_ := pages_ s; page_table_ := page_table_ s;
     free_list_ := free_list_ s; replacer_ := replacer_ s; disk_ := disk_ s;
     next_page_id_ := next_page_id_ s; deallocated_ := x |}.

(** [pages_[frame_id]].  An index outside the array is undefined in the
    source; the model reads a blank page there and writes nothing. *)
Definition page_lookup (frame_id : frame_id_t) (s : BufferPoolManager) : option Page :=
  if frame_id <? 0 then None else pages_ s !! Z.to_nat frame_id.

Definition page_ref (frame_id : frame_id_t) (s : BufferPoolManager) : Page :=
  default (Page_new 0) (page_lookup frame_id s).

Definition set_page (frame_id : frame_id_t) (p : Page) (s : BufferPoolManager)
  : BufferPoolManager :=
  if frame_id <? 0 then s else set_pages (<[Z.to_nat frame_id := p]> (pages_ s)) s.

(** *** The monad of the member functions: state, and an exception that
    leaves the function with the state reached so far *)

Inductive outcome (A : Type) : Type :=
| Returns (a : A) (s : BufferPoolManager)
| Raises (msg : string) (s : BufferPoolManager).
Arguments Returns {A} a s.
Arguments Raises {A} msg s.

Definition bpm (A : Type) : Type := BufferPoolManager -> outcome A.

Definition ret {A} (a : A) : bpm A := fun s => Returns a s.

Definition bind {A B} (m : bpm A) (f : A -> bpm B) : bpm B := fun s =>
  match m s with
  | Returns a s' => f a s'
  | Raises msg s' => Raises msg s'
  end.

Notation "'let!' x ':=' m 'in' k" := (bind m (fun x => k))
  (at level 10, x pattern, m at level 100, k at level 200).

Definition get : bpm BufferPoolManager := fun s => Returns s s.

Definition modify (f : BufferPoolManager -> BufferPoolManager) : bpm unit :=
  fun s => Returns tt (f s).

(** A call [replacer_->op(...)] of a member function that may throw. *)
Definition replacer_call (op : LRUKReplacer -> except LRUKReplacer) : bpm unit := fun s =>
  match op (replacer_ s) with
  | Ok r => Returns tt (set_replacer r s)
  | Throw msg => Raises msg s
  end.

Fixpoint for_each (l : list Z) (body : Z -> bpm unit) : bpm unit :=
  match l with
  | [] => ret tt
  | i :: l' => let! _ := body i in for_each l' body
  end.

(** The first element of a list that satisfies [P], and the list
    without it. *)
Fixpoint take_first {A} (P : A -> bool) (l : list A) : option (A * list A) :=
  match l with
  | [] => None
  | x :: l' =>
      if P x then Some (x, l')
      else match take_first P l' with
           | Some (y, rest) => Some (y, x :: rest)
           | None => None
           end
  end.

(** The writes [pending], scheduled together in this order, as the
    workers serve them.  The dispatcher hands every request to the shard
    of its page in the order of the calls of [Schedule], and a worker
    serves its shard in this order; the workers of different shards race.
    [picks] is the order in which the workers come to call the disk
    manager, a pick being the index of a worker; when [picks] is used
    up, what is left is served in the order of the calls. *)
Fixpoint serve_writes (num_workers : Z) (picks : list nat)
    (pending : list (page_id_t * page_data)) (d : Scheduler.DiskManager)
  : Scheduler.DiskManager :=
  match picks with
  | [] => foldl (fun d r => Scheduler.WritePage r.1 r.2 d) d pending
  | i :: picks' =>
      match take_first (fun r => bool_decide (Scheduler.shard_of num_workers r.1 = i)) pending with
      | Some (r, rest) =>
          serve_writes num_workers picks' rest (Scheduler.WritePage r.1 r.2 d)
      | None => serve_writes num_workers picks' pending d
      end
  end.

(** [std::unordered_map::emplace]: an existing key keeps its value. *)
Definition emplace (k v : Z) (m : gmap Z Z) : gmap Z Z :=
  match m !! k with
  | Some _ => m
  | None => <[k := v]> m
  end.

(** [disk_scheduler_->Schedule(DiskRequest{.is_write_ = true, .data_ =
    page.data_, .page_id_ = page.page_id_, ...})] for the page of frame
    [frame_id], followed by [BUSTUB_ASSERT(f.get(), ...)]: in a build that
    evaluates the argument the pool waits, and the disk manager has
    written the buffer when the wait ends; in a build that does not, the
    request is left in flight. *)
Definition write_and_wait (frame_id : frame_id_t) : bpm unit := fun s =>
  let page := page_ref frame_id s in
  if assert_evaluates (build_ s)
  then Returns tt (set_disk (Scheduler.WritePage (page_id_ page) (data_ page) (disk_ s)) s)
  else Returns tt (set_in_flight (in_flight_ s ++ [(true, page_id_ page, frame_id)]) s).

(** The same for the read of page [page_id] into the buffer of frame
    [frame_id]. *)
Definition read_and_wait (page_id : page_id_t) (frame_id : frame_id_t) : bpm unit := fun s =>
  let page := page_ref frame_id s in
  if assert_evaluates (build_ s)
  then
    let '(data, d) := Scheduler.ReadPage page_id (data_ page) (disk_ s) in
    Returns tt (set_page frame_id (set_data data page) (set_disk d s))
  else Returns tt (set_in_flight (in_flight_ s ++ [(false, page_id, frame_id)]) s).

(** [BufferPoolManager::FlushPage(Page &page)], the page being
    [pages_[frame_id]]. *)
Definition FlushPage_ref (frame_id : frame_id_t) : bpm unit :=
  let! _ := write_and_wait frame_id in
  modify (fun s => set_page frame_id (set_is_dirty false (page_ref frame_id s)) s).

(** [BufferPoolManager::FindFreeFrame]. *)
Definition FindFreeFrame : bpm (option frame_id_t) :=
  let! s := get in
  match free_list_ s with
  | frame_id :: rest =>
      let! _ := modify (set_free_list rest) in
      ret (Some frame_id)
  | [] =>
      let '(r, victim) := Evict (replacer_ s) in
      let! _ := modify (set_replacer r) in
      match victim with
      | Some evicted_frame_id =>
          let! _ := (if is_dirty_ (page_ref evicted_frame_id s)
                     then FlushPage_ref evicted_frame_id else ret tt) in
          let! _ := modify (fun s =>
            set_page_table (delete (page_id_ (page_ref evicted_frame_id s)) (page_table_ s)) s) in
          ret (Some evicted_frame_id)
      | None => ret None
      end
  end.

(** [BufferPoolManager::AllocatePage]: [next_page_id_++] on the atomic
    32-bit counter. *)
Definition AllocatePage : bpm page_id_t := fun s =>
  Returns (next_page_id_ s) (set_next_page_id (to_page_id_t (next_page_id_ s + 1)) s).

(** Modelled from the spec: [DeallocatePage] (buffer_pool_manager.h)
    deallocates the page id; the model records the id. *)
Definition DeallocatePage (page_id : page_id_t) : bpm unit :=
  modify (fun s => set_deallocated (deallocated_ s ++ [page_id]) s).

(** [BufferPoolManager::NewPage]: the result is the new page id and the
    frame of the returned [Page *], or [None] for [nullptr]. *)
Definition NewPage : bpm (option (page_id_t * frame_id_t)) :=
  let! frame_id := FindFreeFrame in
  match frame_id with
  | None => ret None
  | Some frame_id =>
      let! page_id := AllocatePage in
      let! _ := modify (fun s => set_page_table (emplace page_id frame_id (page_table_ s)) s) in
      let! _ := replacer_call (RecordAccess frame_id) in
      let! _ := replacer_call (SetEvictable frame_id false) in
      let! _ := modify (fun s =>
        let page := page_ref frame_id s in
        set_page frame_id
          (set_pin_count (pin_count_ page + 1) (set_is_dirty false (set_page_id page_id page))) s) in
      ret (Some (page_id, frame_id))
  end.

(** The hit path of [FetchPage], the same under the shared and under the
    exclusive latch. *)
Definition fetch_resident (frame_id : frame_id_t) : bpm (option frame_id_t) :=
  let! _ := replacer_call (RecordAccess frame_id) in
  let! _ := replacer_call (SetEvictable frame_id false) in
  let! _ := modify (fun s =>
    let page := page_ref frame_id s in
    set_page frame_id (set_pin_count (pin_count_ page + 1) page) s) in
  ret (Some frame_id).

(** [BufferPoolManager::FetchPage]: the frame of the returned [Page *]. *)
Definition FetchPage (page_id : page_id_t) : bpm (option frame_id_t) :=
  let! s := get in
  match page_table_ s !! page_id with
  | None =>
      let! s := get in
      match page_table_ s !! page_id with
      | None =>
          let! opt_frame_id := FindFreeFrame in
          match opt_frame_id with
          | None => ret None
          | Some frame_id =>
              let! _ := modify (fun s =>
                set_page_table (emplace page_id frame_id (page_table_ s)) s) in
              let! _ := read_and_wait page_id frame_id in
              let! _ := replacer_call (RecordAccess frame_id) in
              let! _ := replacer_call (SetEvictable frame_id false) in
              let! _ := modify (fun s =>
                let page := page_ref frame_id s in
                set_page frame_id
                  (set_is_dirty false (set_page_id page_id
                     (set_pin_count (pin_count_ page + 1) page))) s) in
              ret (Some frame_id)
          end
      | Some frame_id => fetch_resident frame_id
      end
  | Some frame_id => fetch_resident frame_id
  end.

(** [BufferPoolManager::UnpinPage]. *)
Definition UnpinPage (page_id : page_id_t) (is_dirty : bool) : bpm bool :=
  let! s := get in
  match page_table_ s !! page_id with
  | None => ret false
  | Some frame_id =>
      let page := page_ref frame_id s in
      if pin_count_ page <=? 0 then ret false
      else
        let! _ := modify (set_page frame_id
          (set_pin_count (pin_count_ page - 1)
             (set_is_dirty (is_dirty_ page || is_dirty) page))) in
        let! _ := (if pin_count_ page - 1 =? 0
                   then replacer_call (SetEvictable frame_id true) else ret tt) in
        ret true
  end.

(** [BufferPoolManager::FlushPage(page_id_t)]. *)
Definition FlushPage (page_id : page_id_t) : bpm bool :=
  let! s := get in
  match page_table_ s !! page_id with
  | None => ret false
  | Some frame_id =>
      let! _ := FlushPage_ref frame_id in
      ret true
  end.

(** The writes of the slots [l], as [FlushAllPages] schedules them. *)
Definition writes_of (l : list Z) (s : BufferPoolManager) : list (page_id_t * page_data) :=
  (fun i => (page_id_ (page_ref i s), data_ (page_ref i s))) <$> l.

(** [BufferPoolManager::FlushAllPages]: the loop that schedules a write
    for every slot, then the loop that, for every slot, has
    [BUSTUB_ASSERT(futures[i].get(), ...)] and clears the flag.  In a
    build that waits, every write has been served when the second loop
    ends, in an order that the scheduler chooses ([picks]); in a build
    that does not, the writes are left in flight. *)
Definition FlushAllPages (picks : list nat) : bpm unit :=
  let! s := get in
  let! _ := modify (fun s =>
    if assert_evaluates (build_ s)
    then set_disk (serve_writes (NUM_WORKERS (build_ s)) picks
                     (writes_of (seqZ 0 (pool_size_ s)) s) (disk_ s)) s
    else set_in_flight
           (in_flight_ s
              ++ ((fun i => (true, page_id_ (page_ref i s), i)) <$> seqZ 0 (pool_size_ s))) s) in
  for_each (seqZ 0 (pool_size_ s)) (fun i =>
    modify (fun s => set_page i (set_is_dirty false (page_ref i s)) s)).

(** [BufferPoolManager::DeletePage]. *)
Definition DeletePage (page_id : page_id_t) : bpm bool :=
  let! s := get in
  match page_table_ s !! page_id with
  | None => ret true
  | Some frame_id =>
      let page := page_ref frame_id s in
      if negb (page_id_ page =? page_id) then ret true
      else if 0 <? pin_count_ page then ret false
      else
        let! _ := modify (fun s => set_page_table (delete page_id (page_table_ s)) s) in
        let! _ := replacer_call (Remove frame_id) in
        let! _ := modify (fun s => set_free_list (free_list_ s ++ [frame_id]) s) in
        let! _ := modify (fun s => set_page frame_id (ResetMemory (page_ref frame_id s)) s) in
        let! _ := DeallocatePage page_id in
        ret true
  end.

End Pool.

(** * Specifications *)

(** ** Sequences of replacer calls *)

Module ReplacerSpec.
Import Replacer.

(** A call of one of the member functions that change the replacer. *)
Inductive call : Type :=
| CRecordAccess (frame_id : frame_id_t)
| CSetEvictable (frame_id : frame_id_t) (set_evictable : bool)
| CRemove (frame_id : frame_id_t)
| CEvict.

(** A call that throws has changed nothing: each [throw] of
    lru_k_replacer.cpp precedes every assignment of its function. *)
Definition keep (r : LRUKReplacer) (x : except LRUKReplacer) : LRUKReplacer :=
  match x with
  | Ok r' => r'
  | Throw _ => r
  end.

Definition apply_call (r : LRUKReplacer) (c : call) : LRUKReplacer :=
  match c with
  | CRecordAccess f => keep r (RecordAccess f r)
  | CSetEvictable f b => keep r (SetEvictable f b r)
  | CRemove f => keep r (Remove f r)
  | CEvict => (Evict r).1
  end.

Definition run (cs : list call) (r : LRUKReplacer) : LRUKReplacer :=
  foldl apply_call r cs.

(** The frames the replacer may evict. *)
Definition evictable_at (r : LRUKReplacer) (frame_id : frame_id_t) (n : LRUKNode) : Prop :=
  node_at r frame_id = Some n /\ is_evictable_ n = true.

(** The number of slots whose node exists and is evictable. *)
Definition evictable_count (r : LRUKReplacer) : Z :=
  Z.of_nat (length (filter (λ o : option LRUKNode, is_evictable_ <$> o = Some true)
                      (node_store_ r))).

(** The backward K-distance of a node: the time since its K-th most
    recent access, infinite when it has fewer than K recorded accesses. *)
Inductive distance : Type :=
| Finite (d : Z)
| PlusInfinity.

Definition kth_most_recent (k : Z) (h : list Z) : Z :=
  nth (length h - Z.to_nat k) h 0.

Definition backward_k_distance (now k : Z) (n : LRUKNode) : distance :=
  if size (history_ n) <? k then PlusInfinity
  else Finite (now - kth_most_recent k (history_ n)).

(** [n] is at least as good a victim as [m]: its distance is at least as
    large, and of two infinite distances it has the earlier first
    timestamp. *)
Definition victim_before (now k : Z) (n m : LRUKNode) : Prop :=
  match backward_k_distance now k n, backward_k_distance now k m with
  | PlusInfinity, PlusInfinity => front (history_ n) <= front (history_ m)
  | PlusInfinity, Finite _ => True
  | Finite _, PlusInfinity => False
  | Finite a, Finite b => b <= a
  end.

(** The lexicographic order of the heap on (K-th last, earliest). *)
Definition key (e : PQNode) : Z * Z := (kth_last_timestamp_ e, earliest_timestamp_ e).

Definition key_le (a b : Z * Z) : Prop := a.1 < b.1 \/ (a.1 = b.1 /\ a.2 <= b.2).

(** A heap entry [e] stands for the node [n] of frame [frame_id]: it is
    an entry of that slot, pushed since the node was created, and its
    snapshot is not later than the node's timestamps. *)
Definition covers (k : Z) (e : PQNode) (frame_id : frame_id_t) (n : LRUKNode) : Prop :=
  slot (frame_id_ e) = slot frame_id /\
  timestamp_added_ n <= earliest_timestamp_ e /\
  key_le (key e) (key (PQNode_new frame_id k n)).

(** The snapshot of an entry is the node's current one. *)
Definition matches (k : Z) (e : PQNode) (frame_id : frame_id_t) (n : LRUKNode) : Prop :=
  slot (frame_id_ e) = slot frame_id /\
  key e = key (PQNode_new frame_id k n).

(** What the timestamps of a node satisfy at time [now]. *)
Record node_ok (now : Z) (n : LRUKNode) : Prop := mkNodeOk {
  ok_nonempty : history_ n <> [];
  ok_sorted : StronglySorted Z.lt (history_ n);
  ok_bounds : Forall (λ t, timestamp_added_ n <= t < now) (history_ n);
  ok_added : 1 <= timestamp_added_ n
}.

(** The invariant of the replacer. *)
Record Inv (r : LRUKReplacer) : Prop := mkInv {
  inv_length : length (node_store_ r) = Z.to_nat (replacer_size_ r);
  inv_now : 1 <= current_timestamp_ r < SIZE_T_MODULUS;
  inv_nodes : forall f n, node_at r f = Some n -> node_ok (current_timestamp_ r) n;
  inv_window : forall f n, node_at r f = Some n -> 1 <= k_ r -> size (history_ n) <= k_ r;
  inv_entries : forall e, e ∈ pq_ r ->
    kth_last_timestamp_ e = TIMESTAMP_NEG_INF \/ kth_last_timestamp_ e = earliest_timestamp_ e;
  inv_present : forall f n, evictable_at r f n -> present_in_pq_ n = true;
  inv_covered : forall f n, node_at r f = Some n -> present_in_pq_ n = true ->
    exists e, e ∈ pq_ r /\ covers (k_ r) e f n;
  inv_disjoint : forall f g n m, node_at r f = Some n -> node_at r g = Some m ->
    slot f <> slot g -> forall t, t ∈ history_ n -> t ∉ history_ m
}.

(** Two states whose nodes differ in [present_in_pq_] at most. *)
Definition same_nodes (r r' : LRUKReplacer) : Prop :=
  k_ r = k_ r' /\ current_timestamp_ r = current_timestamp_ r' /\
  forall f, (set_present_in_pq true <$> node_at r f) = (set_present_in_pq true <$> node_at r' f).

(** What [Evict] leaves of a state [r]: the victim's node is dropped and
    the counter decremented; other nodes change in [present_in_pq_] at
    most. *)
Definition evicted (r r' : LRUKReplacer) (victim : option frame_id_t) : Prop :=
  k_ r' = k_ r /\ current_timestamp_ r' = current_timestamp_ r /\
  replacer_size_ r' = replacer_size_ r /\
  match victim with
  | None =>
      num_evictable_ r' = num_evictable_ r /\
      forall g, (set_present_in_pq true <$> node_at r' g) = (set_present_in_pq true <$> node_at r g)
  | Some f =>
      num_evictable_ r' = to_size_t (num_evictable_ r - 1) /\
      node_at r' f = None /\
      forall g, slot g <> slot f ->
        (set_present_in_pq true <$> node_at r' g) = (set_present_in_pq true <$> node_at r g)
  end.

(** The entries the loop of [Evict] would replace by a fresh one, and the
    measure that decreases with every iteration. *)
Definition refreshable (r : LRUKReplacer) (e : PQNode) : bool :=
  match node_at r (frame_id_ e) with
  | None => false
  | Some n => negb (earliest_timestamp_ e <? timestamp_added_ n) && outdated (k_ r) e n
  end.

Definition measure (r : LRUKReplacer) : nat :=
  (length (pq_ r) + length (filter (λ e, refreshable r e = true) (pq_ r)))%nat.

(** The history after one more access at time [now]. *)
Definition accessed (k now : Z) (h : list Z) : list Z :=
  (if size h =? k then tail h else h) ++ [now].

(** [r'] differs from [r] in the slot of [f] at most, and its new heap
    entries are entries of [f]. *)
Definition writes_slot (f : frame_id_t) (r r' : LRUKReplacer) : Prop :=
  replacer_size_ r' = replacer_size_ r /\
  length (node_store_ r') = length (node_store_ r) /\
  (forall g, slot g <> slot f -> node_at r' g = node_at r g) /\
  (forall e, e ∈ pq_ r' -> e ∈ pq_ r \/ frame_id_ e = f).

(** The slots that [evictable_count] counts. *)
Definition counted (o : option LRUKNode) : Prop := (is_evictable_ <$> o) = Some true.

(** A replacer whose counter agrees with its nodes. *)
Definition counter_ok (r : LRUKReplacer) : Prop :=
  replacer_size_ r < SIZE_T_MODULUS /\
  length (node_store_ r) = Z.to_nat (replacer_size_ r) /\
  Size r = evictable_count r.

(** The counter is the number of evictable nodes plus [c], modulo
    [2^64]. *)
Definition counter_off (c : Z) (r : LRUKReplacer) : Prop :=
  length (node_store_ r) = Z.to_nat (replacer_size_ r) /\
  Size r = to_size_t (evictable_count r + c).

(** The calls of [Remove] that return normally along a sequence of calls
    from state [r]. *)
Fixpoint successful_removes (cs : list call) (r : LRUKReplacer) : Z :=
  match cs with
  | [] => 0
  | c :: cs' =>
      (match c with
       | CRemove f => match Remove f r with Ok _ => 1 | Throw _ => 0 end
       | _ => 0
       end) + successful_removes cs' (apply_call r c)
  end.

(** The accesses recorded for every slot since its node was created, as
    the timestamps the calls of [RecordAccess] were given; [Remove] and
    [Evict] start the log of the slot afresh. *)
Definition log : Type := nat -> list Z.

Definition log_set (l : log) (i : nat) (v : list Z) : log :=
  fun j => if decide (j = i) then v else l j.

Definition log_call (r : LRUKReplacer) (c : call) (l : log) : log :=
  match c with
  | CRecordAccess f =>
      match RecordAccess f r with
      | Ok _ => log_set l (slot f) (l (slot f) ++ [current_timestamp_ r])
      | Throw _ => l
      end
  | CSetEvictable _ _ => l
  | CRemove f =>
      match Remove f r with
      | Ok _ => log_set l (slot f) []
      | Throw _ => l
      end
  | CEvict =>
      match (Evict r).2 with
      | Some f => log_set l (slot f) []
      | None => l
      end
  end.

Fixpoint access_log (cs : list call) (r : LRUKReplacer) (l : log) : log :=
  match cs with
  | [] => l
  | c :: cs' => access_log cs' (apply_call r c) (log_call r c l)
  end.

(** The last [k] elements of a list. *)
Definition last_k (k : Z) (l : list Z) : list Z :=
  drop (length l - Z.to_nat k) l.

(** A node and the log of its slot. *)
Definition log_ok (k : Z) (o : option LRUKNode) (l : list Z) : Prop :=
  match o with
  | Some n => l <> [] /\ history_ n = last_k k l
  | None => l = []
  end.

Definition log_inv (k : Z) (r : LRUKReplacer) (l : log) : Prop :=
  length (node_store_ r) = Z.to_nat (replacer_size_ r) /\ k_ r = k /\
  forall f, log_ok k (node_at r f) (l (slot f)).

End ReplacerSpec.

(** ** States of the buffer pool *)

Module PoolSpec.
Import Replacer ReplacerSpec Pool.

(** The frame ids of the pool. *)
Definition in_pool (s : BufferPoolManager) (f : frame_id_t) : Prop :=
  0 <= f < pool_size_ s.

(** The state after the write of the page of [frame_id] was scheduled
    and, in a build that waits, served. *)
Definition written (frame_id : frame_id_t) (s : BufferPoolManager) : BufferPoolManager :=
  let page := page_ref frame_id s in
  if assert_evaluates (build_ s)
  then set_disk (Scheduler.WritePage (page_id_ page) (data_ page) (disk_ s)) s
  else set_in_flight (in_flight_ s ++ [(true, page_id_ page, frame_id)]) s.

(** The state after the read of page [page_id] into frame [frame_id] was
    scheduled and, in a build that waits, served. *)
Definition read_in (page_id : page_id_t) (frame_id : frame_id_t) (s : BufferPoolManager)
  : BufferPoolManager :=
  let page := page_ref frame_id s in
  if assert_evaluates (build_ s)
  then
    let rd := Scheduler.ReadPage page_id (data_ page) (disk_ s) in
    set_page frame_id (set_data rd.1 page) (set_disk rd.2 s)
  else set_in_flight (in_flight_ s ++ [(false, page_id, frame_id)]) s.

(** What the requests of the pool change: the disk manager, as of the
    requests waited for, and the requests in flight; with the build that
    decides between the two. *)
Definition io (s : BufferPoolManager)
  : Build * Scheduler.DiskManager * list (bool * page_id_t * frame_id_t) :=
  (build_ s, disk_ s, in_flight_ s).

(** The state after [FlushPage(pages_[frame_id])]. *)
Definition flushed (frame_id : frame_id_t) (s : BufferPoolManager) : BufferPoolManager :=
  set_page frame_id (set_is_dirty false (page_ref frame_id s)) (written frame_id s).

(** The state after [FindFreeFrame] has taken the victim of the
    replacer, which is left in state [r]. *)
Definition evict_frame (victim : frame_id_t) (r : LRUKReplacer) (s : BufferPoolManager)
  : BufferPoolManager :=
  let s1 := set_replacer r s in
  let s2 := if is_dirty_ (page_ref victim s) then flushed victim s1 else s1 in
  set_page_table (delete (page_id_ (page_ref victim s)) (page_table_ s2)) s2.

(** The invariant of the pool.  Between [FindFreeFrame] and the end of
    its caller the reserved frame [limbo] is in neither the free list nor
    the replacer. *)
Record PoolInvBut (limbo : option frame_id_t) (s : BufferPoolManager) : Prop := mkPoolInv {
  pinv_size : 0 <= pool_size_ s < SIZE_T_MODULUS;
  pinv_pages : length (pages_ s) = Z.to_nat (pool_size_ s);
  pinv_replacer : Inv (replacer_ s);
  pinv_replacer_size : replacer_size_ (replacer_ s) = pool_size_ s;
  pinv_heap : forall e, e ∈ pq_ (replacer_ s) -> in_pool s (frame_id_ e);
  pinv_free : forall f, f ∈ free_list_ s ->
    in_pool s f /\ pin_count_ (page_ref f s) = 0;
  pinv_free_NoDup : NoDup (free_list_ s);
  pinv_table : forall p f, page_table_ s !! p = Some f ->
    in_pool s f /\ page_id_ (page_ref f s) = p /\ (f ∉ free_list_ s) /\
    is_Some (node_at (replacer_ s) f) /\ limbo <> Some f;
  pinv_pins : forall f, in_pool s f -> 0 <= pin_count_ (page_ref f s);
  pinv_evictable : forall f n, in_pool s f -> evictable_at (replacer_ s) f n ->
    pin_count_ (page_ref f s) = 0 /\ (f ∉ free_list_ s);
  pinv_unpinned : forall f, in_pool s f -> limbo <> Some f ->
    pin_count_ (page_ref f s) = 0 ->
    f ∈ free_list_ s \/ exists n, evictable_at (replacer_ s) f n;
  pinv_limbo : forall f, limbo = Some f ->
    in_pool s f /\ (f ∉ free_list_ s) /\ pin_count_ (page_ref f s) = 0
}.

Definition PoolInv (s : BufferPoolManager) : Prop := PoolInvBut None s.

(** Every frame is pinned. *)
Definition all_pinned (s : BufferPoolManager) : Prop :=
  forall f, in_pool s f -> 0 < pin_count_ (page_ref f s).

(** The nodes of [r] and [r'] agree, [present_in_pq_] apart, on every
    slot but that of [f]. *)
Definition same_nodes_but (f : option frame_id_t) (r r' : LRUKReplacer) : Prop :=
  forall g, f <> Some g ->
    (forall h, f = Some h -> slot g <> slot h) ->
    (set_present_in_pq true <$> node_at r' g) = (set_present_in_pq true <$> node_at r g).

(** The pages differ in payload and dirty flag at most. *)
Definition same_pins_but (f : option frame_id_t) (s s' : BufferPoolManager) : Prop :=
  forall g, f <> Some g ->
    pin_count_ (page_ref g s') = pin_count_ (page_ref g s) /\
    page_id_ (page_ref g s') = page_id_ (page_ref g s).

(** The two loops of [FlushAllPages]: the writes of every slot in [l],
    served in the order that [picks] gives or left in flight, and the
    flags cleared. *)
Definition all_written (picks : list nat) (l : list Z) (s : BufferPoolManager)
  : BufferPoolManager :=
  if assert_evaluates (build_ s)
  then set_disk (serve_writes (NUM_WORKERS (build_ s)) picks (writes_of l s) (disk_ s)) s
  else set_in_flight
         (in_flight_ s ++ ((fun i => (true, page_id_ (page_ref i s), i)) <$> l)) s.

Definition clear_all (l : list Z) (s : BufferPoolManager) : BufferPoolManager :=
  foldl (fun s i => set_page i (set_is_dirty false (page_ref i s)) s) s l.

(** A call of a public member function of the pool. *)
Inductive call : Type :=
| CNewPage
| CFetchPage (page_id : page_id_t)
| CUnpinPage (page_id : page_id_t) (is_dirty : bool)
| CFlushPage (page_id : page_id_t)
| CFlushAllPages (picks : list nat)
| CDeletePage (page_id : page_id_t).

Definition state_of {A} (o : outcome A) : BufferPoolManager :=
  match o with
  | Returns _ s => s
  | Raises _ s => s
  end.

Definition apply_call (s : BufferPoolManager) (c : call) : BufferPoolManager :=
  match c with
  | CNewPage => state_of (NewPage s)
  | CFetchPage p => state_of (FetchPage p s)
  | CUnpinPage p d => state_of (UnpinPage p d s)
  | CFlushPage p => state_of (FlushPage p s)
  | CFlushAllPages picks => state_of (FlushAllPages picks s)
  | CDeletePage p => state_of (DeletePage p s)
  end.

Definition run (cs : list call) (s : BufferPoolManager) : BufferPoolManager :=
  foldl apply_call s cs.

(** A member function returns: no exception of the replacer leaves it. *)
Definition returns {A} (o : outcome A) : Prop :=
  match o with
  | Returns _ _ => True
  | Raises _ _ => False
  end.

Definition call_returns (s : BufferPoolManager) (c : call) : Prop :=
  match c with
  | CNewPage => returns (NewPage s)
  | CFetchPage p => returns (FetchPage p s)
  | CUnpinPage p d => returns (UnpinPage p d s)
  | CFlushPage p => returns (FlushPage p s)
  | CFlushAllPages picks => returns (FlushAllPages picks s)
  | CDeletePage p => returns (DeletePage p s)
  end.

(** No frame of the pool carries the page id [p] but the frame that the
    page table gives for it. *)
Definition sole_frame (s : BufferPoolManager) (p : page_id_t) : Prop :=
  forall g, in_pool s g -> page_id_ (page_ref g s) = p -> page_table_ s !! p = Some g.

(** The payload [d] of page [p] is kept: the page is resident with this
    payload in a frame that is dirty or whose payload the disk holds, or
    it is not resident and the disk holds the payload. *)
Definition durable (s : BufferPoolManager) (p : page_id_t) (d : page_data) : Prop :=
  match page_table_ s !! p with
  | Some f =>
      data_ (page_ref f s) = d /\
      (is_dirty_ (page_ref f s) = true \/ Scheduler.contents_ (disk_ s) !! p = Some d)
  | None => Scheduler.contents_ (disk_ s) !! p = Some d
  end.

(** Page [p] is in frame [f] with at least [n] pins and payload [d]. *)
Definition pinned_in (s : BufferPoolManager) (p : page_id_t) (f : frame_id_t)
    (n : Z) (d : page_data) : Prop :=
  page_table_ s !! p = Some f /\ n <= pin_count_ (page_ref f s) /\
  data_ (page_ref f s) = d.




(** The counter of the replacer is the number of its evictable nodes plus
    the number of pages deallocated so far, modulo [2^64]. *)
Definition pool_counter (s : BufferPoolManager) : Prop :=
  counter_off (Z.of_nat (length (deallocated_ s))) (replacer_ s).

End PoolSpec.

(** ** Executions of the disk scheduler *)

Module SchedulerSpec.
Import Scheduler.

(** The queue of shard [i]. *)
Definition shard_queue (s : DiskScheduler) (i : nat) : list (option DiskRequest) :=
  default [] (shard_queue_ <$> workers_ s !! i).

(** Every request waiting in a shard is in the shard of its page. *)
Definition routed (NUM_WORKERS : Z) (s : DiskScheduler) : Prop :=
  forall i w r, workers_ s !! i = Some w -> Some r ∈ shard_queue_ w ->
    shard_of NUM_WORKERS (page_id_ r) = i.

(** The operations on page [p] among the requests [sub] submitted so far
    are, in this order: those the disk manager has seen (after what it
    had seen at the start, [d0]), those waiting in the shard of [p], those
    waiting in the ingress queue. *)
Definition in_order (NUM_WORKERS : Z) (d0 : DiskManager) (sub : list DiskRequest)
    (s : DiskScheduler) (p : page_id_t) : Prop :=
  seen_on_page p (disk_manager_ s)
    ++ on_page p (pending (shard_queue s (shard_of NUM_WORKERS p)))
    ++ on_page p (pending (request_queue_ s))
  = seen_on_page p d0 ++ on_page p sub.

Record flows (NUM_WORKERS : Z) (d0 : DiskManager) (sub : list DiskRequest)
    (s : DiskScheduler) : Prop := mkFlows {
  flows_shards : length (workers_ s) = Z.to_nat NUM_WORKERS;
  flows_routed : routed NUM_WORKERS s;
  flows_order : forall p, in_order NUM_WORKERS d0 sub s p
}.

(** *** Requests, from submission to the disk manager *)

(** The requests for page [p] in a sequence of requests. *)
Definition reqs_on (p : page_id_t) (rs : list DiskRequest) : list DiskRequest :=
  filter (λ r, page_id_ r = p) rs.

(** The request that action [a] hands to the disk manager in state [s]:
    the front of the queue of a running worker. *)
Definition served_by (a : action) (s : DiskScheduler) : list DiskRequest :=
  match a with
  | AWork i =>
      match workers_ s !! i with
      | Some w =>
          if worker_running_ w then
            match shard_queue_ w with
            | Some r :: _ => [r]
            | _ => []
            end
          else []
      | None => []
      end
  | _ => []
  end.

(** The requests handed to the disk manager along an execution, in the
    order of the calls. *)
Fixpoint served (NUM_WORKERS : Z) (tr : list action) (s : DiskScheduler)
  : list DiskRequest :=
  match tr with
  | [] => []
  | a :: tr' =>
      match step NUM_WORKERS a s with
      | Some s' => served_by a s ++ served NUM_WORKERS tr' s'
      | None => []
      end
  end.

(** The requests of a channel before its first sentinel, and whether it
    holds a sentinel. *)
Fixpoint before_stop (q : list (option DiskRequest)) : list DiskRequest :=
  match q with
  | Some r :: q' => r :: before_stop q'
  | _ => []
  end.

Fixpoint has_sentinel (q : list (option DiskRequest)) : bool :=
  match q with
  | [] => false
  | None :: _ => true
  | Some _ :: q' => has_sentinel q'
  end.

(** After a sentinel a channel holds sentinels only. *)
Fixpoint sentinels_last (q : list (option DiskRequest)) : Prop :=
  match q with
  | [] => True
  | Some _ :: q' => sentinels_last q'
  | None :: q' => pending q' = []
  end.

(** The requests that the dispatcher will still take from the ingress
    queue: none once it has left its loop, and none behind a sentinel. *)
Definition dispatchable (s : DiskScheduler) : list DiskRequest :=
  if background_running_ s then before_stop (request_queue_ s) else [].

(** The destructor has put its sentinel into the ingress queue. *)
Definition stopping (s : DiskScheduler) : bool :=
  negb (background_running_ s) || has_sentinel (request_queue_ s).

(** The requests submitted before the destructor's sentinel. *)
Fixpoint accepted (tr : list action) : list DiskRequest :=
  match tr with
  | [] => []
  | ASchedule r :: tr' => r :: accepted tr'
  | AStopDispatcher :: _ => []
  | _ :: tr' => accepted tr'
  end.

(** The requests that a step adds to the accepted ones. *)
Definition acc_step (a : action) (s : DiskScheduler) : list DiskRequest :=
  if stopping s then [] else submitted [a].

(** The payload of the last write in [rs], [init] if there is none. *)
Definition last_write (rs : list DiskRequest) (init : option (list Byte.byte))
  : option (list Byte.byte) :=
  foldl (λ o r, if is_write_ r then Some (data_ r) else o) init rs.

(** Every accepted request is in exactly one place. *)
Record drains (NUM_WORKERS : Z) (d0 : DiskManager) (acc srv : list DiskRequest)
    (s : DiskScheduler) : Prop := mkDrains {
  d_flows : exists sub, flows NUM_WORKERS d0 sub s;
  d_pages : forall p,
    reqs_on p srv ++ reqs_on p (pending (shard_queue s (shard_of NUM_WORKERS p)))
      ++ reqs_on p (dispatchable s)
    = reqs_on p acc;
  d_disk : disk_manager_ s = foldl (λ d r, serve r d) d0 srv;
  d_promises : forall c,
    promises_ s !! c = if decide (c ∈ callback_ <$> srv) then Some true else None;
  d_running : background_running_ s = true ->
    forall i w, workers_ s !! i = Some w ->
      worker_running_ w = true /\ has_sentinel (shard_queue_ w) = false;
  d_stopped : forall i w, workers_ s !! i = Some w ->
    (worker_running_ w = false -> pending (shard_queue_ w) = []) /\
    sentinels_last (shard_queue_ w)
}.

End SchedulerSpec.

(** * Proofs *)

(** ** The replacer *)

Module ReplacerFacts.
Import Replacer ReplacerSpec.

(** *** The priority queue *)

Lemma PQNode_lt_false a b : PQNode_lt a b = false <-> key_le (key a) (key b).
Proof.
  unfold PQNode_lt, tie_gt, key_le, key; simpl.
  rewrite orb_false_iff, andb_false_iff, Z.ltb_ge, Z.eqb_neq, Z.ltb_ge. lia.
Qed.

Lemma PQNode_lt_true a b : PQNode_lt a b = true <-> ~ key_le (key a) (key b).
Proof. rewrite <- PQNode_lt_false. destruct (PQNode_lt a b); split; congruence. Qed.

Lemma key_le_refl a : key_le a a.
Proof. unfold key_le. lia. Qed.

Lemma key_le_trans a b c : key_le a b -> key_le b c -> key_le a c.
Proof. unfold key_le. lia. Qed.

Lemma key_le_total a b : key_le a b \/ key_le b a.
Proof. unfold key_le. lia. Qed.

Lemma pq_top_nil q : pq_top q = None <-> q = [].
Proof.
  destruct q as [|e q]; simpl; [done|].
  split; [|done]. destruct (pq_top q) as [m|]; [|done].
  by destruct (PQNode_lt m e).
Qed.

Lemma pq_top_pop q m : pq_top q = Some m -> q ≡ₚ m :: pq_pop q.
Proof.
  revert m. induction q as [|e q IH]; intros m; simpl; [done|].
  destruct (pq_top q) as [m'|] eqn:Hq.
  - destruct (PQNode_lt m' e); intros [= <-]; [done|].
    rewrite (IH m') at 1 by done. apply perm_swap.
  - apply pq_top_nil in Hq as ->. by intros [= <-].
Qed.

Lemma pq_top_least q m e : pq_top q = Some m -> e ∈ q -> key_le (key m) (key e).
Proof.
  revert m. induction q as [|x q IH]; intros m; simpl; [done|].
  intros Hm He. destruct (pq_top q) as [m'|] eqn:Hq.
  - destruct (PQNode_lt m' x) eqn:Hlt; injection Hm as <-.
    + apply PQNode_lt_true in Hlt.
      apply elem_of_cons in He as [->|He]; [apply key_le_refl|].
      specialize (IH m' eq_refl He).
      destruct (key_le_total (key x) (key m')) as [H|H]; [by eapply key_le_trans|done].
    + apply PQNode_lt_false in Hlt.
      apply elem_of_cons in He as [->|He]; [done|]. by apply IH.
  - apply pq_top_nil in Hq as ->. injection Hm as <-.
    apply elem_of_cons in He as [->|He]; [apply key_le_refl|]. by apply elem_of_nil in He.
Qed.

Lemma pq_pop_length q m : pq_top q = Some m -> length q = S (length (pq_pop q)).
Proof. intros H. by rewrite (pq_top_pop q m H) at 1. Qed.


(** *** Reading and writing slots *)

Lemma node_at_lt r f n : node_at r f = Some n -> (slot f < length (node_store_ r))%nat.
Proof.
  unfold node_at. intros H. apply lookup_lt_is_Some.
  destruct (node_store_ r !! slot f); [done|discriminate].
Qed.

Lemma node_at_set_node f o r g :
  (slot f < length (node_store_ r))%nat ->
  node_at (set_node f o r) g = if decide (slot g = slot f) then o else node_at r g.
Proof.
  intros Hlt. unfold node_at, set_node; simpl. case_decide as Hfg.
  - rewrite Hfg, list_lookup_insert_eq by done. done.
  - by rewrite list_lookup_insert_ne.
Qed.

Lemma node_at_set_node_ne f o r g :
  slot g <> slot f -> node_at (set_node f o r) g = node_at r g.
Proof. intros Hfg. unfold node_at, set_node; simpl. by rewrite list_lookup_insert_ne. Qed.

Lemma node_at_slot r f g : slot f = slot g -> node_at r f = node_at r g.
Proof. unfold node_at. by intros ->. Qed.

Lemma slot_in_range r f :
  length (node_store_ r) = Z.to_nat (replacer_size_ r) ->
  (replacer_size_ r <=? to_size_t f) = false ->
  (slot f < length (node_store_ r))%nat.
Proof.
  intros Hlen Hf. apply Z.leb_gt in Hf. rewrite Hlen. unfold slot.
  assert (0 <= to_size_t f) by (apply Z.mod_pos_bound; done). lia.
Qed.

(** *** Termination of the loop of [Evict] *)


Lemma outdated_fresh f k n : outdated k (PQNode_new f k n) n = false.
Proof.
  unfold outdated, PQNode_new; simpl.
  destruct (size (history_ n) =? k); rewrite ?Z.eqb_refl; done.
Qed.

Lemma refreshable_ext r r' :
  k_ r = k_ r' ->
  (forall f, (set_present_in_pq true <$> node_at r f) = (set_present_in_pq true <$> node_at r' f)) ->
  forall e, refreshable r e = refreshable r' e.
Proof.
  intros Hk H e. unfold refreshable. specialize (H (frame_id_ e)). rewrite Hk.
  destruct (node_at r (frame_id_ e)) as [n|], (node_at r' (frame_id_ e)) as [n'|];
    simpl in H; try done.
  injection H as Hh Ht He. unfold outdated. by rewrite Hh, Ht.
Qed.

Lemma filter_length_le {A} (P : A -> Prop) `{!forall x, Decision (P x)} (l : list A) :
  (length (filter P l) <= length l)%nat.
Proof. apply length_filter. Qed.

Lemma measure_pop r top :
  pq_top (pq_ r) = Some top ->
  (measure (set_pq (pq_pop (pq_ r)) r) +
     (if refreshable r top then 2 else 1) = measure r)%nat.
Proof.
  intros Htop. unfold measure; simpl.
  rewrite (list_filter_iff _ (λ e, refreshable r e = true) (pq_pop (pq_ r))) by done.
  pose proof (pq_pop_length _ _ Htop) as Hlen.
  assert (Hfil : length (filter (λ e, refreshable r e = true) (pq_ r))
               = length (filter (λ e, refreshable r e = true) (top :: pq_pop (pq_ r))))
    by (by rewrite <- (pq_top_pop _ _ Htop)).
  rewrite filter_cons in Hfil.
  destruct (refreshable r top); case_decide; try done; simpl in Hfil; lia.
Qed.

Lemma Evict_body_measure r top r' :
  pq_top (pq_ r) = Some top ->
  Evict_body top (set_pq (pq_pop (pq_ r)) r) = Continue r' ->
  (measure r' < measure r)%nat.
Proof.
  intros Htop. pose proof (measure_pop r top Htop) as Hm.
  set (r0 := set_pq (pq_pop (pq_ r)) r) in *.
  unfold Evict_body. unfold refreshable in Hm.
  change (node_at r0 (frame_id_ top)) with (node_at r (frame_id_ top)).
  change (k_ r0) with (k_ r).
  destruct (node_at r (frame_id_ top)) as [n|] eqn:Hn.
  2:{ intros [= <-]. lia. }
  destruct (earliest_timestamp_ top <? timestamp_added_ n); simpl in Hm.
  { intros [= <-]. lia. }
  destruct (outdated (k_ r) top n) eqn:Hout.
  - intros [= <-]. unfold measure, pq_emplace in *; simpl in *.
    rewrite filter_cons.
    assert (Hnew : refreshable r0 (PQNode_new (frame_id_ top) (k_ r) n) = false).
    { unfold refreshable; simpl.
      change (node_at r0 (frame_id_ top)) with (node_at r (frame_id_ top)).
      rewrite Hn. change (k_ r0) with (k_ r). by rewrite outdated_fresh, andb_false_r. }
    assert (Hf : forall e,
      refreshable (set_pq (pq_emplace (PQNode_new (frame_id_ top) (k_ r) n) (pq_ r0)) r0) e
      = refreshable r0 e) by done.
    rewrite Hf, Hnew. case_decide; [done|].
    rewrite (list_filter_iff _ (λ e, refreshable r0 e = true) (pq_pop (pq_ r)))
      by (intros; by rewrite Hf).
    unfold pq_emplace; simpl. lia.
  - destruct (negb (is_evictable_ n)); [|done].
    intros [= <-].
    enough (measure (set_node (frame_id_ top) (Some (set_present_in_pq false n)) r0)
            = measure r0) by lia.
    unfold measure; simpl. f_equal.
    apply (f_equal (@length _)), list_filter_iff. intros e.
    rewrite (refreshable_ext _ r0); [done|done|].
    intros f. rewrite node_at_set_node by (by apply node_at_lt in Hn).
    case_decide as Hf; [|done].
    rewrite (node_at_slot r0 f (frame_id_ top) Hf).
    change (node_at r0 (frame_id_ top)) with (node_at r (frame_id_ top)).
    by rewrite Hn.
Qed.

Lemma Evict_loop_enough fuel r :
  (measure r < fuel)%nat -> is_Some (Evict_loop fuel r).
Proof.
  revert r. induction fuel as [|fuel IH]; intros r Hm; [lia|]. simpl.
  destruct (pq_top (pq_ r)) as [top|] eqn:Htop; [|done].
  destruct (Evict_body top (set_pq (pq_pop (pq_ r)) r)) as [r'|r' f] eqn:Hb; [|done].
  apply IH. pose proof (Evict_body_measure r top r' Htop Hb). lia.
Qed.

(** The fuel of [Evict] never runs out. *)
Lemma Evict_loop_total r : Evict_loop (Evict_fuel r) r = Some (Evict r).
Proof.
  unfold Evict. destruct (Evict_loop_enough (Evict_fuel r) r) as [x ->]; [|done].
  unfold Evict_fuel, measure.
  pose proof (filter_length_le (λ e, refreshable r e = true) (pq_ r)). lia.
Qed.

Lemma Evict_loop_more fuel fuel' r x :
  Evict_loop fuel r = Some x -> (fuel <= fuel')%nat -> Evict_loop fuel' r = Some x.
Proof.
  revert fuel' r. induction fuel as [|fuel IH]; intros fuel' r; [done|].
  destruct fuel' as [|fuel']; [lia|]. simpl.
  destruct (pq_top (pq_ r)) as [top|]; [|done].
  destruct (Evict_body top (set_pq (pq_pop (pq_ r)) r)) as [r'|r' f]; [|done].
  intros H Hle. apply IH; [done|lia].
Qed.

(** *** Disjoint histories *)

Lemma elem_of_accessed k now h t : t ∈ accessed k now h -> t ∈ h \/ t = now.
Proof.
  unfold accessed. intros [Ht|Ht]%elem_of_app.
  - left. destruct (_ =? _); [|done]. destruct h; [done|]. by right.
  - right. by apply list_elem_of_singleton in Ht.
Qed.

Lemma node_ok_lt now n t : node_ok now n -> t ∈ history_ n -> t < now.
Proof.
  intros [_ _ Hb _] Ht. rewrite Forall_forall in Hb. apply Hb in Ht. lia.
Qed.

(** Writing one slot keeps the histories of different slots disjoint,
    when the new history is made of old timestamps of that slot and of
    the current time. *)
Lemma disjoint_update r f (o : option LRUKNode) (lookup' : Z -> option LRUKNode) :
  (forall g, lookup' g = if decide (slot g = slot f) then o else node_at r g) ->
  Inv r ->
  (forall n' t, o = Some n' -> t ∈ history_ n' ->
     (exists n, node_at r f = Some n /\ t ∈ history_ n) \/ t = current_timestamp_ r) ->
  forall f' g' n m, lookup' f' = Some n -> lookup' g' = Some m ->
    slot f' <> slot g' -> forall t, t ∈ history_ n -> t ∉ history_ m.
Proof.
  intros Hat HI Ho f' g' n m. rewrite !Hat.
  destruct (decide (slot f' = slot f)) as [Hf|Hf], (decide (slot g' = slot f)) as [Hg|Hg].
  - congruence.
  - intros -> Hm _ t Ht Htm. destruct (Ho n t eq_refl Ht) as [(n0 & Hn0 & Ht0)| ->].
    + by apply (inv_disjoint r HI f g' n0 m Hn0 Hm ltac:(congruence) t).
    + pose proof (node_ok_lt _ _ _ (inv_nodes r HI _ _ Hm) Htm). lia.
  - intros Hn -> _ t Ht Htm. destruct (Ho m t eq_refl Htm) as [(n0 & Hn0 & Ht0)| ->].
    + by apply (inv_disjoint r HI f' f n n0 Hn Hn0 ltac:(congruence) t).
    + pose proof (node_ok_lt _ _ _ (inv_nodes r HI _ _ Hn) Ht). lia.
  - intros Hn Hm. by apply (inv_disjoint r HI).
Qed.

Ltac solve_history :=
  let Ht := fresh in
  intros ? ? [= <-] Ht; simpl in Ht;
  first [ by left; eauto
        | apply elem_of_accessed in Ht as [?|?]; [by left; eauto|by right]
        | apply list_elem_of_singleton in Ht; by right ].

(** *** One iteration of the loop of [Evict] keeps the invariant *)


Lemma key_PQNode_new f g k n : key (PQNode_new f k n) = key (PQNode_new g k n).
Proof. done. Qed.

Lemma node_ok_front now n : node_ok now n -> timestamp_added_ n <= front (history_ n) < now.
Proof.
  intros [Hne _ Hb _]. destruct (history_ n) as [|t h]; [done|].
  by apply Forall_cons in Hb as [Hb _].
Qed.

Lemma node_ok_present now b n : node_ok now n -> node_ok now (set_present_in_pq b n).
Proof. by intros []. Qed.

Lemma node_ok_evictable now b n : node_ok now n -> node_ok now (set_is_evictable b n).
Proof. by intros []. Qed.

Lemma covers_not_top r top e f n :
  covers (k_ r) e f n -> node_at r f = Some n ->
  match node_at r (frame_id_ top) with
  | None => True
  | Some n' => (earliest_timestamp_ top <? timestamp_added_ n') = true
  end ->
  e <> top.
Proof.
  intros (Hs & Ht & _) Hn Htop ->.
  rewrite (node_at_slot r _ f Hs), Hn in Htop. apply Z.ltb_lt in Htop. lia.
Qed.

Lemma in_pop q top e : pq_top q = Some top -> e ∈ q -> e <> top -> e ∈ pq_pop q.
Proof.
  intros Htop He Hne. rewrite (pq_top_pop _ _ Htop) in He.
  by apply elem_of_cons in He as [?|?].
Qed.

Lemma pop_in q top e : pq_top q = Some top -> e ∈ pq_pop q -> e ∈ q.
Proof. intros Htop He. rewrite (pq_top_pop _ _ Htop). by right. Qed.

Lemma top_in q top : pq_top q = Some top -> top ∈ q.
Proof. intros Htop. rewrite (pq_top_pop _ _ Htop). by left. Qed.

(** An entry that passes the tests of the loop carries the timestamps of
    the node. *)
Lemma not_outdated_key r top n :
  Inv r -> top ∈ pq_ r -> node_at r (frame_id_ top) = Some n ->
  outdated (k_ r) top n = false ->
  key top = key (PQNode_new (frame_id_ top) (k_ r) n).
Proof.
  intros HI Hin Hn Hout.
  pose proof (node_ok_front _ _ (inv_nodes r HI _ _ Hn)) as Hf.
  pose proof (ok_added _ _ (inv_nodes r HI _ _ Hn)) as Ha.
  pose proof (inv_entries r HI top Hin) as He.
  unfold outdated in Hout. unfold key, PQNode_new; simpl.
  unfold TIMESTAMP_NEG_INF in *.
  destruct (size (history_ n) =? k_ r).
  - apply negb_false_iff, Z.eqb_eq in Hout. f_equal; lia.
  - apply orb_false_iff in Hout as [H1 H2].
    apply negb_false_iff, Z.eqb_eq in H1, H2. by f_equal.
Qed.

Lemma Evict_body_discard r top :
  Inv r -> pq_top (pq_ r) = Some top ->
  match node_at r (frame_id_ top) with
  | None => True
  | Some n' => (earliest_timestamp_ top <? timestamp_added_ n') = true
  end ->
  Inv (set_pq (pq_pop (pq_ r)) r).
Proof.
  intros HI Htop Hdis. destruct HI as [H2 H3 H4 H5 H6 H7 H8 H9].
  split; try done.
  - intros e He. apply H6. by eapply pop_in.
  - intros f n Hn Hp. destruct (H8 f n Hn Hp) as (e & He & Hc).
    exists e. split; [|done]. simpl. eapply in_pop; [done..|].
    by eapply covers_not_top.
Qed.

Lemma Evict_body_refresh r top n :
  Inv r -> pq_top (pq_ r) = Some top ->
  node_at r (frame_id_ top) = Some n ->
  Inv (set_pq (pq_emplace (PQNode_new (frame_id_ top) (k_ r) n) (pq_pop (pq_ r)))
         (set_pq (pq_pop (pq_ r)) r)).
Proof.
  intros HI Htop Hn. pose proof HI as [H2 H3 H4 H5 H6 H7 H8 H9].
  split; try done.
  - intros e He. apply elem_of_cons in He as [->|He].
    + unfold PQNode_new; simpl. destruct (_ =? _); auto.
    + apply H6. by eapply pop_in.
  - intros f m Hm Hp. change (node_at r f = Some m) in Hm.
    destruct (H8 f m Hm Hp) as (e & He & Hc).
    destruct (decide (e = top)) as [->|Hne].
    + exists (PQNode_new (frame_id_ top) (k_ r) n). split; [by left|].
      destruct Hc as (Hs & _ & _).
      rewrite (node_at_slot r _ f Hs), Hm in Hn. injection Hn as ->.
      split; [done|]. split; [|apply key_le_refl].
      apply (node_ok_front _ _ (H4 _ _ Hm)).
    + exists e. split; [|done]. right. by eapply in_pop.
Qed.

Lemma Evict_body_absent r top n :
  Inv r -> pq_top (pq_ r) = Some top ->
  node_at r (frame_id_ top) = Some n ->
  is_evictable_ n = false ->
  Inv (set_node (frame_id_ top) (Some (set_present_in_pq false n))
         (set_pq (pq_pop (pq_ r)) r)).
Proof.
  intros HI Htop Hn Hev. pose proof HI as [H2 H3 H4 H5 H6 H7 H8 H9].
  pose proof (node_at_lt _ _ _ Hn) as Hlt.
  assert (Hat : forall f,
    node_at (set_node (frame_id_ top) (Some (set_present_in_pq false n))
               (set_pq (pq_pop (pq_ r)) r)) f
    = if decide (slot f = slot (frame_id_ top))
      then Some (set_present_in_pq false n) else node_at r f).
  { intros f. by rewrite node_at_set_node. }
  pose proof (disjoint_update _ _ _ _ Hat HI ltac:(solve_history)) as Hdj.
  split; simpl; try done.
  - by rewrite length_insert.
  - intros f m. rewrite Hat. case_decide; [|apply H4].
    intros [= <-]. apply node_ok_present. by eapply H4.
  - intros f m. rewrite Hat. case_decide; [|apply H5].
    intros [= <-]. simpl. by eapply H5.
  - intros e He. apply H6. by eapply pop_in.
  - intros f m [Hm Hem]. rewrite Hat in Hm. case_decide.
    + injection Hm as <-. simpl in Hem. congruence.
    + by apply (H7 f m).
  - intros f m. rewrite Hat. case_decide as Hs; [by intros [= <-]|].
    intros Hm Hp. destruct (H8 f m Hm Hp) as (e & He & Hc).
    exists e. split; [|done]. eapply in_pop; [done..|].
    intros ->. by destruct Hc as (? & _).
Qed.

Lemma Evict_body_victim r top n :
  Inv r -> pq_top (pq_ r) = Some top ->
  node_at r (frame_id_ top) = Some n ->
  Inv (set_num_evictable (to_size_t (num_evictable_ r - 1))
         (set_node (frame_id_ top) None (set_pq (pq_pop (pq_ r)) r))).
Proof.
  intros HI Htop Hn. pose proof HI as [H2 H3 H4 H5 H6 H7 H8 H9].
  pose proof (node_at_lt _ _ _ Hn) as Hlt.
  assert (Hat : forall f,
    node_at (set_num_evictable (to_size_t (num_evictable_ r - 1))
               (set_node (frame_id_ top) None (set_pq (pq_pop (pq_ r)) r))) f
    = if decide (slot f = slot (frame_id_ top)) then None else node_at r f).
  { intros f. change (node_at (set_num_evictable ?x ?y) f) with (node_at y f).
    by rewrite node_at_set_node. }
  pose proof (disjoint_update _ _ _ _ Hat HI ltac:(solve_history)) as Hdj.
  split; simpl; try done.
  - by rewrite length_insert.
  - intros f m. rewrite Hat. case_decide; [done|apply H4].
  - intros f m. rewrite Hat. case_decide; [done|apply H5].
  - intros e He. apply H6. by eapply pop_in.
  - intros f m [Hm Hem]. rewrite Hat in Hm. case_decide; [done|]. by apply (H7 f m).
  - intros f m. rewrite Hat. case_decide as Hs; [done|].
    intros Hm Hp. destruct (H8 f m Hm Hp) as (e & He & Hc).
    exists e. split; [|done]. eapply in_pop; [done..|].
    intros ->. by destruct Hc as (? & _).
Qed.

(** The entry on top is not later than any evictable node. *)
Lemma top_least_evictable r top g m :
  Inv r -> pq_top (pq_ r) = Some top -> evictable_at r g m ->
  key_le (key top) (key (PQNode_new g (k_ r) m)).
Proof.
  intros HI Htop Hg. pose proof (inv_present r HI g m Hg) as Hp.
  destruct Hg as [Hg _].
  destruct (inv_covered r HI g m Hg Hp) as (e & He & _ & _ & Hk).
  eapply key_le_trans; [|done]. by eapply pq_top_least.
Qed.

(** *** The loop of [Evict] *)

Lemma norm_evictable (o o' : option LRUKNode) n :
  (set_present_in_pq true <$> o) = (set_present_in_pq true <$> o') ->
  o = Some n ->
  exists n', o' = Some n' /\ history_ n' = history_ n /\
             is_evictable_ n' = is_evictable_ n /\
             timestamp_added_ n' = timestamp_added_ n.
Proof.
  intros H ->. destruct o' as [n'|]; [|done]. injection H as H1 H2 H3. by exists n'.
Qed.

Lemma Evict_loop_spec fuel r r' victim :
  Inv r -> Evict_loop fuel r = Some (r', victim) ->
  Inv r' /\ evicted r r' victim /\
  match victim with
  | Some f => exists n, evictable_at r f n /\
      forall g m, evictable_at r g m ->
        key_le (key (PQNode_new f (k_ r) n)) (key (PQNode_new g (k_ r) m))
  | None => forall g m, node_at r g = Some m -> is_evictable_ m = false
  end.
Proof.
  revert r. induction fuel as [|fuel IH]; intros r HI; [done|]. simpl.
  destruct (pq_top (pq_ r)) as [top|] eqn:Htop.
  2:{ intros [= <- <-]. split; [done|]. split; [done|].
      apply pq_top_nil in Htop. intros g m Hg.
      destruct (is_evictable_ m) eqn:Hev; [|done].
      pose proof (inv_present r HI g m (conj Hg Hev)) as Hp.
      destruct (inv_covered r HI g m Hg Hp) as (e & He & _).
      rewrite Htop in He. by apply elem_of_nil in He. }
  unfold Evict_body.
  change (node_at (set_pq (pq_pop (pq_ r)) r) (frame_id_ top))
    with (node_at r (frame_id_ top)).
  change (k_ (set_pq (pq_pop (pq_ r)) r)) with (k_ r).
  change (pq_ (set_pq (pq_pop (pq_ r)) r)) with (pq_pop (pq_ r)).
  change (num_evictable_ (set_pq (pq_pop (pq_ r)) r)) with (num_evictable_ r).
  assert (Hstep : forall r1,
    Inv r1 -> same_nodes r r1 -> replacer_size_ r1 = replacer_size_ r ->
    num_evictable_ r1 = num_evictable_ r ->
    Evict_loop fuel r1 = Some (r', victim) ->
    Inv r' /\ evicted r r' victim /\
    match victim with
    | Some f => exists n, evictable_at r f n /\
        forall g m, evictable_at r g m ->
          key_le (key (PQNode_new f (k_ r) n)) (key (PQNode_new g (k_ r) m))
    | None => forall g m, node_at r g = Some m -> is_evictable_ m = false
    end).
  { intros r1 HI1 (Hk & Hnow & Hsame) Hsz Hnum Hloop.
    destruct (IH r1 HI1 Hloop) as (HI' & (Ek & Enow & Esz & Ev) & Hv).
    split; [done|]. split.
    - split; [congruence|]. split; [congruence|]. split; [congruence|].
      destruct victim as [f|].
      + destruct Ev as (En & Ef & Eg). split; [congruence|]. split; [done|].
        intros g Hg. by rewrite (Eg g Hg), Hsame.
      + destruct Ev as (En & Eg). split; [congruence|].
        intros g. by rewrite Eg, Hsame.
    - destruct victim as [f|].
      + destruct Hv as (n1 & [Hn1 He1] & Hmin).
        destruct (norm_evictable _ _ n1 (eq_sym (Hsame f)) Hn1) as (n & Hn & Hh & He & _).
        exists n. split; [split; congruence|].
        intros g m [Hg Hm].
        destruct (norm_evictable _ _ m (Hsame g) Hg) as (m1 & Hg1 & Hh1 & Hm1 & _).
        assert (Hev1 : evictable_at r1 g m1) by (split; congruence).
        specialize (Hmin g m1 Hev1).
        rewrite <- Hk in Hmin.
        unfold key, PQNode_new in *; simpl in *. by rewrite Hh, <- Hh1.
      + intros g m Hg.
        destruct (norm_evictable _ _ m (Hsame g) Hg) as (m1 & Hg1 & _ & Hm1 & _).
        rewrite <- Hm1. by eapply Hv. }
  destruct (node_at r (frame_id_ top)) as [n|] eqn:Hn.
  2:{ apply Hstep; try done. apply (Evict_body_discard r top); [done..|]. by rewrite Hn. }
  destruct (earliest_timestamp_ top <? timestamp_added_ n) eqn:Hts.
  { apply Hstep; try done. apply (Evict_body_discard r top); [done..|]. by rewrite Hn. }
  destruct (outdated (k_ r) top n) eqn:Hout.
  { apply Hstep; try done. by apply (Evict_body_refresh r top n). }
  destruct (is_evictable_ n) eqn:Hev; simpl.
  - intros [= <- <-]. split; [by apply (Evict_body_victim r top n)|].
    pose proof (node_at_lt _ _ _ Hn) as Hlt. split.
    + split; [done|]. split; [done|]. split; [done|]. split; [done|].
      change (node_at (set_num_evictable ?x ?y)) with (node_at y).
      split; [by rewrite node_at_set_node, decide_True|].
      intros g Hg. by rewrite node_at_set_node_ne.
    + exists n. split; [done|]. intros g m Hg.
      rewrite <- (not_outdated_key r top n HI (top_in _ _ Htop) Hn Hout).
      by apply top_least_evictable.
  - apply Hstep; try done.
    + by apply (Evict_body_absent r top n).
    + split; [done|]. split; [done|]. intros f.
      rewrite node_at_set_node by (by apply node_at_lt in Hn).
      case_decide as Hs; [|done].
      rewrite (node_at_slot _ f _ Hs).
      change (node_at (set_pq ?x ?y)) with (node_at y). by rewrite Hn.
Qed.

Lemma Evict_spec r :
  Inv r ->
  Inv (Evict r).1 /\ evicted r (Evict r).1 (Evict r).2 /\
  match (Evict r).2 with
  | Some f => exists n, evictable_at r f n /\
      forall g m, evictable_at r g m ->
        key_le (key (PQNode_new f (k_ r) n)) (key (PQNode_new g (k_ r) m))
  | None => forall g m, node_at r g = Some m -> is_evictable_ m = false
  end.
Proof.
  intros HI. pose proof (Evict_loop_total r) as H.
  destruct (Evict r) as [r' v]. by eapply Evict_loop_spec.
Qed.

(** *** The member functions keep the invariant *)

Lemma node_ok_later now now' n : node_ok now n -> now <= now' -> node_ok now' n.
Proof.
  intros [H1 H2 H3 H4] Hle. split; try done.
  eapply Forall_impl; [done|]. simpl. lia.
Qed.

Lemma StronglySorted_snoc (l : list Z) c :
  StronglySorted Z.lt l -> Forall (λ t, t < c) l -> StronglySorted Z.lt (l ++ [c]).
Proof.
  induction 1 as [|x l Hl IH Hx]; intros Hc; simpl.
  - repeat constructor.
  - apply Forall_cons in Hc as [Hxc Hc]. constructor; [by apply IH|].
    apply Forall_app. split; [done|]. by constructor.
Qed.

Lemma StronglySorted_tail (l : list Z) : StronglySorted Z.lt l -> StronglySorted Z.lt (tail l).
Proof. destruct 1; [constructor|done]. Qed.

Lemma Forall_tail {A} (P : A -> Prop) (l : list A) : Forall P l -> Forall P (tail l).
Proof. destruct 1; [constructor|done]. Qed.


Lemma accessed_ok k now n :
  node_ok now n -> node_ok (now + 1) (set_history (accessed k now (history_ n)) n).
Proof.
  intros Hok. pose proof (node_ok_front _ _ Hok) as Hf. destruct Hok as [H1 H2 H3 H4].
  unfold accessed. split; simpl; try done.
  - by destruct (if size (history_ n) =? k then tail (history_ n) else history_ n).
  - apply StronglySorted_snoc.
    + destruct (_ =? _); [by apply StronglySorted_tail|done].
    + assert (Forall (λ t, t < now) (history_ n)) as Hlt
        by (eapply Forall_impl; [done|]; simpl; lia).
      destruct (_ =? _); [by apply Forall_tail|done].
  - apply Forall_app. split.
    + assert (Forall (λ t, timestamp_added_ n <= t < now + 1) (history_ n)) as Hlt
        by (eapply Forall_impl; [done|]; simpl; lia).
      destruct (_ =? _); [by apply Forall_tail|done].
    + constructor; [lia|constructor].
Qed.

Lemma accessed_window k now h :
  h <> [] -> (1 <= k -> size h <= k) -> 1 <= k -> size (accessed k now h) <= k.
Proof.
  intros Hne Hw Hk. specialize (Hw Hk). unfold accessed, size in *.
  rewrite length_app; simpl. destruct (Z.eqb_spec (Z.of_nat (length h)) k).
  - destruct h; [done|]; simpl in *. lia.
  - lia.
Qed.

Lemma accessed_key f k now n :
  node_ok now n ->
  key_le (key (PQNode_new f k n))
         (key (PQNode_new f k (set_history (accessed k now (history_ n)) n))).
Proof.
  intros Hok. pose proof (node_ok_front _ _ Hok) as Hf. destruct Hok as [H1 H2 H3 H4].
  unfold key, key_le, PQNode_new, accessed, TIMESTAMP_NEG_INF; simpl.
  destruct (history_ n) as [|t h] eqn:Hh; [done|].
  unfold front in Hf; simpl in Hf.
  destruct (Z.eqb_spec (size (t :: h)) k) as [Hk|Hk].
  - simpl tail.
    assert ((size (h ++ [now]) =? k) = true) as ->.
    { apply Z.eqb_eq. unfold size in *. rewrite length_app. simpl in *. lia. }
    assert (t < front (h ++ [now])); [|change (front (t :: h)) with t; lia].
    destruct h as [|t' h]; unfold front; simpl; [lia|].
    apply StronglySorted_inv in H2 as [_ H2]. by apply Forall_cons in H2 as [? _].
  - change (front ((t :: h) ++ [now])) with t. change (front (t :: h)) with t.
    destruct (size _ =? k); lia.
Qed.

Lemma covers_ext k e f g n m :
  covers k e f n -> slot f = slot g ->
  timestamp_added_ m = timestamp_added_ n ->
  key_le (key (PQNode_new f k n)) (key (PQNode_new g k m)) ->
  covers k e g m.
Proof.
  intros (H1 & H2 & H3) Hs Ht Hk. split; [congruence|]. split; [lia|].
  by eapply key_le_trans.
Qed.

Lemma fresh_entry f k n :
  kth_last_timestamp_ (PQNode_new f k n) = TIMESTAMP_NEG_INF \/
  kth_last_timestamp_ (PQNode_new f k n) = earliest_timestamp_ (PQNode_new f k n).
Proof. unfold PQNode_new; simpl. destruct (_ =? _); auto. Qed.

Lemma fresh_covers now f g k n :
  node_ok now n -> slot f = slot g -> covers k (PQNode_new f k n) g n.
Proof.
  intros Hok Hs. split; [done|]. split; [|apply key_le_refl].
  apply (node_ok_front _ _ Hok).
Qed.

Lemma to_size_t_small z : 0 <= z < SIZE_T_MODULUS -> to_size_t z = z.
Proof. apply Z.mod_small. Qed.

Lemma Inv_new num_frames k : Inv (LRUKReplacer_new num_frames k).
Proof.
  assert (Hnone : forall f, node_at (LRUKReplacer_new num_frames k) f = None).
  { intros f. unfold node_at; simpl.
    destruct (replicate _ _ !! _) as [o|] eqn:Ho; [|done].
    by apply lookup_replicate in Ho as [-> _]. }
  split; simpl.
  - by rewrite length_replicate.
  - unfold SIZE_T_MODULUS. lia.
  - intros f n. by rewrite Hnone.
  - intros f n. by rewrite Hnone.
  - intros e He. by apply elem_of_nil in He.
  - intros f n [Hn _]. by rewrite Hnone in Hn.
  - intros f n. by rewrite Hnone.
  - intros f g n m. by rewrite Hnone.
Qed.

Lemma RecordAccess_Inv f r r' :
  Inv r -> current_timestamp_ r + 1 < SIZE_T_MODULUS ->
  RecordAccess f r = Ok r' ->
  Inv r' /\ current_timestamp_ r' = current_timestamp_ r + 1.
Proof.
  intros HI Hnow. pose proof HI as [H2 H3 H4 H5 H6 H7 H8 H9].
  unfold RecordAccess. destruct (replacer_size_ r <=? to_size_t f) eqn:Hf; [done|].
  pose proof (slot_in_range r f H2 Hf) as Hlt.
  rewrite to_size_t_small by lia.
  destruct (node_at r f) as [n|] eqn:Hn; intros [= <-]; (split; [|done]).
  - set (n' := set_history _ n).
    assert (Hat : forall g,
      node_at (set_current_timestamp (current_timestamp_ r + 1) (set_node f (Some n') r)) g
      = if decide (slot g = slot f) then Some n' else node_at r g).
    { intros g. change (node_at (set_current_timestamp ?x ?y)) with (node_at y).
      by rewrite node_at_set_node. }
    pose proof (disjoint_update _ _ _ _ Hat HI ltac:(solve_history)) as Hdj.
    pose proof (accessed_ok (k_ r) _ n (H4 _ _ Hn)) as Hok'.
    split; simpl; try done.
    + by rewrite length_insert.
    + lia.
    + intros g m. rewrite Hat. case_decide.
      * by intros [= <-].
      * intros Hm. eapply node_ok_later; [by eapply H4|lia].
    + intros g m. rewrite Hat. case_decide; [|apply H5].
      intros [= <-]. apply accessed_window; [apply (H4 _ _ Hn)|by eapply H5].
    + intros g m [Hm Hev]. rewrite Hat in Hm. case_decide; [|by apply (H7 g m)].
      injection Hm as <-. by apply (H7 f n).
    + intros g m. rewrite Hat. case_decide as Hs; [|apply H8].
      intros [= <-] Hp. destruct (H8 f n Hn Hp) as (e & He & Hc).
      exists e. split; [done|].
      eapply covers_ext; [done..|]. rewrite (key_PQNode_new g f).
      apply (accessed_key f (k_ r) (current_timestamp_ r) n), (H4 _ _ Hn).
  - set (n' := LRUKNode_new (current_timestamp_ r)).
    assert (Hok' : node_ok (current_timestamp_ r + 1) n').
    { split; simpl; [done|repeat constructor|repeat constructor; lia|lia]. }
    assert (Hat : forall g,
      node_at (set_current_timestamp (current_timestamp_ r + 1)
                 (set_pq (pq_emplace (PQNode_new f (k_ r) n') (pq_ r))
                    (set_node f (Some n') r))) g
      = if decide (slot g = slot f) then Some n' else node_at r g).
    { intros g. change (node_at (set_current_timestamp ?x (set_pq ?q ?y))) with (node_at y).
      by rewrite node_at_set_node. }
    pose proof (disjoint_update _ _ _ _ Hat HI ltac:(solve_history)) as Hdj.
    split; simpl; try done.
    + by rewrite length_insert.
    + lia.
    + intros g m. rewrite Hat. case_decide.
      * by intros [= <-].
      * intros Hm. eapply node_ok_later; [by eapply H4|lia].
    + intros g m. rewrite Hat. case_decide; [|apply H5].
      intros [= <-]. unfold size; simpl. lia.
    + intros e He. apply elem_of_cons in He as [->|He]; [apply fresh_entry|by apply H6].
    + intros g m [Hm Hev]. rewrite Hat in Hm. case_decide; [|by apply (H7 g m)].
      by injection Hm as <-.
    + intros g m. rewrite Hat. case_decide as Hs.
      * intros [= <-] _. exists (PQNode_new f (k_ r) n'). split; [by left|].
        by eapply fresh_covers.
      * intros Hm Hp. destruct (H8 g m Hm Hp) as (e & He & Hc).
        exists e. split; [by right|done].
Qed.

Lemma SetEvictable_Inv f b r r' : Inv r -> SetEvictable f b r = Ok r' -> Inv r'.
Proof.
  intros HI. pose proof HI as [H2 H3 H4 H5 H6 H7 H8 H9].
  unfold SetEvictable. destruct (replacer_size_ r <=? to_size_t f) eqn:Hf; [done|].
  pose proof (slot_in_range r f H2 Hf) as Hlt.
  destruct (node_at r f) as [n|] eqn:Hn; [|done].
  destruct (Bool.eqb (is_evictable_ n) b) eqn:Heq; [by intros [= <-]|].
  destruct b; simpl.
  - destruct (present_in_pq_ n) eqn:Hp; intros [= <-].
    + assert (Hat : forall g,
        node_at (set_num_evictable (to_size_t (num_evictable_ r + 1))
                   (set_node f (Some (set_is_evictable true n)) r)) g
        = if decide (slot g = slot f) then Some (set_is_evictable true n) else node_at r g).
      { intros g. change (node_at (set_num_evictable ?x ?y)) with (node_at y).
        by rewrite node_at_set_node. }
    pose proof (disjoint_update _ _ _ _ Hat HI ltac:(solve_history)) as Hdj.
      split; simpl; try done.
      * by rewrite length_insert.
      * intros g m. rewrite Hat. case_decide; [|apply H4].
        intros [= <-]. apply node_ok_evictable. by eapply H4.
      * intros g m. rewrite Hat. case_decide; [|apply H5].
        intros [= <-]. exact (H5 f n Hn).
      * intros g m [Hm Hev]. rewrite Hat in Hm. case_decide; [|by apply (H7 g m)].
        by injection Hm as <-.
      * intros g m. rewrite Hat. case_decide as Hs; [|apply H8].
        intros [= <-] _. destruct (H8 f n Hn Hp) as (e & He & Hc).
        exists e. split; [done|]. eapply covers_ext; [done..|]. apply key_le_refl.
    + set (n' := set_present_in_pq true (set_is_evictable true n)).
      assert (Hat : forall g,
        node_at (set_num_evictable (to_size_t (num_evictable_ r + 1))
                   (set_node f (Some n')
                      (set_pq (pq_emplace (PQNode_new f (k_ r) (set_is_evictable true n))
                                 (pq_ r)) r))) g
        = if decide (slot g = slot f) then Some n' else node_at r g).
      { intros g. change (node_at (set_num_evictable ?x (set_node ?a ?c (set_pq ?q ?y))))
          with (node_at (set_node a c y)).
        by rewrite node_at_set_node. }
      pose proof (disjoint_update _ _ _ _ Hat HI ltac:(solve_history)) as Hdj.
      split; simpl; try done.
      * by rewrite length_insert.
      * intros g m. rewrite Hat. case_decide; [|apply H4].
        intros [= <-]. apply node_ok_present, node_ok_evictable. by eapply H4.
      * intros g m. rewrite Hat. case_decide; [|apply H5].
        intros [= <-]. exact (H5 f n Hn).
      * intros e He. apply elem_of_cons in He as [->|He]; [apply fresh_entry|by apply H6].
      * intros g m [Hm Hev]. rewrite Hat in Hm. case_decide; [|by apply (H7 g m)].
        by injection Hm as <-.
      * intros g m. rewrite Hat. case_decide as Hs.
        -- intros [= <-] _. exists (PQNode_new f (k_ r) (set_is_evictable true n)).
           split; [by left|]. split; [simpl; congruence|].
           split; [apply (node_ok_front _ _ (H4 _ _ Hn))|apply key_le_refl].
        -- intros Hm Hp'. destruct (H8 g m Hm Hp') as (e & He & Hc).
           exists e. split; [by right|done].
  - intros [= <-].
    assert (Hat : forall g,
      node_at (set_num_evictable (to_size_t (num_evictable_ r - 1))
                 (set_node f (Some (set_is_evictable false n)) r)) g
      = if decide (slot g = slot f) then Some (set_is_evictable false n) else node_at r g).
    { intros g. change (node_at (set_num_evictable ?x ?y)) with (node_at y).
      by rewrite node_at_set_node. }
    pose proof (disjoint_update _ _ _ _ Hat HI ltac:(solve_history)) as Hdj.
    split; simpl; try done.
    + by rewrite length_insert.
    + intros g m. rewrite Hat. case_decide; [|apply H4].
      intros [= <-]. apply node_ok_evictable. by eapply H4.
    + intros g m. rewrite Hat. case_decide; [|apply H5].
      intros [= <-]. exact (H5 f n Hn).
    + intros g m [Hm Hev]. rewrite Hat in Hm. case_decide; [|by apply (H7 g m)].
      by injection Hm as <-.
    + intros g m. rewrite Hat. case_decide as Hs; [|apply H8].
      intros [= <-] Hp. destruct (H8 f n Hn Hp) as (e & He & Hc).
      exists e. split; [done|]. eapply covers_ext; [done..|]. apply key_le_refl.
Qed.

Lemma Remove_Inv f r r' : Inv r -> Remove f r = Ok r' -> Inv r'.
Proof.
  intros HI. pose proof HI as [H2 H3 H4 H5 H6 H7 H8 H9].
  unfold Remove. destruct (replacer_size_ r <=? to_size_t f) eqn:Hf; [done|].
  pose proof (slot_in_range r f H2 Hf) as Hlt.
  destruct (node_at r f) as [n|] eqn:Hn; [|done].
  destruct (negb (is_evictable_ n)); [done|]. intros [= <-].
  assert (Hat : forall g,
    node_at (set_node f None r) g = if decide (slot g = slot f) then None else node_at r g).
  { intros g. by rewrite node_at_set_node. }
  pose proof (disjoint_update _ _ _ _ Hat HI ltac:(solve_history)) as Hdj.
  split; simpl; try done.
  - by rewrite length_insert.
  - intros g m. rewrite Hat. case_decide; [done|apply H4].
  - intros g m. rewrite Hat. case_decide; [done|apply H5].
  - intros g m [Hm Hev]. rewrite Hat in Hm. case_decide; [done|by apply (H7 g m)].
  - intros g m. rewrite Hat. case_decide as Hs; [done|apply H8].
Qed.

(** *** Sequences of calls *)

Lemma apply_call_Inv r c :
  Inv r -> current_timestamp_ r + 1 < SIZE_T_MODULUS ->
  Inv (apply_call r c) /\
  current_timestamp_ (apply_call r c) <= current_timestamp_ r + 1 /\
  k_ (apply_call r c) = k_ r.
Proof.
  intros HI Hnow. destruct c as [f|f b|f|]; simpl.
  - destruct (RecordAccess f r) as [r'|msg] eqn:Hc; simpl; [|split; [done|lia]].
    destruct (RecordAccess_Inv f r r' HI Hnow Hc) as [HI' Ht]. split; [done|].
    split; [lia|]. unfold RecordAccess in Hc.
    destruct (_ <=? _); [done|]. destruct (node_at r f); by injection Hc as <-.
  - destruct (SetEvictable f b r) as [r'|msg] eqn:Hc; simpl; [|split; [done|lia]].
    split; [by eapply SetEvictable_Inv|]. unfold SetEvictable in Hc.
    destruct (_ <=? _); [done|]. destruct (node_at r f) as [n|]; [|done].
    destruct (Bool.eqb _ _); [injection Hc as <-; lia|].
    destruct b; [destruct (present_in_pq_ _)|]; injection Hc as <-; simpl; lia.
  - destruct (Remove f r) as [r'|msg] eqn:Hc; simpl; [|split; [done|lia]].
    split; [by eapply Remove_Inv|]. unfold Remove in Hc.
    destruct (_ <=? _); [done|]. destruct (node_at r f) as [n|]; [|done].
    destruct (negb _); [done|]. injection Hc as <-. simpl. lia.
  - destruct (Evict_spec r HI) as (HI' & (Hk & Ht & _) & _). split; [done|].
    split; [lia|done].
Qed.

Lemma run_Inv cs r :
  Inv r -> current_timestamp_ r + Z.of_nat (length cs) < SIZE_T_MODULUS ->
  Inv (run cs r) /\ k_ (run cs r) = k_ r.
Proof.
  revert r. induction cs as [|c cs IH]; intros r HI Hlen; [done|].
  simpl in *. destruct (apply_call_Inv r c HI ltac:(lia)) as (HI' & Ht & Hk).
  destruct (IH (apply_call r c) HI' ltac:(lia)) as [? ?]. split; [done|congruence].
Qed.

Lemma run_new_Inv num_frames k cs :
  Z.of_nat (length cs) < SIZE_T_MODULUS - 1 ->
  Inv (run cs (LRUKReplacer_new num_frames k)) /\
  k_ (run cs (LRUKReplacer_new num_frames k)) = k.
Proof.
  intros Hlen. apply (run_Inv cs (LRUKReplacer_new num_frames k)).
  - apply Inv_new.
  - simpl. lia.
Qed.

(** *** The order of the heap is the order of the backward K-distances *)

Lemma kth_most_recent_front k h : h <> [] -> size h = k -> kth_most_recent k h = front h.
Proof.
  intros Hne <-. unfold kth_most_recent, size, front. rewrite Nat2Z.id, Nat.sub_diag.
  by destruct h.
Qed.

Lemma key_le_victim_before now k f g n m :
  node_ok now n -> node_ok now m ->
  size (history_ n) <= k -> size (history_ m) <= k ->
  key_le (key (PQNode_new f k n)) (key (PQNode_new g k m)) <-> victim_before now k n m.
Proof.
  intros Hn Hm Hsn Hsm.
  pose proof (node_ok_front _ _ Hn) as Hfn. pose proof (node_ok_front _ _ Hm) as Hfm.
  pose proof (ok_added _ _ Hn) as Han. pose proof (ok_added _ _ Hm) as Ham.
  unfold victim_before, backward_k_distance, key_le, key, PQNode_new, TIMESTAMP_NEG_INF; simpl.
  destruct (Z.eqb_spec (size (history_ n)) k) as [En|En],
           (Z.eqb_spec (size (history_ m)) k) as [Em|Em].
  - rewrite !(proj2 (Z.ltb_ge _ _)) by lia.
    rewrite !kth_most_recent_front by (done || apply Hn || apply Hm). lia.
  - rewrite (proj2 (Z.ltb_ge (size (history_ n)) k)), (proj2 (Z.ltb_lt (size (history_ m)) k))
      by lia. lia.
  - rewrite (proj2 (Z.ltb_lt (size (history_ n)) k)), (proj2 (Z.ltb_ge (size (history_ m)) k))
      by lia. lia.
  - rewrite !(proj2 (Z.ltb_lt _ _)) by lia. lia.
Qed.

Lemma Inv_fronts_differ r f g n m :
  Inv r -> node_at r f = Some n -> node_at r g = Some m -> slot f <> slot g ->
  front (history_ n) <> front (history_ m).
Proof.
  intros HI Hn Hm Hs Heq.
  pose proof (ok_nonempty _ _ (inv_nodes r HI _ _ Hn)) as Hnn.
  pose proof (ok_nonempty _ _ (inv_nodes r HI _ _ Hm)) as Hnm.
  apply (inv_disjoint r HI f g n m Hn Hm Hs (front (history_ n))).
  - destruct (history_ n); [done|]. by left.
  - rewrite Heq. destruct (history_ m); [done|]. by left.
Qed.

(** C1. After every sequence of calls on a new replacer (fewer than
    [2^64 - 1] of them, so that the 64-bit timestamp has not wrapped, and
    K at least 1), [Evict] returns, and what it returns is the evictable
    frame with the largest backward K-distance: its node is at least as
    good a victim as the node of every evictable frame, where a frame
    with fewer than K recorded accesses has distance +infinity and two
    such frames are ordered by their earliest timestamp, and no other
    evictable frame is as good; it returns [None] exactly when no frame is
    evictable. *)
Theorem Evict_returns_lruk_victim (num_frames k : Z) (cs : list call) :
  1 <= k -> Z.of_nat (length cs) < SIZE_T_MODULUS - 1 ->
  let r := run cs (LRUKReplacer_new num_frames k) in
  Evict_loop (Evict_fuel r) r = Some (Evict r) /\
  match (Evict r).2 with
  | Some f =>
      exists n, evictable_at r f n /\
        forall g m, evictable_at r g m ->
          victim_before (current_timestamp_ r) k n m /\
          (slot g <> slot f -> ~ victim_before (current_timestamp_ r) k m n)
  | None => forall g m, ~ evictable_at r g m
  end.
Proof.
  intros Hk Hlen r. split; [apply Evict_loop_total|].
  destruct (run_new_Inv num_frames k cs Hlen) as [HI Hkr]. fold r in HI, Hkr.
  destruct (Evict_spec r HI) as (_ & _ & Hv).
  destruct ((Evict r).2) as [f|].
  - destruct Hv as (n & Hn & Hmin). exists n. split; [done|].
    intros g m Hg. specialize (Hmin g m Hg). rewrite Hkr in Hmin.
    destruct Hn as [Hn Hne], Hg as [Hg Hme].
    pose proof (inv_nodes r HI _ _ Hn) as Hokn. pose proof (inv_nodes r HI _ _ Hg) as Hokm.
    pose proof (inv_window r HI _ _ Hn ltac:(lia)) as Hwn.
    pose proof (inv_window r HI _ _ Hg ltac:(lia)) as Hwm.
    rewrite Hkr in Hwn, Hwm.
    split; [by eapply key_le_victim_before|].
    intros Hs Hback.
    apply (key_le_victim_before _ k g f) in Hback; [|done..].
    apply (Inv_fronts_differ r f g n m HI Hn Hg); [congruence|].
    unfold key_le, key, PQNode_new in Hmin, Hback; simpl in *. lia.
  - intros g m [Hg Hev]. specialize (Hv g m Hg). congruence.
Qed.

(** C1, at the sequence of scenario 5 (K = 2, three frames, accesses
    1, 2, 3, 1, 2, all evictable). *)
Lemma Evict_returns_lruk_victim_witness :
  let cs := [CRecordAccess 0; CRecordAccess 1; CRecordAccess 2; CRecordAccess 0;
             CRecordAccess 1; CSetEvictable 0 true; CSetEvictable 1 true;
             CSetEvictable 2 true] in
  let r := run cs (LRUKReplacer_new 3 2) in
  (Evict r).2 = Some 2 /\
  exists n, evictable_at r 2 n /\
    forall g m, evictable_at r g m ->
      victim_before (current_timestamp_ r) 2 n m /\
      (slot g <> slot 2 -> ~ victim_before (current_timestamp_ r) 2 m n).
Proof.
  intros cs r.
  assert (H1 : 1 <= 2) by lia.
  assert (H2 : Z.of_nat (length cs) < SIZE_T_MODULUS - 1) by (vm_compute; reflexivity).
  pose proof (Evict_returns_lruk_victim 3 2 cs H1 H2) as [_ H].
  change ((Evict (run cs (LRUKReplacer_new 3 2))).2) with (Some 2) in H.
  split; [reflexivity|exact H].
Defined.

(** C9 (amended).  After every sequence of calls on a new replacer
    (fewer than [2^64 - 1] of them), every frame whose node exists and is
    evictable has a heap entry of its own: an entry of its slot, pushed
    since the node was created, whose snapshot is not later than the
    node's current timestamps (it may be outdated; [Evict] replaces such
    an entry by a fresh one when it meets it).  Consequently [Evict]
    returns [None] only when no frame is evictable. *)
Theorem evictable_frames_have_heap_entries (num_frames k : Z) (cs : list call) :
  Z.of_nat (length cs) < SIZE_T_MODULUS - 1 ->
  let r := run cs (LRUKReplacer_new num_frames k) in
  (forall f n, evictable_at r f n -> exists e, e ∈ pq_ r /\ covers k e f n) /\
  ((Evict r).2 = None -> forall g m, ~ evictable_at r g m).
Proof.
  intros Hlen r. destruct (run_new_Inv num_frames k cs Hlen) as [HI Hkr].
  fold r in HI, Hkr. split.
  - intros f n Hn. rewrite <- Hkr.
    apply (inv_covered r HI); [apply Hn|by apply (inv_present r HI f)].
  - intros Hnone g m [Hg Hev]. destruct (Evict_spec r HI) as (_ & _ & Hv).
    rewrite Hnone in Hv. specialize (Hv g m Hg). congruence.
Qed.

Lemma evictable_frames_have_heap_entries_witness :
  let cs := [CRecordAccess 0; CSetEvictable 0 true; CRecordAccess 0] in
  let r := run cs (LRUKReplacer_new 1 2) in
  (forall f n, evictable_at r f n -> exists e, e ∈ pq_ r /\ covers 2 e f n) /\
  ((Evict r).2 = None -> forall g m, ~ evictable_at r g m).
Proof.
  intros cs r.
  assert (H : Z.of_nat (length cs) < SIZE_T_MODULUS - 1) by (vm_compute; reflexivity).
  exact (evictable_frames_have_heap_entries 1 2 cs H).
Defined.

(** C9 as stated fails: after a second access the only heap entry of an
    evictable frame still carries the timestamps of the first one. *)
Lemma heap_entry_is_stale :
  let r := run [CRecordAccess 0; CSetEvictable 0 true; CRecordAccess 0]
               (LRUKReplacer_new 1 2) in
  ~ (forall f n, evictable_at r f n -> exists e, e ∈ pq_ r /\ matches (k_ r) e f n).
Proof.
  intros r H.
  destruct (H 0 (mkNode [1; 2] 1 true true)) as (e & He & _ & Hk); [done|].
  change (pq_ r) with [mkPQ 0 0 1] in He.
  apply list_elem_of_singleton in He as ->. discriminate Hk.
Qed.

(** C2 fails on [Remove]: after an access, [SetEvictable(0, true)] and
    [Remove(0)] no node is left, and [Size] is still 1.  [Evict] then
    finds nothing although [Size] is positive. *)
Theorem Remove_leaves_size :
  let r := run [CRecordAccess 0; CSetEvictable 0 true; CRemove 0] (LRUKReplacer_new 1 2) in
  Remove 0 (run [CRecordAccess 0; CSetEvictable 0 true] (LRUKReplacer_new 1 2)) = Ok r /\
  Size r = 1 /\ evictable_count r = 0 /\ (Evict r).2 = None.
Proof. repeat split. Qed.




(** *** What one call writes *)


Lemma RecordAccess_ok f r :
  length (node_store_ r) = Z.to_nat (replacer_size_ r) ->
  to_size_t f < replacer_size_ r ->
  exists r', RecordAccess f r = Ok r' /\ writes_slot f r r' /\
    exists n', node_at r' f = Some n' /\
      is_evictable_ n' = default false (is_evictable_ <$> node_at r f).
Proof.
  intros Hlen Hf. unfold RecordAccess. apply Z.leb_gt in Hf. rewrite Hf.
  pose proof (slot_in_range r f Hlen Hf) as Hlt.
  eexists. split; [done|].
  destruct (node_at r f) as [n|] eqn:Hn; simpl.
  - split.
    + split; [done|]. split; [simpl; by rewrite length_insert|].
      split; [intros g Hg; change (node_at (set_current_timestamp ?x ?y)) with (node_at y);
              by rewrite node_at_set_node_ne|].
      intros e He. by left.
    + eexists. split; [change (node_at (set_current_timestamp ?x ?y)) with (node_at y);
      by rewrite node_at_set_node, decide_True|done].
  - split.
    + split; [done|]. split; [simpl; by rewrite length_insert|].
      split; [intros g Hg;
              change (node_at (set_current_timestamp ?x (set_pq ?q ?y))) with (node_at y);
              by rewrite node_at_set_node_ne|].
      intros e He. simpl in He. apply elem_of_cons in He as [->|He]; [by right|by left].
    + eexists. split; [change (node_at (set_current_timestamp ?x (set_pq ?q ?y))) with (node_at y);
      by rewrite node_at_set_node, decide_True|done].
Qed.

Lemma SetEvictable_ok f b r n :
  length (node_store_ r) = Z.to_nat (replacer_size_ r) ->
  to_size_t f < replacer_size_ r ->
  node_at r f = Some n ->
  exists r', SetEvictable f b r = Ok r' /\ writes_slot f r r' /\
    exists n', node_at r' f = Some n' /\ is_evictable_ n' = b.
Proof.
  intros Hlen Hf Hn. unfold SetEvictable. apply Z.leb_gt in Hf. rewrite Hf, Hn.
  pose proof (slot_in_range r f Hlen Hf) as Hlt.
  destruct (Bool.eqb (is_evictable_ n) b) eqn:Heq.
  { apply Bool.eqb_prop in Heq. exists r. split; [done|]. split; [|by exists n].
    split; [done|]. split; [done|]. split; [done|]. intros e He. by left. }
  destruct b; [destruct (present_in_pq_ (set_is_evictable true n)) eqn:Hp|];
    (eexists; split; [done|]); split.
  - split; [done|]. split; [simpl; by rewrite length_insert|].
    split; [intros g Hg; change (node_at (set_num_evictable ?x ?y)) with (node_at y);
            by rewrite node_at_set_node_ne|].
    intros e He. by left.
  - eexists. split; [change (node_at (set_num_evictable ?x ?y)) with (node_at y);
      by rewrite node_at_set_node, decide_True|done].
  - split; [done|]. split; [simpl; by rewrite length_insert|].
    split; [intros g Hg;
            change (node_at (set_num_evictable ?x (set_node ?a ?c (set_pq ?q ?y))))
              with (node_at (set_node a c y));
            by rewrite node_at_set_node_ne|].
    intros e He. simpl in He. apply elem_of_cons in He as [->|He]; [by right|by left].
  - eexists. split; [change (node_at (set_num_evictable ?x (set_node ?a ?c (set_pq ?q ?y))))
      with (node_at (set_node a c y));
      by rewrite node_at_set_node, decide_True|done].
  - split; [done|]. split; [simpl; by rewrite length_insert|].
    split; [intros g Hg; change (node_at (set_num_evictable ?x ?y)) with (node_at y);
            by rewrite node_at_set_node_ne|].
    intros e He. by left.
  - eexists. split; [change (node_at (set_num_evictable ?x ?y)) with (node_at y);
      by rewrite node_at_set_node, decide_True|done].
Qed.

Lemma Remove_ok f r n :
  length (node_store_ r) = Z.to_nat (replacer_size_ r) ->
  to_size_t f < replacer_size_ r ->
  node_at r f = Some n -> is_evictable_ n = true ->
  Remove f r = Ok (set_node f None r) /\ writes_slot f r (set_node f None r) /\
  node_at (set_node f None r) f = None.
Proof.
  intros Hlen Hf Hn Hev. unfold Remove. apply Z.leb_gt in Hf. rewrite Hf, Hn, Hev.
  pose proof (slot_in_range r f Hlen Hf) as Hlt.
  split; [done|]. split.
  - split; [done|]. split; [simpl; by rewrite length_insert|].
    split; [intros g Hg; by rewrite node_at_set_node_ne|].
    intros e He. by left.
  - by rewrite node_at_set_node, decide_True.
Qed.

(** The entries [Evict] leaves in the heap carry frame ids that were in
    it, and so does the victim. *)
Lemma Evict_loop_frames (P : frame_id_t -> Prop) fuel r r' victim :
  (forall e, e ∈ pq_ r -> P (frame_id_ e)) ->
  Evict_loop fuel r = Some (r', victim) ->
  (forall e, e ∈ pq_ r' -> P (frame_id_ e)) /\
  length (node_store_ r') = length (node_store_ r) /\
  match victim with Some f => P f | None => True end.
Proof.
  revert r. induction fuel as [|fuel IH]; intros r HP; [done|]. simpl.
  destruct (pq_top (pq_ r)) as [top|] eqn:Htop; [|by intros [= <- <-]].
  assert (HP' : forall e, e ∈ pq_pop (pq_ r) -> P (frame_id_ e)).
  { intros e He. apply HP. by eapply pop_in. }
  pose proof (HP top (top_in _ _ Htop)) as Ptop.
  assert (Hstep : forall r1,
    (forall e, e ∈ pq_ r1 -> P (frame_id_ e)) ->
    length (node_store_ r1) = length (node_store_ r) ->
    Evict_loop fuel r1 = Some (r', victim) ->
    (forall e, e ∈ pq_ r' -> P (frame_id_ e)) /\
    length (node_store_ r') = length (node_store_ r) /\
    match victim with Some f => P f | None => True end).
  { intros r1 H1 Hl1 Hloop. destruct (IH r1 H1 Hloop) as (? & ? & ?).
    split; [done|]. split; [congruence|done]. }
  unfold Evict_body.
  change (node_at (set_pq (pq_pop (pq_ r)) r) (frame_id_ top))
    with (node_at r (frame_id_ top)).
  destruct (node_at r (frame_id_ top)) as [n|]; [|by apply Hstep].
  destruct (earliest_timestamp_ top <? timestamp_added_ n); [by apply Hstep|].
  destruct (outdated _ top n).
  { apply Hstep; [|done]. intros e He. simpl in He.
    apply elem_of_cons in He as [->|He]; [done|by apply HP']. }
  destruct (negb (is_evictable_ n)).
  - apply Hstep; [done|]. simpl. by rewrite length_insert.
  - intros [= <- <-]. simpl. by rewrite length_insert.
Qed.

Lemma Evict_frames (P : frame_id_t -> Prop) r :
  (forall e, e ∈ pq_ r -> P (frame_id_ e)) ->
  (forall e, e ∈ pq_ (Evict r).1 -> P (frame_id_ e)) /\
  length (node_store_ (Evict r).1) = length (node_store_ r) /\
  match (Evict r).2 with Some f => P f | None => True end.
Proof.
  intros HP. pose proof (Evict_loop_total r) as H.
  destruct (Evict r) as [r' v]. by eapply Evict_loop_frames.
Qed.

(** *** The counter of evictable frames *)

(** [RecordAccess], [SetEvictable] and [Evict] keep [Size] equal to the
    number of evictable nodes; [Remove] does not (C2). *)


Lemma evictable_count_eq r :
  evictable_count r = Z.of_nat (length (filter counted (node_store_ r))).
Proof. done. Qed.

Lemma count_insert (l : list (option LRUKNode)) i o o' :
  l !! i = Some o ->
  Z.of_nat (length (filter counted (<[i := o']> l)))
  = Z.of_nat (length (filter counted l))
    - (if decide (counted o) then 1 else 0) + (if decide (counted o') then 1 else 0).
Proof.
  revert i. induction l as [|x l IH]; intros i Hi; [done|].
  destruct i as [|i]; simpl in *.
  - injection Hi as ->. rewrite !filter_cons.
    destruct (decide (counted o)), (decide (counted o')); simpl; lia.
  - rewrite !filter_cons. specialize (IH i Hi).
    destruct (decide (counted x)); simpl; lia.
Qed.

Lemma node_at_lookup r f :
  (slot f < length (node_store_ r))%nat ->
  node_store_ r !! slot f = Some (node_at r f).
Proof.
  intros Hlt. unfold node_at.
  destruct (lookup_lt_is_Some_2 _ _ Hlt) as [o ->]. done.
Qed.

Lemma count_set_node r f o :
  (slot f < length (node_store_ r))%nat ->
  evictable_count (set_node f o r)
  = evictable_count r - (if decide (counted (node_at r f)) then 1 else 0)
    + (if decide (counted o) then 1 else 0).
Proof.
  intros Hlt. rewrite !evictable_count_eq. simpl.
  by apply count_insert, node_at_lookup.
Qed.

Lemma evictable_count_bounds r :
  0 <= evictable_count r <= Z.of_nat (length (node_store_ r)).
Proof.
  rewrite evictable_count_eq.
  pose proof (length_filter counted (node_store_ r)). lia.
Qed.

Lemma counted_Some n : counted (Some n) <-> is_evictable_ n = true.
Proof. unfold counted; simpl. split; [by intros [= ->]|by intros ->]. Qed.

Lemma Evict_loop_count fuel r r' victim :
  Evict_loop fuel r = Some (r', victim) ->
  evictable_count r'
  = evictable_count r - match victim with Some _ => 1 | None => 0 end /\
  num_evictable_ r' = match victim with
    | Some _ => to_size_t (num_evictable_ r - 1)
    | None => num_evictable_ r
    end.
Proof.
  revert r. induction fuel as [|fuel IH]; intros r; [done|]. simpl.
  destruct (pq_top (pq_ r)) as [top|]; [|intros [= <- <-]; simpl; split; [lia|done]].
  unfold Evict_body.
  change (node_at (set_pq (pq_pop (pq_ r)) r) (frame_id_ top))
    with (node_at r (frame_id_ top)).
  destruct (node_at r (frame_id_ top)) as [n|] eqn:Hn; [|intros Hl; exact (IH _ Hl)].
  pose proof (node_at_lt _ _ _ Hn) as Hlt.
  destruct (earliest_timestamp_ top <? timestamp_added_ n); [intros Hl; exact (IH _ Hl)|].
  destruct (outdated _ top n); [intros Hl; exact (IH _ Hl)|].
  destruct (is_evictable_ n) eqn:Hev; simpl.
  - intros [= <- <-]. split; [|done].
    change (evictable_count (set_num_evictable ?x ?y)) with (evictable_count y).
    rewrite count_set_node by done.
    change (node_at (set_pq (pq_pop (pq_ r)) r) (frame_id_ top))
      with (node_at r (frame_id_ top)).
    rewrite Hn, decide_True, decide_False by (by rewrite ?counted_Some).
    change (evictable_count (set_pq ?q r)) with (evictable_count r). lia.
  - intros Hl. apply IH in Hl as [-> ->]. split; [|done].
    rewrite count_set_node by done.
    change (node_at (set_pq (pq_pop (pq_ r)) r) (frame_id_ top))
      with (node_at r (frame_id_ top)).
    rewrite Hn, !decide_False by (rewrite counted_Some; simpl; congruence).
    change (evictable_count (set_pq ?q r)) with (evictable_count r). lia.
Qed.


Lemma counter_ok_new num_frames k :
  num_frames < SIZE_T_MODULUS -> counter_ok (LRUKReplacer_new num_frames k).
Proof.
  intros Hn. split; [done|]. split; [simpl; by rewrite length_replicate|].
  rewrite evictable_count_eq. simpl.
  induction (Z.to_nat num_frames) as [|m IH]; [done|]. simpl. by rewrite filter_cons.
Qed.


Lemma Evict_counter_ok r : counter_ok r -> counter_ok (Evict r).1.
Proof.
  intros Hok. pose proof Hok as (Hs & Hl & Hc). pose proof (Evict_loop_total r) as Ht.
  pose proof (Evict_frames (fun _ => True) r ltac:(done)) as (_ & Hlen & _).
  destruct (Evict r) as [r' v]. cbn [fst snd] in Hlen |- *.
  pose proof (Evict_loop_count _ _ _ _ Ht) as [Hcnt Hnum].
  assert (Hrs : replacer_size_ r' = replacer_size_ r).
  { clear -Ht. revert Ht. generalize (Evict_fuel r). intros fuel. revert r.
    induction fuel as [|fuel IH]; intros r; [done|]. simpl.
    destruct (pq_top (pq_ r)) as [top|]; [|by intros [= <- <-]].
    unfold Evict_body.
    change (node_at (set_pq (pq_pop (pq_ r)) r) (frame_id_ top))
      with (node_at r (frame_id_ top)).
    destruct (node_at r (frame_id_ top)) as [n|]; [|intros Hl; exact (IH _ Hl)].
    destruct (_ <? _); [intros Hl; exact (IH _ Hl)|]. destruct (outdated _ _ _); [intros Hl; exact (IH _ Hl)|].
    destruct (negb _); [intros Hl; exact (IH _ Hl)|]. by intros [= <- <-]. }
  split; [by rewrite Hrs|]. split; [by rewrite Hlen, Hrs|].
  unfold Size in *. rewrite Hnum, Hcnt. destruct v as [f|]; [|lia].
  rewrite Hc. pose proof (evictable_count_bounds r) as Hb.
  pose proof (evictable_count_bounds r') as Hb'. rewrite Hcnt in Hb'.
  apply to_size_t_small. lia.
Qed.

Lemma RecordAccess_counter_ok f r r' :
  counter_ok r -> RecordAccess f r = Ok r' -> counter_ok r'.
Proof.
  intros (Hs & Hl & Hc). unfold RecordAccess.
  destruct (replacer_size_ r <=? to_size_t f) eqn:Hf; [done|].
  pose proof (slot_in_range r f Hl Hf) as Hlt.
  destruct (node_at r f) as [n|] eqn:Hn; intros [= <-];
    (split; [done|]); (split; [simpl; by rewrite length_insert|]); unfold Size in *; simpl.
  - change (evictable_count (set_current_timestamp ?x ?y)) with (evictable_count y).
    rewrite count_set_node, Hn by done.
    destruct (is_evictable_ n) eqn:Hev.
    + rewrite !decide_True by (by rewrite counted_Some). lia.
    + rewrite !decide_False by (rewrite counted_Some; simpl; congruence). lia.
  - change (evictable_count (set_current_timestamp ?x (set_pq ?q ?y)))
      with (evictable_count y).
    rewrite count_set_node, Hn by done.
    rewrite !decide_False by (unfold counted; simpl; congruence). lia.
Qed.

Lemma SetEvictable_counter_ok f b r r' :
  counter_ok r -> SetEvictable f b r = Ok r' -> counter_ok r'.
Proof.
  intros Hok. pose proof Hok as (Hs & Hl & Hc). unfold SetEvictable.
  destruct (replacer_size_ r <=? to_size_t f) eqn:Hf; [done|].
  pose proof (slot_in_range r f Hl Hf) as Hlt.
  destruct (node_at r f) as [n|] eqn:Hn; [|done].
  destruct (Bool.eqb (is_evictable_ n) b) eqn:Heq; [by intros [= <-]|].
  apply eqb_false_iff in Heq.
  pose proof (evictable_count_bounds r) as Hb.
  destruct b; simpl.
  - assert (Hcnt : evictable_count (set_node f (Some (set_is_evictable true n)) r)
                 = evictable_count r + 1).
    { rewrite count_set_node, Hn by done.
      rewrite decide_False, decide_True; [lia|by rewrite counted_Some|].
      rewrite counted_Some. by destruct (is_evictable_ n). }
    pose proof (evictable_count_bounds (set_node f (Some (set_is_evictable true n)) r))
      as Hb'.
    simpl in Hb'. rewrite length_insert, Hcnt in Hb'.
    destruct (present_in_pq_ n); intros [= <-];
      (split; [done|]); (split; [simpl; by rewrite length_insert|]); unfold Size in *; simpl.
    + change (evictable_count (set_num_evictable ?x ?y)) with (evictable_count y).
      rewrite Hcnt, Hc. apply to_size_t_small. apply Z.leb_gt in Hf. lia.
    + change (evictable_count (set_num_evictable ?x (set_node ?a ?c (set_pq ?q ?y))))
        with (evictable_count (set_node a c y)).
      rewrite count_set_node, Hn by done.
      rewrite decide_False, decide_True;
        [|by rewrite counted_Some|rewrite counted_Some; by destruct (is_evictable_ n)].
      rewrite Hc. rewrite to_size_t_small; [lia|]. apply Z.leb_gt in Hf. lia.
  - intros [= <-]. split; [done|]. split; [simpl; by rewrite length_insert|].
    unfold Size in *; simpl.
    change (evictable_count (set_num_evictable ?x ?y)) with (evictable_count y).
    rewrite count_set_node, Hn by done.
    rewrite decide_True, decide_False;
      [|rewrite counted_Some; simpl; congruence
       |rewrite counted_Some; by destruct (is_evictable_ n)].
    rewrite Hc.
    pose proof (evictable_count_bounds (set_node f (Some (set_is_evictable false n)) r))
      as Hb'.
    rewrite count_set_node, Hn in Hb' by done.
    rewrite decide_True, decide_False in Hb';
      [|rewrite counted_Some; simpl; congruence
       |rewrite counted_Some; by destruct (is_evictable_ n)].
    simpl in Hb'. rewrite length_insert in Hb'.
    apply Z.leb_gt in Hf. rewrite to_size_t_small; lia.
Qed.

(** A successful [Remove] takes one evictable node away and leaves the
    counter as it is. *)
Lemma Remove_count f r r' :
  length (node_store_ r) = Z.to_nat (replacer_size_ r) ->
  Remove f r = Ok r' ->
  evictable_count r' = evictable_count r - 1 /\ Size r' = Size r.
Proof.
  intros Hl. unfold Remove.
  destruct (replacer_size_ r <=? to_size_t f) eqn:Hf; [done|].
  pose proof (slot_in_range r f Hl Hf) as Hlt.
  destruct (node_at r f) as [n|] eqn:Hn; [|done].
  destruct (is_evictable_ n) eqn:Hev; [|done]. simpl. intros [= <-]. split; [|done].
  rewrite count_set_node, Hn by done.
  rewrite decide_True, decide_False; [lia|done|by rewrite counted_Some].
Qed.

Lemma run_counter_ok cs : forall r,
  counter_ok r -> (forall f, CRemove f ∉ cs) -> counter_ok (run cs r).
Proof.
  induction cs as [|c cs IH]; intros r Hok Hnr; [done|]. simpl.
  apply IH; [|intros f Hf; apply (Hnr f); by right].
  destruct c as [f|f b|f|]; simpl.
  - destruct (RecordAccess f r) eqn:Hc; [by eapply RecordAccess_counter_ok|done].
  - destruct (SetEvictable f b r) eqn:Hc; [by eapply SetEvictable_counter_ok|done].
  - exfalso. apply (Hnr f). by left.
  - by apply Evict_counter_ok.
Qed.

(** *** [Evict] in an arbitrary state *)

Lemma Evict_loop_evicted fuel r r' victim :
  Evict_loop fuel r = Some (r', victim) ->
  evicted r r' victim /\
  match victim with
  | Some f => exists n, evictable_at r f n
  | None => pq_ r' = []
  end.
Proof.
  revert r. induction fuel as [|fuel IH]; intros r; [done|]. simpl.
  destruct (pq_top (pq_ r)) as [top|] eqn:Htop.
  2:{ intros [= <- <-]. split; [done|]. by apply pq_top_nil. }
  assert (Hstep : forall r1,
    k_ r1 = k_ r -> current_timestamp_ r1 = current_timestamp_ r ->
    replacer_size_ r1 = replacer_size_ r -> num_evictable_ r1 = num_evictable_ r ->
    (forall g, (set_present_in_pq true <$> node_at r1 g)
               = (set_present_in_pq true <$> node_at r g)) ->
    Evict_loop fuel r1 = Some (r', victim) ->
    evicted r r' victim /\
    match victim with
    | Some f => exists n, evictable_at r f n
    | None => pq_ r' = []
    end).
  { intros r1 Hk Hnow Hsz Hnum Hsame Hloop.
    destruct (IH r1 Hloop) as ((Ek & Enow & Esz & Ev) & Hv). split.
    - split; [congruence|]. split; [congruence|]. split; [congruence|].
      destruct victim as [f|].
      + destruct Ev as (En & Ef & Eg). split; [congruence|]. split; [done|].
        intros g Hg. by rewrite (Eg g Hg), Hsame.
      + destruct Ev as (En & Eg). split; [congruence|]. intros g. by rewrite Eg, Hsame.
    - destruct victim as [f|]; [|done]. destruct Hv as (n1 & Hn1 & He1).
      destruct (norm_evictable _ _ n1 (Hsame f) Hn1) as (n & Hn & _ & He & _).
      exists n. split; congruence. }
  unfold Evict_body.
  change (node_at (set_pq (pq_pop (pq_ r)) r) (frame_id_ top))
    with (node_at r (frame_id_ top)).
  destruct (node_at r (frame_id_ top)) as [n|] eqn:Hn; [|by apply Hstep].
  pose proof (node_at_lt _ _ _ Hn) as Hlt.
  destruct (earliest_timestamp_ top <? timestamp_added_ n); [by apply Hstep|].
  destruct (outdated _ top n); [by apply Hstep|].
  destruct (is_evictable_ n) eqn:Hev; simpl.
  - intros [= <- <-]. split; [|by exists n].
    split; [done|]. split; [done|]. split; [done|]. split; [done|].
    change (node_at (set_num_evictable ?x ?y)) with (node_at y).
    split; [by rewrite node_at_set_node, decide_True|].
    intros g Hg. by rewrite node_at_set_node_ne.
  - apply Hstep; try done. intros g. rewrite node_at_set_node by done.
    case_decide as Hs; [|done]. rewrite (node_at_slot _ g _ Hs).
    change (node_at (set_pq ?x ?y)) with (node_at y). by rewrite Hn.
Qed.

Lemma Evict_evicted (r : LRUKReplacer) :
  evicted r (Evict r).1 (Evict r).2.
Proof.
  pose proof (Evict_loop_total r) as H. destruct (Evict r) as [r' v].
  by eapply Evict_loop_evicted.
Qed.

(** X1. In any state of the replacer, reachable or not, [Evict] never
    returns a frame without a node or with a node that is not evictable.
    When it returns a frame, that frame's node is dropped, the counter is
    decremented (modulo [2^64]) and every node of another slot keeps its
    history, its first timestamp and its evictable flag; when it returns
    false, it has emptied the heap and no node has changed but in
    [present_in_pq_]. *)
Theorem Evict_only_evictable (r : LRUKReplacer) :
  evicted r (Evict r).1 (Evict r).2 /\
  match (Evict r).2 with
  | Some f => exists n, evictable_at r f n
  | None => pq_ (Evict r).1 = []
  end.
Proof.
  pose proof (Evict_loop_total r) as H. destruct (Evict r) as [r' v].
  by eapply Evict_loop_evicted.
Qed.

(** *** The counter in general *)

Lemma to_size_t_idemp_add x y : to_size_t (to_size_t x + y) = to_size_t (x + y).
Proof. unfold to_size_t. by rewrite Zplus_mod_idemp_l. Qed.

Lemma to_size_t_idemp x : to_size_t (to_size_t x) = to_size_t x.
Proof. unfold to_size_t. by rewrite Zmod_mod. Qed.

Lemma apply_call_counter_off c0 r c :
  counter_off c0 r ->
  counter_off (c0 + successful_removes [c] r) (apply_call r c).
Proof.
  intros [Hl Hc]. unfold Size in *. destruct c as [f|f b|f|]; simpl.
  - rewrite !Z.add_0_r. unfold RecordAccess.
    destruct (replacer_size_ r <=? to_size_t f) eqn:Hf; [done|].
    pose proof (slot_in_range r f Hl Hf) as Hlt.
    destruct (node_at r f) as [n|] eqn:Hn; simpl;
      (split; [simpl; by rewrite length_insert|]); unfold Size; simpl.
    + change (evictable_count (set_current_timestamp ?x ?y)) with (evictable_count y).
      rewrite count_set_node, Hn by done.
      destruct (is_evictable_ n) eqn:Hev.
      * rewrite !decide_True by (by rewrite counted_Some). rewrite Hc. f_equal. lia.
      * rewrite !decide_False by (rewrite counted_Some; simpl; congruence).
        rewrite Hc. f_equal. lia.
    + change (evictable_count (set_current_timestamp ?x (set_pq ?q ?y)))
        with (evictable_count y).
      rewrite count_set_node, Hn by done.
      rewrite !decide_False by (unfold counted; simpl; congruence).
      rewrite Hc. f_equal. lia.
  - rewrite !Z.add_0_r. unfold SetEvictable.
    destruct (replacer_size_ r <=? to_size_t f) eqn:Hf; [done|].
    pose proof (slot_in_range r f Hl Hf) as Hlt.
    destruct (node_at r f) as [n|] eqn:Hn; [|done].
    destruct (Bool.eqb (is_evictable_ n) b) eqn:Heq; [done|].
    apply eqb_false_iff in Heq.
    destruct b; [destruct (present_in_pq_ _)|]; simpl;
      (split; [simpl; by rewrite length_insert|]); unfold Size; simpl.
    + change (evictable_count (set_num_evictable ?x ?y)) with (evictable_count y).
      rewrite count_set_node, Hn by done.
      rewrite decide_False, decide_True;
        [|by rewrite counted_Some|rewrite counted_Some; by destruct (is_evictable_ n)].
      rewrite Hc, to_size_t_idemp_add. f_equal. lia.
    + change (evictable_count (set_num_evictable ?x (set_node ?a ?c (set_pq ?q ?y))))
        with (evictable_count (set_node a c y)).
      rewrite count_set_node, Hn by done.
      rewrite decide_False, decide_True;
        [|by rewrite counted_Some|rewrite counted_Some; by destruct (is_evictable_ n)].
      rewrite Hc, to_size_t_idemp_add. f_equal. lia.
    + change (evictable_count (set_num_evictable ?x ?y)) with (evictable_count y).
      rewrite count_set_node, Hn by done.
      rewrite decide_True, decide_False;
        [|rewrite counted_Some; simpl; congruence
         |rewrite counted_Some; by destruct (is_evictable_ n)].
      rewrite Hc. change (?x - 1) with (x + -1). rewrite to_size_t_idemp_add.
      f_equal. lia.
  - destruct (Remove f r) as [r'|msg] eqn:Hr; simpl.
    + destruct (Remove_count f r r' Hl Hr) as [Hcnt Hsz]. unfold Size in Hsz.
      split; [|unfold Size; rewrite Hsz, Hcnt, Hc; f_equal; lia].
      unfold Remove in Hr. destruct (_ <=? _); [done|].
      destruct (node_at r f); [|done]. destruct (negb _); [done|].
      injection Hr as <-. simpl. by rewrite length_insert.
    + rewrite !Z.add_0_r. done.
  - rewrite !Z.add_0_r.
    pose proof (Evict_loop_total r) as Ht.
    pose proof (Evict_frames (fun _ => True) r ltac:(done)) as (_ & Hlen & _).
    pose proof (Evict_evicted r) as Hev.
    destruct (Evict r) as [r' v]. cbn [fst snd] in Hlen, Hev |- *.
    destruct (Evict_loop_count _ _ _ _ Ht) as [Hcnt Hnum].
    destruct Hev as (_ & _ & Hrs & _).
    split; [by rewrite Hlen, Hrs|].
    unfold Size. rewrite Hnum, Hcnt. destruct v as [g|]; [|rewrite Hc; f_equal; lia].
    rewrite Hc. change (?x - 1) with (x + -1) at 1. rewrite to_size_t_idemp_add.
    f_equal. lia.
Qed.

Lemma run_counter_off cs : forall r c0,
  counter_off c0 r -> counter_off (c0 + successful_removes cs r) (run cs r).
Proof.
  induction cs as [|c cs IH]; intros r c0 Hc.
  - simpl. by rewrite Z.add_0_r.
  - change (run (c :: cs) r) with (run cs (apply_call r c)).
    replace (c0 + successful_removes (c :: cs) r)
      with (c0 + successful_removes [c] r + successful_removes cs (apply_call r c))
      by (simpl; lia).
    by apply IH, apply_call_counter_off.
Qed.

(** X2. What [Size] returns after any sequence of calls on a new replacer:
    the number of evictable nodes plus the number of calls of [Remove]
    that returned normally, modulo [2^64].  Every call keeps the counter
    exact but [Remove], which drops an evictable node and leaves the
    counter as it is. *)
Theorem Size_counts_evictable_and_removed (num_frames k : Z) (cs : list call) :
  let r0 := LRUKReplacer_new num_frames k in
  Size (run cs r0) = to_size_t (evictable_count (run cs r0) + successful_removes cs r0).
Proof.
  intros r0.
  assert (H0 : counter_off 0 r0).
  { split; [simpl; by rewrite length_replicate|].
    rewrite evictable_count_eq. simpl.
    induction (Z.to_nat num_frames) as [|m IH]; [done|]. simpl. by rewrite filter_cons. }
  by destruct (run_counter_off cs r0 0 H0) as [_ ?].
Qed.

(** *** The history of a node is the last K accesses of its frame *)

Lemma last_k_accessed k t l :
  1 <= k -> accessed k t (last_k k l) = last_k k (l ++ [t]).
Proof.
  intros Hk. unfold accessed, last_k, size. rewrite length_drop, length_app. simpl.
  destruct (Z.eqb_spec (Z.of_nat (length l - (length l - Z.to_nat k))) k) as [He|He].
  - assert (Hle : (Z.to_nat k <= length l)%nat) by lia.
    replace (tail (drop (length l - Z.to_nat k) l))
      with (drop 1 (drop (length l - Z.to_nat k) l))
      by (by destruct (drop (length l - Z.to_nat k) l)).
    rewrite drop_drop, drop_app_le by lia. do 2 f_equal. lia.
  - assert (Hlt : (length l < Z.to_nat k)%nat) by lia.
    replace (length l - Z.to_nat k)%nat with 0%nat by lia.
    replace (length l + 1 - Z.to_nat k)%nat with 0%nat by lia. done.
Qed.

Lemma log_ok_norm k (o o' : option LRUKNode) l :
  (set_present_in_pq true <$> o') = (set_present_in_pq true <$> o) ->
  log_ok k o l -> log_ok k o' l.
Proof.
  destruct o as [n|], o' as [n'|]; try done. simpl. intros [= H _ _]. by rewrite H.
Qed.

Lemma log_inv_step k r c l :
  1 <= k -> log_inv k r l -> log_inv k (apply_call r c) (log_call r c l).
Proof.
  intros Hk (Hl & Hkr & Hlog). destruct c as [f|f b|f|]; simpl.
  - unfold RecordAccess.
    destruct (replacer_size_ r <=? to_size_t f) eqn:Hf; [done|].
    pose proof (slot_in_range r f Hl Hf) as Hlt. simpl.
    split; [destruct (node_at r f); simpl; by rewrite length_insert|].
    split; [by destruct (node_at r f)|].
    intros g. unfold log_set.
    pose proof (Hlog f) as Hlf.
    destruct (node_at r f) as [n|] eqn:Hn;
      [change (node_at (set_current_timestamp ?x ?y) g) with (node_at y g)
      |change (node_at (set_current_timestamp ?x (set_pq ?q ?y)) g) with (node_at y g)];
      rewrite node_at_set_node by done; case_decide as Hg; try apply Hlog.
    + simpl. destruct Hlf as [Hne Hh].
      split; [by destruct (l (slot f))|].
      rewrite <- last_k_accessed by done. unfold accessed. by rewrite Hh, Hkr.
    + simpl in Hlf |- *. rewrite Hlf. simpl.
      split; [done|]. unfold last_k. simpl.
      by replace (1 - Z.to_nat k)%nat with 0%nat by lia.
  - unfold SetEvictable.
    destruct (replacer_size_ r <=? to_size_t f) eqn:Hf; [done|].
    pose proof (slot_in_range r f Hl Hf) as Hlt.
    destruct (node_at r f) as [n|] eqn:Hn; [|done].
    destruct (Bool.eqb (is_evictable_ n) b); [done|].
    assert (Hsame : forall n', history_ n' = history_ n -> forall g,
      log_ok k (if decide (slot g = slot f) then Some n' else node_at r g) (l (slot g))).
    { intros n' Hh g. case_decide as Hg; [|apply Hlog].
      pose proof (Hlog g) as Hlg. rewrite (node_at_slot r g f Hg), Hn in Hlg.
      simpl in *. by rewrite Hh. }
    destruct b; [destruct (present_in_pq_ _)|]; simpl;
      (split; [simpl; by rewrite length_insert|]); (split; [done|]); intros g.
    + change (node_at (set_num_evictable ?x ?y) g) with (node_at y g).
      rewrite node_at_set_node by done. by apply Hsame.
    + change (node_at (set_num_evictable ?x (set_node ?a ?c (set_pq ?q ?y))) g)
        with (node_at (set_node a c y) g).
      rewrite node_at_set_node by done. by apply Hsame.
    + change (node_at (set_num_evictable ?x ?y) g) with (node_at y g).
      rewrite node_at_set_node by done. by apply Hsame.
  - unfold Remove.
    destruct (replacer_size_ r <=? to_size_t f) eqn:Hf; [done|].
    pose proof (slot_in_range r f Hl Hf) as Hlt.
    destruct (node_at r f) as [n|] eqn:Hn; [|done].
    destruct (negb (is_evictable_ n)); [done|]. simpl.
    split; [simpl; by rewrite length_insert|]. split; [done|]. intros g.
    rewrite node_at_set_node by done. unfold log_set.
    case_decide as Hg; [done|apply Hlog].
  - pose proof (Evict_evicted r) as (Ek & _ & Esz & Ev).
    pose proof (Evict_frames (fun _ => True) r ltac:(done)) as (_ & Hlen & _).
    destruct (Evict r) as [r' v]. cbn [fst snd] in *.
    split; [by rewrite Hlen, Esz|]. split; [congruence|]. intros g.
    destruct v as [f|].
    + destruct Ev as (_ & Hf & Hg). unfold log_set. case_decide as Hgf.
      * by rewrite (node_at_slot r' g f Hgf), Hf.
      * eapply log_ok_norm; [by apply Hg|apply Hlog].
    + destruct Ev as (_ & Hg). eapply log_ok_norm; [apply Hg|apply Hlog].
Qed.

Lemma log_inv_run k cs : forall r l,
  1 <= k -> log_inv k r l -> log_inv k (run cs r) (access_log cs r l).
Proof.
  induction cs as [|c cs IH]; intros r l Hk Hinv; [done|].
  apply (IH (apply_call r c) (log_call r c l) Hk). by apply log_inv_step.
Qed.

(** X3. After any sequence of calls on a new replacer with K at least 1,
    the history of every node is the last K timestamps of the accesses
    recorded for its frame since the node was created (all of them when
    there are fewer than K), and a frame has a node exactly when an access
    has been recorded for it since it was last evicted or removed. *)
Theorem history_is_last_k_accesses (num_frames k : Z) (cs : list call) (f : frame_id_t) :
  1 <= k ->
  let r0 := LRUKReplacer_new num_frames k in
  let accesses := access_log cs r0 (fun _ => []) (slot f) in
  match node_at (run cs r0) f with
  | Some n => accesses <> [] /\ history_ n = last_k k accesses
  | None => accesses = []
  end.
Proof.
  intros Hk r0 accesses.
  assert (H0 : log_inv k r0 (fun _ => [])).
  { split; [simpl; by rewrite length_replicate|]. split; [done|]. intros g.
    unfold node_at; simpl. destruct (replicate _ _ !! _) as [o|] eqn:Ho; [|done].
    by apply lookup_replicate in Ho as [-> _]. }
  destruct (log_inv_run k cs r0 _ Hk H0) as (_ & _ & H). apply H.
Qed.

Lemma history_is_last_k_accesses_witness :
  let cs := [CRecordAccess 0; CRecordAccess 1; CRecordAccess 0; CRecordAccess 0;
             CSetEvictable 1 true; CEvict; CRecordAccess 1] in
  let r := run cs (LRUKReplacer_new 2 2) in
  (history_ <$> node_at r 0) = Some [3; 4] /\ (history_ <$> node_at r 1) = Some [5] /\
  match node_at r 0 with
  | Some n =>
      access_log cs (LRUKReplacer_new 2 2) (fun _ => []) (slot 0) <> [] /\
      history_ n = last_k 2 (access_log cs (LRUKReplacer_new 2 2) (fun _ => []) (slot 0))
  | None => access_log cs (LRUKReplacer_new 2 2) (fun _ => []) (slot 0) = []
  end.
Proof.
  split; [reflexivity|]. split; [reflexivity|].
  apply (history_is_last_k_accesses 2 2 _ 0). lia.
Defined.

(** *** Timestamps *)

(** X4. After fewer than [2^64 - 1] calls on a new replacer, the history
    of every node is not empty and strictly increasing, its timestamps
    are at least 1, not before the node was created and before the
    current timestamp, it holds at most K of them when K is at least 1,
    and no timestamp is in the histories of two slots. *)
Theorem history_timestamps_ordered (num_frames k : Z) (cs : list call)
    (f : frame_id_t) (n : LRUKNode) :
  Z.of_nat (length cs) < SIZE_T_MODULUS - 1 ->
  let r := run cs (LRUKReplacer_new num_frames k) in
  node_at r f = Some n ->
  history_ n <> [] /\
  StronglySorted Z.lt (history_ n) /\
  Forall (λ t, 1 <= timestamp_added_ n <= t /\ t < current_timestamp_ r) (history_ n) /\
  (1 <= k -> size (history_ n) <= k) /\
  forall g m, node_at r g = Some m -> slot f <> slot g ->
    forall t, t ∈ history_ n -> t ∉ history_ m.
Proof.
  intros Hlen r Hn. destruct (run_new_Inv num_frames k cs Hlen) as [HI Hk].
  fold r in HI, Hk. destruct (inv_nodes r HI f n Hn) as [H1 H2 H3 H4].
  split; [done|]. split; [done|]. split.
  - eapply Forall_impl; [exact H3|]. simpl. lia.
  - split; [intros Hk1; rewrite <- Hk; apply (inv_window r HI f n Hn); lia|].
    intros g m Hm Hfg. by apply (inv_disjoint r HI f g n m).
Qed.

Lemma history_timestamps_ordered_witness :
  let r := run [CRecordAccess 0; CRecordAccess 1; CRecordAccess 0] (LRUKReplacer_new 2 2) in
  exists n, node_at r 0 = Some n /\ history_ n = [1; 3] /\
    StronglySorted Z.lt (history_ n) /\
    forall g m, node_at r g = Some m -> slot 0 <> slot g ->
      forall t, t ∈ history_ n -> t ∉ history_ m.
Proof.
  eexists. split; [reflexivity|]. split; [reflexivity|].
  assert (Hlen : Z.of_nat (length [CRecordAccess 0; CRecordAccess 1; CRecordAccess 0])
                 < SIZE_T_MODULUS - 1) by (vm_compute; reflexivity).
  destruct (history_timestamps_ordered 2 2 _ 0 _ Hlen eq_refl) as (_ & Hs & _ & _ & Hd).
  split; [exact Hs|exact Hd].
Defined.

(** *** The cases of [RecordAccess] and [Remove] *)

(** X5. In a replacer whose node store has [replacer_size_] slots, as the
    constructor makes it and every call keeps it, [RecordAccess] throws
    exactly on a frame id out of range, and then changes nothing.  Otherwise it returns normally: a frame without a
    node gets a node that is not evictable, whose history is the current
    timestamp alone, and one heap entry; a frame with a node gets the
    timestamp appended to its history, after the oldest entry is dropped
    when the history holds K of them, and keeps its evictable flag; the
    timestamp is incremented modulo [2^64], and the counter, the size and
    the nodes of the other slots are left as they are. *)
Theorem RecordAccess_cases (r : LRUKReplacer) (frame_id : frame_id_t) :
  length (node_store_ r) = Z.to_nat (replacer_size_ r) ->
  (replacer_size_ r <= to_size_t frame_id ->
     RecordAccess frame_id r = Throw "Invalid frame_id") /\
  (to_size_t frame_id < replacer_size_ r ->
     exists r' n', RecordAccess frame_id r = Ok r' /\
       node_at r' frame_id = Some n' /\
       match node_at r frame_id with
       | None =>
           n' = LRUKNode_new (current_timestamp_ r) /\
           pq_ r' = PQNode_new frame_id (k_ r) n' :: pq_ r
       | Some n =>
           history_ n' = accessed (k_ r) (current_timestamp_ r) (history_ n) /\
           is_evictable_ n' = is_evictable_ n /\
           timestamp_added_ n' = timestamp_added_ n /\
           pq_ r' = pq_ r
       end /\
       current_timestamp_ r' = to_size_t (current_timestamp_ r + 1) /\
       Size r' = Size r /\ replacer_size_ r' = replacer_size_ r /\ k_ r' = k_ r /\
       forall g, slot g <> slot frame_id -> node_at r' g = node_at r g).
Proof.
  intros Hl. unfold RecordAccess. split; intros Hr.
  - by rewrite (proj2 (Z.leb_le _ _) Hr).
  - rewrite (proj2 (Z.leb_gt _ _) Hr).
    pose proof (slot_in_range r frame_id Hl (proj2 (Z.leb_gt _ _) Hr)) as Hlt.
    destruct (node_at r frame_id) as [n|] eqn:Hn.
    + eexists _, _. split; [done|].
      change (node_at (set_current_timestamp ?x ?y)) with (node_at y).
      split; [by rewrite node_at_set_node, decide_True|].
      split; [done|]. do 4 (split; [done|]).
      intros g Hg. by rewrite node_at_set_node_ne.
    + eexists _, _. split; [done|].
      change (node_at (set_current_timestamp ?x (set_pq ?q ?y))) with (node_at y).
      split; [by rewrite node_at_set_node, decide_True|].
      split; [done|]. do 4 (split; [done|]).
      intros g Hg. by rewrite node_at_set_node_ne.
Qed.

Lemma RecordAccess_cases_witness :
  let r := run [CRecordAccess 0; CRecordAccess 0] (LRUKReplacer_new 2 2) in
  RecordAccess 2 r = Throw "Invalid frame_id" /\
  (exists r', RecordAccess 0 r = Ok r' /\ (history_ <$> node_at r' 0) = Some [2; 3]) /\
  (exists r', RecordAccess 1 r = Ok r' /\ (history_ <$> node_at r' 1) = Some [3]).
Proof.
  intros r.
  destruct (RecordAccess_cases r 2 eq_refl) as [H2 _].
  destruct (RecordAccess_cases r 0 eq_refl) as [_ H0].
  destruct (RecordAccess_cases r 1 eq_refl) as [_ H1].
  split; [apply H2; vm_compute; discriminate|].
  split; eexists; (split; [reflexivity|reflexivity]).
Defined.

(** X6. [Remove] throws on a frame id out of range, on a frame without a
    node and on a node that is not evictable, and then changes nothing.
    On an evictable node it returns normally: the node is dropped, while
    the heap (with the entries of the removed frame), the counter that
    [Size] returns, the timestamp and the nodes of the other slots are
    left as they are. *)
Theorem Remove_cases (r : LRUKReplacer) (frame_id : frame_id_t) :
  (replacer_size_ r <= to_size_t frame_id ->
     Remove frame_id r = Throw "Invalid frame_id") /\
  (to_size_t frame_id < replacer_size_ r ->
     match node_at r frame_id with
     | None => Remove frame_id r = Throw "Invalid frame_id"
     | Some n =>
         if is_evictable_ n
         then exists r', Remove frame_id r = Ok r' /\
                node_at r' frame_id = None /\
                (forall g, slot g <> slot frame_id -> node_at r' g = node_at r g) /\
                pq_ r' = pq_ r /\ Size r' = Size r /\
                current_timestamp_ r' = current_timestamp_ r /\
                replacer_size_ r' = replacer_size_ r
         else Remove frame_id r = Throw "Frame not evictable"
     end).
Proof.
  unfold Remove. split; intros Hr.
  - by rewrite (proj2 (Z.leb_le _ _) Hr).
  - rewrite (proj2 (Z.leb_gt _ _) Hr).
    destruct (node_at r frame_id) as [n|] eqn:Hn; [|done].
    pose proof (node_at_lt _ _ _ Hn) as Hlt.
    destruct (is_evictable_ n); [|done]. simpl.
    eexists. split; [done|].
    split; [by rewrite node_at_set_node, decide_True|].
    split; [intros g Hg; by rewrite node_at_set_node_ne|done].
Qed.

Lemma Remove_cases_witness :
  let r := run [CRecordAccess 0; CRecordAccess 1; CSetEvictable 0 true]
             (LRUKReplacer_new 3 2) in
  Remove 5 r = Throw "Invalid frame_id" /\
  Remove 2 r = Throw "Invalid frame_id" /\
  Remove 1 r = Throw "Frame not evictable" /\
  exists r', Remove 0 r = Ok r' /\ node_at r' 0 = None /\ pq_ r' = pq_ r /\ Size r' = 1.
Proof.
  intros r.
  destruct (Remove_cases r 5) as [H5 _].
  destruct (Remove_cases r 2) as [_ H2].
  destruct (Remove_cases r 1) as [_ H1].
  destruct (Remove_cases r 0) as [_ H0].
  split; [apply H5; vm_compute; discriminate|].
  split; [apply H2; reflexivity|].
  split; [apply H1; reflexivity|].
  destruct (H0 eq_refl) as (r' & Hr & Hn & _ & Hq & Hs & _).
  exists r'. split; [exact Hr|]. split; [exact Hn|]. split; [exact Hq|exact Hs].
Defined.

(** *** The order of the heap *)

(** X7. [PQNode::operator<] is a strict weak ordering, as
    [std::priority_queue] requires of its comparison: it is irreflexive
    and transitive, and two entries are incomparable exactly when their
    two timestamps agree.  An entry is below another one exactly when its
    K-th last timestamp is larger, or the same with a larger earliest
    timestamp, so that the top of the heap has the smallest pair. *)
Theorem PQNode_lt_strict_weak_order (a b c : PQNode) :
  PQNode_lt a a = false /\
  (PQNode_lt a b = true -> PQNode_lt b c = true -> PQNode_lt a c = true) /\
  (PQNode_lt a b = false /\ PQNode_lt b a = false <-> key a = key b) /\
  (PQNode_lt a b = true <->
   kth_last_timestamp_ b < kth_last_timestamp_ a \/
   (kth_last_timestamp_ b = kth_last_timestamp_ a /\
    earliest_timestamp_ b < earliest_timestamp_ a)).
Proof.
  destruct a as [fa ka ea], b as [fb kb eb], c as [fc kc ec].
  unfold PQNode_lt, tie_gt, key; simpl.
  rewrite !orb_true_iff, !andb_true_iff, !orb_false_iff, !andb_false_iff,
    !Z.ltb_lt, !Z.ltb_ge, !Z.eqb_eq, !Z.eqb_neq.
  split; [lia|]. split; [lia|]. split; [|lia].
  split; [intros H; f_equal; lia|intros [= -> ->]; lia].
Qed.

(** *** The counter, call by call *)

Lemma counter_off_RecordAccess c f r r' :
  counter_off c r -> RecordAccess f r = Ok r' -> counter_off c r'.
Proof.
  intros Hc Hr. pose proof (apply_call_counter_off c r (CRecordAccess f) Hc) as H.
  simpl in H. rewrite Hr, !Z.add_0_r in H. exact H.
Qed.

Lemma counter_off_SetEvictable c f b r r' :
  counter_off c r -> SetEvictable f b r = Ok r' -> counter_off c r'.
Proof.
  intros Hc Hr. pose proof (apply_call_counter_off c r (CSetEvictable f b) Hc) as H.
  simpl in H. rewrite Hr, !Z.add_0_r in H. exact H.
Qed.

Lemma counter_off_Remove c f r r' :
  counter_off c r -> Remove f r = Ok r' -> counter_off (c + 1) r'.
Proof.
  intros Hc Hr. pose proof (apply_call_counter_off c r (CRemove f) Hc) as H.
  simpl in H. rewrite Hr in H. simpl in H. exact H.
Qed.

Lemma counter_off_Evict c r : counter_off c r -> counter_off c (Evict r).1.
Proof.
  intros Hc. pose proof (apply_call_counter_off c r CEvict Hc) as H.
  simpl in H. rewrite !Z.add_0_r in H. exact H.
Qed.
End ReplacerFacts.

(** ** The disk scheduler *)

Module SchedulerFacts.
Import Scheduler SchedulerSpec.

Lemma pending_app q q' : pending (q ++ q') = pending q ++ pending q'.
Proof. apply omap_app. Qed.

Lemma pending_Some r q : pending (Some r :: q) = r :: pending q.
Proof. done. Qed.

Lemma pending_None q : pending (None :: q) = pending q.
Proof. done. Qed.

Lemma on_page_app p l l' : on_page p (l ++ l') = on_page p l ++ on_page p l'.
Proof. unfold on_page. by rewrite filter_app, fmap_app. Qed.

Lemma on_page_cons p r l :
  on_page p (r :: l) =
  (if decide (page_id_ r = p) then [(is_write_ r, page_id_ r)] else []) ++ on_page p l.
Proof. unfold on_page. rewrite filter_cons. by case_decide. Qed.

Lemma seen_serve p r d :
  seen_on_page p (serve r d) = seen_on_page p d ++ on_page p [r].
Proof.
  rewrite on_page_cons. unfold seen_on_page, serve, on_page.
  destruct r as [w data q c]; simpl. destruct w; simpl; rewrite filter_app, filter_cons;
    simpl; repeat case_decide; try done; by rewrite filter_nil, ?app_nil_r.
Qed.

Lemma shard_queue_insert s i j w :
  (i < length (workers_ s))%nat ->
  default [] (shard_queue_ <$> <[i := w]> (workers_ s) !! j)
  = if decide (i = j) then shard_queue_ w else shard_queue s j.
Proof.
  intros Hi. unfold shard_queue. case_decide as Hij.
  - subst j. by rewrite list_lookup_insert_eq.
  - by rewrite list_lookup_insert_ne.
Qed.

Section NumWorkers.

Variable NUM_WORKERS : Z.
Hypothesis NUM_WORKERS_pos : 0 < NUM_WORKERS.

Lemma shard_of_lt p : (shard_of NUM_WORKERS p < Z.to_nat NUM_WORKERS)%nat.
Proof.
  unfold shard_of, ShardHash.
  pose proof (Z.mod_pos_bound (to_size_t p) NUM_WORKERS NUM_WORKERS_pos). lia.
Qed.

Lemma flows_new d0 : flows NUM_WORKERS d0 [] (DiskScheduler_new NUM_WORKERS d0).
Proof.
  split; simpl.
  - by rewrite length_replicate.
  - intros i w r Hw Hr. apply lookup_replicate in Hw as [-> _]. by apply elem_of_nil in Hr.
  - intros p. unfold in_order, shard_queue; simpl.
    rewrite lookup_replicate_2 by apply shard_of_lt. simpl.
    by rewrite app_nil_r.
Qed.

Lemma flows_put_sentinel d0 sub s i :
  flows NUM_WORKERS d0 sub s ->
  flows NUM_WORKERS d0 sub
    {| request_queue_ := request_queue_ s;
       background_running_ := false;
       workers_ := put_shard i None (workers_ s);
       disk_manager_ := disk_manager_ s;
       promises_ := promises_ s |}.
Proof.
  intros [Hlen Hr Ho]. unfold put_shard.
  destruct (workers_ s !! i) as [w|] eqn:Hw; [|by split].
  pose proof (lookup_lt_Some _ _ _ Hw) as Hi.
  split; simpl.
  - by rewrite length_insert.
  - intros j w' r Hw' Hin; simpl in Hw'. destruct (decide (i = j)) as [<-|Hij].
    + rewrite list_lookup_insert_eq in Hw' by done. injection Hw' as <-. simpl in Hin.
      apply elem_of_app in Hin as [Hin|Hin]; [by eapply Hr|].
      by apply list_elem_of_singleton in Hin.
    + rewrite list_lookup_insert_ne in Hw' by done. by eapply Hr.
  - intros p. specialize (Ho p). unfold in_order in *; simpl.
    unfold shard_queue at 1; simpl. rewrite shard_queue_insert by done.
    case_decide as Hp; [|done]; simpl.
    rewrite pending_app; simpl. rewrite app_nil_r.
    unfold shard_queue in Ho. rewrite <- Hp, Hw in Ho. done.
Qed.

Lemma flows_step d0 sub a s s' :
  flows NUM_WORKERS d0 sub s -> step NUM_WORKERS a s = Some s' ->
  flows NUM_WORKERS d0 (sub ++ submitted [a]) s'.
Proof.
  intros HF. pose proof HF as [Hlen Hr Ho]. destruct a as [r| |i| |i]; simpl.
  - (* Schedule *)
    intros [= <-]. split; simpl; [done|done|].
    intros p. specialize (Ho p). unfold in_order in *; simpl.
    change (shard_queue (Schedule r s)) with (shard_queue s).
    rewrite pending_app, !on_page_app, !app_assoc.
    rewrite <- (app_assoc (seen_on_page p (disk_manager_ s))), Ho. done.
  - (* the dispatcher *)
    rewrite app_nil_r. unfold dispatch.
    destruct (background_running_ s); [|done].
    destruct (request_queue_ s) as [|[r|] q] eqn:Hq; [done| |].
    + intros [= <-]. unfold put_shard.
      pose proof (shard_of_lt (page_id_ r)) as Hlt. rewrite <- Hlen in Hlt.
      destruct (lookup_lt_is_Some_2 _ _ Hlt) as [w Hw]. rewrite Hw.
      split; simpl.
      * by rewrite length_insert.
      * intros j w' r' Hw' Hin; simpl in Hw'.
        destruct (decide (shard_of NUM_WORKERS (page_id_ r) = j)) as [<-|Hij].
        -- rewrite list_lookup_insert_eq in Hw' by done. injection Hw' as <-. simpl in Hin.
           apply elem_of_app in Hin as [Hin|Hin]; [by eapply Hr|].
           apply list_elem_of_singleton in Hin. by injection Hin as ->.
        -- rewrite list_lookup_insert_ne in Hw' by done. by eapply Hr.
      * intros p. specialize (Ho p). unfold in_order in *; simpl in *.
        unfold shard_queue at 1; simpl. rewrite shard_queue_insert by done.
        rewrite Hq, pending_Some, on_page_cons in Ho. rewrite <- Ho.
        assert (Hsq : shard_queue s (shard_of NUM_WORKERS (page_id_ r)) = shard_queue_ w)
          by (unfold shard_queue; by rewrite Hw).
        destruct (decide (page_id_ r = p)) as [<-|Hp].
        -- rewrite decide_True by done. simpl.
           rewrite pending_app, on_page_app, pending_Some, on_page_cons, decide_True by done.
           rewrite Hsq. simpl. by rewrite <- !app_assoc.
        -- case_decide as Hs; [|done]. simpl.
           rewrite pending_app, on_page_app, pending_Some, on_page_cons, decide_False by done.
           rewrite <- Hs, Hsq. simpl. by rewrite app_nil_r.
    + intros [= <-]. split; simpl; [done|done|].
      intros p. specialize (Ho p). unfold in_order in *; simpl in *.
      by rewrite Hq, pending_None in Ho.
  - (* a worker *)
    rewrite app_nil_r. unfold work.
    destruct (workers_ s !! i) as [w|] eqn:Hw; [|done].
    pose proof (lookup_lt_Some _ _ _ Hw) as Hi.
    destruct (worker_running_ w); [|done].
    destruct (shard_queue_ w) as [|[r|] q] eqn:Hq; [done| |].
    + intros [= <-].
      assert (Hri : shard_of NUM_WORKERS (page_id_ r) = i).
      { apply (Hr i w r Hw). rewrite Hq. by left. }
      split; simpl.
      * by rewrite length_insert.
      * intros j w' r' Hw' Hin; simpl in Hw'. destruct (decide (i = j)) as [<-|Hij].
        -- rewrite list_lookup_insert_eq in Hw' by done. injection Hw' as <-. simpl in Hin.
           apply (Hr i w r' Hw). rewrite Hq. by right.
        -- rewrite list_lookup_insert_ne in Hw' by done. by eapply Hr.
      * intros p. specialize (Ho p). unfold in_order in *; simpl in *.
        unfold shard_queue at 1; simpl. rewrite shard_queue_insert by done.
        rewrite seen_serve, on_page_cons; simpl. rewrite app_nil_r. rewrite <- Ho.
        assert (Hsq : shard_queue s i = Some r :: q)
          by (unfold shard_queue; by rewrite Hw; simpl).
        destruct (decide (page_id_ r = p)) as [<-|Hp].
        -- rewrite Hri, decide_True, Hsq, pending_Some, on_page_cons, decide_True by done.
           by rewrite <- !app_assoc.
        -- rewrite app_nil_r. case_decide as Hs; [|done].
           by rewrite <- Hs, Hsq, pending_Some, on_page_cons, decide_False.
    + intros [= <-]. split; simpl.
      * by rewrite length_insert.
      * intros j w' r' Hw' Hin; simpl in Hw'. destruct (decide (i = j)) as [<-|Hij].
        -- rewrite list_lookup_insert_eq in Hw' by done. injection Hw' as <-. simpl in Hin.
           apply (Hr i w r' Hw). rewrite Hq. by right.
        -- rewrite list_lookup_insert_ne in Hw' by done. by eapply Hr.
      * intros p. specialize (Ho p). unfold in_order in *; simpl in *.
        unfold shard_queue at 1; simpl. rewrite shard_queue_insert by done.
        rewrite <- Ho. case_decide as Hs; [|done]; simpl.
        unfold shard_queue. rewrite <- Hs, Hw; simpl. by rewrite Hq, pending_None.
  - (* the sentinel of the dispatcher *)
    rewrite app_nil_r. intros [= <-]. split; simpl; [done|done|].
    intros p. specialize (Ho p). unfold in_order in *; simpl.
    change (shard_queue (stop_dispatcher s)) with (shard_queue s).
    rewrite pending_app; simpl. by rewrite app_nil_r.
  - (* the sentinel of a worker *)
    rewrite app_nil_r. unfold stop_worker.
    destruct (background_running_ s); [done|]. intros [= <-].
    by apply flows_put_sentinel.
Qed.

Lemma flows_exec d0 tr : forall sub s s',
  flows NUM_WORKERS d0 sub s -> exec NUM_WORKERS tr s = Some s' ->
  flows NUM_WORKERS d0 (sub ++ submitted tr) s'.
Proof.
  induction tr as [|a tr IH]; intros sub s s' HF; simpl.
  - intros [= <-]. by rewrite app_nil_r.
  - destruct (step NUM_WORKERS a s) as [s1|] eqn:Hs; [|done]. intros He.
    pose proof (IH _ _ _ (flows_step _ _ _ _ _ HF Hs) He) as H.
    rewrite <- app_assoc in H. by destruct a.
Qed.

End NumWorkers.

(** C8. Along every execution of the scheduler (the dispatcher and the
    workers interleaved in any way), with at least one worker: two
    requests for the same page have the same shard, which is the page id
    modulo [NUM_WORKERS]; every request waiting in a shard is in the
    shard of its page; and for every page the operations submitted on it
    are, in submission order, those the disk manager has seen, then those
    waiting in that shard's queue, then those waiting in the ingress
    queue, so that the disk manager sees the operations on a page in
    submission order.  With two workers or more, pages 0 and 1 have
    different shards. *)
Theorem per_page_order (NUM_WORKERS : Z) (d0 : DiskManager) (tr : list action)
    (s : DiskScheduler) :
  0 < NUM_WORKERS ->
  exec NUM_WORKERS tr (DiskScheduler_new NUM_WORKERS d0) = Some s ->
  (forall r1 r2, page_id_ r1 = page_id_ r2 ->
     shard_of NUM_WORKERS (page_id_ r1) = shard_of NUM_WORKERS (page_id_ r2)) /\
  (forall p, 0 <= p < SIZE_T_MODULUS ->
     Z.of_nat (shard_of NUM_WORKERS p) = p mod NUM_WORKERS) /\
  routed NUM_WORKERS s /\
  (forall p, in_order NUM_WORKERS d0 (submitted tr) s p) /\
  (forall p, seen_on_page p (disk_manager_ s)
             `prefix_of` seen_on_page p d0 ++ on_page p (submitted tr)) /\
  (2 <= NUM_WORKERS -> shard_of NUM_WORKERS 0 <> shard_of NUM_WORKERS 1).
Proof.
  intros Hpos Hexec.
  pose proof (flows_exec NUM_WORKERS Hpos d0 tr [] _ _ (flows_new NUM_WORKERS Hpos d0) Hexec)
    as [_ Hr Ho].
  simpl in Ho. split; [by intros r1 r2 ->|]. split.
  { intros p Hp. unfold shard_of, ShardHash, to_size_t.
    rewrite (Z.mod_small p) by done.
    pose proof (Z.mod_pos_bound p NUM_WORKERS Hpos). lia. }
  split; [done|]. split; [done|]. split.
  { intros p. rewrite <- (Ho p). by eexists. }
  intros H2. unfold shard_of, ShardHash.
  change (to_size_t 0) with 0. change (to_size_t 1) with 1.
  rewrite Z.mod_0_l, Z.mod_1_l by lia. discriminate.
Qed.

(** C8, with four workers: a write and a read of page 1 and a write of
    page 5, dispatched, and shard 1 served twice. *)
Lemma per_page_order_witness :
  let w1 := {| is_write_ := true; data_ := []; page_id_ := 1; callback_ := 0 |} in
  let r1 := {| is_write_ := false; data_ := []; page_id_ := 1; callback_ := 1 |} in
  let w5 := {| is_write_ := true; data_ := []; page_id_ := 5; callback_ := 2 |} in
  let tr := [ASchedule w1; ASchedule r1; ADispatch; ASchedule w5; ADispatch; ADispatch;
             AWork 1; AWork 1] in
  exists s, exec 4 tr (DiskScheduler_new 4 DiskManager_new) = Some s /\
    observed_ (disk_manager_ s) = [(true, 1); (false, 1)] /\
    pending (shard_queue s 1) = [w5] /\
    in_order 4 DiskManager_new (submitted tr) s 1 /\
    in_order 4 DiskManager_new (submitted tr) s 5 /\
    shard_of 4 0 <> shard_of 4 1.
Proof.
  intros w1 r1 w5 tr.
  assert (H4 : 0 < 4) by lia.
  destruct (exec 4 tr (DiskScheduler_new 4 DiskManager_new)) as [s|] eqn:Hexec;
    [|discriminate Hexec].
  pose proof (per_page_order 4 DiskManager_new tr s H4 Hexec) as (_ & _ & _ & Ho & _ & Hd).
  exists s. split; [reflexivity|].
  injection Hexec as <-.
  split; [reflexivity|]. split; [reflexivity|].
  split; [apply Ho|]. split; [apply Ho|]. apply Hd. lia.
Defined.

(** *** Every request is served once *)

Lemma reqs_on_app p l l' : reqs_on p (l ++ l') = reqs_on p l ++ reqs_on p l'.
Proof. apply filter_app. Qed.

Lemma reqs_on_cons p r l :
  reqs_on p (r :: l) = (if decide (page_id_ r = p) then [r] else []) ++ reqs_on p l.
Proof. unfold reqs_on. rewrite filter_cons. by case_decide. Qed.

Lemma has_sentinel_snoc q x :
  has_sentinel (q ++ [x]) = has_sentinel q || negb (bool_decide (is_Some x)).
Proof.
  induction q as [|[r|] q IH]; simpl; [by destruct x|done|done].
Qed.

Lemma before_stop_snoc_Some q r :
  before_stop (q ++ [Some r]) = if has_sentinel q then before_stop q else before_stop q ++ [r].
Proof.
  induction q as [|[r'|] q IH]; simpl; [done| |done]. rewrite IH. by destruct (has_sentinel q).
Qed.

Lemma before_stop_snoc_None q : before_stop (q ++ [None]) = before_stop q.
Proof. induction q as [|[r'|] q IH]; simpl; [done| |done]. by rewrite IH. Qed.

Lemma sentinels_last_snoc_Some q r :
  has_sentinel q = false -> sentinels_last (q ++ [Some r]).
Proof. induction q as [|[r'|] q IH]; simpl; [done| |done]. exact IH. Qed.

Lemma sentinels_last_snoc_None q : sentinels_last q -> sentinels_last (q ++ [None]).
Proof.
  induction q as [|[r'|] q IH]; simpl; [done|exact IH|].
  intros H. by rewrite pending_app, H.
Qed.

Lemma pending_nil_sentinels_last q : pending q = [] -> sentinels_last q.
Proof. induction q as [|[r'|] q IH]; [done|done|]. intros H. exact H. Qed.

Lemma foldl_serve_snoc d0 l r :
  foldl (λ d r, serve r d) d0 (l ++ [r]) = serve r (foldl (λ d r, serve r d) d0 l).
Proof. by rewrite foldl_app. Qed.

Lemma app_if_nil {A} (b : bool) (l : list A) : l ++ (if b then [] else []) = l.
Proof. destruct b; apply app_nil_r. Qed.

Section Drains.

Variable NUM_WORKERS : Z.
Hypothesis NUM_WORKERS_pos : 0 < NUM_WORKERS.

Lemma drains_new d0 : drains NUM_WORKERS d0 [] [] (DiskScheduler_new NUM_WORKERS d0).
Proof.
  split; simpl.
  - exists []. by apply flows_new.
  - intros p. unfold shard_queue, dispatchable; simpl.
    by rewrite lookup_replicate_2 by (by apply shard_of_lt).
  - done.
  - intros c. apply lookup_empty.
  - intros _ i w Hw. by apply lookup_replicate in Hw as [-> _].
  - intros i w Hw. by apply lookup_replicate in Hw as [-> _].
Qed.

Lemma drains_step d0 acc srv a s s' :
  drains NUM_WORKERS d0 acc srv s -> step NUM_WORKERS a s = Some s' ->
  drains NUM_WORKERS d0 (acc ++ acc_step a s) (srv ++ served_by a s) s'.
Proof.
  intros HD Hstep. pose proof HD as [[sub HF] Hp Hd Hpr Hrun Hst].
  pose proof HF as [Hlen Hr _].
  assert (HF' : exists sub', flows NUM_WORKERS d0 sub' s').
  { eexists. by eapply flows_step. }
  unfold acc_step, stopping.
  destruct a as [r| |i| |i]; simpl in Hstep; cbn [served_by submitted].
  - (* Schedule *)
    injection Hstep as <-. rewrite app_nil_r.
    split; [done| |done|done|done|done]. intros p. specialize (Hp p).
    change (shard_queue (Schedule r s)) with (shard_queue s).
    unfold dispatchable in *. simpl.
    destruct (background_running_ s); simpl.
    + rewrite before_stop_snoc_Some. destruct (has_sentinel (request_queue_ s)).
      * by rewrite (app_nil_r acc).
      * by rewrite !reqs_on_app, !app_assoc, <- (app_assoc (reqs_on p srv)), Hp.
    + by rewrite (app_nil_r acc).
  - (* the dispatcher *)
    rewrite !app_nil_r, app_if_nil.
    unfold dispatch in Hstep.
    destruct (background_running_ s) eqn:Hbg; [|done].
    destruct (request_queue_ s) as [|[r|] q] eqn:Hq; [done| |].
    + injection Hstep as <-. unfold put_shard.
      pose proof (shard_of_lt NUM_WORKERS NUM_WORKERS_pos (page_id_ r)) as Hlt.
      rewrite <- Hlen in Hlt.
      destruct (lookup_lt_is_Some_2 _ _ Hlt) as [w Hw].
      unfold put_shard in HF'. rewrite Hw in HF' |- *.
      destruct (Hrun eq_refl _ _ Hw) as [Hwr Hws].
      assert (Hsq : shard_queue s (shard_of NUM_WORKERS (page_id_ r)) = shard_queue_ w)
        by (unfold shard_queue; by rewrite Hw).
      split; simpl; [done| |done|done| |].
      * intros p. specialize (Hp p). unfold dispatchable in *; simpl in *.
        rewrite Hbg, Hq in Hp. simpl in Hp. rewrite reqs_on_cons in Hp. rewrite <- Hp.
        unfold shard_queue at 1; simpl. rewrite shard_queue_insert by done.
        destruct (decide (page_id_ r = p)) as [<-|Hne].
        -- rewrite decide_True by done. simpl.
           rewrite pending_app, reqs_on_app, pending_Some, reqs_on_cons, decide_True by done.
           rewrite Hsq. simpl. by rewrite <- !app_assoc.
        -- case_decide as Hs; [|done]. simpl.
           rewrite pending_app, reqs_on_app, pending_Some, reqs_on_cons, decide_False by done.
           rewrite <- Hs, Hsq. simpl. by rewrite app_nil_r.
      * intros _ j w' Hw'.
        destruct (decide (shard_of NUM_WORKERS (page_id_ r) = j)) as [<-|Hij].
        -- rewrite list_lookup_insert_eq in Hw' by done. injection Hw' as <-. simpl.
           split; [done|]. rewrite has_sentinel_snoc, Hws. done.
        -- rewrite list_lookup_insert_ne in Hw' by done. by apply (Hrun eq_refl j).
      * intros j w' Hw'.
        destruct (decide (shard_of NUM_WORKERS (page_id_ r) = j)) as [<-|Hij].
        -- rewrite list_lookup_insert_eq in Hw' by done. injection Hw' as <-. simpl.
           split; [congruence|]. by apply sentinels_last_snoc_Some.
        -- rewrite list_lookup_insert_ne in Hw' by done. by apply (Hst j).
    + injection Hstep as <-. split; simpl; [done| |done|done|done|done].
      intros p. specialize (Hp p). unfold dispatchable in *; simpl in *.
      by rewrite Hbg, Hq in Hp.
  - (* a worker *)
    rewrite app_if_nil.
    unfold work in Hstep.
    destruct (workers_ s !! i) as [w|] eqn:Hw; [|done].
    pose proof (lookup_lt_Some _ _ _ Hw) as Hi.
    destruct (worker_running_ w) eqn:Hwr; [|done].
    destruct (Hst i w Hw) as [_ Hsl].
    assert (Hsq : shard_queue s i = shard_queue_ w) by (unfold shard_queue; by rewrite Hw).
    destruct (shard_queue_ w) as [|[r|] q] eqn:Hq; [done| |].
    + injection Hstep as <-.
      assert (Hri : shard_of NUM_WORKERS (page_id_ r) = i).
      { apply (Hr i w r Hw). rewrite Hq. by left. }
      split; simpl; [done| | | | |].
      * intros p. specialize (Hp p). unfold dispatchable in *; simpl in *.
        rewrite <- Hp. unfold shard_queue at 1; simpl. rewrite shard_queue_insert by done.
        rewrite reqs_on_app, reqs_on_cons. simpl. rewrite app_nil_r.
        destruct (decide (page_id_ r = p)) as [<-|Hne].
        -- rewrite Hri, decide_True, Hsq, pending_Some, reqs_on_cons, decide_True by done.
           by rewrite <- !app_assoc.
        -- rewrite app_nil_r. case_decide as Hs; [|done].
           by rewrite <- Hs, Hsq, pending_Some, reqs_on_cons, decide_False.
      * by rewrite foldl_serve_snoc, Hd.
      * intros c. rewrite fmap_app. simpl.
        destruct (decide (c = callback_ r)) as [->|Hc].
        -- rewrite lookup_insert_eq, decide_True; [done|].
           apply elem_of_app. right. by left.
        -- rewrite lookup_insert_ne by done. rewrite Hpr.
           destruct (decide (c ∈ callback_ <$> srv)) as [Hin|Hin].
           ++ rewrite decide_True; [done|]. apply elem_of_app. by left.
           ++ rewrite decide_False; [done|]. intros [?|Hx]%elem_of_app; [done|].
              by apply list_elem_of_singleton in Hx.
      * intros Hbg j w' Hw'. destruct (decide (i = j)) as [<-|Hij].
        -- rewrite list_lookup_insert_eq in Hw' by done. injection Hw' as <-. simpl.
           split; [done|]. destruct (Hrun Hbg i w Hw) as [_ Hs]. by rewrite Hq in Hs.
        -- rewrite list_lookup_insert_ne in Hw' by done. by apply (Hrun Hbg j).
      * intros j w' Hw'. destruct (decide (i = j)) as [<-|Hij].
        -- rewrite list_lookup_insert_eq in Hw' by done. injection Hw' as <-. simpl.
           split; [done|exact Hsl].
        -- rewrite list_lookup_insert_ne in Hw' by done. by apply (Hst j).
    + injection Hstep as <-. rewrite app_nil_r.
      split; simpl; [done| |done|done| |].
      * intros p. specialize (Hp p). unfold dispatchable in *; simpl in *.
        rewrite <- Hp. unfold shard_queue at 1; simpl. rewrite shard_queue_insert by done.
        case_decide as Hs; [|done]. simpl.
        by rewrite <- Hs, Hsq, pending_None.
      * intros Hbg. destruct (Hrun Hbg i w Hw) as [_ Hs]. by rewrite Hq in Hs.
      * intros j w' Hw'. destruct (decide (i = j)) as [<-|Hij].
        -- rewrite list_lookup_insert_eq in Hw' by done. injection Hw' as <-. simpl.
           simpl in Hsl. split; [done|by apply pending_nil_sentinels_last].
        -- rewrite list_lookup_insert_ne in Hw' by done. by apply (Hst j).
  - (* the sentinel of the dispatcher *)
    injection Hstep as <-. rewrite !app_nil_r.
    rewrite app_if_nil.
    split; [done| |done|done|done|done]. intros p. specialize (Hp p).
    change (shard_queue (stop_dispatcher s)) with (shard_queue s).
    unfold dispatchable in *. simpl.
    destruct (background_running_ s); [|done]. by rewrite before_stop_snoc_None.
  - (* the sentinel of a worker *)
    rewrite !app_nil_r.
    rewrite app_if_nil.
    unfold stop_worker in Hstep.
    destruct (background_running_ s) eqn:Hbg; [done|]. injection Hstep as <-.
    unfold put_shard in HF' |- *.
    destruct (workers_ s !! i) as [w|] eqn:Hw.
    2:{ split; simpl; [done| |done|done|done|done].
        intros p. specialize (Hp p). unfold dispatchable in *; simpl in *.
        by rewrite Hbg in Hp. }
    pose proof (lookup_lt_Some _ _ _ Hw) as Hi.
    split; simpl; [done| |done|done|done|].
    + intros p. specialize (Hp p). unfold dispatchable in *; simpl in *.
      rewrite Hbg in Hp. rewrite <- Hp.
      unfold shard_queue at 1; simpl. rewrite shard_queue_insert by done.
      case_decide as Hs; [|done]. simpl.
      rewrite pending_app. simpl. change (reqs_on p []) with (@nil DiskRequest).
      rewrite !app_nil_r. unfold shard_queue. by rewrite <- Hs, Hw.
    + intros j w' Hw'. destruct (decide (i = j)) as [<-|Hij].
      * rewrite list_lookup_insert_eq in Hw' by done. injection Hw' as <-. simpl.
        destruct (Hst i w Hw) as [H1 H2].
        split; [|by apply sentinels_last_snoc_None].
        intros Hwr. rewrite pending_app, (H1 Hwr). done.
      * rewrite list_lookup_insert_ne in Hw' by done. by apply (Hst j).
Qed.

End Drains.

Lemma stopping_step NUM_WORKERS a s s' :
  step NUM_WORKERS a s = Some s' ->
  stopping s' = stopping s || match a with AStopDispatcher => true | _ => false end.
Proof.
  unfold stopping. destruct a as [r| |i| |i]; simpl.
  - intros [= <-]. simpl. rewrite has_sentinel_snoc. simpl. by rewrite !orb_false_r.
  - unfold dispatch. destruct (background_running_ s); [|done].
    destruct (request_queue_ s) as [|[r|] q]; [done| |]; intros [= <-]; simpl;
      by rewrite ?orb_false_r.
  - unfold work. destruct (workers_ s !! i) as [w|]; [|done].
    destruct (worker_running_ w); [|done].
    destruct (shard_queue_ w) as [|[r|] q]; [done| |]; intros [= <-]; simpl;
      by rewrite ?orb_false_r.
  - intros [= <-]. simpl. rewrite has_sentinel_snoc. simpl.
    by rewrite !orb_true_r.
  - unfold stop_worker. destruct (background_running_ s); [done|]. by intros [= <-].
Qed.

Lemma drains_exec NUM_WORKERS d0 tr : forall acc srv s s',
  0 < NUM_WORKERS ->
  drains NUM_WORKERS d0 acc srv s -> exec NUM_WORKERS tr s = Some s' ->
  drains NUM_WORKERS d0 (acc ++ (if stopping s then [] else accepted tr))
    (srv ++ served NUM_WORKERS tr s) s'.
Proof.
  induction tr as [|a tr IH]; intros acc srv s s' Hpos HD; simpl.
  - intros [= <-]. by rewrite app_if_nil, app_nil_r.
  - destruct (step NUM_WORKERS a s) as [s1|] eqn:Hs; [|done]. intros He.
    pose proof (IH _ _ _ _ Hpos (drains_step NUM_WORKERS Hpos _ _ _ _ _ _ HD Hs) He) as H.
    rewrite <- !app_assoc in H.
    replace (acc_step a s ++ (if stopping s1 then [] else accepted tr))
      with (if stopping s then []
            else match a with
                 | ASchedule r => r :: accepted tr
                 | AStopDispatcher => []
                 | _ => accepted tr
                 end) in H; [by destruct a|].
    rewrite (stopping_step _ _ _ _ Hs). unfold acc_step.
    destruct (stopping s); [done|]. by destruct a.
Qed.

Lemma drains_run NUM_WORKERS d0 tr s :
  0 < NUM_WORKERS ->
  exec NUM_WORKERS tr (DiskScheduler_new NUM_WORKERS d0) = Some s ->
  drains NUM_WORKERS d0 (accepted tr)
    (served NUM_WORKERS tr (DiskScheduler_new NUM_WORKERS d0)) s.
Proof.
  intros Hpos He.
  exact (drains_exec NUM_WORKERS d0 tr [] [] _ _ Hpos (drains_new NUM_WORKERS Hpos d0) He).
Qed.

Lemma elem_of_reqs_on r l : r ∈ l <-> r ∈ reqs_on (page_id_ r) l.
Proof.
  unfold reqs_on. rewrite list_elem_of_filter. split; [by intros H|by intros [_ H]].
Qed.

Lemma contents_foldl_serve p l : forall d0,
  contents_ (foldl (λ d r, serve r d) d0 l) !! p
  = last_write (reqs_on p l) (contents_ d0 !! p).
Proof.
  induction l as [|r l IH]; intros d0; [done|].
  simpl. rewrite IH, reqs_on_cons. unfold serve, last_write.
  destruct (decide (page_id_ r = p)) as [<-|Hne]; simpl.
  - destruct (is_write_ r); simpl; [by rewrite lookup_insert_eq|done].
  - destruct (is_write_ r); simpl; [by rewrite lookup_insert_ne|done].
Qed.

(** X8. Along every execution of the scheduler with at least one
    worker, the requests for a page that were submitted before the
    sentinel of the destructor are, in submission order and each exactly
    once, those handed to the disk manager, then those waiting in the
    shard of the page, then those the dispatcher will still take from the
    ingress queue; the state of the disk manager is that of the served
    requests applied in the order of the calls, and nothing is served that
    was not submitted before the sentinel. *)
Theorem requests_served_once (NUM_WORKERS : Z) (d0 : DiskManager) (tr : list action)
    (s : DiskScheduler) :
  0 < NUM_WORKERS ->
  exec NUM_WORKERS tr (DiskScheduler_new NUM_WORKERS d0) = Some s ->
  let srv := served NUM_WORKERS tr (DiskScheduler_new NUM_WORKERS d0) in
  (forall p,
     reqs_on p srv ++ reqs_on p (pending (shard_queue s (shard_of NUM_WORKERS p)))
       ++ reqs_on p (dispatchable s)
     = reqs_on p (accepted tr)) /\
  disk_manager_ s = foldl (λ d r, serve r d) d0 srv /\
  (forall r, r ∈ srv -> r ∈ accepted tr).
Proof.
  intros Hpos He srv. destruct (drains_run NUM_WORKERS d0 tr s Hpos He) as [_ Hp Hd _ _ _].
  split; [done|]. split; [done|].
  intros r Hr. apply (proj2 (elem_of_reqs_on r _)). rewrite <- Hp.
  apply elem_of_app. left. by apply (proj1 (elem_of_reqs_on r _)).
Qed.

(** X9. When no request for page [p] is waiting in its shard or is left
    for the dispatcher, the disk holds for [p] the payload of the last
    write of [p] submitted before the sentinel of the destructor, however
    the dispatcher and the workers were interleaved, and what it held at
    the start if there was no such write. *)
Theorem last_write_wins (NUM_WORKERS : Z) (d0 : DiskManager) (tr : list action)
    (s : DiskScheduler) (p : page_id_t) :
  0 < NUM_WORKERS ->
  exec NUM_WORKERS tr (DiskScheduler_new NUM_WORKERS d0) = Some s ->
  reqs_on p (pending (shard_queue s (shard_of NUM_WORKERS p))) = [] ->
  reqs_on p (dispatchable s) = [] ->
  contents_ (disk_manager_ s) !! p
  = last_write (reqs_on p (accepted tr)) (contents_ d0 !! p).
Proof.
  intros Hpos He Hs Hq. destruct (drains_run NUM_WORKERS d0 tr s Hpos He) as [_ Hp Hd _ _ _].
  rewrite Hd, contents_foldl_serve, <- (Hp p), Hs, Hq. by rewrite !app_nil_r.
Qed.

(** X10. A promise is fulfilled exactly when a request with this
    callback has been handed to the disk manager, and its value is true:
    a future that has resolved tells that the disk manager was called. *)
Theorem promise_means_served (NUM_WORKERS : Z) (d0 : DiskManager) (tr : list action)
    (s : DiskScheduler) (c : nat) :
  0 < NUM_WORKERS ->
  exec NUM_WORKERS tr (DiskScheduler_new NUM_WORKERS d0) = Some s ->
  let srv := served NUM_WORKERS tr (DiskScheduler_new NUM_WORKERS d0) in
  (promises_ s !! c = Some true <-> exists r, r ∈ srv /\ callback_ r = c) /\
  promises_ s !! c <> Some false.
Proof.
  intros Hpos He srv. destruct (drains_run NUM_WORKERS d0 tr s Hpos He) as [_ _ _ Hpr _ _].
  rewrite (Hpr c). fold srv. case_decide as Hin.
  - split; [|done]. split; [|done]. intros _.
    apply list_elem_of_fmap in Hin as (r & -> & Hr). by exists r.
  - split; [|done]. split; [done|]. intros (r & Hr & <-). exfalso. apply Hin.
    apply list_elem_of_fmap. by exists r.
Qed.

(** X11. The destructor drains the scheduler: once the dispatcher has
    taken its sentinel and every worker has left its loop, every request
    submitted before the sentinel has been handed to the disk manager, in
    submission order for every page, and its promise is fulfilled. *)
Theorem shutdown_drains (NUM_WORKERS : Z) (d0 : DiskManager) (tr : list action)
    (s : DiskScheduler) :
  0 < NUM_WORKERS ->
  exec NUM_WORKERS tr (DiskScheduler_new NUM_WORKERS d0) = Some s ->
  background_running_ s = false ->
  (forall i w, workers_ s !! i = Some w -> worker_running_ w = false) ->
  let srv := served NUM_WORKERS tr (DiskScheduler_new NUM_WORKERS d0) in
  (forall p, reqs_on p srv = reqs_on p (accepted tr)) /\
  (forall r, r ∈ accepted tr -> r ∈ srv /\ promises_ s !! callback_ r = Some true).
Proof.
  intros Hpos He Hbg Hall srv.
  destruct (drains_run NUM_WORKERS d0 tr s Hpos He) as [[sub [Hlen _ _]] Hp _ Hpr _ Hst].
  fold srv in Hp, Hpr.
  assert (Heq : forall p, reqs_on p srv = reqs_on p (accepted tr)).
  { intros p. rewrite <- (Hp p). unfold dispatchable. rewrite Hbg.
    pose proof (shard_of_lt NUM_WORKERS Hpos p) as Hlt. rewrite <- Hlen in Hlt.
    destruct (lookup_lt_is_Some_2 _ _ Hlt) as [w Hw].
    destruct (Hst _ _ Hw) as [Hnil _]. unfold shard_queue. rewrite Hw. simpl.
    rewrite (Hnil (Hall _ _ Hw)). change (reqs_on p []) with (@nil DiskRequest).
    by rewrite !app_nil_r. }
  split; [done|]. intros r Hr.
  assert (Hin : r ∈ srv).
  { apply (proj2 (elem_of_reqs_on r _)). rewrite Heq.
    by apply (proj1 (elem_of_reqs_on r _)). }
  split; [done|]. rewrite Hpr, decide_True; [done|].
  apply list_elem_of_fmap. by exists r.
Qed.

(** Two workers; two writes of page 1 and a read of page 2 are submitted
    and served, a third write of page 1 is submitted after the sentinel of
    the destructor, and every thread leaves its loop. *)
Lemma requests_served_once_witness :
  let w1 := {| is_write_ := true; data_ := [Byte.x01]; page_id_ := 1; callback_ := 0 |} in
  let w2 := {| is_write_ := true; data_ := [Byte.x02]; page_id_ := 1; callback_ := 1 |} in
  let r2 := {| is_write_ := false; data_ := []; page_id_ := 2; callback_ := 2 |} in
  let late := {| is_write_ := true; data_ := [Byte.x03]; page_id_ := 1; callback_ := 3 |} in
  let tr := [ASchedule w1; ASchedule w2; ASchedule r2; ADispatch; ADispatch; AWork 1;
             AStopDispatcher; ASchedule late; ADispatch; AWork 1; AWork 0] in
  exists s, exec 2 tr (DiskScheduler_new 2 DiskManager_new) = Some s /\
    served 2 tr (DiskScheduler_new 2 DiskManager_new) = [w1; w2; r2] /\
    accepted tr = [w1; w2; r2] /\
    (forall p,
       reqs_on p (served 2 tr (DiskScheduler_new 2 DiskManager_new))
         ++ reqs_on p (pending (shard_queue s (shard_of 2 p)))
         ++ reqs_on p (dispatchable s)
       = reqs_on p (accepted tr)) /\
    disk_manager_ s
    = foldl (λ d r, serve r d) DiskManager_new
        (served 2 tr (DiskScheduler_new 2 DiskManager_new)).
Proof.
  intros w1 w2 r2 late tr.
  assert (H2 : 0 < 2) by lia.
  destruct (exec 2 tr (DiskScheduler_new 2 DiskManager_new)) as [s|] eqn:Hexec;
    [|discriminate Hexec].
  destruct (requests_served_once 2 DiskManager_new tr s H2 Hexec) as (Hp & Hd & _).
  exists s. split; [reflexivity|]. split; [reflexivity|]. split; [reflexivity|].
  split; [exact Hp|exact Hd].
Defined.

Lemma last_write_wins_witness :
  let w1 := {| is_write_ := true; data_ := [Byte.x01]; page_id_ := 1; callback_ := 0 |} in
  let w2 := {| is_write_ := true; data_ := [Byte.x02]; page_id_ := 1; callback_ := 1 |} in
  let w3 := {| is_write_ := true; data_ := [Byte.x03]; page_id_ := 2; callback_ := 2 |} in
  let tr := [ASchedule w1; ASchedule w3; ASchedule w2; ADispatch; ADispatch; AWork 0;
             ADispatch; AWork 1; AWork 1] in
  exists s, exec 2 tr (DiskScheduler_new 2 DiskManager_new) = Some s /\
    contents_ (disk_manager_ s) !! 1 = Some [Byte.x02] /\
    contents_ (disk_manager_ s) !! 1
    = last_write (reqs_on 1 (accepted tr)) (contents_ DiskManager_new !! 1).
Proof.
  intros w1 w2 w3 tr.
  assert (H2 : 0 < 2) by lia.
  destruct (exec 2 tr (DiskScheduler_new 2 DiskManager_new)) as [s|] eqn:Hexec;
    [|discriminate Hexec].
  exists s. split; [reflexivity|].
  pose proof (last_write_wins 2 DiskManager_new tr s 1 H2 Hexec) as H.
  injection Hexec as <-.
  split; [reflexivity|]. apply H; reflexivity.
Defined.

Lemma promise_means_served_witness :
  let w1 := {| is_write_ := true; data_ := [Byte.x01]; page_id_ := 1; callback_ := 0 |} in
  let w3 := {| is_write_ := true; data_ := [Byte.x03]; page_id_ := 2; callback_ := 2 |} in
  let tr := [ASchedule w1; ASchedule w3; ADispatch; ADispatch; AWork 1] in
  exists s, exec 2 tr (DiskScheduler_new 2 DiskManager_new) = Some s /\
    promises_ s !! 0%nat = Some true /\ promises_ s !! 2%nat = None /\
    (promises_ s !! 0%nat = Some true <->
     exists r, r ∈ served 2 tr (DiskScheduler_new 2 DiskManager_new) /\ callback_ r = 0%nat).
Proof.
  intros w1 w3 tr.
  assert (H2 : 0 < 2) by lia.
  destruct (exec 2 tr (DiskScheduler_new 2 DiskManager_new)) as [s|] eqn:Hexec;
    [|discriminate Hexec].
  exists s. split; [reflexivity|].
  destruct (promise_means_served 2 DiskManager_new tr s 0%nat H2 Hexec) as [H _].
  injection Hexec as <-.
  split; [reflexivity|]. split; [reflexivity|]. exact H.
Defined.

Lemma shutdown_drains_witness :
  let w1 := {| is_write_ := true; data_ := [Byte.x01]; page_id_ := 1; callback_ := 0 |} in
  let r2 := {| is_write_ := false; data_ := []; page_id_ := 2; callback_ := 2 |} in
  let late := {| is_write_ := true; data_ := [Byte.x03]; page_id_ := 1; callback_ := 3 |} in
  let tr := [ASchedule w1; ASchedule r2; AStopDispatcher; ASchedule late; ADispatch;
             ADispatch; ADispatch; AStopWorker 0; AStopWorker 1; AWork 1; AWork 0;
             AWork 1; AWork 0] in
  exists s, exec 2 tr (DiskScheduler_new 2 DiskManager_new) = Some s /\
    served 2 tr (DiskScheduler_new 2 DiskManager_new) = [w1; r2] /\
    promises_ s !! 3%nat = None /\
    forall r, r ∈ accepted tr ->
      r ∈ served 2 tr (DiskScheduler_new 2 DiskManager_new) /\
      promises_ s !! callback_ r = Some true.
Proof.
  intros w1 r2 late tr.
  assert (H2 : 0 < 2) by lia.
  destruct (exec 2 tr (DiskScheduler_new 2 DiskManager_new)) as [s|] eqn:Hexec;
    [|discriminate Hexec].
  exists s. split; [reflexivity|].
  pose proof (shutdown_drains 2 DiskManager_new tr s H2 Hexec) as H.
  injection Hexec as <-.
  split; [reflexivity|]. split; [reflexivity|].
  apply H; [reflexivity|].
  intros i w Hw. destruct i as [|[|i]]; simpl in Hw;
    [injection Hw as <-; reflexivity|injection Hw as <-; reflexivity|discriminate Hw].
Defined.

End SchedulerFacts.

(** ** The buffer pool manager *)

Module PoolFacts.
Import Replacer ReplacerSpec ReplacerFacts Pool PoolSpec.

(** *** Frames and pages *)

Lemma page_ref_set_page f p s g :
  0 <= f -> (Z.to_nat f < length (pages_ s))%nat ->
  page_ref g (set_page f p s) = if decide (f = g) then p else page_ref g s.
Proof.
  intros H0 Hlt. unfold page_ref, page_lookup, set_page.
  rewrite (proj2 (Z.ltb_ge f 0)) by lia. simpl.
  case_decide as Hfg.
  - subst g. rewrite (proj2 (Z.ltb_ge f 0)) by lia. by rewrite list_lookup_insert_eq.
  - destruct (g <? 0) eqn:Hg; [done|]. apply Z.ltb_ge in Hg.
    rewrite list_lookup_insert_ne by lia. done.
Qed.

Lemma set_page_length f p s : length (pages_ (set_page f p s)) = length (pages_ s).
Proof. unfold set_page. destruct (f <? 0); [done|]. simpl. apply length_insert. Qed.

Lemma in_pool_lt s f :
  length (pages_ s) = Z.to_nat (pool_size_ s) -> in_pool s f ->
  0 <= f /\ (Z.to_nat f < length (pages_ s))%nat.
Proof. unfold in_pool. lia. Qed.

Lemma in_pool_size_t s f :
  pool_size_ s <= SIZE_T_MODULUS -> in_pool s f -> to_size_t f = f.
Proof. unfold in_pool. intros. apply Z.mod_small. lia. Qed.

Lemma in_pool_slot s f g :
  pool_size_ s <= SIZE_T_MODULUS -> in_pool s f -> in_pool s g -> f <> g -> slot g <> slot f.
Proof.
  intros Hs Hf Hg Hne. unfold slot.
  rewrite (in_pool_size_t s f), (in_pool_size_t s g) by done. unfold in_pool in *. lia.
Qed.

(** A dirty page is a page of the array. *)
Lemma dirty_in_range f s :
  is_dirty_ (page_ref f s) = true -> 0 <= f /\ (Z.to_nat f < length (pages_ s))%nat.
Proof.
  unfold page_ref, page_lookup. destruct (f <? 0) eqn:Hf; [done|].
  apply Z.ltb_ge in Hf. destruct (pages_ s !! Z.to_nat f) eqn:Hp; [|done].
  intros _. split; [done|]. by eapply lookup_lt_Some.
Qed.

Lemma set_page_fields f p0 s :
  pool_size_ (set_page f p0 s) = pool_size_ s /\
  page_table_ (set_page f p0 s) = page_table_ s /\
  free_list_ (set_page f p0 s) = free_list_ s /\
  replacer_ (set_page f p0 s) = replacer_ s /\
  disk_ (set_page f p0 s) = disk_ s /\
  next_page_id_ (set_page f p0 s) = next_page_id_ s /\
  deallocated_ (set_page f p0 s) = deallocated_ s.
Proof. unfold set_page. by destruct (f <? 0). Qed.

Lemma set_page_build f p s :
  build_ (set_page f p s) = build_ s /\ in_flight_ (set_page f p s) = in_flight_ s /\
  disk_ (set_page f p s) = disk_ s.
Proof. unfold set_page. by destruct (f <? 0). Qed.

(** *** Writes, waited for or left in flight *)

Lemma write_and_wait_eq f s : write_and_wait f s = Returns tt (written f s).
Proof. unfold write_and_wait, written. by destruct (assert_evaluates (build_ s)). Qed.

Lemma written_fields f s :
  build_ (written f s) = build_ s /\
  pool_size_ (written f s) = pool_size_ s /\
  page_table_ (written f s) = page_table_ s /\
  free_list_ (written f s) = free_list_ s /\
  replacer_ (written f s) = replacer_ s /\
  next_page_id_ (written f s) = next_page_id_ s /\
  deallocated_ (written f s) = deallocated_ s /\
  pages_ (written f s) = pages_ s.
Proof. unfold written. by destruct (assert_evaluates (build_ s)). Qed.

Lemma page_ref_written g f s : page_ref g (written f s) = page_ref g s.
Proof. unfold written. by destruct (assert_evaluates (build_ s)). Qed.

Lemma written_disk f s :
  if assert_evaluates (build_ s)
  then disk_ (written f s)
       = Scheduler.WritePage (page_id_ (page_ref f s)) (data_ (page_ref f s)) (disk_ s) /\
       in_flight_ (written f s) = in_flight_ s
  else in_flight_ (written f s)
       = in_flight_ s ++ [(true, page_id_ (page_ref f s), f)] /\
       disk_ (written f s) = disk_ s.
Proof. unfold written. by destruct (assert_evaluates (build_ s)). Qed.

Lemma FlushPage_ref_eq f s : FlushPage_ref f s = Returns tt (flushed f s).
Proof.
  unfold FlushPage_ref, bind. rewrite write_and_wait_eq. unfold modify, flushed.
  by rewrite page_ref_written.
Qed.

(** *** [FindFreeFrame] *)

Lemma flushed_fields f s :
  pool_size_ (flushed f s) = pool_size_ s /\
  page_table_ (flushed f s) = page_table_ s /\
  free_list_ (flushed f s) = free_list_ s /\
  replacer_ (flushed f s) = replacer_ s /\
  next_page_id_ (flushed f s) = next_page_id_ s /\
  deallocated_ (flushed f s) = deallocated_ s /\
  length (pages_ (flushed f s)) = length (pages_ s) /\
  forall g, page_ref g (flushed f s)
            = if decide (f = g) then set_is_dirty false (page_ref g s) else page_ref g s.
Proof.
  unfold flushed.
  destruct (written_fields f s) as (_ & W2 & W3 & W4 & W5 & W6 & W7 & W8).
  destruct (set_page_fields f (set_is_dirty false (page_ref f s)) (written f s))
    as (-> & -> & -> & -> & _ & -> & ->).
  rewrite set_page_length, W2, W3, W4, W5, W6, W7, W8. repeat (split; [done|]).
  intros g. unfold page_ref at 1, page_lookup, set_page.
  destruct (f <? 0) eqn:Hf.
  - apply Z.ltb_lt in Hf. rewrite W8. fold (page_lookup g s). fold (page_ref g s).
    case_decide as Hfg; [|done]. subst g.
    unfold page_ref, page_lookup. by rewrite (proj2 (Z.ltb_lt f 0)).
  - apply Z.ltb_ge in Hf. cbn [pages_ set_pages]. rewrite W8. case_decide as Hfg.
    + subst g. rewrite (proj2 (Z.ltb_ge f 0)) by done.
      unfold page_ref, page_lookup. rewrite (proj2 (Z.ltb_ge f 0)) by done.
      destruct (pages_ s !! Z.to_nat f) as [p|] eqn:Hp; simpl.
      * rewrite list_lookup_insert_eq; [done|]. by eapply lookup_lt_Some.
      * rewrite list_insert_ge; [by rewrite Hp|]. by apply lookup_ge_None.
    + unfold page_ref, page_lookup.
      destruct (g <? 0) eqn:Hg; [done|]. apply Z.ltb_ge in Hg.
      by rewrite list_lookup_insert_ne by lia.
Qed.

Lemma flushed_page_id f s :
  page_id_ (page_ref f (flushed f s)) = page_id_ (page_ref f s) /\
  page_table_ (flushed f s) = page_table_ s.
Proof.
  destruct (flushed_fields f s) as (_ & Ht & _ & _ & _ & _ & _ & Hp).
  split; [|done]. by rewrite Hp, decide_True.
Qed.


Lemma FindFreeFrame_eq s :
  FindFreeFrame s =
  match free_list_ s with
  | f :: rest => Returns (Some f) (set_free_list rest s)
  | [] =>
      match (Evict (replacer_ s)).2 with
      | Some victim => Returns (Some victim) (evict_frame victim (Evict (replacer_ s)).1 s)
      | None => Returns None (set_replacer (Evict (replacer_ s)).1 s)
      end
  end.
Proof.
  unfold FindFreeFrame, bind at 1, get. destruct (free_list_ s) as [|f rest]; [|done].
  destruct (Evict (replacer_ s)) as [r [v|]]; simpl; [|done].
  unfold evict_frame. unfold bind at 1, modify. unfold bind at 1.
  change (page_ref v (set_replacer r s)) with (page_ref v s).
  destruct (is_dirty_ (page_ref v s)) eqn:Hd; [|done].
  rewrite FlushPage_ref_eq. unfold bind, ret.
  destruct (flushed_page_id v (set_replacer r s)) as [-> _]. done.
Qed.

(** What [FindFreeFrame] does about the victim of the replacer: the page
    id is erased from the page table in a state [s1] in which the dirty
    bit of the victim is clear and the page table is still the old one;
    if the victim was dirty, its write has been served by the disk manager
    in a build that waits, and is in flight in a build that does not. *)
Lemma FindFreeFrame_flushes_victim (s : BufferPoolManager) :
  match free_list_ s with
  | f :: rest => FindFreeFrame s = Returns (Some f) (set_free_list rest s)
  | [] =>
      let r := (Evict (replacer_ s)).1 in
      match (Evict (replacer_ s)).2 with
      | None => FindFreeFrame s = Returns None (set_replacer r s)
      | Some victim =>
          let page := page_ref victim s in
          exists s1,
            FindFreeFrame s
            = Returns (Some victim)
                (set_page_table (delete (page_id_ page) (page_table_ s1)) s1) /\
            page_table_ s1 = page_table_ s /\
            replacer_ s1 = r /\
            if is_dirty_ page
            then page_ref victim s1 = set_is_dirty false page /\
                 if assert_evaluates (build_ s)
                 then disk_ s1
                      = Scheduler.WritePage (page_id_ page) (data_ page) (disk_ s) /\
                      last (Scheduler.observed_ (disk_ s1)) = Some (true, page_id_ page) /\
                      Scheduler.contents_ (disk_ s1) !! page_id_ page = Some (data_ page) /\
                      in_flight_ s1 = in_flight_ s
                 else in_flight_ s1 = in_flight_ s ++ [(true, page_id_ page, victim)] /\
                      disk_ s1 = disk_ s
            else s1 = set_replacer r s
      end
  end.
Proof.
  rewrite FindFreeFrame_eq. destruct (free_list_ s) as [|f rest]; [|done].
  simpl. destruct ((Evict (replacer_ s)).2) as [v|]; [|done].
  unfold evict_frame.
  destruct (is_dirty_ (page_ref v s)) eqn:Hd; [|by eexists].
  set (s0 := set_replacer (Evict (replacer_ s)).1 s).
  exists (flushed v s0). destruct (dirty_in_range _ _ Hd) as [H0 Hlt].
  unfold flushed. destruct (written_fields v s0) as (_ & _ & W3 & _ & W5 & _ & _ & W8).
  destruct (set_page_fields v (set_is_dirty false (page_ref v s0)) (written v s0))
    as (_ & Ht & _ & Hr & _).
  destruct (set_page_build v (set_is_dirty false (page_ref v s0)) (written v s0))
    as (_ & Hif & Hdk).
  split; [done|]. split; [by rewrite Ht, W3|]. split; [by rewrite Hr, W5|].
  split; [rewrite page_ref_set_page, decide_True; [done..|by rewrite W8]|].
  rewrite Hif, Hdk. pose proof (written_disk v s0) as Hw.
  change (build_ s0) with (build_ s) in Hw.
  change (disk_ s0) with (disk_ s) in Hw. change (in_flight_ s0) with (in_flight_ s) in Hw.
  change (page_ref v s0) with (page_ref v s) in Hw.
  destruct (assert_evaluates (build_ s)); destruct Hw as [Hw1 Hw2]; rewrite Hw1, Hw2; [|done].
  split; [done|]. split; [simpl; by rewrite last_snoc|].
  split; [simpl; by rewrite lookup_insert_eq|done].
Qed.

(** C3 fails in a build that does not evaluate the argument of
    [BUSTUB_ASSERT] (a build with [NDEBUG]).  [FlushPage(Page &)] waits
    for the write only through the [f.get()] that is the argument of
    [BUSTUB_ASSERT] (line 208), so in such a build [FindFreeFrame], on an
    empty free list and a dirty victim, clears the dirty flag, erases the
    page id of the victim from the page table and returns the frame while
    the write of the victim's payload is in flight: scheduled, and waited
    for by no one.  In a build that evaluates the argument the write has
    been served at that point ([FindFreeFrame_flushes_victim]). *)
Theorem FindFreeFrame_write_in_flight (s : BufferPoolManager) (victim : frame_id_t) :
  assert_evaluates (build_ s) = false ->
  free_list_ s = [] -> (Evict (replacer_ s)).2 = Some victim ->
  is_dirty_ (page_ref victim s) = true ->
  exists s1, FindFreeFrame s = Returns (Some victim) s1 /\
    page_table_ s1 = delete (page_id_ (page_ref victim s)) (page_table_ s) /\
    is_dirty_ (page_ref victim s1) = false /\
    in_flight_ s1 = in_flight_ s ++ [(true, page_id_ (page_ref victim s), victim)].
Proof.
  intros Hb Hfl Hv Hd. pose proof (FindFreeFrame_flushes_victim s) as H.
  rewrite Hfl, Hv in H. cbv zeta in H. destruct H as (s1 & E & Ht & _ & H).
  rewrite Hd, Hb in H. destruct H as (Hpg & Hi & _).
  eexists. split; [exact E|]. split; [simpl; by rewrite Ht|].
  split; [|exact Hi].
  change (is_dirty_ (page_ref victim s1) = false). by rewrite Hpg.
Qed.

(** C3, on a pool of one frame in such a build: page 0, unpinned dirty,
    leaves the page table and frame 0 is handed out clean while the write
    of page 0 is the one request in flight. *)
Lemma FindFreeFrame_write_in_flight_witness :
  let s := run [CNewPage; CUnpinPage 0 true]
             (BufferPoolManager_new (mkBuild false 2) 2 1 Scheduler.DiskManager_new 2) in
  page_table_ s !! 0 = Some 0 /\
  exists s1, FindFreeFrame s = Returns (Some 0) s1 /\
    page_table_ s1 !! 0 = None /\ is_dirty_ (page_ref 0 s1) = false /\
    in_flight_ s1 = [(true, 0, 0)].
Proof.
  intros s. split; [reflexivity|].
  destruct (FindFreeFrame_write_in_flight s 0) as (s1 & E & Ht & Hd & Hi);
    [reflexivity..|].
  exists s1. split; [exact E|]. split; [rewrite Ht; reflexivity|].
  split; [exact Hd|exact Hi].
Defined.

(** *** [FlushAllPages] *)



Lemma for_each_clear l : forall s,
  for_each l (fun i => modify (fun s => set_page i (set_is_dirty false (page_ref i s)) s)) s
  = Returns tt (clear_all l s).
Proof.
  induction l as [|i l IH]; intros s; [done|].
  simpl. unfold bind at 1, modify. by rewrite IH.
Qed.

Lemma clear_all_fields l : forall s,
  pool_size_ (clear_all l s) = pool_size_ s /\
  page_table_ (clear_all l s) = page_table_ s /\
  free_list_ (clear_all l s) = free_list_ s /\
  replacer_ (clear_all l s) = replacer_ s /\
  disk_ (clear_all l s) = disk_ s /\
  next_page_id_ (clear_all l s) = next_page_id_ s /\
  deallocated_ (clear_all l s) = deallocated_ s /\
  length (pages_ (clear_all l s)) = length (pages_ s).
Proof.
  induction l as [|i l IH]; intros s; [done|]. simpl.
  destruct (IH (set_page i (set_is_dirty false (page_ref i s)) s))
    as (-> & -> & -> & -> & -> & -> & -> & ->).
  rewrite set_page_length. unfold set_page. by destruct (i <? 0).
Qed.

Lemma clear_all_lookup l : forall s j,
  pages_ (clear_all l s) !! j =
  (if decide (Z.of_nat j ∈ l) then set_is_dirty false <$> pages_ s !! j else pages_ s !! j).
Proof.
  induction l as [|i l IH]; intros s j.
  { rewrite decide_False; [done|]. apply not_elem_of_nil. }
  change (clear_all (i :: l) s)
    with (clear_all l (set_page i (set_is_dirty false (page_ref i s)) s)).
  rewrite IH.
  assert (Hset : pages_ (set_page i (set_is_dirty false (page_ref i s)) s) !! j
               = if decide (i = Z.of_nat j) then set_is_dirty false <$> pages_ s !! j
                 else pages_ s !! j).
  { unfold set_page, page_ref, page_lookup. destruct (i <? 0) eqn:Hi.
    - apply Z.ltb_lt in Hi. rewrite decide_False by lia. done.
    - apply Z.ltb_ge in Hi. simpl. case_decide as Hij.
      + subst i. rewrite Nat2Z.id.
        destruct (pages_ s !! j) as [p|] eqn:Hp; simpl.
        * rewrite list_lookup_insert_eq; [done|]. by eapply lookup_lt_Some.
        * rewrite list_insert_ge; [done|]. by apply lookup_ge_None.
      + rewrite list_lookup_insert_ne by lia. done. }
  rewrite Hset.
  destruct (decide (i = Z.of_nat j)) as [->|Hij].
  - rewrite (decide_True (P := Z.of_nat j ∈ Z.of_nat j :: l)) by (by left).
    case_decide; [|done]. by destruct (pages_ s !! j).
  - destruct (decide (Z.of_nat j ∈ l)) as [Hin|Hin].
    + rewrite decide_True; [done|by right].
    + rewrite decide_False; [done|].
      intros [?|?]%elem_of_cons; [lia|done].
Qed.

Lemma clear_all_build l : forall s,
  build_ (clear_all l s) = build_ s /\ in_flight_ (clear_all l s) = in_flight_ s.
Proof.
  induction l as [|i l IH]; intros s; [done|]. simpl.
  destruct (IH (set_page i (set_is_dirty false (page_ref i s)) s)) as (-> & ->).
  by destruct (set_page_build i (set_is_dirty false (page_ref i s)) s) as (-> & -> & _).
Qed.

(** *** The order in which the workers serve the writes *)

Lemma take_first_perm {A} (P : A -> bool) l x rest :
  take_first P l = Some (x, rest) -> l ≡ₚ x :: rest.
Proof.
  revert x rest. induction l as [|y l IH]; intros x rest; simpl; [done|].
  destruct (P y); [by intros [= <- <-]|].
  destruct (take_first P l) as [[z rest']|]; [|done]. intros [= <- <-].
  rewrite (IH z rest') by done. apply perm_swap.
Qed.

Lemma foldl_writes_observed (pending : list (Z * list Byte.byte)) : forall d0,
  Scheduler.observed_ (foldl (fun d r => Scheduler.WritePage r.1 r.2 d) d0 pending)
  = Scheduler.observed_ d0 ++ ((fun r => (true, r.1)) <$> pending).
Proof.
  induction pending as [|r l IH]; intros d0; simpl; [by rewrite app_nil_r|].
  rewrite IH. simpl. by rewrite <- app_assoc.
Qed.

Lemma serve_writes_observed nw picks : forall (pending : list (Z * list Byte.byte)) d0,
  Scheduler.observed_ (serve_writes nw picks pending d0)
  ≡ₚ Scheduler.observed_ d0 ++ ((fun r => (true, r.1)) <$> pending).
Proof.
  induction picks as [|i picks IH]; intros pending d0; simpl.
  { by rewrite foldl_writes_observed. }
  destruct (take_first _ pending) as [[r rest]|] eqn:Ht; [|apply IH].
  rewrite IH. simpl. rewrite (take_first_perm _ _ _ _ Ht). simpl.
  by rewrite <- app_assoc.
Qed.

Lemma foldl_writes_contents (pending : list (Z * list Byte.byte)) p d : forall d0,
  (forall r, r ∈ pending -> r.1 = p -> r.2 = d) ->
  Scheduler.contents_ d0 !! p = Some d \/ (exists r, r ∈ pending /\ r.1 = p) ->
  Scheduler.contents_ (foldl (fun d r => Scheduler.WritePage r.1 r.2 d) d0 pending) !! p
  = Some d.
Proof.
  induction pending as [|r l IH]; intros d0 Hall Hsrc.
  - destruct Hsrc as [?|(r & Hr & _)]; [done|]. by apply elem_of_nil in Hr.
  - simpl. apply IH; [intros r' Hr'; apply Hall; by right|].
    destruct (decide (r.1 = p)) as [Hrp|Hrp].
    + left. simpl. rewrite Hrp, lookup_insert_eq. f_equal. apply Hall; [by left|done].
    + destruct Hsrc as [Hc|(r' & Hr' & Hp')].
      * left. simpl. by rewrite lookup_insert_ne.
      * apply elem_of_cons in Hr' as [->|Hr']; [done|]. right. by exists r'.
Qed.

Lemma serve_writes_contents nw picks p d : forall (pending : list (Z * list Byte.byte)) d0,
  (forall r, r ∈ pending -> r.1 = p -> r.2 = d) ->
  Scheduler.contents_ d0 !! p = Some d \/ (exists r, r ∈ pending /\ r.1 = p) ->
  Scheduler.contents_ (serve_writes nw picks pending d0) !! p = Some d.
Proof.
  induction picks as [|i picks IH]; intros pending d0 Hall Hsrc; simpl.
  { by apply foldl_writes_contents. }
  destruct (take_first _ pending) as [[r rest]|] eqn:Ht; [|by apply IH].
  pose proof (take_first_perm _ _ _ _ Ht) as Hperm.
  apply IH.
  - intros r' Hr'. apply Hall. rewrite Hperm. by right.
  - destruct (decide (r.1 = p)) as [Hrp|Hrp].
    + left. simpl. rewrite Hrp, lookup_insert_eq. f_equal.
      apply Hall; [rewrite Hperm; by left|done].
    + destruct Hsrc as [Hc|(r' & Hr' & Hp')].
      * left. simpl. by rewrite lookup_insert_ne.
      * rewrite Hperm in Hr'. apply elem_of_cons in Hr' as [->|Hr']; [done|].
        right. by exists r'.
Qed.

Lemma serve_writes_contents_ne nw picks p : forall (pending : list (Z * list Byte.byte)) d0,
  (forall r, r ∈ pending -> r.1 <> p) ->
  Scheduler.contents_ (serve_writes nw picks pending d0) !! p
  = Scheduler.contents_ d0 !! p.
Proof.
  induction picks as [|i picks IH]; intros pending d0 Hall; simpl.
  { revert d0. induction pending as [|r l IHl]; intros d0; [done|]. simpl.
    rewrite IHl by (intros r' Hr'; apply Hall; by right).
    simpl. rewrite lookup_insert_ne; [done|]. apply Hall. by left. }
  destruct (take_first _ pending) as [[r rest]|] eqn:Ht; [|by apply IH].
  pose proof (take_first_perm _ _ _ _ Ht) as Hperm.
  rewrite IH by (intros r' Hr'; apply Hall; rewrite Hperm; by right).
  simpl. rewrite lookup_insert_ne; [done|]. apply Hall. rewrite Hperm. by left.
Qed.

(** *** [FlushAllPages] in both builds *)

Lemma FlushAllPages_eq picks s :
  FlushAllPages picks s =
  Returns tt (clear_all (seqZ 0 (pool_size_ s)) (all_written picks (seqZ 0 (pool_size_ s)) s)).
Proof.
  unfold FlushAllPages, bind at 1, get. unfold bind, modify.
  by rewrite for_each_clear.
Qed.

Lemma all_written_fields picks l s :
  build_ (all_written picks l s) = build_ s /\
  pool_size_ (all_written picks l s) = pool_size_ s /\
  page_table_ (all_written picks l s) = page_table_ s /\
  free_list_ (all_written picks l s) = free_list_ s /\
  replacer_ (all_written picks l s) = replacer_ s /\
  next_page_id_ (all_written picks l s) = next_page_id_ s /\
  deallocated_ (all_written picks l s) = deallocated_ s /\
  pages_ (all_written picks l s) = pages_ s.
Proof. unfold all_written. by destruct (assert_evaluates (build_ s)). Qed.

(** After [FlushAllPages] every slot of the array is clean, dirty before
    or not, resident or not, and nothing else of the pool has changed but
    the disk: in a build that waits the disk manager has served one write
    for each slot, in some order; in a build that does not, one write for
    each slot is in flight. *)
Lemma FlushAllPages_effect (picks : list nat) (s : BufferPoolManager) :
  length (pages_ s) = Z.to_nat (pool_size_ s) ->
  exists s', FlushAllPages picks s = Returns tt s' /\
    pages_ s' = set_is_dirty false <$> pages_ s /\
    Forall (fun p => is_dirty_ p = false) (pages_ s') /\
    length (pages_ s') = Z.to_nat (pool_size_ s) /\
    page_table_ s' = page_table_ s /\ free_list_ s' = free_list_ s /\
    replacer_ s' = replacer_ s /\ next_page_id_ s' = next_page_id_ s /\
    if assert_evaluates (build_ s)
    then Scheduler.observed_ (disk_ s')
         ≡ₚ Scheduler.observed_ (disk_ s)
            ++ ((fun i => (true, page_id_ (page_ref i s))) <$> seqZ 0 (pool_size_ s)) /\
         in_flight_ s' = in_flight_ s
    else in_flight_ s'
         = in_flight_ s
           ++ ((fun i => (true, page_id_ (page_ref i s), i)) <$> seqZ 0 (pool_size_ s)) /\
         disk_ s' = disk_ s.
Proof.
  intros Hlen. rewrite FlushAllPages_eq.
  set (L := seqZ 0 (pool_size_ s)). set (s1 := all_written picks L s).
  eexists. split; [done|].
  destruct (clear_all_fields L s1) as (_ & Ht & Hf & Hr & Hd & Hn & _ & Hl).
  destruct (clear_all_build L s1) as (_ & Hif).
  destruct (all_written_fields picks L s) as (_ & _ & W3 & W4 & W5 & W6 & _ & W8).
  fold s1 in W3, W4, W5, W6, W8.
  assert (Hpages : pages_ (clear_all L s1) = set_is_dirty false <$> pages_ s).
  { apply list_eq. intros j. rewrite clear_all_lookup, list_lookup_fmap, W8.
    case_decide as Hj; [done|]. unfold L in Hj.
    rewrite elem_of_seqZ in Hj.
    rewrite (proj2 (lookup_ge_None (pages_ s) j)); [done|]. lia. }
  split; [done|]. split.
  { rewrite Hpages. apply Forall_fmap, Forall_true. done. }
  split; [by rewrite Hl, W8|].
  rewrite Ht, Hf, Hr, Hn, Hd, Hif, W3, W4, W5, W6. do 4 (split; [done|]).
  unfold s1, all_written. destruct (assert_evaluates (build_ s)); simpl; [|done].
  split; [|done]. rewrite serve_writes_observed. unfold writes_of.
  by rewrite <- list_fmap_compose.
Qed.

(** C10 fails in a build that does not evaluate the argument of
    [BUSTUB_ASSERT] (a build with [NDEBUG]).  The second loop of
    [FlushAllPages] waits for the writes only through the
    [futures[i].get()] that is the argument of [BUSTUB_ASSERT] (line 231),
    so in such a build [FlushAllPages] returns with the dirty flag of
    every slot clear while the write of every slot is in flight:
    scheduled, and waited for by no one.  In a build that evaluates the
    argument the disk manager has served one write for each slot, in an
    order that the worker threads decide ([FlushAllPages_effect]). *)
Theorem FlushAllPages_writes_in_flight (picks : list nat) (s : BufferPoolManager) :
  assert_evaluates (build_ s) = false ->
  length (pages_ s) = Z.to_nat (pool_size_ s) ->
  exists s', FlushAllPages picks s = Returns tt s' /\
    Forall (fun p => is_dirty_ p = false) (pages_ s') /\
    in_flight_ s'
    = in_flight_ s
      ++ ((fun i => (true, page_id_ (page_ref i s), i)) <$> seqZ 0 (pool_size_ s)).
Proof.
  intros Hb Hlen.
  destruct (FlushAllPages_effect picks s Hlen)
    as (s' & E & _ & Hall & _ & _ & _ & _ & _ & Hio).
  rewrite Hb in Hio. destruct Hio as [Hi _]. by exists s'.
Qed.

(** C10, on a pool of two frames in such a build, page 0 dirty in frame 0
    and frame 1 never assigned: both flags are clear on return and the
    two writes are in flight. *)
Lemma FlushAllPages_writes_in_flight_witness :
  let s := run [CNewPage; CUnpinPage 0 true]
             (BufferPoolManager_new (mkBuild false 2) 2 2 Scheduler.DiskManager_new 2) in
  is_dirty_ (page_ref 0 s) = true /\
  exists s', FlushAllPages [] s = Returns tt s' /\
    Forall (fun p => is_dirty_ p = false) (pages_ s') /\
    in_flight_ s' = [(true, 0, 0); (true, INVALID_PAGE_ID, 1)].
Proof.
  intros s. split; [reflexivity|].
  destruct (FlushAllPages_writes_in_flight [] s) as (s' & E & Hall & Hi);
    [reflexivity..|].
  exists s'. split; [exact E|]. split; [exact Hall|exact Hi].
Defined.

(** *** What the invariant says of a resident page *)

Lemma PoolInv_replacer_length limbo s :
  PoolInvBut limbo s ->
  length (node_store_ (replacer_ s)) = Z.to_nat (replacer_size_ (replacer_ s)).
Proof. intros HI. apply (inv_length _ (pinv_replacer _ _ HI)). Qed.

Lemma PoolInv_in_range limbo s f :
  PoolInvBut limbo s -> in_pool s f -> to_size_t f < replacer_size_ (replacer_ s).
Proof.
  intros HI Hf. rewrite (pinv_replacer_size _ _ HI).
  rewrite (in_pool_size_t s f); [apply Hf| |done].
  pose proof (pinv_size _ _ HI). lia.
Qed.

Lemma PoolInv_page_lt limbo s f :
  PoolInvBut limbo s -> in_pool s f -> 0 <= f /\ (Z.to_nat f < length (pages_ s))%nat.
Proof. intros HI. apply in_pool_lt, (pinv_pages _ _ HI). Qed.

(** *** [UnpinPage] *)

Lemma UnpinPage_eq page_id is_dirty s :
  UnpinPage page_id is_dirty s =
  match page_table_ s !! page_id with
  | None => Returns false s
  | Some f =>
      let page := page_ref f s in
      if pin_count_ page <=? 0 then Returns false s
      else
        let s1 := set_page f (set_pin_count (pin_count_ page - 1)
                                (set_is_dirty (is_dirty_ page || is_dirty) page)) s in
        if pin_count_ page - 1 =? 0
        then match SetEvictable f true (replacer_ s) with
             | Ok r => Returns true (set_replacer r s1)
             | Throw msg => Raises msg s1
             end
        else Returns true s1
  end.
Proof.
  unfold UnpinPage, bind, get, modify, ret, replacer_call.
  destruct (page_table_ s !! page_id) as [f|]; [|done]. simpl.
  destruct (_ <=? 0); [done|]. destruct (_ =? 0); [|done].
  destruct (set_page_fields f (set_pin_count (pin_count_ (page_ref f s) - 1)
              (set_is_dirty (is_dirty_ (page_ref f s) || is_dirty) (page_ref f s))) s)
    as (_ & _ & _ & -> & _).
  by destruct (SetEvictable f true (replacer_ s)).
Qed.

(** C6. In a state of the pool that satisfies its invariant,
    [UnpinPage] returns false and changes nothing exactly when the page is
    not resident or the pin count of its frame is 0; otherwise it returns
    true, the pin count is one less, the dirty flag is its disjunction
    with [is_dirty], and the replacer has made the frame evictable if the
    pin count has reached 0 and is unchanged if not; nothing else
    changes. *)
Theorem UnpinPage_cases (s : BufferPoolManager) (page_id : page_id_t) (is_dirty : bool) :
  PoolInv s ->
  match page_table_ s !! page_id with
  | None => UnpinPage page_id is_dirty s = Returns false s
  | Some f =>
      let page := page_ref f s in
      if pin_count_ page =? 0 then UnpinPage page_id is_dirty s = Returns false s
      else
        exists s', UnpinPage page_id is_dirty s = Returns true s' /\
          page_ref f s'
          = set_pin_count (pin_count_ page - 1)
              (set_is_dirty (is_dirty_ page || is_dirty) page) /\
          (forall g, g <> f -> page_ref g s' = page_ref g s) /\
          (if pin_count_ page =? 1
           then SetEvictable f true (replacer_ s) = Ok (replacer_ s') /\
                exists n, evictable_at (replacer_ s') f n
           else replacer_ s' = replacer_ s) /\
          page_table_ s' = page_table_ s /\ free_list_ s' = free_list_ s /\
          disk_ s' = disk_ s /\ next_page_id_ s' = next_page_id_ s
  end.
Proof.
  intros HI. rewrite UnpinPage_eq.
  destruct (page_table_ s !! page_id) as [f|] eqn:Hp; [|done].
  destruct (pinv_table _ _ HI _ _ Hp) as (Hf & _ & _ & [n Hn] & _).
  pose proof (pinv_pins _ _ HI f Hf) as Hpin.
  destruct (PoolInv_page_lt _ _ _ HI Hf) as [H0 Hlt].
  simpl. destruct (Z.eqb_spec (pin_count_ (page_ref f s)) 0) as [E0|E0].
  { by rewrite (proj2 (Z.leb_le _ _)) by lia. }
  rewrite (proj2 (Z.leb_gt _ _)) by lia.
  set (page' := set_pin_count (pin_count_ (page_ref f s) - 1)
                  (set_is_dirty (is_dirty_ (page_ref f s) || is_dirty) (page_ref f s))).
  destruct (set_page_fields f page' s) as (_ & Ht & Hfl & Hrp & Hd & Hnx & _).
  destruct (Z.eqb_spec (pin_count_ (page_ref f s) - 1) 0) as [E1|E1].
  - rewrite (proj2 (Z.eqb_eq _ 1)) by lia.
    destruct (SetEvictable_ok f true (replacer_ s) n
                (PoolInv_replacer_length _ _ HI) (PoolInv_in_range _ _ _ HI Hf) Hn)
      as (r' & Hr' & _ & n' & Hn' & Hev).
    rewrite Hr'. eexists. split; [done|].
    change (page_ref ?g (set_replacer r' ?x)) with (page_ref g x).
    split; [by rewrite page_ref_set_page, decide_True|].
    split; [intros g Hg; by rewrite page_ref_set_page, decide_False|].
    split; [split; [done|by exists n']|]. simpl. by rewrite Ht, Hfl, Hd, Hnx.
  - rewrite (proj2 (Z.eqb_neq _ 1)) by lia.
    eexists. split; [done|].
    split; [by rewrite page_ref_set_page, decide_True|].
    split; [intros g Hg; by rewrite page_ref_set_page, decide_False|].
    by rewrite Ht, Hfl, Hd, Hnx, Hrp.
Qed.

(** *** [DeletePage] *)

Lemma DeletePage_eq page_id s :
  DeletePage page_id s =
  match page_table_ s !! page_id with
  | None => Returns true s
  | Some f =>
      let page := page_ref f s in
      if negb (page_id_ page =? page_id) then Returns true s
      else if 0 <? pin_count_ page then Returns false s
      else
        let s1 := set_page_table (delete page_id (page_table_ s)) s in
        match Remove f (replacer_ s) with
        | Throw msg => Raises msg s1
        | Ok r =>
            let s2 := set_free_list (free_list_ s ++ [f]) (set_replacer r s1) in
            Returns true
              (set_deallocated (deallocated_ s ++ [page_id])
                 (set_page f (ResetMemory (page_ref f s)) s2))
        end
  end.
Proof.
  unfold DeletePage, bind, get, modify, ret, replacer_call, DeallocatePage.
  destruct (page_table_ s !! page_id) as [f|]; [|done]. simpl.
  destruct (negb _); [done|]. destruct (0 <? _); [done|].
  destruct (Remove f (replacer_ s)) as [r|msg]; [|done]. unfold modify. simpl.
  change (page_ref f (set_free_list ?l (set_replacer r (set_page_table ?t s))))
    with (page_ref f s).
  set (s2 := set_free_list _ _).
  by destruct (set_page_fields f (ResetMemory (page_ref f s)) s2) as (_ & _ & _ & _ & _ & _ & ->).
Qed.

(** C5. In a state of the pool that satisfies its invariant,
    [DeletePage] returns true and changes nothing when the page is not
    resident; returns false and changes nothing when it is resident with
    a positive pin count; and otherwise returns true after it has erased
    the entry of the page table, removed the frame from the replacer,
    zeroed the frame's memory, appended the frame id to the free list and
    deallocated the page id, nothing else being changed. *)
Theorem DeletePage_cases (s : BufferPoolManager) (page_id : page_id_t) :
  PoolInv s ->
  match page_table_ s !! page_id with
  | None => DeletePage page_id s = Returns true s
  | Some f =>
      if 0 <? pin_count_ (page_ref f s) then DeletePage page_id s = Returns false s
      else
        exists s', DeletePage page_id s = Returns true s' /\
          page_table_ s' = delete page_id (page_table_ s) /\
          Remove f (replacer_ s) = Ok (replacer_ s') /\
          node_at (replacer_ s') f = None /\
          page_ref f s' = ResetMemory (page_ref f s) /\
          Forall (fun b => b = Byte.x00) (data_ (page_ref f s')) /\
          (forall g, g <> f -> page_ref g s' = page_ref g s) /\
          free_list_ s' = free_list_ s ++ [f] /\
          deallocated_ s' = deallocated_ s ++ [page_id] /\
          disk_ s' = disk_ s /\ next_page_id_ s' = next_page_id_ s
  end.
Proof.
  intros HI. rewrite DeletePage_eq.
  destruct (page_table_ s !! page_id) as [f|] eqn:Hp; [|done].
  destruct (pinv_table _ _ HI _ _ Hp) as (Hf & Hid & Hfree & [n Hn] & _).
  pose proof (pinv_pins _ _ HI f Hf) as Hpin.
  destruct (PoolInv_page_lt _ _ _ HI Hf) as [H0 Hlt].
  simpl. rewrite Hid, Z.eqb_refl. simpl.
  destruct (Z.ltb_spec 0 (pin_count_ (page_ref f s))) as [Hpos|Hzero]; [done|].
  destruct (pinv_unpinned _ _ HI f Hf ltac:(done) ltac:(lia)) as [Hin|[n' [Hn' Hev]]];
    [done|].
  destruct (Remove_ok f (replacer_ s) n' (PoolInv_replacer_length _ _ HI)
              (PoolInv_in_range _ _ _ HI Hf) Hn' Hev) as (Hr & _ & Hnone).
  rewrite Hr.
  set (s2 := set_free_list _ _).
  destruct (set_page_fields f (ResetMemory (page_ref f s)) s2)
    as (_ & Ht & Hfl & Hrp & Hd & Hnx & _).
  eexists. split; [done|]. simpl.
  change (page_ref ?g (set_deallocated ?l ?x)) with (page_ref g x).
  assert (Hlt2 : (Z.to_nat f < length (pages_ s2))%nat) by done.
  rewrite Ht, Hfl, Hrp, Hd, Hnx.
  split; [done|]. split; [done|]. split; [done|].
  rewrite page_ref_set_page, decide_True by done.
  split; [done|]. split; [simpl; by apply Forall_replicate|].
  split; [intros g Hg; by rewrite page_ref_set_page, decide_False|done].
Qed.

(** *** [NewPage] *)

Lemma evict_frame_fields v r s :
  pool_size_ (evict_frame v r s) = pool_size_ s /\
  page_table_ (evict_frame v r s) = delete (page_id_ (page_ref v s)) (page_table_ s) /\
  free_list_ (evict_frame v r s) = free_list_ s /\
  replacer_ (evict_frame v r s) = r /\
  next_page_id_ (evict_frame v r s) = next_page_id_ s /\
  deallocated_ (evict_frame v r s) = deallocated_ s /\
  length (pages_ (evict_frame v r s)) = length (pages_ s) /\
  forall g, page_ref g (evict_frame v r s)
            = if decide (v = g) then set_is_dirty false (page_ref g s) else page_ref g s.
Proof.
  unfold evict_frame. destruct (is_dirty_ (page_ref v s)) eqn:Hd; simpl.
  - destruct (flushed_fields v (set_replacer r s)) as (-> & -> & -> & -> & -> & -> & -> & Hp).
    repeat (split; [done|]). intros g. change (page_ref g (set_page_table ?t ?x))
      with (page_ref g x). by rewrite Hp.
  - repeat (split; [done|]). intros g. change (page_ref g (set_page_table ?t ?x))
      with (page_ref g s). case_decide as Hg; [|done]. subst g.
    destruct (page_ref v s) as [d p c []]; [done|done].
Qed.

Lemma NewPage_eq s :
  NewPage s =
  match FindFreeFrame s with
  | Raises msg s1 => Raises msg s1
  | Returns None s1 => Returns None s1
  | Returns (Some f) s1 =>
      let p := next_page_id_ s1 in
      let s2 := set_page_table (emplace p f (page_table_ s1))
                  (set_next_page_id (to_page_id_t (p + 1)) s1) in
      match RecordAccess f (replacer_ s1) with
      | Throw msg => Raises msg s2
      | Ok r1 =>
          match SetEvictable f false r1 with
          | Throw msg => Raises msg (set_replacer r1 s2)
          | Ok r2 =>
              Returns (Some (p, f))
                (set_page f
                   (set_pin_count (pin_count_ (page_ref f s1) + 1)
                      (set_is_dirty false (set_page_id p (page_ref f s1))))
                   (set_replacer r2 s2))
          end
      end
  end.
Proof.
  unfold NewPage, bind at 1. destruct (FindFreeFrame s) as [[f|] s1|msg s1]; [|done|done].
  unfold bind, AllocatePage, modify, replacer_call, ret. simpl.
  destruct (RecordAccess f (replacer_ s1)) as [r1|]; [|done]. simpl.
  by destruct (SetEvictable f false r1) as [r2|].
Qed.

Lemma emplace_fresh k v (m : gmap Z Z) : m !! k = None -> emplace k v m !! k = Some v.
Proof. intros H. unfold emplace. rewrite H. apply lookup_insert_eq. Qed.

(** The frame that [FindFreeFrame] reserves is a frame of the pool that
    nobody pins; there is none only if every frame is pinned. *)
Lemma FindFreeFrame_reserves s :
  PoolInv s ->
  match FindFreeFrame s with
  | Raises _ _ => False
  | Returns None s1 =>
      free_list_ s = [] /\ (Evict (replacer_ s)).2 = None /\ all_pinned s /\
      next_page_id_ s1 = next_page_id_ s /\ page_table_ s1 = page_table_ s /\
      pages_ s1 = pages_ s
  | Returns (Some f) s1 =>
      (f ∈ free_list_ s \/ (free_list_ s = [] /\ (Evict (replacer_ s)).2 = Some f)) /\
      in_pool s f /\ pin_count_ (page_ref f s) = 0 /\
      pin_count_ (page_ref f s1) = 0 /\
      pool_size_ s1 = pool_size_ s /\
      next_page_id_ s1 = next_page_id_ s /\
      length (pages_ s1) = length (pages_ s) /\
      (forall p, page_table_ s !! p = None -> page_table_ s1 !! p = None) /\
      replacer_size_ (replacer_ s1) = replacer_size_ (replacer_ s) /\
      length (node_store_ (replacer_ s1)) = length (node_store_ (replacer_ s))
  end.
Proof.
  intros HI. rewrite FindFreeFrame_eq.
  destruct (free_list_ s) as [|f rest] eqn:Hfl.
  - pose proof (Evict_spec _ (pinv_replacer _ _ HI)) as (HI' & Hev & Hv).
    pose proof (Evict_frames (in_pool s) _ (pinv_heap _ _ HI)) as (_ & Hlen & Hin).
    destruct ((Evict (replacer_ s)).2) as [v|] eqn:Hvic.
    + destruct Hv as (n & Hn & _).
      destruct (pinv_evictable _ _ HI v n Hin Hn) as [Hpin _].
      destruct (evict_frame_fields v (Evict (replacer_ s)).1 s)
        as (Hps & Hpt & _ & Hrp & Hnx & _ & Hpl & Hpr).
      split; [by right|]. split; [done|]. split; [done|].
      split; [by rewrite Hpr, decide_True|].
      split; [done|]. split; [done|]. split; [done|].
      split. { intros p Hp. rewrite Hpt. by rewrite lookup_delete_None; right. }
      rewrite Hrp. split; [apply Hev|done].
    + split; [done|]. split; [done|]. split; [|done].
      intros f Hf. pose proof (pinv_pins _ _ HI f Hf) as Hge.
      destruct (decide (pin_count_ (page_ref f s) = 0)) as [H0|H0]; [|lia].
      destruct (pinv_unpinned _ _ HI f Hf ltac:(done) H0) as [Hin'|[n [Hn Hevn]]].
      * rewrite Hfl in Hin'. by apply elem_of_nil in Hin'.
      * specialize (Hv f n Hn). congruence.
  - destruct (pinv_free _ _ HI f) as [Hf Hpin]; [rewrite Hfl; by left|].
    split; [left; by left|]. split; [done|]. split; [done|]. split; [done|]. done.
Qed.

(** *** Keeping the invariant of the pool *)


Lemma same_nodes_evictable f r r' g :
  same_nodes_but f r r' -> f <> Some g -> (forall h, f = Some h -> slot g <> slot h) ->
  (is_Some (node_at r g) <-> is_Some (node_at r' g)) /\
  ((exists n, evictable_at r g n) <-> (exists n, evictable_at r' g n)).
Proof.
  intros Hs Hf Hslot. specialize (Hs g Hf Hslot). split.
  - destruct (node_at r g), (node_at r' g); simpl in Hs; try done;
      split; intros [? ?]; done.
  - split; intros (n & Hn & Hev).
    + destruct (norm_evictable _ _ n (eq_sym Hs) Hn) as (n' & Hn' & _ & He & _).
      exists n'. split; [done|congruence].
    + destruct (norm_evictable _ _ n Hs Hn) as (n' & Hn' & _ & He & _).
      exists n'. split; [done|congruence].
Qed.

Lemma writes_slot_same_nodes f r r' :
  writes_slot f r r' -> same_nodes_but (Some f) r r'.
Proof.
  intros (_ & _ & Hn & _) g _ Hs. rewrite Hn; [done|]. by apply Hs.
Qed.

Lemma same_nodes_but_trans f r1 r2 r3 :
  same_nodes_but f r1 r2 -> same_nodes_but f r2 r3 -> same_nodes_but f r1 r3.
Proof. intros H1 H2 g Hg Hs. by rewrite H2, H1. Qed.

Lemma evicted_same_nodes r r' v : evicted r r' v -> same_nodes_but v r r'.
Proof.
  intros (_ & _ & _ & H) g Hg Hs. destruct v as [f|].
  - destruct H as (_ & _ & H). apply H. by apply Hs.
  - by destruct H as (_ & H).
Qed.


(** The invariant carries over to a state that differs in one frame [f],
    given what it says of that frame. *)
Lemma PoolInv_update limbo limbo' (fo : option frame_id_t) s s' :
  PoolInvBut limbo s ->
  (forall f, fo = Some f -> in_pool s f) ->
  (forall g, limbo = Some g -> fo = Some g) ->
  (forall g, limbo' = Some g -> fo = Some g) ->
  pool_size_ s' = pool_size_ s ->
  length (pages_ s') = length (pages_ s) ->
  same_pins_but fo s s' ->
  Inv (replacer_ s') ->
  replacer_size_ (replacer_ s') = replacer_size_ (replacer_ s) ->
  same_nodes_but fo (replacer_ s) (replacer_ s') ->
  (forall e, e ∈ pq_ (replacer_ s') -> in_pool s (frame_id_ e)) ->
  (forall g, fo <> Some g -> g ∈ free_list_ s' <-> g ∈ free_list_ s) ->
  NoDup (free_list_ s') ->
  (forall p g, page_table_ s' !! p = Some g -> fo <> Some g -> page_table_ s !! p = Some g) ->
  (forall f, fo = Some f ->
     0 <= pin_count_ (page_ref f s') /\
     (f ∈ free_list_ s' -> pin_count_ (page_ref f s') = 0) /\
     (forall p, page_table_ s' !! p = Some f ->
        page_id_ (page_ref f s') = p /\ (f ∉ free_list_ s') /\
        is_Some (node_at (replacer_ s') f) /\ limbo' <> Some f) /\
     (forall n, evictable_at (replacer_ s') f n ->
        pin_count_ (page_ref f s') = 0 /\ (f ∉ free_list_ s')) /\
     (limbo' <> Some f -> pin_count_ (page_ref f s') = 0 ->
        f ∈ free_list_ s' \/ exists n, evictable_at (replacer_ s') f n) /\
     (limbo' = Some f -> (f ∉ free_list_ s') /\ pin_count_ (page_ref f s') = 0)) ->
  PoolInvBut limbo' s'.
Proof.
  intros HI Hfo Hlimbo Hlimbo' Hps Hpl Hpins HInv Hrs Hnodes Hheap Hfree Hnd Htab Hf.
  pose proof HI as [I1 I2 I3 I4 I5 I6 I7 I8 I9 I10 I11 I12].
  assert (Hin : forall g, in_pool s' g <-> in_pool s g)
    by (intros g; unfold in_pool; by rewrite Hps).
  assert (Hslot : forall g, in_pool s g -> fo <> Some g ->
            forall h, fo = Some h -> slot g <> slot h).
  { intros g Hg Hne h Hh. apply (in_pool_slot s h g); [lia|by apply Hfo|done|congruence]. }
  split.
  - by rewrite Hps.
  - by rewrite Hpl, Hps.
  - done.
  - by rewrite Hrs, Hps.
  - intros e He. apply Hin. by apply Hheap.
  - intros g Hg. destruct (decide (fo = Some g)) as [Hfg|Hfg].
    + destruct (Hf g Hfg) as (F1 & F2 & F3 & F4 & F5 & F6).
      split; [by apply Hin, Hfo|by apply F2].
    + apply Hfree in Hg; [|done]. destruct (I6 g Hg) as [? ?].
      split; [by apply Hin|]. by rewrite (proj1 (Hpins g Hfg)).
  - done.
  - intros p g Hp. destruct (decide (fo = Some g)) as [Hfg|Hfg].
    + destruct (Hf g Hfg) as (F1 & F2 & F3 & F4 & F5 & F6).
      split; [by apply Hin, Hfo|by apply F3].
    + destruct (I8 p g (Htab p g Hp Hfg)) as (Hg & Hid & Hnf & Hnode & _).
      split; [by apply Hin|]. split; [by rewrite (proj2 (Hpins g Hfg))|].
      split; [by rewrite Hfree|].
      split; [by apply (same_nodes_evictable fo _ _ g Hnodes Hfg (Hslot g Hg Hfg))|].
      intros Hl. by apply Hlimbo' in Hl.
  - intros g Hg. apply Hin in Hg. destruct (decide (fo = Some g)) as [Hfg|Hfg].
    + by destruct (Hf g Hfg) as (F1 & F2 & F3 & F4 & F5 & F6).
    + rewrite (proj1 (Hpins g Hfg)). by apply I9.
  - intros g n Hg Hn. apply Hin in Hg. destruct (decide (fo = Some g)) as [Hfg|Hfg].
    + destruct (Hf g Hfg) as (F1 & F2 & F3 & F4 & F5 & F6). by apply (F4 n).
    + destruct (proj2 (proj2 (same_nodes_evictable fo _ _ g Hnodes Hfg (Hslot g Hg Hfg)))
                  (ex_intro _ n Hn)) as [n0 Hn0].
      destruct (I10 g n0 Hg Hn0) as [? ?].
      split; [by rewrite (proj1 (Hpins g Hfg))|by rewrite Hfree].
  - intros g Hg Hl Hpin. apply Hin in Hg. destruct (decide (fo = Some g)) as [Hfg|Hfg].
    + destruct (Hf g Hfg) as (F1 & F2 & F3 & F4 & F5 & F6). by apply F5.
    + rewrite (proj1 (Hpins g Hfg)) in Hpin.
      destruct (I11 g Hg) as [Hfr|Hev]; [intros Hl'; by apply Hlimbo in Hl'|done| |].
      * left. by apply Hfree.
      * right. by apply (same_nodes_evictable fo _ _ g Hnodes Hfg (Hslot g Hg Hfg)).
  - intros g Hl. pose proof (Hlimbo' g Hl) as Hfg.
    destruct (Hf g Hfg) as (F1 & F2 & F3 & F4 & F5 & F6).
    split; [by apply Hin, Hfo|by apply F6].
Qed.

Lemma PoolInv_new build page_size pool_size disk_manager replacer_k :
  0 <= pool_size < SIZE_T_MODULUS ->
  PoolInv (BufferPoolManager_new build page_size pool_size disk_manager replacer_k).
Proof.
  intros Hps. set (s := BufferPoolManager_new _ _ _ _ _).
  assert (Hpin : forall f, pin_count_ (page_ref f s) = 0).
  { intros f. unfold page_ref, page_lookup; simpl. destruct (f <? 0); [done|].
    destruct (replicate _ _ !! _) as [p|] eqn:Hp; [|done].
    by apply lookup_replicate in Hp as [-> _]. }
  assert (Hnone : forall f, node_at (replacer_ s) f = None).
  { intros f. unfold node_at; simpl.
    destruct (replicate _ _ !! _) as [o|] eqn:Ho; [|done].
    by apply lookup_replicate in Ho as [-> _]. }
  split; simpl.
  - done.
  - by rewrite length_replicate.
  - apply Inv_new.
  - done.
  - intros e He. by apply elem_of_nil in He.
  - intros f Hf. apply elem_of_seqZ in Hf. split; [unfold in_pool; simpl; lia|apply Hpin].
  - apply NoDup_seqZ.
  - intros p f Hp. by rewrite lookup_empty in Hp.
  - intros f _. by rewrite Hpin.
  - intros f n _ [Hn _]. by rewrite Hnone in Hn.
  - intros f Hf _ _. left. apply elem_of_seqZ. unfold in_pool in Hf; simpl in Hf. lia.
  - done.
Qed.

(** The invariant does not look at payloads, dirty flags, the disk, the
    counter of page ids or the list of deallocated ids. *)
Lemma PoolInv_same_pins limbo s s' :
  PoolInvBut limbo s ->
  pool_size_ s' = pool_size_ s -> length (pages_ s') = length (pages_ s) ->
  same_pins_but None s s' ->
  replacer_ s' = replacer_ s -> free_list_ s' = free_list_ s ->
  page_table_ s' = page_table_ s ->
  PoolInvBut limbo s'.
Proof.
  intros HI Hps Hpl Hpins Hr Hf Ht.
  pose proof HI as [I1 I2 I3 I4 I5 I6 I7 I8 I9 I10 I11 I12].
  assert (Hp : forall g, pin_count_ (page_ref g s') = pin_count_ (page_ref g s) /\
                         page_id_ (page_ref g s') = page_id_ (page_ref g s))
    by (intros g; by apply Hpins).
  split; unfold in_pool in *; rewrite ?Hps, ?Hpl, ?Hr, ?Hf, ?Ht; try done.
  - intros f Hin. rewrite (proj1 (Hp f)). by apply I6.
  - intros p f Hpf. rewrite (proj2 (Hp f)). by apply I8.
  - intros f Hin. rewrite (proj1 (Hp f)). by apply I9.
  - intros f n Hin Hn. rewrite (proj1 (Hp f)). by eapply I10.
  - intros f Hin Hl. rewrite (proj1 (Hp f)). by apply I11.
  - intros f Hl. rewrite (proj1 (Hp f)). by apply I12.
Qed.

Lemma same_nodes_but_refl f r : same_nodes_but f r r.
Proof. by intros g _ _. Qed.

Lemma FindFreeFrame_PoolInv s :
  PoolInv s ->
  match FindFreeFrame s with
  | Raises _ _ => False
  | Returns fo s1 =>
      PoolInvBut fo s1 /\
      current_timestamp_ (replacer_ s1) = current_timestamp_ (replacer_ s)
  end.
Proof.
  intros HI. pose proof HI as [I1 I2 I3 I4 I5 I6 I7 I8 I9 I10 I11 I12].
  rewrite FindFreeFrame_eq. destruct (free_list_ s) as [|f rest] eqn:Hfl.
  - pose proof (Evict_spec _ I3) as (HI' & Hev & Hv).
    pose proof (Evict_frames (in_pool s) _ I5) as (Hheap & Hlen & Hin).
    destruct ((Evict (replacer_ s)).2) as [v|] eqn:Hvic.
    + destruct Hv as (n & Hn & _).
      destruct (I10 v n Hin Hn) as [Hpin _].
      destruct (evict_frame_fields v (Evict (replacer_ s)).1 s)
        as (Hps & Hpt & Hfr & Hrp & Hnx & _ & Hpl & Hpr).
      split; [|rewrite Hrp; apply Hev].
      apply (PoolInv_update None (Some v) (Some v) s).
      * done.
      * by intros f [= <-].
      * done.
      * done.
      * done.
      * done.
      * intros g Hg. rewrite Hpr, decide_False by congruence. done.
      * by rewrite Hrp.
      * rewrite Hrp. apply Hev.
      * rewrite Hrp. by apply evicted_same_nodes.
      * by rewrite Hrp.
      * intros g _. by rewrite Hfr.
      * rewrite Hfr, Hfl. constructor.
      * intros p g Hp _. rewrite Hpt in Hp. by apply lookup_delete_Some in Hp as [_ ?].
      * intros f [= <-]. rewrite Hpr, decide_True, Hfr, Hfl, Hrp, Hpt by done.
        change (pin_count_ (set_is_dirty false (page_ref v s)))
          with (pin_count_ (page_ref v s)).
        split; [lia|]. split; [done|]. split.
        { intros p Hp. apply lookup_delete_Some in Hp as [Hne Hp].
          destruct (I8 p v Hp) as (_ & Hid & _). congruence. }
        split.
        { intros n' [Hn' _]. destruct Hev as (_ & _ & _ & _ & Hnone & _). congruence. }
        split; [done|]. split; [apply not_elem_of_nil|done].
    + split; [|apply Hev].
      apply (PoolInv_update None None None s).
      * done.
      * done.
      * done.
      * done.
      * done.
      * done.
      * by intros g _.
      * done.
      * apply Hev.
      * by apply evicted_same_nodes.
      * done.
      * done.
      * change (NoDup (free_list_ s)). rewrite Hfl. constructor.
      * by intros p g Hp _.
      * done.
  - destruct (I6 f) as [Hf Hpin]; [by left|].
    apply NoDup_cons in I7 as [Hnin Hnd].
    split; [|done].
    apply (PoolInv_update None (Some f) (Some f) s).
    + done.
    + by intros g [= <-].
    + done.
    + done.
    + done.
    + done.
    + done.
    + done.
    + done.
    + apply same_nodes_but_refl.
    + done.
    + intros g Hg. change (free_list_ (set_free_list rest s)) with rest.
      rewrite Hfl, elem_of_cons. split; [by right|].
      intros [->|?]; [done|done].
    + done.
    + done.
    + intros g [= <-].
      change (page_ref f (set_free_list rest s)) with (page_ref f s).
      change (free_list_ (set_free_list rest s)) with rest.
      change (replacer_ (set_free_list rest s)) with (replacer_ s).
      change (page_table_ (set_free_list rest s)) with (page_table_ s).
      split; [lia|]. split; [done|]. split.
      { intros p Hp. destruct (I8 p f Hp) as (_ & _ & Hnf & _).
        exfalso. apply Hnf. by left. }
      split.
      { intros n Hn. destruct (I10 f n Hf Hn) as [_ Hnf].
        exfalso. apply Hnf. by left. }
      done.
Qed.

Lemma SetEvictable_timestamp f b r r' :
  SetEvictable f b r = Ok r' ->
  current_timestamp_ r' = current_timestamp_ r /\ k_ r' = k_ r.
Proof.
  unfold SetEvictable. destruct (_ <=? _); [done|].
  destruct (node_at r f) as [n|]; [|done].
  destruct (Bool.eqb _ _); [by intros [= <-]|].
  destruct b; [destruct (present_in_pq_ _)|]; by intros [= <-].
Qed.

Lemma Remove_timestamp f r r' :
  Remove f r = Ok r' -> current_timestamp_ r' = current_timestamp_ r.
Proof.
  unfold Remove. destruct (_ <=? _); [done|].
  destruct (node_at r f) as [n|]; [|done]. destruct (negb _); [done|]. by intros [= <-].
Qed.

(** What [RecordAccess] followed by [SetEvictable(frame_id, false)]
    makes of the replacer. *)
Lemma RecordAccess_SetEvictable r f :
  Inv r -> to_size_t f < replacer_size_ r ->
  current_timestamp_ r + 1 < SIZE_T_MODULUS ->
  exists r1 r2, RecordAccess f r = Ok r1 /\ SetEvictable f false r1 = Ok r2 /\
    Inv r2 /\ replacer_size_ r2 = replacer_size_ r /\
    same_nodes_but (Some f) r r2 /\
    (forall e, e ∈ pq_ r2 -> e ∈ pq_ r \/ frame_id_ e = f) /\
    (exists n, node_at r2 f = Some n /\ is_evictable_ n = false) /\
    current_timestamp_ r2 = current_timestamp_ r + 1.
Proof.
  intros HI Hf Hnow.
  destruct (RecordAccess_ok f r (inv_length _ HI) Hf) as (r1 & Hr1 & W1 & n1 & Hn1 & _).
  destruct (RecordAccess_Inv f r r1 HI Hnow Hr1) as [HI1 Ht1].
  pose proof W1 as (Hs1 & Hl1 & _ & Hq1).
  destruct (SetEvictable_ok f false r1 n1 (inv_length _ HI1) ltac:(by rewrite Hs1) Hn1)
    as (r2 & Hr2 & W2 & n2 & Hn2 & He2).
  pose proof W2 as (Hs2 & Hl2 & _ & Hq2).
  exists r1, r2. split; [done|]. split; [done|].
  split; [by eapply SetEvictable_Inv|]. split; [congruence|].
  split. { eapply same_nodes_but_trans; by apply writes_slot_same_nodes. }
  split. { intros e He. destruct (Hq2 e He) as [He1|?]; [by apply Hq1|by right]. }
  split; [by exists n2|].
  destruct (SetEvictable_timestamp _ _ _ _ Hr2) as [-> _]. done.
Qed.

(** Pinning frame [f], reserved by [FindFreeFrame] or resident. *)
Lemma pin_PoolInv limbo s s' f :
  PoolInvBut limbo s -> (forall g, limbo = Some g -> g = f) ->
  in_pool s f -> f ∉ free_list_ s ->
  pool_size_ s' = pool_size_ s -> length (pages_ s') = length (pages_ s) ->
  same_pins_but (Some f) s s' ->
  Inv (replacer_ s') ->
  replacer_size_ (replacer_ s') = replacer_size_ (replacer_ s) ->
  same_nodes_but (Some f) (replacer_ s) (replacer_ s') ->
  (forall e, e ∈ pq_ (replacer_ s') -> e ∈ pq_ (replacer_ s) \/ frame_id_ e = f) ->
  (exists n, node_at (replacer_ s') f = Some n /\ is_evictable_ n = false) ->
  free_list_ s' = free_list_ s ->
  (forall q g, page_table_ s' !! q = Some g -> g <> f -> page_table_ s !! q = Some g) ->
  (forall q, page_table_ s' !! q = Some f -> page_id_ (page_ref f s') = q) ->
  0 < pin_count_ (page_ref f s') ->
  PoolInv s'.
Proof.
  intros HI Hlimbo Hf Hnf Hps Hpl Hpins HInv Hrs Hnodes Hheap (n & Hn & Hev) Hfr Htab Hid Hpin.
  apply (PoolInv_update limbo None (Some f) s).
  - done.
  - by intros g [= <-].
  - intros g Hg. by rewrite (Hlimbo g Hg).
  - done.
  - done.
  - done.
  - done.
  - done.
  - done.
  - done.
  - intros e He. destruct (Hheap e He) as [He'| ->]; [by apply (pinv_heap _ _ HI)|done].
  - intros g _. by rewrite Hfr.
  - rewrite Hfr. apply (pinv_free_NoDup _ _ HI).
  - intros q g Hq Hg. apply Htab; [done|congruence].
  - intros g [= <-]. rewrite Hfr.
    split; [lia|]. split; [done|]. split.
    { intros q Hq. split; [by apply Hid|]. split; [done|]. split; [by rewrite Hn|done]. }
    split. { intros n' [Hn' Hev']. congruence. }
    split; [lia|done].
Qed.

Lemma to_page_id_t_small z : - 2 ^ 31 <= z < 2 ^ 31 -> to_page_id_t z = z.
Proof. intros Hz. unfold to_page_id_t. rewrite Z.mod_small by lia. lia. Qed.

(** C4 (amended).  In a state of the pool that satisfies its invariant,
    [NewPage] returns [None] exactly when the free list is empty and the
    replacer yields no victim, which is when every frame is pinned, and
    then the counter of page ids is unchanged; otherwise it returns a
    frame of the pool whose pin count is exactly 1, whose dirty flag is
    false and whose page id is the value of the counter, which is
    incremented as the 32-bit integer it is: by one while it is below
    [2^31 - 1], and from [2^31 - 1] to [-2^31]; the mapping from the new
    page id to the frame is in the page table if that page id was not
    resident before the call (an existing key keeps its frame). *)
Theorem NewPage_cases (s : BufferPoolManager) :
  PoolInv s ->
  match NewPage s with
  | Raises _ _ => False
  | Returns None s' =>
      free_list_ s = [] /\ (Evict (replacer_ s)).2 = None /\ all_pinned s /\
      next_page_id_ s' = next_page_id_ s
  | Returns (Some (page_id, f)) s' =>
      (free_list_ s <> [] \/ (Evict (replacer_ s)).2 <> None) /\ ~ all_pinned s /\
      in_pool s f /\
      page_id = next_page_id_ s /\
      next_page_id_ s' = to_page_id_t (next_page_id_ s + 1) /\
      (0 <= next_page_id_ s < PAGE_ID_MAX -> next_page_id_ s' = next_page_id_ s + 1) /\
      (next_page_id_ s = PAGE_ID_MAX -> next_page_id_ s' = - 2 ^ 31) /\
      pin_count_ (page_ref f s') = 1 /\
      is_dirty_ (page_ref f s') = false /\
      page_id_ (page_ref f s') = page_id /\
      (page_table_ s !! page_id = None -> page_table_ s' !! page_id = Some f)
  end.
Proof.
  intros HI. rewrite NewPage_eq. pose proof (FindFreeFrame_reserves s HI) as Hres.
  destruct (FindFreeFrame s) as [[f|] s1|msg s1]; [|by destruct Hres as (? & ? & ? & ? & _)|done].
  destruct Hres as (Hsrc & Hf & Hpin & Hpin1 & Hps & Hnx & Hpl & Htab & Hrs & Hrl).
  assert (Hlen1 : length (node_store_ (replacer_ s1))
                = Z.to_nat (replacer_size_ (replacer_ s1))).
  { rewrite Hrl, Hrs. apply (PoolInv_replacer_length _ _ HI). }
  assert (Hin1 : to_size_t f < replacer_size_ (replacer_ s1)).
  { rewrite Hrs. by apply (PoolInv_in_range _ _ _ HI). }
  destruct (RecordAccess_ok f _ Hlen1 Hin1) as (r1 & Hr1 & (Hs1 & Hl1 & _) & n1 & Hn1 & _).
  destruct (SetEvictable_ok f false r1 n1 ltac:(by rewrite Hl1, Hs1) ltac:(by rewrite Hs1) Hn1)
    as (r2 & Hr2 & _).
  simpl. rewrite Hr1, Hr2.
  destruct (PoolInv_page_lt _ _ _ HI Hf) as [H0 Hlt].
  set (s2 := set_replacer r2 _).
  set (page' := set_pin_count _ _).
  assert (Hpage : page_ref f (set_page f page' s2) = page').
  { rewrite page_ref_set_page, decide_True; [done..|]. by rewrite <- Hpl in Hlt. }
  destruct (set_page_fields f page' s2) as (_ & Ht & _ & _ & _ & Hn & _).
  split. { destruct Hsrc as [Hin|[_ Hv]]; [left|right; congruence].
           intros Hnil. rewrite Hnil in Hin. by apply elem_of_nil in Hin. }
  split. { intros Hall. specialize (Hall f Hf). lia. }
  split; [done|]. split; [done|].
  assert (Hnext : next_page_id_ (set_page f page' s2) = to_page_id_t (next_page_id_ s + 1)).
  { rewrite Hn. simpl. by rewrite Hnx. }
  split; [done|].
  split; [intros Hb; rewrite Hnext; by apply to_page_id_t_small; unfold PAGE_ID_MAX in Hb; lia|].
  split; [intros Hb; by rewrite Hnext, Hb|].
  rewrite Hpage. subst page'. simpl.
  split; [lia|]. split; [done|]. split; [done|].
  intros Hnone. rewrite Ht. simpl. by apply emplace_fresh, Htab.
Qed.

(** C4 as stated fails: page 0 fetched into frame 0 before any page was
    allocated, [NewPage] returns frame 1 for page id 0, and the page
    table still maps page 0 to frame 0. *)
Lemma NewPage_keeps_resident_mapping :
  let s := run [CFetchPage 0] (BufferPoolManager_new (mkBuild true 2) 1 3 Scheduler.DiskManager_new 2) in
  exists s', NewPage s = Returns (Some (0, 1)) s' /\
    page_table_ s' !! 0 = Some 0 /\ page_table_ s' !! 0 <> Some 1.
Proof. intros s. eexists. split; [reflexivity|]. split; [reflexivity|discriminate]. Qed.

(** *** The member functions keep the invariant of the pool *)

Lemma page_ref_set_page_ne f g p s : g <> f -> page_ref g (set_page f p s) = page_ref g s.
Proof.
  intros Hne. unfold page_ref, page_lookup, set_page.
  destruct (f <? 0) eqn:Hf; [done|]. simpl. destruct (g <? 0) eqn:Hg; [done|].
  apply Z.ltb_ge in Hf, Hg. by rewrite list_lookup_insert_ne by lia.
Qed.

Lemma emplace_lookup k v (m : gmap Z Z) q g :
  emplace k v m !! q = Some g -> m !! q = Some g \/ (q = k /\ g = v /\ m !! k = None).
Proof.
  unfold emplace. destruct (m !! k) eqn:Hk; [by left|].
  intros Hq. apply lookup_insert_Some in Hq as [(-> & ->)|(_ & Hq)]; [by right|by left].
Qed.

Lemma NewPage_PoolInv s :
  PoolInv s -> current_timestamp_ (replacer_ s) + 1 < SIZE_T_MODULUS ->
  match NewPage s with
  | Raises _ _ => False
  | Returns _ s' =>
      PoolInv s' /\
      current_timestamp_ (replacer_ s') <= current_timestamp_ (replacer_ s) + 1
  end.
Proof.
  intros HI Hnow. rewrite NewPage_eq. pose proof (FindFreeFrame_PoolInv s HI) as Hffi.
  destruct (FindFreeFrame s) as [[f|] s1|msg s1]; [|split; [apply Hffi|lia]|done].
  destruct Hffi as [HI1 Ht1].
  destruct (pinv_limbo _ _ HI1 f eq_refl) as (Hf & Hnf & Hpin).
  destruct (RecordAccess_SetEvictable (replacer_ s1) f (pinv_replacer _ _ HI1)
              (PoolInv_in_range _ _ _ HI1 Hf) ltac:(lia))
    as (r1 & r2 & Hr1 & Hr2 & HI2 & Hrs & Hsn & Hq & Hn & Ht2).
  simpl. rewrite Hr1, Hr2.
  destruct (PoolInv_page_lt _ _ _ HI1 Hf) as [H0 Hlt].
  set (s2 := set_replacer r2 _). set (page' := set_pin_count _ _).
  destruct (set_page_fields f page' s2) as (Hps & Hpt & Hfl & Hrp & _).
  assert (Hpage : page_ref f (set_page f page' s2) = page')
    by (by rewrite page_ref_set_page, decide_True).
  split; [|rewrite Hrp; simpl; lia].
  apply (pin_PoolInv (Some f) s1 _ f); rewrite ?Hps, ?Hpt, ?Hfl, ?Hrp, ?Hpage; try done.
  - by intros g [= <-].
  - by rewrite set_page_length.
  - intros g Hg. rewrite page_ref_set_page_ne by congruence. done.
  - intros q g Hq' Hg. simpl in Hq'.
    apply emplace_lookup in Hq' as [?|(_ & ? & _)]; [done|congruence].
  - intros q Hq'. simpl in Hq'.
    apply emplace_lookup in Hq' as [Hold|(-> & _)]; [|done].
    by destruct (pinv_table _ _ HI1 _ _ Hold) as (_ & _ & _ & _ & ?).
  - subst page'. simpl. lia.
Qed.

Lemma fetch_resident_eq f s :
  fetch_resident f s =
  match RecordAccess f (replacer_ s) with
  | Throw msg => Raises msg s
  | Ok r1 =>
      match SetEvictable f false r1 with
      | Throw msg => Raises msg (set_replacer r1 s)
      | Ok r2 =>
          Returns (Some f)
            (set_page f (set_pin_count (pin_count_ (page_ref f s) + 1) (page_ref f s))
               (set_replacer r2 s))
      end
  end.
Proof.
  unfold fetch_resident, bind, replacer_call, modify, ret.
  destruct (RecordAccess f (replacer_ s)) as [r1|]; [|done]. simpl.
  by destruct (SetEvictable f false r1).
Qed.

Lemma fetch_resident_PoolInv s p f :
  PoolInv s -> current_timestamp_ (replacer_ s) + 1 < SIZE_T_MODULUS ->
  page_table_ s !! p = Some f ->
  match fetch_resident f s with
  | Raises _ _ => False
  | Returns _ s' =>
      PoolInv s' /\
      current_timestamp_ (replacer_ s') <= current_timestamp_ (replacer_ s) + 1
  end.
Proof.
  intros HI Hnow Hp. rewrite fetch_resident_eq.
  destruct (pinv_table _ _ HI _ _ Hp) as (Hf & Hid & Hnf & _).
  destruct (RecordAccess_SetEvictable (replacer_ s) f (pinv_replacer _ _ HI)
              (PoolInv_in_range _ _ _ HI Hf) Hnow)
    as (r1 & r2 & Hr1 & Hr2 & HI2 & Hrs & Hsn & Hq & Hn & Ht2).
  rewrite Hr1, Hr2.
  destruct (PoolInv_page_lt _ _ _ HI Hf) as [H0 Hlt].
  set (s2 := set_replacer r2 _). set (page' := set_pin_count _ _).
  destruct (set_page_fields f page' s2) as (Hps & Hpt & Hfl & Hrp & _).
  assert (Hpage : page_ref f (set_page f page' s2) = page')
    by (by rewrite page_ref_set_page, decide_True).
  split; [|rewrite Hrp; simpl; lia].
  apply (pin_PoolInv None s _ f); rewrite ?Hps, ?Hpt, ?Hfl, ?Hrp, ?Hpage; try done.
  - by rewrite set_page_length.
  - intros g Hg. rewrite page_ref_set_page_ne by congruence. done.
  - intros q Hq'. simpl in Hq'. by destruct (pinv_table _ _ HI _ _ Hq') as (_ & ? & _).
  - subst page'. simpl. pose proof (pinv_pins _ _ HI f Hf). lia.
Qed.

Lemma read_and_wait_eq page_id f s :
  read_and_wait page_id f s = Returns tt (read_in page_id f s).
Proof.
  unfold read_and_wait, read_in. destruct (assert_evaluates (build_ s)); [|done].
  by destruct (Scheduler.ReadPage _ _ _).
Qed.

Lemma read_in_fields page_id f s :
  build_ (read_in page_id f s) = build_ s /\
  pool_size_ (read_in page_id f s) = pool_size_ s /\
  page_table_ (read_in page_id f s) = page_table_ s /\
  free_list_ (read_in page_id f s) = free_list_ s /\
  replacer_ (read_in page_id f s) = replacer_ s /\
  next_page_id_ (read_in page_id f s) = next_page_id_ s /\
  deallocated_ (read_in page_id f s) = deallocated_ s /\
  length (pages_ (read_in page_id f s)) = length (pages_ s).
Proof.
  unfold read_in. destruct (assert_evaluates (build_ s)); [|done]. cbv zeta.
  set (p := set_data _ _). set (s1 := set_disk _ s).
  destruct (set_page_fields f p s1) as (-> & -> & -> & -> & _ & -> & ->).
  destruct (set_page_build f p s1) as (-> & _).
  by rewrite set_page_length.
Qed.

Lemma page_ref_read_in page_id f s g :
  pin_count_ (page_ref g (read_in page_id f s)) = pin_count_ (page_ref g s) /\
  page_id_ (page_ref g (read_in page_id f s)) = page_id_ (page_ref g s) /\
  is_dirty_ (page_ref g (read_in page_id f s)) = is_dirty_ (page_ref g s) /\
  (g <> f -> page_ref g (read_in page_id f s) = page_ref g s).
Proof.
  unfold read_in. destruct (assert_evaluates (build_ s)); [|done]. cbv zeta.
  set (p := set_data _ _). set (s1 := set_disk _ s).
  destruct (decide (g = f)) as [->|Hg].
  - assert (Hp : page_ref f (set_page f p s1) = p \/ page_ref f (set_page f p s1) = page_ref f s).
    { unfold page_ref, page_lookup, set_page. destruct (f <? 0) eqn:Hf; [by right|].
      simpl. destruct (pages_ s !! Z.to_nat f) as [p0|] eqn:Hp0; simpl.
      - left. rewrite list_lookup_insert_eq; [done|]. by eapply lookup_lt_Some.
      - right. rewrite list_insert_ge; [by rewrite Hp0|]. by apply lookup_ge_None. }
    destruct Hp as [-> | ->]; [|done]. by subst p.
  - rewrite page_ref_set_page_ne by done. done.
Qed.

Lemma FetchPage_eq page_id s :
  FetchPage page_id s =
  match page_table_ s !! page_id with
  | Some f => fetch_resident f s
  | None =>
      match FindFreeFrame s with
      | Raises msg s1 => Raises msg s1
      | Returns None s1 => Returns None s1
      | Returns (Some f) s1 =>
          let s2 := set_page_table (emplace page_id f (page_table_ s1)) s1 in
          let s3 := read_in page_id f s2 in
          match RecordAccess f (replacer_ s3) with
          | Throw msg => Raises msg s3
          | Ok r1 =>
              match SetEvictable f false r1 with
              | Throw msg => Raises msg (set_replacer r1 s3)
              | Ok r2 =>
                  let s4 := set_replacer r2 s3 in
                  Returns (Some f)
                    (set_page f
                       (set_is_dirty false (set_page_id page_id
                          (set_pin_count (pin_count_ (page_ref f s4) + 1) (page_ref f s4))))
                       s4)
              end
          end
      end
  end.
Proof.
  unfold FetchPage, bind at 1, get.
  destruct (page_table_ s !! page_id) as [f|] eqn:Hp; [done|].
  unfold bind at 1. rewrite Hp. unfold bind at 1.
  destruct (FindFreeFrame s) as [[f|] s1|msg s1]; [|done|done].
  unfold bind at 1, modify. unfold bind at 1. rewrite read_and_wait_eq.
  unfold bind, replacer_call, ret. cbv zeta.
  set (s3 := read_in page_id f _).
  destruct (RecordAccess f (replacer_ s3)) as [r1|]; [|done]. simpl.
  by destruct (SetEvictable f false r1).
Qed.

Lemma FetchPage_PoolInv page_id s :
  PoolInv s -> current_timestamp_ (replacer_ s) + 1 < SIZE_T_MODULUS ->
  match FetchPage page_id s with
  | Raises _ _ => False
  | Returns _ s' =>
      PoolInv s' /\
      current_timestamp_ (replacer_ s') <= current_timestamp_ (replacer_ s) + 1
  end.
Proof.
  intros HI Hnow. rewrite FetchPage_eq.
  destruct (page_table_ s !! page_id) as [f|] eqn:Hp; [by eapply fetch_resident_PoolInv|].
  pose proof (FindFreeFrame_PoolInv s HI) as Hffi.
  destruct (FindFreeFrame s) as [[f|] s1|msg s1]; [|split; [apply Hffi|lia]|done].
  destruct Hffi as [HI1 Ht1].
  destruct (pinv_limbo _ _ HI1 f eq_refl) as (Hf & Hnf & Hpin).
  destruct (PoolInv_page_lt _ _ _ HI1 Hf) as [H0 Hlt].
  cbv zeta.
  set (s2 := set_page_table _ s1).
  destruct (read_in_fields page_id f s2) as (_ & Hps3 & Hpt3 & Hfl3 & Hrp3 & _ & _ & Hl3).
  pose proof (page_ref_read_in page_id f s2) as Hpr3.
  set (s3 := read_in page_id f s2) in *.
  rewrite Hrp3. change (replacer_ s2) with (replacer_ s1).
  destruct (RecordAccess_SetEvictable (replacer_ s1) f (pinv_replacer _ _ HI1)
              (PoolInv_in_range _ _ _ HI1 Hf) ltac:(lia))
    as (r1 & r2 & Hr1 & Hr2 & HI2 & Hrs & Hsn & Hq & Hn & Ht2).
  rewrite Hr1, Hr2.
  set (s4 := set_replacer r2 s3). set (page' := set_is_dirty _ _).
  destruct (set_page_fields f page' s4) as (Hps & Hpt & Hfl & Hrp & _).
  change (length (pages_ s2)) with (length (pages_ s1)) in Hl3.
  assert (Hlt4 : (Z.to_nat f < length (pages_ s4))%nat)
    by (change (pages_ s4) with (pages_ s3); by rewrite Hl3).
  assert (Hpage : page_ref f (set_page f page' s4) = page')
    by (by rewrite page_ref_set_page, decide_True).
  split; [|rewrite Hrp; simpl; lia].
  apply (pin_PoolInv (Some f) s1 _ f); rewrite ?Hps, ?Hpt, ?Hfl, ?Hrp, ?Hpage; try done.
  - by intros g [= <-].
  - by rewrite set_page_length.
  - intros g Hg. rewrite page_ref_set_page_ne by congruence.
    change (page_ref g s4) with (page_ref g s3).
    destruct (Hpr3 g) as (-> & -> & _). done.
  - intros q g Hq' Hg. simpl in Hq'. rewrite Hpt3 in Hq'. simpl in Hq'.
    apply emplace_lookup in Hq' as [?|(_ & ? & _)]; [done|congruence].
  - intros q Hq'. simpl in Hq'. rewrite Hpt3 in Hq'. simpl in Hq'.
    apply emplace_lookup in Hq' as [Hold|(-> & _)]; [|done].
    by destruct (pinv_table _ _ HI1 _ _ Hold) as (_ & _ & _ & _ & ?).
  - subst page'. simpl. change (page_ref f s4) with (page_ref f s3).
    destruct (Hpr3 f) as (-> & _). change (page_ref f s2) with (page_ref f s1). lia.
Qed.

Lemma UnpinPage_PoolInv page_id is_dirty s :
  PoolInv s ->
  match UnpinPage page_id is_dirty s with
  | Raises _ _ => False
  | Returns _ s' =>
      PoolInv s' /\ current_timestamp_ (replacer_ s') = current_timestamp_ (replacer_ s)
  end.
Proof.
  intros HI. pose proof HI as [I1 I2 I3 I4 I5 I6 I7 I8 I9 I10 I11 I12].
  rewrite UnpinPage_eq.
  destruct (page_table_ s !! page_id) as [f|] eqn:Hp; [|done].
  destruct (I8 _ _ Hp) as (Hf & Hid & Hnf & [n Hn] & _).
  pose proof (I9 f Hf) as Hpin.
  destruct (PoolInv_page_lt _ _ _ HI Hf) as [H0 Hlt].
  cbv zeta. destruct (Z.leb_spec (pin_count_ (page_ref f s)) 0) as [Hle|Hgt]; [done|].
  set (page' := set_pin_count _ _).
  destruct (set_page_fields f page' s) as (Hps & Hpt & Hfl & Hrp & _).
  assert (Hpage : forall r, page_ref f (set_replacer r (set_page f page' s)) = page').
  { intros r. change (page_ref f (set_replacer r ?x)) with (page_ref f x).
    by rewrite page_ref_set_page, decide_True. }
  assert (Hother : forall r, same_pins_but (Some f) s (set_replacer r (set_page f page' s))).
  { intros r g Hg. change (page_ref g (set_replacer r ?x)) with (page_ref g x).
    rewrite page_ref_set_page_ne by congruence. done. }
  destruct (Z.eqb_spec (pin_count_ (page_ref f s) - 1) 0) as [E1|E1].
  - destruct (SetEvictable_ok f true (replacer_ s) n
                (PoolInv_replacer_length _ _ HI) (PoolInv_in_range _ _ _ HI Hf) Hn)
      as (r' & Hr' & W & n' & Hn' & Hev).
    rewrite Hr'. split; [|by destruct (SetEvictable_timestamp _ _ _ _ Hr')].
    pose proof W as (Hs1 & _ & _ & Hq1).
    apply (PoolInv_update None None (Some f) s).
    + done.
    + by intros g [= <-].
    + done.
    + done.
    + done.
    + simpl. by rewrite set_page_length.
    + apply Hother.
    + by eapply SetEvictable_Inv.
    + done.
    + by apply writes_slot_same_nodes.
    + intros e He. simpl in He. destruct (Hq1 e He) as [?| ->]; [by apply I5|done].
    + intros g _. simpl. by rewrite Hfl.
    + simpl. by rewrite Hfl.
    + intros q g Hq _. simpl in Hq. by rewrite Hpt in Hq.
    + intros g [= <-]. rewrite Hpage. simpl. rewrite Hfl, Hpt.
      split; [lia|]. split; [done|]. split.
      { intros q Hq. destruct (I8 _ _ Hq) as (_ & ? & _). split; [done|].
        split; [done|]. split; [by rewrite Hn'|done]. }
      split. { intros ? _. split; [lia|done]. }
      split; [|done]. intros _ _. right. by exists n'.
  - split; [|by rewrite Hrp].
    apply (PoolInv_update None None (Some f) s).
    + done.
    + by intros g [= <-].
    + done.
    + done.
    + done.
    + by rewrite set_page_length.
    + intros g Hg. rewrite page_ref_set_page_ne by congruence. done.
    + by rewrite Hrp.
    + by rewrite Hrp.
    + rewrite Hrp. apply same_nodes_but_refl.
    + by rewrite Hrp.
    + intros g _. by rewrite Hfl.
    + by rewrite Hfl.
    + intros q g Hq _. by rewrite Hpt in Hq.
    + intros g [= <-]. rewrite page_ref_set_page, decide_True by done.
      rewrite Hfl, Hpt, Hrp. subst page'. simpl.
      split; [lia|]. split; [done|]. split.
      { intros q Hq. destruct (I8 _ _ Hq) as (_ & ? & _ & ? & _). done. }
      split. { intros n0 Hn0. destruct (I10 f n0 Hf Hn0). lia. }
      split; [|done]. intros _ ?. lia.
Qed.

Lemma FlushPage_eq page_id s :
  FlushPage page_id s =
  match page_table_ s !! page_id with
  | None => Returns false s
  | Some f => Returns true (flushed f s)
  end.
Proof.
  unfold FlushPage, bind at 1, get. destruct (page_table_ s !! page_id) as [f|]; [|done].
  unfold bind at 1. by rewrite FlushPage_ref_eq.
Qed.

Lemma FlushPage_PoolInv page_id s :
  PoolInv s ->
  match FlushPage page_id s with
  | Raises _ _ => False
  | Returns _ s' =>
      PoolInv s' /\ current_timestamp_ (replacer_ s') = current_timestamp_ (replacer_ s)
  end.
Proof.
  intros HI. rewrite FlushPage_eq. destruct (page_table_ s !! page_id) as [f|]; [|done].
  destruct (flushed_fields f s) as (Hps & Hpt & Hfl & Hrp & _ & _ & Hpl & Hpr).
  split; [|by rewrite Hrp].
  apply (PoolInv_same_pins None s); try done.
  intros g _. rewrite Hpr. by case_decide.
Qed.


Lemma clear_all_pins l : forall s g,
  pin_count_ (page_ref g (clear_all l s)) = pin_count_ (page_ref g s) /\
  page_id_ (page_ref g (clear_all l s)) = page_id_ (page_ref g s).
Proof.
  induction l as [|i l IH]; intros s g; [done|].
  change (clear_all (i :: l) s)
    with (clear_all l (set_page i (set_is_dirty false (page_ref i s)) s)).
  destruct (IH (set_page i (set_is_dirty false (page_ref i s)) s) g) as [-> ->].
  destruct (decide (g = i)) as [->|Hgi]; [|by rewrite page_ref_set_page_ne].
  unfold page_ref, page_lookup, set_page. destruct (i <? 0) eqn:Hi; [done|].
  simpl. destruct (pages_ s !! Z.to_nat i) as [p|] eqn:Hp; simpl.
  - rewrite list_lookup_insert_eq; [done|]. by eapply lookup_lt_Some.
  - rewrite list_insert_ge; [by rewrite Hp|]. by apply lookup_ge_None.
Qed.

Lemma FlushAllPages_PoolInv picks s :
  PoolInv s ->
  match FlushAllPages picks s with
  | Raises _ _ => False
  | Returns _ s' =>
      PoolInv s' /\ current_timestamp_ (replacer_ s') = current_timestamp_ (replacer_ s)
  end.
Proof.
  intros HI. rewrite FlushAllPages_eq.
  destruct (all_written_fields picks (seqZ 0 (pool_size_ s)) s)
    as (_ & Hps1 & Ht1 & Hf1 & Hr1 & _ & _ & Hp1).
  set (s1 := all_written picks _ s) in *.
  destruct (clear_all_fields (seqZ 0 (pool_size_ s)) s1)
    as (Hps & Ht & Hf & Hr & _ & _ & _ & Hl).
  split; [|by rewrite Hr, Hr1].
  apply (PoolInv_same_pins None s); try done; try congruence.
  intros g _. destruct (clear_all_pins (seqZ 0 (pool_size_ s)) s1 g) as [-> ->].
  unfold page_ref, page_lookup. by rewrite Hp1.
Qed.

Lemma DeletePage_PoolInv page_id s :
  PoolInv s ->
  match DeletePage page_id s with
  | Raises _ _ => False
  | Returns _ s' =>
      PoolInv s' /\ current_timestamp_ (replacer_ s') = current_timestamp_ (replacer_ s)
  end.
Proof.
  intros HI. pose proof HI as [I1 I2 I3 I4 I5 I6 I7 I8 I9 I10 I11 I12].
  rewrite DeletePage_eq.
  destruct (page_table_ s !! page_id) as [f|] eqn:Hp; [|done].
  destruct (I8 _ _ Hp) as (Hf & Hid & Hnf & _ & _).
  pose proof (I9 f Hf) as Hpin.
  destruct (PoolInv_page_lt _ _ _ HI Hf) as [H0 Hlt].
  cbv zeta. rewrite Hid, Z.eqb_refl. simpl.
  destruct (Z.ltb_spec 0 (pin_count_ (page_ref f s))) as [Hpos|Hzero]; [done|].
  destruct (I11 f Hf ltac:(done) ltac:(lia)) as [Hin|[n [Hn Hev]]]; [done|].
  destruct (Remove_ok f (replacer_ s) n (PoolInv_replacer_length _ _ HI)
              (PoolInv_in_range _ _ _ HI Hf) Hn Hev) as (Hr & W & Hnone).
  rewrite Hr. set (r' := set_node f None (replacer_ s)) in *.
  set (s2 := set_free_list _ _).
  destruct (set_page_fields f (ResetMemory (page_ref f s)) s2)
    as (Hps & Hpt & Hfl & Hrp & _).
  pose proof W as (Hs1 & _ & _ & Hq1).
  split; [|simpl; by rewrite Hrp].
  apply (PoolInv_update None None (Some f) s).
  - done.
  - by intros g [= <-].
  - done.
  - done.
  - simpl. by rewrite Hps.
  - simpl. by rewrite set_page_length.
  - intros g Hg. change (page_ref g (set_deallocated ?l ?x)) with (page_ref g x).
    rewrite page_ref_set_page_ne by congruence. done.
  - simpl. rewrite Hrp. by eapply Remove_Inv.
  - simpl. by rewrite Hrp.
  - simpl. rewrite Hrp. by apply writes_slot_same_nodes.
  - intros e He. simpl in He. rewrite Hrp in He.
    destruct (Hq1 e He) as [?| ->]; [by apply I5|done].
  - intros g Hg. simpl. rewrite Hfl. simpl. rewrite elem_of_app, list_elem_of_singleton.
    split; [intros [?| ->]; [done|congruence]|by left].
  - simpl. rewrite Hfl. simpl. apply NoDup_app. split; [done|].
    split; [|apply NoDup_singleton].
    intros x Hx Hx'. apply list_elem_of_singleton in Hx'. by subst x.
  - intros q g Hq _. simpl in Hq. rewrite Hpt in Hq. simpl in Hq.
    by apply lookup_delete_Some in Hq as [_ ?].
  - intros g [= <-]. change (page_ref f (set_deallocated ?l ?x)) with (page_ref f x).
    rewrite page_ref_set_page, decide_True by done.
    simpl. rewrite Hfl, Hpt, Hrp. simpl.
    split; [lia|]. split; [intros _; lia|]. split.
    { intros q Hq. apply lookup_delete_Some in Hq as [Hne Hq].
      destruct (I8 _ _ Hq) as (_ & ? & _). congruence. }
    split. { intros n0 [Hn0 _]. congruence. }
    split; [|done]. intros _ _. left. apply elem_of_app. right. by left.
Qed.

(** *** Every reachable state of the pool satisfies the invariant *)

Lemma apply_call_PoolInv s c :
  PoolInv s -> current_timestamp_ (replacer_ s) + 1 < SIZE_T_MODULUS ->
  PoolInv (apply_call s c) /\
  current_timestamp_ (replacer_ (apply_call s c)) <= current_timestamp_ (replacer_ s) + 1.
Proof.
  intros HI Hnow. destruct c as [|p|p d|p|picks|p]; simpl.
  - pose proof (NewPage_PoolInv s HI Hnow) as H. by destruct (NewPage s).
  - pose proof (FetchPage_PoolInv p s HI Hnow) as H. by destruct (FetchPage p s).
  - pose proof (UnpinPage_PoolInv p d s HI) as H.
    destruct (UnpinPage p d s); [|done]. simpl. split; [apply H|]. destruct H as [_ ->]. lia.
  - pose proof (FlushPage_PoolInv p s HI) as H.
    destruct (FlushPage p s); [|done]. simpl. split; [apply H|]. destruct H as [_ ->]. lia.
  - pose proof (FlushAllPages_PoolInv picks s HI) as H.
    destruct (FlushAllPages picks s); [|done]. simpl. split; [apply H|]. destruct H as [_ ->]. lia.
  - pose proof (DeletePage_PoolInv p s HI) as H.
    destruct (DeletePage p s); [|done]. simpl. split; [apply H|]. destruct H as [_ ->]. lia.
Qed.

Lemma run_PoolInv cs : forall s,
  PoolInv s ->
  current_timestamp_ (replacer_ s) + Z.of_nat (length cs) < SIZE_T_MODULUS ->
  PoolInv (run cs s).
Proof.
  induction cs as [|c cs IH]; intros s HI Hlen; [done|].
  simpl in *. destruct (apply_call_PoolInv s c HI ltac:(lia)) as [HI' Ht].
  apply IH; [done|lia].
Qed.

(** The states reached from a new pool by fewer than [2^64 - 1] calls
    satisfy the invariant. *)
Lemma run_new_PoolInv build page_size pool_size disk_manager replacer_k cs :
  0 <= pool_size < SIZE_T_MODULUS ->
  Z.of_nat (length cs) < SIZE_T_MODULUS - 1 ->
  PoolInv (run cs (BufferPoolManager_new build page_size pool_size disk_manager replacer_k)).
Proof.
  intros Hps Hlen. apply run_PoolInv; [by apply PoolInv_new|]. simpl. lia.
Qed.

(** C4, on a pool of one frame whose only page is unpinned: [NewPage]
    evicts it and returns frame 0 for page id 1. *)
Lemma NewPage_cases_witness :
  let s := run [CNewPage; CUnpinPage 0 false]
             (BufferPoolManager_new (mkBuild true 2) 1 1 Scheduler.DiskManager_new 2) in
  PoolInv s /\
  match NewPage s with
  | Returns (Some (page_id, f)) s' =>
      page_id = 1 /\ f = 0 /\ next_page_id_ s' = 2 /\
      pin_count_ (page_ref f s') = 1 /\ is_dirty_ (page_ref f s') = false /\
      page_table_ s' !! 1 = Some 0
  | _ => False
  end.
Proof.
  intros s.
  assert (HI : PoolInv s).
  { apply run_new_PoolInv; [vm_compute; split; [discriminate|reflexivity]|].
    vm_compute. reflexivity. }
  split; [exact HI|].
  pose proof (NewPage_cases s HI) as H.
  destruct (NewPage s) as [[[p f]|] s'|msg s'] eqn:E; [|discriminate E|exact H].
  destruct H as (_ & _ & _ & Hp & _ & Hn & _ & Hpin & Hd & _ & Ht).
  assert (Hf : f = 0) by (vm_compute in E; congruence).
  subst f. change (next_page_id_ s) with 1 in *. subst p.
  split; [reflexivity|]. split; [reflexivity|].
  split; [apply Hn; unfold PAGE_ID_MAX; lia|].
  split; [exact Hpin|]. split; [exact Hd|]. apply Ht. reflexivity.
Defined.

(** C5, on a pool of two frames: page 0 unpinned is deleted, page 1
    pinned is not, page 7 is not resident. *)
Lemma DeletePage_cases_witness :
  let s := run [CNewPage; CNewPage; CUnpinPage 0 true]
             (BufferPoolManager_new (mkBuild true 2) 1 2 Scheduler.DiskManager_new 2) in
  PoolInv s /\
  DeletePage 7 s = Returns true s /\
  DeletePage 1 s = Returns false s /\
  exists s', DeletePage 0 s = Returns true s' /\
    page_table_ s' !! 0 = None /\ free_list_ s' = [0] /\ deallocated_ s' = [0] /\
    Replacer.node_at (replacer_ s') 0 = None.
Proof.
  intros s.
  assert (HI : PoolInv s).
  { apply run_new_PoolInv; [vm_compute; split; [discriminate|reflexivity]|].
    vm_compute. reflexivity. }
  split; [exact HI|].
  pose proof (DeletePage_cases s 7 HI) as H7.
  pose proof (DeletePage_cases s 1 HI) as H1.
  pose proof (DeletePage_cases s 0 HI) as H0.
  change (page_table_ s !! 7) with (@None Z) in H7.
  change (page_table_ s !! 1) with (Some 1) in H1.
  change (page_table_ s !! 0) with (Some 0) in H0.
  change (0 <? pin_count_ (page_ref 1 s)) with true in H1.
  change (0 <? pin_count_ (page_ref 0 s)) with false in H0.
  split; [exact H7|]. split; [exact H1|].
  destruct H0 as (s' & Hs' & Ht & _ & Hn & _ & _ & _ & Hf & Hd & _).
  exists s'. split; [exact Hs'|]. rewrite Ht, Hf, Hd.
  split; [reflexivity|]. split; [reflexivity|]. split; [reflexivity|exact Hn].
Defined.

(** C6, on a pool of two frames with page 0 pinned once: an unpin of a
    page that is not resident, the unpin of page 0, which makes frame 0
    evictable, and a second unpin of page 0. *)
Lemma UnpinPage_cases_witness :
  let s := run [CNewPage] (BufferPoolManager_new (mkBuild true 2) 1 2 Scheduler.DiskManager_new 2) in
  PoolInv s /\
  UnpinPage 7 true s = Returns false s /\
  exists s', UnpinPage 0 true s = Returns true s' /\
    pin_count_ (page_ref 0 s') = 0 /\ is_dirty_ (page_ref 0 s') = true /\
    (exists n, evictable_at (replacer_ s') 0 n) /\
    PoolInv s' /\ UnpinPage 0 false s' = Returns false s'.
Proof.
  intros s.
  assert (HI : PoolInv s).
  { apply run_new_PoolInv; [vm_compute; split; [discriminate|reflexivity]|].
    vm_compute. reflexivity. }
  split; [exact HI|].
  pose proof (UnpinPage_cases s 7 true HI) as H7.
  pose proof (UnpinPage_cases s 0 true HI) as H0.
  change (page_table_ s !! 7) with (@None Z) in H7.
  change (page_table_ s !! 0) with (Some 0) in H0.
  cbv zeta in H0.
  change (pin_count_ (page_ref 0 s) =? 0) with false in H0.
  change (pin_count_ (page_ref 0 s) =? 1) with true in H0.
  split; [exact H7|].
  destruct H0 as (s' & Hs' & Hp & _ & [_ Hev] & Ht & _).
  exists s'. split; [exact Hs'|]. rewrite Hp.
  split; [reflexivity|]. split; [reflexivity|]. split; [exact Hev|].
  assert (HI' : PoolInv s').
  { pose proof (UnpinPage_PoolInv 0 true s HI) as H. rewrite Hs' in H. apply H. }
  split; [exact HI'|].
  pose proof (UnpinPage_cases s' 0 false HI') as H0'.
  rewrite Ht in H0'. change (page_table_ s !! 0) with (Some 0) in H0'.
  cbv beta iota zeta in H0'. rewrite Hp in H0'. exact H0'.
Defined.

(** *** What the member functions do to the pages, the page table and the disk *)

Lemma io_set_page f p s : io (set_page f p s) = io s.
Proof. unfold io. by destruct (set_page_build f p s) as (-> & -> & ->). Qed.

Lemma io_eq s s' :
  io s' = io s ->
  build_ s' = build_ s /\ disk_ s' = disk_ s /\ in_flight_ s' = in_flight_ s.
Proof. unfold io. intros [= H1 H2 H3]. done. Qed.

Lemma io_written f s :
  io (written f s)
  = if assert_evaluates (build_ s)
    then (build_ s,
          Scheduler.WritePage (page_id_ (page_ref f s)) (data_ (page_ref f s)) (disk_ s),
          in_flight_ s)
    else (build_ s, disk_ s, in_flight_ s ++ [(true, page_id_ (page_ref f s), f)]).
Proof. unfold io, written. by destruct (assert_evaluates (build_ s)). Qed.

Lemma io_flushed f s : io (flushed f s) = io (written f s).
Proof. unfold flushed. by rewrite io_set_page. Qed.

Lemma io_read_in page_id f s :
  io (read_in page_id f s)
  = if assert_evaluates (build_ s)
    then (build_ s, (Scheduler.ReadPage page_id (data_ (page_ref f s)) (disk_ s)).2,
          in_flight_ s)
    else (build_ s, disk_ s, in_flight_ s ++ [(false, page_id, f)]).
Proof.
  unfold read_in. destruct (assert_evaluates (build_ s)); cbv zeta; [|done].
  by rewrite io_set_page.
Qed.

Lemma read_in_data page_id f s :
  0 <= f -> (Z.to_nat f < length (pages_ s))%nat ->
  data_ (page_ref f (read_in page_id f s))
  = if assert_evaluates (build_ s)
    then (Scheduler.ReadPage page_id (data_ (page_ref f s)) (disk_ s)).1
    else data_ (page_ref f s).
Proof.
  intros H0 Hlt. unfold read_in. destruct (assert_evaluates (build_ s)); [|done].
  cbv zeta. by rewrite page_ref_set_page, decide_True.
Qed.

Lemma evict_frame_io v r s :
  io (evict_frame v r s) = io (if is_dirty_ (page_ref v s) then written v s else s).
Proof.
  unfold evict_frame. destruct (is_dirty_ (page_ref v s)); [|done].
  change (io (set_page_table ?t ?x)) with (io x). rewrite io_flushed, !io_written.
  done.
Qed.

Lemma FindFreeFrame_effect s :
  PoolInv s ->
  match FindFreeFrame s with
  | Raises _ _ => False
  | Returns None s1 =>
      all_pinned s /\ pages_ s1 = pages_ s /\ page_table_ s1 = page_table_ s /\
      io s1 = io s /\ next_page_id_ s1 = next_page_id_ s /\
      free_list_ s1 = free_list_ s /\ deallocated_ s1 = deallocated_ s
  | Returns (Some f) s1 =>
      in_pool s f /\ pin_count_ (page_ref f s) = 0 /\
      next_page_id_ s1 = next_page_id_ s /\ pool_size_ s1 = pool_size_ s /\
      deallocated_ s1 = deallocated_ s /\
      length (pages_ s1) = length (pages_ s) /\
      (forall g, g <> f -> page_ref g s1 = page_ref g s) /\
      data_ (page_ref f s1) = data_ (page_ref f s) /\
      page_id_ (page_ref f s1) = page_id_ (page_ref f s) /\
      pin_count_ (page_ref f s1) = 0 /\
      (forall q, page_table_ s1 !! q <> Some f) /\
      ((free_list_ s = f :: free_list_ s1 /\ page_table_ s1 = page_table_ s /\
        io s1 = io s /\ page_ref f s1 = page_ref f s)
       \/ (free_list_ s = [] /\ free_list_ s1 = [] /\
           (Evict (replacer_ s)).2 = Some f /\
           page_table_ s1 = delete (page_id_ (page_ref f s)) (page_table_ s) /\
           is_dirty_ (page_ref f s1) = false /\
           io s1 = io (if is_dirty_ (page_ref f s) then written f s else s)))
  end.
Proof.
  intros HI. pose proof (FindFreeFrame_reserves s HI) as Hres.
  rewrite FindFreeFrame_eq in Hres |- *.
  destruct (free_list_ s) as [|f rest] eqn:Hfl.
  - destruct ((Evict (replacer_ s)).2) as [v|] eqn:Hvic.
    + destruct Hres as (_ & Hin & Hpin & _).
      destruct (evict_frame_fields v (Evict (replacer_ s)).1 s)
        as (Hps & Hpt & Hfr & _ & Hnx & Hde & Hpl & Hpr).
      split; [done|]. split; [done|]. split; [done|]. split; [done|].
      split; [done|]. split; [done|].
      split; [intros g Hg; by rewrite Hpr, decide_False|].
      rewrite !Hpr, !decide_True by done.
      split; [done|]. split; [done|]. split; [done|].
      split.
      { intros q Hq. rewrite Hpt in Hq. apply lookup_delete_Some in Hq as [Hne Hq].
        destruct (pinv_table _ _ HI q v Hq) as (_ & Hid & _). congruence. }
      right. split; [done|]. split; [by rewrite Hfr|]. split; [done|].
      split; [done|]. split; [done|]. apply evict_frame_io.
    + destruct Hres as (_ & _ & Hall & _). by repeat (split; [done|]).
  - destruct Hres as (_ & Hin & Hpin & _).
    split; [done|]. split; [done|]. split; [done|]. split; [done|].
    split; [done|]. split; [done|]. split; [done|]. split; [done|].
    split; [done|]. split; [done|].
    split.
    { intros q Hq. destruct (pinv_table _ _ HI q f Hq) as (_ & _ & Hnf & _).
      apply Hnf. rewrite Hfl. by left. }
    left. done.
Qed.

Lemma pin_calls_return limbo s s1 f :
  PoolInvBut limbo s -> in_pool s f ->
  replacer_size_ (replacer_ s1) = replacer_size_ (replacer_ s) ->
  length (node_store_ (replacer_ s1)) = length (node_store_ (replacer_ s)) ->
  exists r1 r2, RecordAccess f (replacer_ s1) = Ok r1 /\ SetEvictable f false r1 = Ok r2.
Proof.
  intros HI Hf Hrs Hrl.
  assert (Hlen1 : length (node_store_ (replacer_ s1))
                = Z.to_nat (replacer_size_ (replacer_ s1))).
  { rewrite Hrl, Hrs. apply (PoolInv_replacer_length _ _ HI). }
  assert (Hin1 : to_size_t f < replacer_size_ (replacer_ s1)).
  { rewrite Hrs. by apply (PoolInv_in_range _ _ _ HI). }
  destruct (RecordAccess_ok f _ Hlen1 Hin1) as (r1 & Hr1 & (Hs1 & Hl1 & _) & n1 & Hn1 & _).
  destruct (SetEvictable_ok f false r1 n1 ltac:(by rewrite Hl1, Hs1) ltac:(by rewrite Hs1) Hn1)
    as (r2 & Hr2 & _).
  by exists r1, r2.
Qed.

Lemma NewPage_effect s :
  PoolInv s ->
  match NewPage s with
  | Raises _ _ => False
  | Returns None s' =>
      all_pinned s /\ pages_ s' = pages_ s /\ page_table_ s' = page_table_ s /\
      io s' = io s /\ next_page_id_ s' = next_page_id_ s /\
      free_list_ s' = free_list_ s /\ deallocated_ s' = deallocated_ s
  | Returns (Some (p, f)) s' =>
      exists s1, FindFreeFrame s = Returns (Some f) s1 /\
        p = next_page_id_ s /\ next_page_id_ s' = to_page_id_t (next_page_id_ s + 1) /\
        page_table_ s' = emplace p f (page_table_ s1) /\
        io s' = io s1 /\ free_list_ s' = free_list_ s1 /\
        deallocated_ s' = deallocated_ s /\
        page_ref f s'
        = set_pin_count 1 (set_is_dirty false (set_page_id p (page_ref f s1))) /\
        forall g, g <> f -> page_ref g s' = page_ref g s1
  end.
Proof.
  intros HI. rewrite NewPage_eq.
  pose proof (FindFreeFrame_reserves s HI) as Hres.
  pose proof (FindFreeFrame_effect s HI) as Heff.
  destruct (FindFreeFrame s) as [[f|] s1|msg s1]; [|by destruct Heff as (? & ? & ? & ? & ? & ?)|done].
  destruct Hres as (_ & Hf & _ & Hpin1 & _ & Hnx & Hpl & _ & Hrs & Hrl).
  destruct Heff as (_ & _ & _ & _ & Hde & _).
  destruct (pin_calls_return _ s s1 f HI Hf Hrs Hrl) as (r1 & r2 & Hr1 & Hr2).
  simpl. rewrite Hr1, Hr2.
  destruct (PoolInv_page_lt _ _ _ HI Hf) as [H0 Hlt].
  set (s2 := set_replacer r2 _).
  set (page' := set_pin_count _ _).
  destruct (set_page_fields f page' s2) as (_ & Ht & Hfl & _ & Hd & Hn & Hdl).
  exists s1. split; [done|]. split; [done|].
  split; [rewrite Hn; simpl; by rewrite Hnx|].
  split; [by rewrite Ht|]. split; [by rewrite io_set_page|]. split; [by rewrite Hfl|].
  split; [by rewrite Hdl|].
  split.
  - rewrite page_ref_set_page, decide_True; [|done..|by rewrite <- Hpl in Hlt].
    subst page'. by rewrite Hpin1.
  - intros g Hg. by rewrite page_ref_set_page_ne.
Qed.

Lemma fetch_resident_effect s p f :
  PoolInv s -> page_table_ s !! p = Some f ->
  exists s', fetch_resident f s = Returns (Some f) s' /\
    page_table_ s' = page_table_ s /\ io s' = io s /\
    free_list_ s' = free_list_ s /\ next_page_id_ s' = next_page_id_ s /\
    deallocated_ s' = deallocated_ s /\
    page_ref f s' = set_pin_count (pin_count_ (page_ref f s) + 1) (page_ref f s) /\
    forall g, g <> f -> page_ref g s' = page_ref g s.
Proof.
  intros HI Hp. rewrite fetch_resident_eq.
  destruct (pinv_table _ _ HI _ _ Hp) as (Hf & _).
  destruct (pin_calls_return _ s s f HI Hf eq_refl eq_refl) as (r1 & r2 & Hr1 & Hr2).
  rewrite Hr1, Hr2.
  destruct (PoolInv_page_lt _ _ _ HI Hf) as [H0 Hlt].
  set (s2 := set_replacer r2 _). set (page' := set_pin_count _ _).
  destruct (set_page_fields f page' s2) as (_ & Hpt & Hfl & _ & Hd & Hn & Hdl).
  eexists. split; [done|]. rewrite Hpt, Hfl, Hn, Hdl, io_set_page.
  do 5 (split; [done|]).
  split; [by rewrite page_ref_set_page, decide_True|].
  intros g Hg. by rewrite page_ref_set_page_ne.
Qed.

Lemma read_in_set_page_table page_id f t s g :
  io (read_in page_id f (set_page_table t s)) = io (read_in page_id f s) /\
  page_ref g (read_in page_id f (set_page_table t s)) = page_ref g (read_in page_id f s).
Proof.
  rewrite !io_read_in. split; [done|]. unfold read_in.
  change (build_ (set_page_table t s)) with (build_ s).
  destruct (assert_evaluates (build_ s)); [|done]. cbv zeta.
  unfold page_ref, page_lookup, set_page. by destruct (f <? 0).
Qed.

Lemma FetchPage_effect page_id s :
  PoolInv s ->
  match page_table_ s !! page_id with
  | Some f =>
      exists s', FetchPage page_id s = Returns (Some f) s' /\
        page_table_ s' = page_table_ s /\ io s' = io s /\
        free_list_ s' = free_list_ s /\ next_page_id_ s' = next_page_id_ s /\
        deallocated_ s' = deallocated_ s /\
        page_ref f s' = set_pin_count (pin_count_ (page_ref f s) + 1) (page_ref f s) /\
        forall g, g <> f -> page_ref g s' = page_ref g s
  | None =>
      match FetchPage page_id s with
      | Raises _ _ => False
      | Returns None s' =>
          all_pinned s /\ pages_ s' = pages_ s /\ page_table_ s' = page_table_ s /\
          io s' = io s /\ next_page_id_ s' = next_page_id_ s /\
          free_list_ s' = free_list_ s /\ deallocated_ s' = deallocated_ s
      | Returns (Some f) s' =>
          exists s1, FindFreeFrame s = Returns (Some f) s1 /\
            page_table_ s' = <[page_id := f]> (page_table_ s1) /\
            io s' = io (read_in page_id f s1) /\
            free_list_ s' = free_list_ s1 /\ next_page_id_ s' = next_page_id_ s /\
            deallocated_ s' = deallocated_ s /\
            page_ref f s'
            = {| data_ := data_ (page_ref f (read_in page_id f s1));
                 page_id_ := page_id; pin_count_ := 1; is_dirty_ := false |} /\
            forall g, g <> f -> page_ref g s' = page_ref g s1
      end
  end.
Proof.
  intros HI. rewrite FetchPage_eq.
  destruct (page_table_ s !! page_id) as [f|] eqn:Hp.
  { by apply (fetch_resident_effect s page_id f). }
  pose proof (FindFreeFrame_reserves s HI) as Hres.
  pose proof (FindFreeFrame_effect s HI) as Heff.
  destruct (FindFreeFrame s) as [[f|] s1|msg s1]; [|by destruct Heff as (? & ? & ? & ? & ? & ?)|done].
  destruct Hres as (_ & Hf & _ & Hpin1 & _ & Hnx & Hpl & Htab & Hrs & Hrl).
  destruct Heff as (_ & _ & _ & _ & Hde & _).
  destruct (PoolInv_page_lt _ _ _ HI Hf) as [H0 Hlt]. rewrite <- Hpl in Hlt.
  cbv zeta.
  set (s2 := set_page_table _ s1).
  set (s3 := read_in page_id f s2).
  destruct (read_in_fields page_id f s2) as (_ & _ & Ht3 & Hfl3 & Hrp3 & Hn3 & Hdl3 & Hl3).
  fold s3 in Ht3, Hfl3, Hrp3, Hn3, Hdl3, Hl3.
  destruct (pin_calls_return _ s s3 f HI Hf) as (r1 & r2 & Hr1 & Hr2);
    [by rewrite Hrp3|by rewrite Hrp3|].
  rewrite Hr1, Hr2.
  set (s4 := set_replacer r2 s3). set (page' := set_is_dirty _ _).
  destruct (set_page_fields f page' s4) as (_ & Ht & Hfl & _ & _ & Hn & Hdl).
  assert (H3 : forall g, page_ref g s3 = page_ref g (read_in page_id f s1)).
  { intros g. apply read_in_set_page_table. }
  exists s1. split; [done|].
  split. { rewrite Ht. change (page_table_ s4) with (page_table_ s3). rewrite Ht3.
           simpl. unfold emplace. by rewrite (Htab _ Hp). }
  split. { rewrite io_set_page. change (io s4) with (io s3).
           apply (read_in_set_page_table page_id f _ s1 0). }
  split; [rewrite Hfl; change (free_list_ s4) with (free_list_ s3); by rewrite Hfl3|].
  split; [rewrite Hn; change (next_page_id_ s4) with (next_page_id_ s3);
          rewrite Hn3; simpl; by rewrite Hnx|].
  split; [rewrite Hdl; change (deallocated_ s4) with (deallocated_ s3); by rewrite Hdl3|].
  split.
  - rewrite page_ref_set_page, decide_True; [|done..|].
    2:{ change (pages_ s4) with (pages_ s3). rewrite Hl3. exact Hlt. }
    subst page'. change (page_ref f s4) with (page_ref f s3). rewrite H3.
    unfold set_is_dirty, set_page_id, set_pin_count; simpl.
    destruct (page_ref_read_in page_id f s1 f) as (-> & _). by rewrite Hpin1.
  - intros g Hg. rewrite page_ref_set_page_ne by done.
    change (page_ref g s4) with (page_ref g s3). rewrite H3.
    by apply page_ref_read_in.
Qed.

(** *** The cases of [FetchPage] and [FlushPage] *)

Lemma fetched_io page_id f s1 s' b d i data :
  io s1 = (b, d, i) -> data_ (page_ref f s1) = data ->
  0 <= f -> (Z.to_nat f < length (pages_ s1))%nat ->
  io s' = io (read_in page_id f s1) ->
  data_ (page_ref f s') = data_ (page_ref f (read_in page_id f s1)) ->
  if assert_evaluates b
  then data_ (page_ref f s') = (Scheduler.ReadPage page_id data d).1 /\
       disk_ s' = (Scheduler.ReadPage page_id data d).2 /\ in_flight_ s' = i
  else data_ (page_ref f s') = data /\ in_flight_ s' = i ++ [(false, page_id, f)].
Proof.
  intros Hio1 Hdat H0 Hlt Hio Hd'. unfold io in Hio1. injection Hio1 as Hb Hd Hi.
  rewrite io_read_in in Hio. rewrite read_in_data in Hd' by done.
  rewrite Hb, Hd, Hi, Hdat in *.
  destruct (assert_evaluates b); unfold io in Hio; injection Hio as _ Hd2 Hi2; done.
Qed.

(** X12. In a state of the pool that satisfies its invariant, [FetchPage]
    of a resident page returns its frame with the pin count one more and
    nothing else changed, without a request to the scheduler.  For a page
    that is not resident it returns [None] and changes no page, when every
    frame is pinned; otherwise it returns a frame [f] that was unpinned,
    taken from the front of the free list or, the free list being empty,
    from the replacer, in which case the page id that [f] carried has left
    the page table; [f] ends with this page id, pin count 1 and a clear
    dirty flag, the page table maps the page to [f], and no other frame
    has changed.  The requests are the write of the old payload of [f]
    under its old page id, if [f] came from the replacer and was dirty,
    and then the read of the page into [f].  In a build that evaluates
    the argument of [BUSTUB_ASSERT] both have been served when the call
    returns, and [f] holds what the disk manager has read; in a build
    that does not, they are in flight and [FetchPage] returns [f] with
    the payload it had. *)
Theorem FetchPage_cases (s : BufferPoolManager) (page_id : page_id_t) :
  PoolInv s ->
  match page_table_ s !! page_id with
  | Some f =>
      exists s', FetchPage page_id s = Returns (Some f) s' /\
        page_ref f s' = set_pin_count (pin_count_ (page_ref f s) + 1) (page_ref f s) /\
        (forall g, g <> f -> page_ref g s' = page_ref g s) /\
        page_table_ s' = page_table_ s /\ disk_ s' = disk_ s /\
        in_flight_ s' = in_flight_ s /\
        free_list_ s' = free_list_ s /\ next_page_id_ s' = next_page_id_ s
  | None =>
      match FetchPage page_id s with
      | Raises _ _ => False
      | Returns None s' =>
          all_pinned s /\ pages_ s' = pages_ s /\ page_table_ s' = page_table_ s /\
          disk_ s' = disk_ s /\ in_flight_ s' = in_flight_ s /\
          free_list_ s' = free_list_ s
      | Returns (Some f) s' =>
          let old := page_ref f s in
          in_pool s f /\ pin_count_ old = 0 /\
          page_id_ (page_ref f s') = page_id /\ pin_count_ (page_ref f s') = 1 /\
          is_dirty_ (page_ref f s') = false /\
          (forall g, g <> f -> page_ref g s' = page_ref g s) /\
          next_page_id_ s' = next_page_id_ s /\
          ((free_list_ s = f :: free_list_ s' /\
            page_table_ s' = <[page_id := f]> (page_table_ s) /\
            if assert_evaluates (build_ s)
            then data_ (page_ref f s')
                 = (Scheduler.ReadPage page_id (data_ old) (disk_ s)).1 /\
                 disk_ s' = (Scheduler.ReadPage page_id (data_ old) (disk_ s)).2 /\
                 in_flight_ s' = in_flight_ s
            else data_ (page_ref f s') = data_ old /\
                 in_flight_ s' = in_flight_ s ++ [(false, page_id, f)])
           \/
           (free_list_ s = [] /\ free_list_ s' = [] /\
            (Evict (replacer_ s)).2 = Some f /\
            page_table_ s' = <[page_id := f]> (delete (page_id_ old) (page_table_ s)) /\
            if assert_evaluates (build_ s)
            then
              let d1 := if is_dirty_ old
                        then Scheduler.WritePage (page_id_ old) (data_ old) (disk_ s)
                        else disk_ s in
              data_ (page_ref f s') = (Scheduler.ReadPage page_id (data_ old) d1).1 /\
              disk_ s' = (Scheduler.ReadPage page_id (data_ old) d1).2 /\
              in_flight_ s' = in_flight_ s
            else data_ (page_ref f s') = data_ old /\
                 in_flight_ s'
                 = in_flight_ s
                   ++ (if is_dirty_ old then [(true, page_id_ old, f)] else [])
                   ++ [(false, page_id, f)]))
      end
  end.
Proof.
  intros HI. pose proof (FetchPage_effect page_id s HI) as H.
  destruct (page_table_ s !! page_id) as [f|] eqn:Hp.
  { destruct H as (s' & E & H1 & H2 & H3 & H4 & _ & H6 & H7).
    apply io_eq in H2 as (_ & Hd & Hi). by exists s'. }
  pose proof (FindFreeFrame_effect s HI) as Heff.
  destruct (FetchPage page_id s) as [[f|] s'|msg s']; [| |done].
  2:{ destruct H as (Hall & Hpg & Ht & Hio & _ & Hfl & _).
      apply io_eq in Hio as (_ & Hd & Hi). done. }
  destruct H as (s1 & E1 & Ht & Hio & Hfl & Hn & _ & Hpg & Hoth).
  rewrite E1 in Heff.
  destruct Heff as (Hf & Hpin & _ & _ & _ & Hlen & Hg1 & Hdata & _ & _ & _ & Hsrc).
  destruct (PoolInv_page_lt _ _ _ HI Hf) as [H0 Hlt]. rewrite <- Hlen in Hlt.
  assert (Hdat' : data_ (page_ref f s') = data_ (page_ref f (read_in page_id f s1)))
    by (by rewrite Hpg).
  cbv zeta. split; [done|]. split; [done|].
  split; [by rewrite Hpg|]. split; [by rewrite Hpg|]. split; [by rewrite Hpg|].
  split; [intros g Hg; by rewrite Hoth, Hg1|]. split; [done|].
  destruct Hsrc as [(F1 & F2 & F3 & _)|(F1 & F2 & F3 & F4 & _ & F6)].
  - left. rewrite Hfl, Ht, F2. split; [done|]. split; [done|].
    apply (fetched_io page_id f s1 s' (build_ s) (disk_ s) (in_flight_ s)); done.
  - right. rewrite Hfl, Ht, F4. do 4 (split; [done|]).
    destruct (is_dirty_ (page_ref f s)).
    + rewrite io_written in F6.
      destruct (assert_evaluates (build_ s)) eqn:Hb.
      * pose proof (fetched_io page_id f s1 s' _ _ _ _ F6 Hdata H0 Hlt Hio Hdat') as Hr.
        by rewrite Hb in Hr.
      * pose proof (fetched_io page_id f s1 s' _ _ _ _ F6 Hdata H0 Hlt Hio Hdat') as Hr.
        rewrite Hb in Hr. by rewrite <- app_assoc in Hr.
    + pose proof (fetched_io page_id f s1 s' (build_ s) (disk_ s) (in_flight_ s)
                    _ F6 Hdata H0 Hlt Hio Hdat') as Hr.
      by destruct (assert_evaluates (build_ s)).
Qed.

Lemma FetchPage_cases_witness :
  let s := run [CNewPage; CUnpinPage 0 true; CNewPage]
             (BufferPoolManager_new (mkBuild true 2) 2 1 Scheduler.DiskManager_new 2) in
  PoolInv s /\
  (exists s', FetchPage 1 s = Returns (Some 0) s' /\ pin_count_ (page_ref 0 s') = 2) /\
  match FetchPage 0 s with
  | Returns None s' => all_pinned s /\ pages_ s' = pages_ s
  | _ => False
  end.
Proof.
  intros s.
  assert (HI : PoolInv s).
  { apply run_new_PoolInv; [vm_compute; split; [discriminate|reflexivity]|].
    vm_compute. reflexivity. }
  split; [exact HI|].
  pose proof (FetchPage_cases s 1 HI) as H1.
  pose proof (FetchPage_cases s 0 HI) as H0.
  change (page_table_ s !! 1) with (Some 0) in H1.
  change (page_table_ s !! 0) with (@None Z) in H0.
  split.
  - destruct H1 as (s' & E & Hp & _). exists s'. split; [exact E|].
    rewrite Hp. reflexivity.
  - destruct (FetchPage 0 s) as [[f|] s'|msg s'] eqn:E;
      [vm_compute in E; discriminate E| |exact H0].
    destruct H0 as (Ha & Hp & _). split; [exact Ha|exact Hp].
Defined.

(** X13. [FlushPage] of a page that is not resident returns false and
    changes nothing.  Of a resident page, in a state that satisfies the
    invariant of the pool, it returns true after it has scheduled one
    write of the frame's payload under the page id, whether the frame was
    dirty or not; the dirty flag is clear, and the pin count, the other
    frames, the page table, the free list and the replacer are as they
    were.  In a build that evaluates the argument of [BUSTUB_ASSERT] the
    write has been served when the call returns and the disk holds the
    payload; in a build that does not, the write is in flight. *)
Theorem FlushPage_cases (s : BufferPoolManager) (page_id : page_id_t) :
  PoolInv s ->
  match page_table_ s !! page_id with
  | None => FlushPage page_id s = Returns false s
  | Some f =>
      exists s', FlushPage page_id s = Returns true s' /\
        (if assert_evaluates (build_ s)
         then disk_ s' = Scheduler.WritePage page_id (data_ (page_ref f s)) (disk_ s) /\
              Scheduler.contents_ (disk_ s') !! page_id = Some (data_ (page_ref f s)) /\
              in_flight_ s' = in_flight_ s
         else in_flight_ s' = in_flight_ s ++ [(true, page_id, f)]) /\
        page_ref f s' = set_is_dirty false (page_ref f s) /\
        (forall g, g <> f -> page_ref g s' = page_ref g s) /\
        page_table_ s' = page_table_ s /\ free_list_ s' = free_list_ s /\
        replacer_ s' = replacer_ s /\ next_page_id_ s' = next_page_id_ s
  end.
Proof.
  intros HI. rewrite FlushPage_eq.
  destruct (page_table_ s !! page_id) as [f|] eqn:Hp; [|done].
  destruct (pinv_table _ _ HI _ _ Hp) as (Hf & Hid & _).
  destruct (flushed_fields f s) as (_ & Ht & Hfl & Hrp & Hn & _ & _ & Hpr).
  pose proof (io_flushed f s) as Hio. rewrite io_written, Hid in Hio.
  eexists. split; [done|]. split.
  { destruct (assert_evaluates (build_ s)); unfold io in Hio; injection Hio as _ Hd Hi.
    - rewrite Hd. split; [done|]. split; [simpl; by rewrite lookup_insert_eq|done].
    - done. }
  split; [by rewrite Hpr, decide_True|].
  split; [intros g Hg; by rewrite Hpr, decide_False|done].
Qed.

Lemma FlushPage_cases_witness :
  let s := run [CNewPage; CUnpinPage 0 true]
             (BufferPoolManager_new (mkBuild true 2) 2 1 Scheduler.DiskManager_new 2) in
  PoolInv s /\
  FlushPage 5 s = Returns false s /\
  exists s', FlushPage 0 s = Returns true s' /\
    is_dirty_ (page_ref 0 s) = true /\ is_dirty_ (page_ref 0 s') = false /\
    Scheduler.contents_ (disk_ s') !! 0 = Some [Byte.x00; Byte.x00].
Proof.
  intros s.
  assert (HI : PoolInv s).
  { apply run_new_PoolInv; [vm_compute; split; [discriminate|reflexivity]|].
    vm_compute. reflexivity. }
  split; [exact HI|].
  pose proof (FlushPage_cases s 5 HI) as H5.
  pose proof (FlushPage_cases s 0 HI) as H0.
  change (page_table_ s !! 5) with (@None Z) in H5.
  change (page_table_ s !! 0) with (Some 0) in H0.
  split; [exact H5|].
  destruct H0 as (s' & E & Hw & Hp & _).
  change (assert_evaluates (build_ s)) with true in Hw. destruct Hw as (_ & Hc & _).
  exists s'. split; [exact E|]. split; [reflexivity|].
  split; [rewrite Hp; reflexivity|exact Hc].
Defined.

(** *** [NewPage] and the payload of the frame *)

(** X14. In a state of the pool that satisfies its invariant, the frame
    that [NewPage] returns keeps the payload it held: the memory is not
    reset and nothing is read from the disk.  No other frame changes, and
    the only request to the scheduler is the write of that payload under
    the page id the frame carried, when the frame came from the replacer
    and was dirty: served when the call returns in a build that evaluates
    the argument of [BUSTUB_ASSERT], in flight in a build that does
    not. *)
Theorem NewPage_keeps_payload (s : BufferPoolManager) :
  PoolInv s ->
  match NewPage s with
  | Raises _ _ => False
  | Returns None s' =>
      pages_ s' = pages_ s /\ disk_ s' = disk_ s /\ in_flight_ s' = in_flight_ s
  | Returns (Some (p, f)) s' =>
      let old := page_ref f s in
      data_ (page_ref f s') = data_ old /\
      (forall g, g <> f -> page_ref g s' = page_ref g s) /\
      ((free_list_ s = f :: free_list_ s' /\ disk_ s' = disk_ s /\
        in_flight_ s' = in_flight_ s)
       \/ (free_list_ s = [] /\ (Evict (replacer_ s)).2 = Some f /\
           if is_dirty_ old
           then if assert_evaluates (build_ s)
                then disk_ s' = Scheduler.WritePage (page_id_ old) (data_ old) (disk_ s) /\
                     in_flight_ s' = in_flight_ s
                else in_flight_ s' = in_flight_ s ++ [(true, page_id_ old, f)]
           else disk_ s' = disk_ s /\ in_flight_ s' = in_flight_ s))
  end.
Proof.
  intros HI. pose proof (NewPage_effect s HI) as H.
  pose proof (FindFreeFrame_effect s HI) as Heff.
  destruct (NewPage s) as [[[p f]|] s'|msg s']; [| |done].
  2:{ destruct H as (_ & Hpg & _ & Hio & _). apply io_eq in Hio as (_ & Hd & Hi). done. }
  destruct H as (s1 & E1 & _ & _ & _ & Hio & Hfl & _ & Hpg & Hoth).
  rewrite E1 in Heff.
  destruct Heff as (_ & _ & _ & _ & _ & _ & Hg1 & Hdata & _ & _ & _ & Hsrc).
  cbv zeta. split; [by rewrite Hpg|].
  split; [intros g Hg; by rewrite Hoth, Hg1|].
  destruct Hsrc as [(F1 & _ & F3 & _)|(F1 & _ & F3 & _ & _ & F6)].
  - left. rewrite F3 in Hio. apply io_eq in Hio as (_ & Hd & Hi). by rewrite Hfl.
  - right. split; [done|]. split; [done|]. rewrite F6 in Hio.
    destruct (is_dirty_ (page_ref f s)).
    + rewrite io_written in Hio.
      destruct (assert_evaluates (build_ s)); unfold io in Hio; injection Hio as _ Hd Hi; done.
    + apply io_eq in Hio as (_ & Hd & Hi). done.
Qed.

Lemma NewPage_keeps_payload_witness :
  let s := run [CFetchPage 7; CUnpinPage 7 true]
             (BufferPoolManager_new (mkBuild true 2) 2 1
                (Scheduler.WritePage 7 [Byte.x01; Byte.x02] Scheduler.DiskManager_new) 2) in
  PoolInv s /\
  match NewPage s with
  | Returns (Some (p, f)) s' =>
      p = 0 /\ f = 0 /\ data_ (page_ref f s') = [Byte.x01; Byte.x02]
  | _ => False
  end.
Proof.
  intros s.
  assert (HI : PoolInv s).
  { apply run_new_PoolInv; [vm_compute; split; [discriminate|reflexivity]|].
    vm_compute. reflexivity. }
  split; [exact HI|].
  pose proof (NewPage_keeps_payload s HI) as H.
  destruct (NewPage s) as [[[p f]|] s'|msg s'] eqn:E; [|discriminate E|exact H].
  assert (Hp : p = 0) by (vm_compute in E; congruence).
  assert (Hf : f = 0) by (vm_compute in E; congruence).
  subst p f. destruct H as (Hd & _).
  split; [reflexivity|]. split; [reflexivity|]. rewrite Hd. reflexivity.
Defined.

(** *** No exception leaves the pool *)

(** X15. After fewer than [2^64 - 1] calls on a new pool, every member
    function returns on every argument: the calls of [RecordAccess],
    [SetEvictable] and [Remove] that the pool makes never throw, because
    it passes frame ids of the pool only, sets the evictable flag of
    frames that have a node and removes evictable frames only. *)
Theorem pool_calls_return (build : Build) (page_size : nat) (pool_size : Z)
    (disk_manager : Scheduler.DiskManager) (replacer_k : Z) (cs : list call) (c : call) :
  0 <= pool_size < SIZE_T_MODULUS ->
  Z.of_nat (length cs) < SIZE_T_MODULUS - 1 ->
  call_returns (run cs (BufferPoolManager_new build page_size pool_size disk_manager replacer_k)) c.
Proof.
  intros Hps Hlen.
  pose proof (run_new_PoolInv build page_size pool_size disk_manager replacer_k cs Hps Hlen) as HI.
  set (s := run cs _) in *. destruct c as [|p|p d|p|picks|p]; simpl.
  - pose proof (NewPage_effect s HI) as H. by destruct (NewPage s).
  - pose proof (FetchPage_effect p s HI) as H.
    destruct (page_table_ s !! p); [by destruct H as (s' & -> & _)|].
    by destruct (FetchPage p s).
  - pose proof (UnpinPage_PoolInv p d s HI) as H. by destruct (UnpinPage p d s).
  - pose proof (FlushPage_PoolInv p s HI) as H. by destruct (FlushPage p s).
  - by rewrite FlushAllPages_eq.
  - pose proof (DeletePage_PoolInv p s HI) as H. by destruct (DeletePage p s).
Qed.

Lemma pool_calls_return_witness :
  call_returns
    (run [CNewPage; CUnpinPage 0 true; CDeletePage 0]
       (BufferPoolManager_new (mkBuild true 2) 1 2 Scheduler.DiskManager_new 2))
    (CDeletePage 0).
Proof.
  apply pool_calls_return.
  - vm_compute. split; [discriminate|reflexivity].
  - vm_compute. reflexivity.
Defined.

(** *** The size of the pool is fixed *)

Lemma FindFreeFrame_pool_size s : pool_size_ (state_of (FindFreeFrame s)) = pool_size_ s.
Proof.
  rewrite FindFreeFrame_eq. destruct (free_list_ s); [|done].
  destruct ((Evict (replacer_ s)).2) as [v|]; [|done].
  change (pool_size_ (evict_frame v (Evict (replacer_ s)).1 s) = pool_size_ s).
  by destruct (evict_frame_fields v (Evict (replacer_ s)).1 s) as (-> & _).
Qed.

Lemma set_page_pool_size f p s : pool_size_ (set_page f p s) = pool_size_ s.
Proof. by destruct (set_page_fields f p s) as (-> & _). Qed.

Ltac pool_size_fields :=
  repeat (cbn [state_of pool_size_ set_replacer set_disk set_page_table set_next_page_id
               set_free_list set_deallocated];
          rewrite ?set_page_pool_size);
  try done.

Lemma apply_call_pool_size s c : pool_size_ (apply_call s c) = pool_size_ s.
Proof.
  destruct c as [|p|p d|p|picks|p]; cbn [apply_call].
  - rewrite NewPage_eq. pose proof (FindFreeFrame_pool_size s) as H.
    destruct (FindFreeFrame s) as [[f|] s1|msg s1]; cbn [state_of] in H; [|done..].
    cbv zeta.
    destruct (RecordAccess f (replacer_ s1)) as [r1|]; [|by pool_size_fields].
    destruct (SetEvictable f false r1) as [r2|]; by pool_size_fields.
  - rewrite FetchPage_eq.
    assert (Hres : forall f, pool_size_ (state_of (fetch_resident f s)) = pool_size_ s).
    { intros f. rewrite fetch_resident_eq.
      destruct (RecordAccess f (replacer_ s)) as [r1|]; [|done].
      destruct (SetEvictable f false r1) as [r2|]; by pool_size_fields. }
    destruct (page_table_ s !! p) as [f|]; [done|].
    pose proof (FindFreeFrame_pool_size s) as H.
    destruct (FindFreeFrame s) as [[f|] s1|msg s1]; cbn [state_of] in H; [|done..].
    cbv zeta. set (s2 := set_page_table _ s1).
    destruct (read_in_fields p f s2) as (_ & Hps & _).
    change (pool_size_ s2) with (pool_size_ s1) in Hps.
    destruct (RecordAccess f _) as [r1|]; [|pool_size_fields; congruence].
    destruct (SetEvictable f false r1) as [r2|]; pool_size_fields; congruence.
  - rewrite UnpinPage_eq. destruct (page_table_ s !! p) as [f|]; [|done]. cbv zeta.
    destruct (_ <=? 0); [done|]. destruct (_ =? 0); [|by pool_size_fields].
    destruct (SetEvictable f true (replacer_ s)); by pool_size_fields.
  - rewrite FlushPage_eq. destruct (page_table_ s !! p) as [f|]; [|done].
    change (pool_size_ (flushed f s) = pool_size_ s).
    by destruct (flushed_fields f s) as (-> & _).
  - rewrite FlushAllPages_eq. unfold state_of.
    destruct (clear_all_fields (seqZ 0 (pool_size_ s))
      (all_written picks (seqZ 0 (pool_size_ s)) s)) as (-> & _).
    by destruct (all_written_fields picks (seqZ 0 (pool_size_ s)) s) as (_ & -> & _).
  - rewrite DeletePage_eq. destruct (page_table_ s !! p) as [f|]; [|done]. cbv zeta.
    destruct (negb _); [done|]. destruct (0 <? _); [done|].
    destruct (Remove f (replacer_ s)); by pool_size_fields.
Qed.

Lemma set_page_next_page_id f p s : next_page_id_ (set_page f p s) = next_page_id_ s.
Proof. by destruct (set_page_fields f p s) as (_ & _ & _ & _ & _ & -> & _). Qed.

Ltac next_page_id_fields :=
  repeat (cbn [state_of next_page_id_ set_replacer set_disk set_page_table set_next_page_id
               set_free_list set_deallocated];
          rewrite ?set_page_next_page_id);
  try lia.

Lemma FindFreeFrame_next_page_id s :
  next_page_id_ (state_of (FindFreeFrame s)) = next_page_id_ s.
Proof.
  rewrite FindFreeFrame_eq. destruct (free_list_ s); [|done].
  destruct ((Evict (replacer_ s)).2) as [v|]; [|done].
  change (next_page_id_ (evict_frame v (Evict (replacer_ s)).1 s) = next_page_id_ s).
  by destruct (evict_frame_fields v (Evict (replacer_ s)).1 s) as (_ & _ & _ & _ & -> & _).
Qed.

Lemma apply_call_next_page_id s c :
  next_page_id_ (apply_call s c) = next_page_id_ s \/
  next_page_id_ (apply_call s c) = to_page_id_t (next_page_id_ s + 1).
Proof.
  destruct c as [|p|p d|p|picks|p]; cbn [apply_call].
  - rewrite NewPage_eq. pose proof (FindFreeFrame_next_page_id s) as H.
    destruct (FindFreeFrame s) as [[f|] s1|msg s1]; cbn [state_of] in H |- *;
      [|by left..].
    cbv zeta.
    destruct (RecordAccess f (replacer_ s1)) as [r1|];
      [|right; next_page_id_fields; by rewrite H].
    destruct (SetEvictable f false r1) as [r2|]; right; next_page_id_fields; by rewrite H.
  - left. rewrite FetchPage_eq.
    assert (Hres : forall f, next_page_id_ (state_of (fetch_resident f s)) = next_page_id_ s).
    { intros f. rewrite fetch_resident_eq.
      destruct (RecordAccess f (replacer_ s)) as [r1|]; [|done].
      destruct (SetEvictable f false r1) as [r2|]; by next_page_id_fields. }
    destruct (page_table_ s !! p) as [f|]; [done|].
    pose proof (FindFreeFrame_next_page_id s) as H.
    destruct (FindFreeFrame s) as [[f|] s1|msg s1]; cbn [state_of] in H |- *; [|done..].
    cbv zeta. set (s2 := set_page_table _ s1).
    destruct (read_in_fields p f s2) as (_ & _ & _ & _ & _ & Hn & _).
    change (next_page_id_ s2) with (next_page_id_ s1) in Hn.
    destruct (RecordAccess f _) as [r1|]; [|next_page_id_fields; congruence].
    destruct (SetEvictable f false r1) as [r2|]; next_page_id_fields; congruence.
  - left. rewrite UnpinPage_eq. destruct (page_table_ s !! p) as [f|]; [|done]. cbv zeta.
    destruct (_ <=? 0); [done|]. destruct (_ =? 0); [|by next_page_id_fields].
    destruct (SetEvictable f true (replacer_ s)); by next_page_id_fields.
  - left. rewrite FlushPage_eq. destruct (page_table_ s !! p) as [f|]; [|done].
    change (next_page_id_ (flushed f s) = next_page_id_ s).
    by destruct (flushed_fields f s) as (_ & _ & _ & _ & -> & _).
  - left. rewrite FlushAllPages_eq. unfold state_of.
    destruct (clear_all_fields (seqZ 0 (pool_size_ s))
      (all_written picks (seqZ 0 (pool_size_ s)) s)) as (_ & _ & _ & _ & _ & -> & _).
    by destruct (all_written_fields picks (seqZ 0 (pool_size_ s)) s)
      as (_ & _ & _ & _ & _ & -> & _).
  - left. rewrite DeletePage_eq. destruct (page_table_ s !! p) as [f|]; [|done]. cbv zeta.
    destruct (negb _); [done|]. destruct (0 <? _); [done|].
    destruct (Remove f (replacer_ s)); by next_page_id_fields.
Qed.

(** *** The build is fixed *)

Lemma set_page_build_ f p s : build_ (set_page f p s) = build_ s.
Proof. by destruct (set_page_build f p s) as (-> & _). Qed.

Ltac build_fields :=
  repeat (cbn [state_of build_ set_replacer set_disk set_page_table set_next_page_id
               set_free_list set_deallocated set_in_flight];
          rewrite ?set_page_build_);
  try done.

Lemma FindFreeFrame_build s : build_ (state_of (FindFreeFrame s)) = build_ s.
Proof.
  rewrite FindFreeFrame_eq. destruct (free_list_ s); [|done].
  destruct ((Evict (replacer_ s)).2) as [v|]; [|done].
  change (build_ (evict_frame v (Evict (replacer_ s)).1 s) = build_ s).
  pose proof (evict_frame_io v (Evict (replacer_ s)).1 s) as H.
  destruct (is_dirty_ (page_ref v s)); [rewrite io_written in H|].
  - destruct (assert_evaluates (build_ s)); unfold io in H; injection H as Hb _ _;
      exact Hb.
  - apply io_eq in H as (Hb & _). exact Hb.
Qed.

Lemma apply_call_build s c : build_ (apply_call s c) = build_ s.
Proof.
  destruct c as [|p|p d|p|picks|p]; cbn [apply_call].
  - rewrite NewPage_eq. pose proof (FindFreeFrame_build s) as H.
    destruct (FindFreeFrame s) as [[f|] s1|msg s1]; cbn [state_of] in H; [|done..].
    cbv zeta.
    destruct (RecordAccess f (replacer_ s1)) as [r1|]; [|by build_fields].
    destruct (SetEvictable f false r1) as [r2|]; by build_fields.
  - rewrite FetchPage_eq.
    assert (Hres : forall f, build_ (state_of (fetch_resident f s)) = build_ s).
    { intros f. rewrite fetch_resident_eq.
      destruct (RecordAccess f (replacer_ s)) as [r1|]; [|done].
      destruct (SetEvictable f false r1) as [r2|]; by build_fields. }
    destruct (page_table_ s !! p) as [f|]; [done|].
    pose proof (FindFreeFrame_build s) as H.
    destruct (FindFreeFrame s) as [[f|] s1|msg s1]; cbn [state_of] in H; [|done..].
    cbv zeta. set (s2 := set_page_table _ s1).
    destruct (read_in_fields p f s2) as (Hb & _).
    change (build_ s2) with (build_ s1) in Hb.
    destruct (RecordAccess f _) as [r1|]; [|build_fields; congruence].
    destruct (SetEvictable f false r1) as [r2|]; build_fields; congruence.
  - rewrite UnpinPage_eq. destruct (page_table_ s !! p) as [f|]; [|done]. cbv zeta.
    destruct (_ <=? 0); [done|]. destruct (_ =? 0); [|by build_fields].
    destruct (SetEvictable f true (replacer_ s)); by build_fields.
  - rewrite FlushPage_eq. destruct (page_table_ s !! p) as [f|]; [|done].
    change (build_ (flushed f s) = build_ s). unfold flushed.
    rewrite set_page_build_. by destruct (written_fields f s) as (-> & _).
  - rewrite FlushAllPages_eq. unfold state_of.
    destruct (clear_all_build (seqZ 0 (pool_size_ s))
      (all_written picks (seqZ 0 (pool_size_ s)) s)) as (-> & _).
    by destruct (all_written_fields picks (seqZ 0 (pool_size_ s)) s) as (-> & _).
  - rewrite DeletePage_eq. destruct (page_table_ s !! p) as [f|]; [|done]. cbv zeta.
    destruct (negb _); [done|]. destruct (0 <? _); [done|].
    destruct (Remove f (replacer_ s)); by build_fields.
Qed.

(** *** A build that waits leaves no request in flight *)

Lemma set_page_in_flight f p s : in_flight_ (set_page f p s) = in_flight_ s.
Proof. by destruct (set_page_build f p s) as (_ & -> & _). Qed.

Ltac in_flight_fields :=
  repeat (cbn [state_of in_flight_ set_replacer set_disk set_page_table set_next_page_id
               set_free_list set_deallocated];
          rewrite ?set_page_in_flight);
  try done.

Lemma written_in_flight f s :
  assert_evaluates (build_ s) = true -> in_flight_ (written f s) = in_flight_ s.
Proof. intros Hb. unfold written. by rewrite Hb. Qed.

Lemma read_in_in_flight page_id f s :
  assert_evaluates (build_ s) = true -> in_flight_ (read_in page_id f s) = in_flight_ s.
Proof.
  intros Hb. pose proof (io_read_in page_id f s) as H. rewrite Hb in H.
  unfold io in H. by injection H as _ _ Hi.
Qed.

Lemma FindFreeFrame_in_flight s :
  assert_evaluates (build_ s) = true ->
  in_flight_ (state_of (FindFreeFrame s)) = in_flight_ s.
Proof.
  intros Hb. rewrite FindFreeFrame_eq. destruct (free_list_ s); [|done].
  destruct ((Evict (replacer_ s)).2) as [v|]; [|done].
  change (in_flight_ (evict_frame v (Evict (replacer_ s)).1 s) = in_flight_ s).
  pose proof (evict_frame_io v (Evict (replacer_ s)).1 s) as H.
  destruct (is_dirty_ (page_ref v s)); [rewrite io_written, Hb in H|].
  - unfold io in H. injection H as _ _ Hi. exact Hi.
  - apply io_eq in H as (_ & _ & Hi). exact Hi.
Qed.

Lemma apply_call_in_flight s c :
  assert_evaluates (build_ s) = true -> in_flight_ (apply_call s c) = in_flight_ s.
Proof.
  intros Hb. destruct c as [|p|p d|p|picks|p]; cbn [apply_call].
  - rewrite NewPage_eq. pose proof (FindFreeFrame_in_flight s Hb) as H.
    destruct (FindFreeFrame s) as [[f|] s1|msg s1]; cbn [state_of] in H; [|done..].
    cbv zeta.
    destruct (RecordAccess f (replacer_ s1)) as [r1|]; [|by in_flight_fields].
    destruct (SetEvictable f false r1) as [r2|]; by in_flight_fields.
  - rewrite FetchPage_eq.
    assert (Hres : forall f, in_flight_ (state_of (fetch_resident f s)) = in_flight_ s).
    { intros f. rewrite fetch_resident_eq.
      destruct (RecordAccess f (replacer_ s)) as [r1|]; [|done].
      destruct (SetEvictable f false r1) as [r2|]; by in_flight_fields. }
    destruct (page_table_ s !! p) as [f|]; [done|].
    pose proof (FindFreeFrame_in_flight s Hb) as H.
    pose proof (FindFreeFrame_build s) as Hb1.
    destruct (FindFreeFrame s) as [[f|] s1|msg s1]; cbn [state_of] in H, Hb1; [|done..].
    cbv zeta. set (s2 := set_page_table _ s1).
    assert (Hi : in_flight_ (read_in p f s2) = in_flight_ s).
    { rewrite read_in_in_flight; [done|]. change (build_ s2) with (build_ s1). congruence. }
    destruct (RecordAccess f _) as [r1|]; [|in_flight_fields; congruence].
    destruct (SetEvictable f false r1) as [r2|]; in_flight_fields; congruence.
  - rewrite UnpinPage_eq. destruct (page_table_ s !! p) as [f|]; [|done]. cbv zeta.
    destruct (_ <=? 0); [done|]. destruct (_ =? 0); [|by in_flight_fields].
    destruct (SetEvictable f true (replacer_ s)); by in_flight_fields.
  - rewrite FlushPage_eq. destruct (page_table_ s !! p) as [f|]; [|done].
    change (in_flight_ (flushed f s) = in_flight_ s). unfold flushed.
    rewrite set_page_in_flight. by apply written_in_flight.
  - rewrite FlushAllPages_eq. unfold state_of.
    destruct (clear_all_build (seqZ 0 (pool_size_ s))
      (all_written picks (seqZ 0 (pool_size_ s)) s)) as (_ & ->).
    unfold all_written. by rewrite Hb.
  - rewrite DeletePage_eq. destruct (page_table_ s !! p) as [f|]; [|done]. cbv zeta.
    destruct (negb _); [done|]. destruct (0 <? _); [done|].
    destruct (Remove f (replacer_ s)); by in_flight_fields.
Qed.


(** *** What a call does to one page *)

Lemma emplace_ne k v (m : gmap Z Z) p : p <> k -> emplace k v m !! p = m !! p.
Proof.
  intros Hp. unfold emplace. destruct (m !! k); [done|]. by rewrite lookup_insert_ne.
Qed.

Lemma io_waits_disk s1 s f :
  assert_evaluates (build_ s) = true ->
  io s1 = io (if is_dirty_ (page_ref f s) then written f s else s) ->
  disk_ s1 = if is_dirty_ (page_ref f s)
             then Scheduler.WritePage (page_id_ (page_ref f s))
                    (data_ (page_ref f s)) (disk_ s)
             else disk_ s.
Proof.
  intros Hb H. destruct (is_dirty_ (page_ref f s)).
  - rewrite io_written, Hb in H. unfold io in H. by injection H as _ Hd _.
  - by apply io_eq in H as (_ & Hd & _).
Qed.

Lemma FindFreeFrame_page s s1 f p :
  assert_evaluates (build_ s) = true ->
  PoolInv s -> sole_frame s p -> FindFreeFrame s = Returns (Some f) s1 ->
  in_pool s f /\ pin_count_ (page_ref f s) = 0 /\
  (forall g, g <> f -> page_ref g s1 = page_ref g s) /\
  match page_table_ s !! p with
  | Some fp =>
      if decide (fp = f)
      then page_table_ s1 !! p = None /\
           forall d, durable s p d -> Scheduler.contents_ (disk_ s1) !! p = Some d
      else page_table_ s1 !! p = Some fp /\
           Scheduler.contents_ (disk_ s1) !! p = Scheduler.contents_ (disk_ s) !! p
  | None =>
      page_table_ s1 !! p = None /\
      Scheduler.contents_ (disk_ s1) !! p = Scheduler.contents_ (disk_ s) !! p
  end.
Proof.
  intros Hb HI Hsole E. pose proof (FindFreeFrame_effect s HI) as H. rewrite E in H.
  destruct H as (Hf & Hpin & _ & _ & _ & _ & Hoth & _ & _ & _ & Hnot & Hsrc).
  split; [done|]. split; [done|]. split; [done|].
  assert (Hid : page_id_ (page_ref f s) = p -> page_table_ s !! p = Some f)
    by (by apply Hsole).
  destruct Hsrc as [(_ & Ht & Hd & _)|(_ & _ & _ & Ht & _ & Hd)];
    [apply io_eq in Hd as (_ & Hd & _)|apply (io_waits_disk s1 s f Hb) in Hd].
  - rewrite Ht, Hd. destruct (page_table_ s !! p) as [fp|] eqn:Hp; [|done].
    case_decide as Hfp; [|done]. subst fp. exfalso. apply (Hnot p). by rewrite Ht.
  - rewrite Ht, Hd. destruct (page_table_ s !! p) as [fp|] eqn:Hp.
    + case_decide as Hfp.
      * subst fp. destruct (pinv_table _ _ HI _ _ Hp) as (_ & Hidf & _).
        rewrite Hidf. split; [by rewrite lookup_delete_eq|].
        intros d. unfold durable. rewrite Hp. intros [Hdat [Hdirty|Hc]].
        -- rewrite Hdirty. simpl. by rewrite lookup_insert_eq, Hdat.
        -- destruct (is_dirty_ (page_ref f s)); [|done].
           simpl. by rewrite lookup_insert_eq, Hdat.
      * assert (Hne : page_id_ (page_ref f s) <> p).
        { intros Heq. specialize (Hid Heq). congruence. }
        split; [by rewrite lookup_delete_ne|].
        destruct (is_dirty_ (page_ref f s)); [|done]. simpl. by rewrite lookup_insert_ne.
    + assert (Hne : page_id_ (page_ref f s) <> p).
      { intros Heq. specialize (Hid Heq). congruence. }
      split; [by rewrite lookup_delete_ne|].
      destruct (is_dirty_ (page_ref f s)); [|done]. simpl. by rewrite lookup_insert_ne.
Qed.

Lemma install_page s s1 s' f q p :
  assert_evaluates (build_ s) = true ->
  PoolInv s -> sole_frame s p -> FindFreeFrame s = Returns (Some f) s1 -> q <> p ->
  pool_size_ s' = pool_size_ s ->
  page_table_ s' !! p = page_table_ s1 !! p ->
  Scheduler.contents_ (disk_ s') = Scheduler.contents_ (disk_ s1) ->
  page_id_ (page_ref f s') = q ->
  (forall g, g <> f -> page_ref g s' = page_ref g s1) ->
  sole_frame s' p /\
  (forall fp n d, 0 < n -> pinned_in s p fp n d -> pinned_in s' p fp n d) /\
  (forall d, durable s p d -> durable s' p d).
Proof.
  intros Hb HI Hsole E Hq Hps Ht Hc Hid Hoth.
  destruct (FindFreeFrame_page s s1 f p Hb HI Hsole E) as (Hf & Hpin & Hoth1 & Hcase).
  split; [|split].
  - intros g Hg Hgp. unfold in_pool in Hg. rewrite Hps in Hg.
    destruct (decide (g = f)) as [->|Hgf]; [congruence|].
    rewrite Hoth, Hoth1 in Hgp by done. specialize (Hsole g Hg Hgp).
    rewrite Hsole in Hcase. rewrite decide_False in Hcase by done.
    rewrite Ht. apply Hcase.
  - intros fp n d Hn (Hp & Hpn & Hd).
    assert (Hne : fp <> f) by (intros ->; lia).
    rewrite Hp, decide_False in Hcase by done.
    split; [rewrite Ht; apply Hcase|]. by rewrite Hoth, Hoth1.
  - intros d Hdur. pose proof Hdur as Hdur'. unfold durable in Hdur |- *.
    rewrite Ht, Hc. destruct (page_table_ s !! p) as [fp|] eqn:Hp.
    + case_decide as Hfp; destruct Hcase as [-> Hcs].
      * by apply Hcs.
      * rewrite Hcs. by rewrite Hoth, Hoth1.
    + destruct Hcase as [-> ->]. done.
Qed.

Lemma FetchPage_waits page_id s s' s1 f :
  assert_evaluates (build_ s) = true -> PoolInv s ->
  FindFreeFrame s = Returns (Some f) s1 ->
  io s' = io (read_in page_id f s1) ->
  data_ (page_ref f s') = data_ (page_ref f (read_in page_id f s1)) ->
  Scheduler.contents_ (disk_ s') = Scheduler.contents_ (disk_ s1) /\
  data_ (page_ref f s')
  = default (replicate (length (data_ (page_ref f s))) Byte.x00)
      (Scheduler.contents_ (disk_ s1) !! page_id).
Proof.
  intros Hb HI E Hio Hdat.
  pose proof (FindFreeFrame_effect s HI) as Heff. rewrite E in Heff.
  destruct Heff as (Hf & _ & _ & _ & _ & Hlen & _ & Hdata & _).
  pose proof (FindFreeFrame_build s) as Hb1. rewrite E in Hb1. cbn [state_of] in Hb1.
  destruct (PoolInv_page_lt _ _ _ HI Hf) as [H0 Hlt]. rewrite <- Hlen in Hlt.
  rewrite io_read_in in Hio. rewrite read_in_data in Hdat by done.
  rewrite Hb1, Hb in Hio, Hdat. unfold io in Hio. injection Hio as _ Hd _.
  by rewrite Hd, Hdat, Hdata.
Qed.

Lemma fetch_page_in s s1 s' f p :
  assert_evaluates (build_ s) = true ->
  PoolInv s -> sole_frame s p -> page_table_ s !! p = None ->
  FindFreeFrame s = Returns (Some f) s1 ->
  pool_size_ s' = pool_size_ s ->
  page_table_ s' = <[p := f]> (page_table_ s1) ->
  Scheduler.contents_ (disk_ s') = Scheduler.contents_ (disk_ s1) ->
  data_ (page_ref f s')
  = default (replicate (length (data_ (page_ref f s))) Byte.x00)
      (Scheduler.contents_ (disk_ s1) !! p) ->
  (forall g, g <> f -> page_ref g s' = page_ref g s1) ->
  sole_frame s' p /\ (forall d, durable s p d -> durable s' p d).
Proof.
  intros Hb HI Hsole Hp E Hps Ht Hc Hdata Hoth.
  destruct (FindFreeFrame_page s s1 f p Hb HI Hsole E) as (Hf & Hpin & Hoth1 & Hcase).
  rewrite Hp in Hcase. destruct Hcase as [Ht1 Hc1]. split.
  - intros g Hg Hgp. unfold in_pool in Hg. rewrite Hps in Hg.
    destruct (decide (g = f)) as [->|Hgf]; [by rewrite Ht, lookup_insert_eq|].
    rewrite Hoth, Hoth1 in Hgp by done. specialize (Hsole g Hg Hgp). congruence.
  - intros d. unfold durable. rewrite Hp, Ht, lookup_insert_eq, Hc, Hdata, Hc1.
    intros ->. split; [done|by right].
Qed.

Lemma local_page s s' p :
  PoolInv s -> sole_frame s p ->
  pool_size_ s' = pool_size_ s ->
  page_table_ s' !! p = page_table_ s !! p ->
  (forall g, in_pool s g -> page_id_ (page_ref g s') = page_id_ (page_ref g s)) ->
  (forall fp, page_table_ s !! p = Some fp ->
     data_ (page_ref fp s') = data_ (page_ref fp s) /\
     (is_dirty_ (page_ref fp s) = true ->
      is_dirty_ (page_ref fp s') = true \/
      Scheduler.contents_ (disk_ s') !! p = Some (data_ (page_ref fp s)))) ->
  (forall d, Scheduler.contents_ (disk_ s) !! p = Some d ->
     page_table_ s !! p = None \/
     (exists fp, page_table_ s !! p = Some fp /\ data_ (page_ref fp s) = d) ->
     Scheduler.contents_ (disk_ s') !! p = Some d) ->
  sole_frame s' p /\
  (forall fp n d, pinned_in s p fp n d ->
     pin_count_ (page_ref fp s) <= pin_count_ (page_ref fp s') -> pinned_in s' p fp n d) /\
  (forall d, durable s p d -> durable s' p d).
Proof.
  intros HI Hsole Hps Ht Hid Hres Hdisk. split; [|split].
  - intros g Hg Hgp. unfold in_pool in Hg. rewrite Hps in Hg.
    rewrite Hid in Hgp by done. rewrite Ht. by apply Hsole.
  - intros fp n d (Hp & Hpn & Hd) Hle. destruct (Hres fp Hp) as [Hdat _].
    split; [by rewrite Ht|]. split; [lia|congruence].
  - intros d. unfold durable. rewrite Ht.
    destruct (page_table_ s !! p) as [fp|] eqn:Hp.
    + destruct (Hres fp eq_refl) as [Hdat Hdirty]. rewrite Hdat.
      intros [Hd [Hdy|Hc]]; (split; [done|]).
      * destruct (Hdirty Hdy) as [?|?]; [by left|right; congruence].
      * right. apply Hdisk; [done|]. right. by exists fp.
    + intros Hc. apply Hdisk; [done|by left].
Qed.

Lemma page_ref_ext s s' g : pages_ s' = pages_ s -> page_ref g s' = page_ref g s.
Proof. intros H. unfold page_ref, page_lookup. by rewrite H. Qed.

Lemma clear_all_data l : forall s g,
  data_ (page_ref g (clear_all l s)) = data_ (page_ref g s).
Proof.
  induction l as [|i l IH]; intros s g; [done|].
  change (clear_all (i :: l) s)
    with (clear_all l (set_page i (set_is_dirty false (page_ref i s)) s)).
  rewrite (IH (set_page i (set_is_dirty false (page_ref i s)) s) g).
  destruct (decide (g = i)) as [->|Hgi]; [|by rewrite page_ref_set_page_ne].
  unfold page_ref, page_lookup, set_page. destruct (i <? 0) eqn:Hi; [done|].
  simpl. destruct (pages_ s !! Z.to_nat i) as [p|] eqn:Hp; simpl.
  - rewrite list_lookup_insert_eq; [done|]. by eapply lookup_lt_Some.
  - rewrite list_insert_ge; [by rewrite Hp|]. by apply lookup_ge_None.
Qed.

Lemma all_written_contents picks l s p d :
  assert_evaluates (build_ s) = true ->
  (forall i, i ∈ l -> page_id_ (page_ref i s) = p -> data_ (page_ref i s) = d) ->
  Scheduler.contents_ (disk_ s) !! p = Some d \/
  (exists i, i ∈ l /\ page_id_ (page_ref i s) = p) ->
  Scheduler.contents_ (disk_ (all_written picks l s)) !! p = Some d.
Proof.
  intros Hb Hall Hsrc. unfold all_written. rewrite Hb. simpl.
  apply serve_writes_contents.
  - intros r Hr Hrp. unfold writes_of in Hr.
    apply list_elem_of_fmap in Hr as (i & -> & Hi). simpl in *. by apply Hall.
  - destruct Hsrc as [?|(i & Hi & Hip)]; [by left|]. right.
    exists (page_id_ (page_ref i s), data_ (page_ref i s)). split; [|done].
    unfold writes_of. apply list_elem_of_fmap. by exists i.
Qed.

Lemma flushed_disk f s :
  assert_evaluates (build_ s) = true ->
  disk_ (flushed f s)
  = Scheduler.WritePage (page_id_ (page_ref f s)) (data_ (page_ref f s)) (disk_ s).
Proof.
  intros Hb. pose proof (io_flushed f s) as H. rewrite io_written, Hb in H.
  unfold io in H. by injection H as _ Hd _.
Qed.

Lemma UnpinPage_effect q b s :
  PoolInv s ->
  let s' := state_of (UnpinPage q b s) in
  page_table_ s' = page_table_ s /\ disk_ s' = disk_ s /\
  forall g, data_ (page_ref g s') = data_ (page_ref g s) /\
    page_id_ (page_ref g s') = page_id_ (page_ref g s) /\
    (is_dirty_ (page_ref g s) = true -> is_dirty_ (page_ref g s') = true) /\
    (page_table_ s !! q <> Some g -> page_ref g s' = page_ref g s).
Proof.
  intros HI. rewrite UnpinPage_eq.
  destruct (page_table_ s !! q) as [f|] eqn:Hq; [|done]. cbv zeta.
  destruct (_ <=? 0); [done|].
  destruct (pinv_table _ _ HI _ _ Hq) as (Hf & _).
  destruct (PoolInv_page_lt _ _ _ HI Hf) as [H0 Hlt].
  set (page' := set_pin_count _ _).
  assert (Hpg : forall g, page_ref g (set_page f page' s)
                          = if decide (f = g) then page' else page_ref g s)
    by (intros g; by apply page_ref_set_page).
  destruct (set_page_fields f page' s) as (_ & Ht & _ & _ & Hd & _).
  assert (Hgoal : page_table_ (set_page f page' s) = page_table_ s /\
    disk_ (set_page f page' s) = disk_ s /\
    forall g, data_ (page_ref g (set_page f page' s)) = data_ (page_ref g s) /\
      page_id_ (page_ref g (set_page f page' s)) = page_id_ (page_ref g s) /\
      (is_dirty_ (page_ref g s) = true -> is_dirty_ (page_ref g (set_page f page' s)) = true) /\
      (Some f <> Some g -> page_ref g (set_page f page' s) = page_ref g s)).
  { split; [done|]. split; [done|]. intros g. rewrite Hpg.
    case_decide as Hfg; [subst g|done]. subst page'. simpl.
    split; [done|]. split; [done|]. split; [by intros ->|done]. }
  destruct (_ =? 0); [|exact Hgoal].
  destruct (SetEvictable f true (replacer_ s)); exact Hgoal.
Qed.

Lemma DeletePage_effect q s :
  PoolInv s ->
  let s' := state_of (DeletePage q s) in
  s' = s \/
  exists f, page_table_ s !! q = Some f /\ pin_count_ (page_ref f s) <= 0 /\
    page_table_ s' = delete q (page_table_ s) /\ disk_ s' = disk_ s /\
    page_ref f s' = ResetMemory (page_ref f s) /\
    forall g, g <> f -> page_ref g s' = page_ref g s.
Proof.
  intros HI. pose proof (DeletePage_PoolInv q s HI) as Hret. rewrite DeletePage_eq in Hret |- *.
  destruct (page_table_ s !! q) as [f|] eqn:Hq; [|by left]. cbv zeta in Hret |- *.
  destruct (negb _); [by left|].
  destruct (Z.ltb_spec 0 (pin_count_ (page_ref f s))) as [Hpos|Hzero]; [by left|].
  destruct (pinv_table _ _ HI _ _ Hq) as (Hf & _).
  destruct (PoolInv_page_lt _ _ _ HI Hf) as [H0 Hlt].
  destruct (Remove f (replacer_ s)) as [r|msg]; [|done].
  right. exists f. split; [done|]. split; [done|].
  set (s2 := set_free_list _ _).
  destruct (set_page_fields f (ResetMemory (page_ref f s)) s2) as (_ & Ht & _ & _ & Hd & _).
  cbn [state_of].
  change (page_table_ (set_deallocated ?l ?x)) with (page_table_ x).
  change (disk_ (set_deallocated ?l ?x)) with (disk_ x).
  change (page_ref ?g (set_deallocated ?l ?x)) with (page_ref g x).
  rewrite Ht, Hd. split; [done|]. split; [done|].
  split; [by rewrite page_ref_set_page, decide_True|].
  intros g Hg. by rewrite page_ref_set_page_ne.
Qed.

Lemma same_pages_page s s' p :
  PoolInv s -> sole_frame s p ->
  pool_size_ s' = pool_size_ s -> pages_ s' = pages_ s ->
  page_table_ s' = page_table_ s -> disk_ s' = disk_ s ->
  sole_frame s' p /\
  (forall fp n d, pinned_in s p fp n d -> pinned_in s' p fp n d) /\
  (forall d, durable s p d -> durable s' p d).
Proof.
  intros HI Hsole Hps Hpg Ht Hd.
  assert (Hpr : forall g, page_ref g s' = page_ref g s) by (intros g; by apply page_ref_ext).
  destruct (local_page s s' p HI Hsole Hps) as (H1 & H2 & H3).
  - by rewrite Ht.
  - intros g _. by rewrite Hpr.
  - intros fp _. rewrite Hpr. split; [done|by left].
  - intros d Hc _. by rewrite Hd.
  - split; [done|]. split; [|done]. intros fp n d Hpin. apply H2; [done|]. by rewrite Hpr.
Qed.

Lemma table_frame_eq s p q f :
  PoolInv s -> page_table_ s !! p = Some f -> page_table_ s !! q = Some f -> p = q.
Proof.
  intros HI Hp Hq.
  destruct (pinv_table _ _ HI _ _ Hp) as (_ & Hip & _).
  destruct (pinv_table _ _ HI _ _ Hq) as (_ & Hiq & _). congruence.
Qed.

Lemma page_step s c p :
  assert_evaluates (build_ s) = true ->
  PoolInv s -> sole_frame s p -> p < next_page_id_ s ->
  (c = CDeletePage p ->
   exists f, page_table_ s !! p = Some f /\ 0 < pin_count_ (page_ref f s)) ->
  sole_frame (apply_call s c) p /\
  (forall fp n d, 0 < n -> (forall b, c <> CUnpinPage p b) ->
     pinned_in s p fp n d -> pinned_in (apply_call s c) p fp n d) /\
  (forall d, durable s p d -> durable (apply_call s c) p d).
Proof.
  intros Hb HI Hsole Hnext Hdel.
  pose proof (apply_call_pool_size s c) as Hps.
  destruct c as [|q|q b|q|picks|q]; cbn [apply_call] in Hps |- *.
  - (* NewPage *)
    pose proof (NewPage_effect s HI) as H.
    destruct (NewPage s) as [[[q f]|] s'|msg s']; [| |done]; cbn [state_of] in Hps |- *.
    + destruct H as (s1 & E1 & Hq & _ & Ht & Hd & _ & _ & Hpg & Hoth).
      apply io_eq in Hd as (_ & Hd & _).
      destruct (install_page s s1 s' f q p Hb HI Hsole E1) as (H1 & H2 & H3);
        [lia|done|by rewrite Ht, emplace_ne by lia|by rewrite Hd|by rewrite Hpg|done|].
      split; [done|]. split; [|done]. intros fp n d Hn _. by apply H2.
    + destruct H as (_ & Hpg & Ht & Hd & _). apply io_eq in Hd as (_ & Hd & _).
      destruct (same_pages_page s s' p HI Hsole Hps Hpg Ht Hd) as (H1 & H2 & H3).
      split; [done|]. split; [|done]. intros fp n d _ _. apply H2.
  - (* FetchPage *)
    pose proof (FetchPage_effect q s HI) as H.
    destruct (page_table_ s !! q) as [f|] eqn:Hq.
    + destruct H as (s' & E & Ht & Hd & _ & _ & _ & Hpg & Hoth).
      apply io_eq in Hd as (_ & Hd & _).
      rewrite E in Hps |- *. cbn [state_of] in Hps |- *.
      assert (Hall : forall g, data_ (page_ref g s') = data_ (page_ref g s) /\
                page_id_ (page_ref g s') = page_id_ (page_ref g s) /\
                is_dirty_ (page_ref g s') = is_dirty_ (page_ref g s) /\
                pin_count_ (page_ref g s) <= pin_count_ (page_ref g s')).
      { intros g. destruct (decide (g = f)) as [->|Hg].
        - rewrite Hpg. simpl. repeat split; lia.
        - rewrite Hoth by done. repeat split; lia. }
      destruct (local_page s s' p HI Hsole Hps) as (H1 & H2 & H3).
      * by rewrite Ht.
      * intros g _. apply Hall.
      * intros fp _. destruct (Hall fp) as (-> & _ & -> & _). split; [done|by left].
      * intros d Hc _. by rewrite Hd.
      * split; [done|]. split; [|done]. intros fp n d _ _ Hpin. apply H2; [done|apply Hall].
    + destruct (FetchPage q s) as [[f|] s'|msg s']; [| |done]; cbn [state_of] in Hps |- *.
      * destruct H as (s1 & E1 & Ht & Hio & _ & _ & _ & Hpg & Hoth).
        destruct (FetchPage_waits q s s' s1 f Hb HI E1 Hio ltac:(by rewrite Hpg))
          as (Hc & Hdat).
        destruct (decide (q = p)) as [->|Hqp].
        -- destruct (fetch_page_in s s1 s' f p Hb HI Hsole Hq E1 Hps Ht Hc) as (H1 & H3);
             [exact Hdat|done|].
           split; [done|]. split; [|done].
           intros fp n d _ _ (Hp & _). congruence.
        -- destruct (install_page s s1 s' f q p Hb HI Hsole E1 Hqp Hps) as (H1 & H2 & H3);
             [by rewrite Ht, lookup_insert_ne|done|by rewrite Hpg|done|].
           split; [done|]. split; [|done]. intros fp n d Hn _. by apply H2.
      * destruct H as (_ & Hpg & Ht & Hd & _). apply io_eq in Hd as (_ & Hd & _).
        destruct (same_pages_page s s' p HI Hsole Hps Hpg Ht Hd) as (H1 & H2 & H3).
        split; [done|]. split; [|done]. intros fp n d _ _. apply H2.
  - (* UnpinPage *)
    destruct (UnpinPage_effect q b s HI) as (Ht & Hd & Hall).
    set (s' := state_of (UnpinPage q b s)) in *.
    destruct (local_page s s' p HI Hsole Hps) as (H1 & H2 & H3).
    + by rewrite Ht.
    + intros g _. apply Hall.
    + intros fp _. destruct (Hall fp) as (-> & _ & Hdy & _).
      split; [done|]. intros Hy. left. by apply Hdy.
    + intros d Hc _. by rewrite Hd.
    + split; [done|]. split; [|done]. intros fp n d _ Hne Hpin. apply H2; [done|].
      destruct (Hall fp) as (_ & _ & _ & Hsame). rewrite Hsame; [done|].
      intros Hqf. destruct Hpin as (Hp & _).
      apply (Hne b). f_equal. by apply (table_frame_eq s q p fp).
  - (* FlushPage *)
    rewrite FlushPage_eq in Hps |- *.
    destruct (page_table_ s !! q) as [f|] eqn:Hq; cbn [state_of] in Hps |- *.
    2:{ destruct (same_pages_page s s p HI Hsole) as (H1 & H2 & H3); [done..|].
        split; [done|]. split; [|done]. intros fp n d _ _. apply H2. }
    destruct (flushed_fields f s) as (_ & Ht & _ & _ & _ & _ & _ & Hpr).
    pose proof (flushed_disk f s Hb) as Hd.
    destruct (pinv_table _ _ HI _ _ Hq) as (_ & Hid & _). rewrite Hid in Hd.
    assert (Hall : forall g, data_ (page_ref g (flushed f s)) = data_ (page_ref g s) /\
              page_id_ (page_ref g (flushed f s)) = page_id_ (page_ref g s) /\
              pin_count_ (page_ref g (flushed f s)) = pin_count_ (page_ref g s)).
    { intros g. rewrite Hpr. by case_decide. }
    destruct (local_page s (flushed f s) p HI Hsole Hps) as (H1 & H2 & H3).
    + by rewrite Ht.
    + intros g _. apply Hall.
    + intros fp Hp. destruct (Hall fp) as (-> & _). split; [done|]. intros Hy.
      destruct (decide (fp = f)) as [->|Hfp].
      * right. rewrite Hd. simpl.
        rewrite (table_frame_eq s q p f HI Hq Hp). by rewrite lookup_insert_eq.
      * left. by rewrite Hpr, decide_False.
    + intros d Hc Hsrc. rewrite Hd. simpl.
      destruct (decide (q = p)) as [->|Hqp]; [|by rewrite lookup_insert_ne].
      rewrite lookup_insert_eq. destruct Hsrc as [Hn|(fp & Hp & Hdat)]; [congruence|].
      congruence.
    + split; [done|]. split; [|done]. intros fp n d _ _ Hpin. apply H2; [done|].
      destruct (Hall fp) as (_ & _ & ->). done.
  - (* FlushAllPages *)
    rewrite FlushAllPages_eq in Hps |- *. cbn [state_of] in Hps |- *.
    set (L := seqZ 0 (pool_size_ s)) in *.
    destruct (all_written_fields picks L s) as (_ & _ & Wt & _ & _ & _ & _ & Wp).
    pose proof (all_written_contents picks L s p) as Hw.
    set (s1 := all_written picks L s) in *.
    destruct (clear_all_fields L s1) as (_ & Ht & _ & _ & Hd & _).
    assert (Hall : forall g, data_ (page_ref g (clear_all L s1)) = data_ (page_ref g s) /\
              page_id_ (page_ref g (clear_all L s1)) = page_id_ (page_ref g s) /\
              pin_count_ (page_ref g (clear_all L s1)) = pin_count_ (page_ref g s)).
    { intros g. rewrite clear_all_data. destruct (clear_all_pins L s1 g) as [-> ->].
      by rewrite (page_ref_ext s s1 g Wp). }
    assert (HL : forall i, i ∈ L <-> in_pool s i).
    { intros i. unfold L. rewrite elem_of_seqZ. unfold in_pool. lia. }
    destruct (local_page s (clear_all L s1) p HI Hsole Hps) as (H1 & H2 & H3).
    + by rewrite Ht, Wt.
    + intros g _. apply Hall.
    + intros fp Hp. destruct (Hall fp) as (-> & _). split; [done|]. intros _.
      right. rewrite Hd.
      destruct (pinv_table _ _ HI _ _ Hp) as (Hfp & Hid & _).
      apply Hw; [done| |].
      * intros i Hi Hip. apply HL in Hi. specialize (Hsole i Hi Hip). congruence.
      * right. exists fp. split; [by apply HL|done].
    + intros d Hc Hsrc. rewrite Hd.
      apply Hw; [done| |by left].
      intros i Hi Hip. apply HL in Hi. specialize (Hsole i Hi Hip).
      destruct Hsrc as [Hn|(fp & Hp & Hdat)]; congruence.
    + split; [done|]. split; [|done]. intros fp n d _ _ Hpin. apply H2; [done|].
      destruct (Hall fp) as (_ & _ & ->). done.
  - (* DeletePage *)
    destruct (DeletePage_effect q s HI) as [Hsame|(f & Hq & Hpin & Ht & Hd & Hpg & Hoth)].
    { rewrite Hsame. destruct (same_pages_page s s p HI Hsole) as (H1 & H2 & H3); [done..|].
      split; [done|]. split; [|done]. intros fp n d _ _. apply H2. }
    set (s' := state_of (DeletePage q s)) in *.
    assert (Hqp : q <> p).
    { intros ->. destruct (Hdel eq_refl) as (f' & Hp & Hpos). 
      assert (f' = f) by congruence. subst f'. lia. }
    destruct (pinv_table _ _ HI _ _ Hq) as (_ & Hid & _).
    assert (Hall : forall g, page_id_ (page_ref g s') = page_id_ (page_ref g s) /\
              pin_count_ (page_ref g s') = pin_count_ (page_ref g s) /\
              (page_id_ (page_ref g s) = p -> page_ref g s' = page_ref g s)).
    { intros g. destruct (decide (g = f)) as [->|Hg].
      - rewrite Hpg. simpl. split; [done|]. split; [done|]. intros Hp. congruence.
      - by rewrite Hoth. }
    assert (Hfp : forall fp, page_table_ s !! p = Some fp -> page_ref fp s' = page_ref fp s).
    { intros fp Hp. apply Hall. by destruct (pinv_table _ _ HI _ _ Hp) as (_ & ? & _). }
    destruct (local_page s s' p HI Hsole Hps) as (H1 & H2 & H3).
    + by rewrite Ht, lookup_delete_ne.
    + intros g _. apply Hall.
    + intros fp Hp. rewrite (Hfp fp Hp). split; [done|by left].
    + intros d Hc _. by rewrite Hd.
    + split; [done|]. split; [|done]. intros fp n d _ _ Hpinned. apply H2; [done|].
      destruct Hpinned as (Hp & _). by rewrite (Hfp fp Hp).
Qed.

(** *** A pinned page stays where it is *)













(** The state after [NewPage] has returned page 0 in frame 0 and the
    client has written the payload [payload] into it. *)
Lemma written_state_PoolInv payload :
  let s0 := run [CNewPage] (BufferPoolManager_new (mkBuild true 2) 2 2 Scheduler.DiskManager_new 2) in
  let s := set_page 0 (set_data payload (page_ref 0 s0)) s0 in
  PoolInv s /\ sole_frame s 0.
Proof.
  intros s0 s.
  assert (HI0 : PoolInv s0).
  { apply run_new_PoolInv; [vm_compute; split; [discriminate|reflexivity]|].
    vm_compute. reflexivity. }
  split.
  - apply (PoolInv_same_pins None s0 s HI0); try reflexivity.
    intros g _. destruct (decide (g = 0)) as [->|Hg]; [split; reflexivity|].
    unfold s. rewrite page_ref_set_page_ne by exact Hg. split; reflexivity.
  - intros g [Hg0 Hg1] Hid. change (pool_size_ s) with 2 in Hg1.
    assert (Hg : g = 0 \/ g = 1) by lia.
    destruct Hg as [-> | ->]; [reflexivity|]. vm_compute in Hid. discriminate Hid.
Defined.


(** *** The payload of a page survives eviction *)

Lemma durable_run p d cs : forall s,
  assert_evaluates (build_ s) = true ->
  PoolInv s -> sole_frame s p -> 0 <= p < next_page_id_ s ->
  next_page_id_ s + Z.of_nat (length cs) <= PAGE_ID_MAX ->
  current_timestamp_ (replacer_ s) + Z.of_nat (length cs) < SIZE_T_MODULUS ->
  durable s p d -> (CDeletePage p ∉ cs) ->
  assert_evaluates (build_ (run cs s)) = true /\ PoolInv (run cs s) /\
  sole_frame (run cs s) p /\ p < next_page_id_ (run cs s) /\ durable (run cs s) p d /\
  in_flight_ (run cs s) = in_flight_ s.
Proof.
  induction cs as [|c cs IH]; intros s Hb HI Hsole Hnext Hmax Hts Hdur Hnd.
  { by destruct Hnext. }
  change (run (c :: cs) s) with (run cs (apply_call s c)).
  simpl in Hts, Hmax.
  destruct (apply_call_PoolInv s c HI ltac:(lia)) as [HI' Hts'].
  assert (Hnx : next_page_id_ (apply_call s c) = next_page_id_ s \/
                next_page_id_ (apply_call s c) = next_page_id_ s + 1).
  { destruct (apply_call_next_page_id s c) as [->| ->]; [by left|right].
    apply to_page_id_t_small. unfold PAGE_ID_MAX in Hmax. lia. }
  assert (Hdel : c = CDeletePage p ->
    exists f, page_table_ s !! p = Some f /\ 0 < pin_count_ (page_ref f s)).
  { intros ->. exfalso. apply Hnd. by left. }
  destruct (page_step s c p Hb HI Hsole ltac:(lia) Hdel) as (Hsole' & _ & Hd').
  rewrite <- (apply_call_in_flight s c Hb).
  apply IH; [by rewrite apply_call_build|done|done|lia|lia|lia|by apply Hd'|].
  intros Hin. apply Hnd. by right.
Qed.

(** X17. The payload of a page is not lost, in a build that evaluates the
    argument of [BUSTUB_ASSERT] and while the 32-bit counter of page ids
    does not wrap.  In a state that satisfies the invariant of the pool,
    with no request in flight, let page [p], allocated before, have
    payload [d] kept: it is resident with [d] in a frame that is dirty or
    that the disk agrees with, or it is not resident and the disk holds
    [d]; and let no other frame carry its page id.  After any sequence of
    calls without [DeletePage] of [p], short enough for the counter to
    stay below [2^31], no request is in flight and the payload is still
    kept, whether the page was evicted, flushed or fetched again in
    between; and a [FetchPage] of [p] then returns a frame with payload
    [d], or no frame when every frame is pinned. *)
Theorem payload_survives (s : BufferPoolManager) (cs : list call)
    (p : page_id_t) (d : list Byte.byte) :
  assert_evaluates (build_ s) = true -> in_flight_ s = [] ->
  PoolInv s -> sole_frame s p -> 0 <= p < next_page_id_ s ->
  next_page_id_ s + Z.of_nat (length cs) <= PAGE_ID_MAX ->
  current_timestamp_ (replacer_ s) + Z.of_nat (length cs) < SIZE_T_MODULUS ->
  durable s p d -> (CDeletePage p ∉ cs) ->
  in_flight_ (run cs s) = [] /\ durable (run cs s) p d /\
  match FetchPage p (run cs s) with
  | Returns (Some f) s' => page_table_ s' !! p = Some f /\ data_ (page_ref f s') = d
  | Returns None _ => page_table_ (run cs s) !! p = None /\ all_pinned (run cs s)
  | Raises _ _ => False
  end.
Proof.
  intros Hb Hif HI Hsole Hnext Hmax Hts Hdur Hnd.
  destruct (durable_run p d cs s Hb HI Hsole Hnext Hmax Hts Hdur Hnd)
    as (Hb' & HI' & Hsole' & Hnext' & Hdur' & Hif').
  split; [by rewrite Hif'|]. split; [done|]. set (s1 := run cs s) in *.
  destruct (page_step s1 (CFetchPage p) p Hb' HI' Hsole' Hnext' ltac:(done)) as (_ & _ & Hd2).
  specialize (Hd2 d Hdur'). cbn [apply_call] in Hd2.
  pose proof (FetchPage_effect p s1 HI') as H.
  destruct (page_table_ s1 !! p) as [f|] eqn:Hp.
  - destruct H as (s' & E & Ht & _). rewrite E in Hd2 |- *. cbn [state_of] in Hd2.
    unfold durable in Hd2. rewrite Ht, Hp in Hd2 |- *. split; [done|apply Hd2].
  - destruct (FetchPage p s1) as [[f|] s'|msg s']; [| |done].
    + destruct H as (s2 & _ & Ht & _). cbn [state_of] in Hd2.
      unfold durable in Hd2. rewrite Ht, lookup_insert_eq in Hd2 |- *.
      split; [done|apply Hd2].
    + split; [done|apply H].
Qed.

Lemma payload_survives_witness :
  let s0 := run [CNewPage] (BufferPoolManager_new (mkBuild true 2) 2 2 Scheduler.DiskManager_new 2) in
  let s := state_of (UnpinPage 0 true
             (set_page 0 (set_data [Byte.x01; Byte.x02] (page_ref 0 s0)) s0)) in
  let cs := [CNewPage; CNewPage; CUnpinPage 1 false; CFetchPage 0; CUnpinPage 0 false;
             CFetchPage 1] in
  page_table_ (run [CNewPage; CNewPage] s) !! 0 = None /\
  in_flight_ (run cs s) = [] /\ durable (run cs s) 0 [Byte.x01; Byte.x02] /\
  match FetchPage 0 (run cs s) with
  | Returns (Some f) s' =>
      page_table_ s' !! 0 = Some f /\ data_ (page_ref f s') = [Byte.x01; Byte.x02]
  | Returns None _ => page_table_ (run cs s) !! 0 = None /\ all_pinned (run cs s)
  | Raises _ _ => False
  end.
Proof.
  intros s0 s cs. split; [reflexivity|].
  destruct (written_state_PoolInv [Byte.x01; Byte.x02]) as [HI0 Hsole0].
  fold s0 in HI0, Hsole0.
  set (s1 := set_page 0 (set_data [Byte.x01; Byte.x02] (page_ref 0 s0)) s0) in *.
  assert (HI : PoolInv s).
  { pose proof (UnpinPage_PoolInv 0 true s1 HI0) as H. unfold s.
    destruct (UnpinPage 0 true s1); [apply H|destruct H]. }
  assert (Hsole : sole_frame s 0).
  { destruct (page_step s1 (CUnpinPage 0 true) 0 ltac:(reflexivity) HI0 Hsole0) as (H & _).
    - vm_compute. reflexivity.
    - discriminate.
    - exact H. }
  apply (payload_survives s cs 0 [Byte.x01; Byte.x02]
           ltac:(reflexivity) ltac:(reflexivity) HI Hsole).
  - vm_compute. split; [discriminate|reflexivity].
  - vm_compute. discriminate.
  - vm_compute. reflexivity.
  - unfold durable. change (page_table_ s !! 0) with (Some 0).
    split; [reflexivity|left; reflexivity].
  - intros Hin. vm_compute in Hin.
    repeat (apply elem_of_cons in Hin as [Hin|Hin]; [discriminate Hin|]).
    by apply elem_of_nil in Hin.
Defined.

(** *** Where the frames are *)

Lemma run_pool_size cs : forall s, pool_size_ (run cs s) = pool_size_ s.
Proof.
  induction cs as [|c cs IH]; intros s; [done|].
  change (run (c :: cs) s) with (run cs (apply_call s c)).
  by rewrite IH, apply_call_pool_size.
Qed.

(** X18. After fewer than [2^64 - 1] calls on a new pool, the page table
    maps every resident page id to a frame of the pool that carries this
    page id, has a node in the replacer and is not in the free list, so
    that no two page ids share a frame; the free list holds frames of the
    pool, each once; no pin count is negative; and the frames with pin
    count 0 are exactly those in the free list or evictable in the
    replacer, which are the frames that [FindFreeFrame] can hand out. *)
Theorem frames_accounted (build : Build) (page_size : nat) (pool_size : Z)
    (disk_manager : Scheduler.DiskManager) (replacer_k : Z) (cs : list call) :
  0 <= pool_size < SIZE_T_MODULUS ->
  Z.of_nat (length cs) < SIZE_T_MODULUS - 1 ->
  let s := run cs (BufferPoolManager_new build page_size pool_size disk_manager replacer_k) in
  pool_size_ s = pool_size /\ length (pages_ s) = Z.to_nat pool_size /\
  (forall p f, page_table_ s !! p = Some f ->
     in_pool s f /\ page_id_ (page_ref f s) = p /\ (f ∉ free_list_ s) /\
     is_Some (node_at (replacer_ s) f)) /\
  (forall p q f, page_table_ s !! p = Some f -> page_table_ s !! q = Some f -> p = q) /\
  NoDup (free_list_ s) /\
  (forall f, f ∈ free_list_ s -> in_pool s f) /\
  (forall f, in_pool s f ->
     0 <= pin_count_ (page_ref f s) /\
     (pin_count_ (page_ref f s) = 0 <->
      f ∈ free_list_ s \/ exists n, evictable_at (replacer_ s) f n)).
Proof.
  intros Hps Hlen s.
  pose proof (run_new_PoolInv build page_size pool_size disk_manager replacer_k cs Hps Hlen) as HI.
  fold s in HI. pose proof HI as [I1 I2 I3 I4 I5 I6 I7 I8 I9 I10 I11 I12].
  assert (Hsz : pool_size_ s = pool_size) by apply run_pool_size.
  split; [done|]. split; [by rewrite I2, Hsz|].
  split. { intros p f Hp. destruct (I8 p f Hp) as (? & ? & ? & ? & _). done. }
  split; [intros p q f; apply (table_frame_eq s p q f HI)|].
  split; [done|]. split; [intros f Hf; by apply I6|].
  intros f Hf. split; [by apply I9|]. split.
  - intros H0. by apply I11.
  - intros [Hin|(n & Hn)]; [by apply I6|by apply (I10 f n)].
Qed.

Lemma frames_accounted_witness :
  let s := run [CNewPage; CNewPage; CUnpinPage 0 true; CFetchPage 7; CDeletePage 1]
             (BufferPoolManager_new (mkBuild true 2) 1 2 Scheduler.DiskManager_new 2) in
  page_table_ s !! 1 = Some 1 /\ page_table_ s !! 7 = Some 0 /\
  forall p q f, page_table_ s !! p = Some f -> page_table_ s !! q = Some f -> p = q.
Proof.
  intros s. split; [reflexivity|]. split; [reflexivity|].
  assert (Hps : 0 <= 2 < SIZE_T_MODULUS) by (vm_compute; split; [discriminate|reflexivity]).
  assert (Hlen : Z.of_nat (length [CNewPage; CNewPage; CUnpinPage 0 true; CFetchPage 7;
                                   CDeletePage 1]) < SIZE_T_MODULUS - 1)
    by (vm_compute; reflexivity).
  destruct (frames_accounted (mkBuild true 2) 1 2 Scheduler.DiskManager_new 2 _ Hps Hlen)
    as (_ & _ & _ & Hinj & _).
  exact Hinj.
Defined.

(** *** The counter of the replacer in the pool *)

Lemma set_page_replacer f p s : replacer_ (set_page f p s) = replacer_ s.
Proof. by destruct (set_page_fields f p s) as (_ & _ & _ & -> & _). Qed.

Lemma set_page_deallocated f p s : deallocated_ (set_page f p s) = deallocated_ s.
Proof. by destruct (set_page_fields f p s) as (_ & _ & _ & _ & _ & _ & ->). Qed.

Ltac pool_counter_fields :=
  unfold pool_counter;
  repeat (cbn [state_of replacer_ deallocated_ set_replacer set_disk set_page_table
               set_next_page_id set_free_list set_deallocated];
          rewrite ?set_page_replacer, ?set_page_deallocated).

Lemma FindFreeFrame_pool_counter s :
  pool_counter s -> pool_counter (state_of (FindFreeFrame s)).
Proof.
  intros Hc. rewrite FindFreeFrame_eq. destruct (free_list_ s); [|done].
  pose proof (counter_off_Evict _ _ Hc) as He.
  destruct ((Evict (replacer_ s)).2) as [v|]; [|done].
  unfold pool_counter. cbn [state_of].
  by destruct (evict_frame_fields v (Evict (replacer_ s)).1 s)
    as (_ & _ & _ & -> & _ & -> & _).
Qed.

Lemma pin_pool_counter c f r :
  counter_off c r ->
  match RecordAccess f r with
  | Ok r1 =>
      counter_off c r1 /\
      match SetEvictable f false r1 with
      | Ok r2 => counter_off c r2
      | Throw _ => True
      end
  | Throw _ => True
  end.
Proof.
  intros Hc. destruct (RecordAccess f r) as [r1|] eqn:H1; [|done].
  pose proof (counter_off_RecordAccess _ _ _ _ Hc H1) as Hc1. split; [done|].
  destruct (SetEvictable f false r1) as [r2|] eqn:H2; [|done].
  by apply (counter_off_SetEvictable _ _ _ _ _ Hc1 H2).
Qed.

Lemma apply_call_pool_counter s c : pool_counter s -> pool_counter (apply_call s c).
Proof.
  intros Hc. destruct c as [|p|p d|p|picks|p]; cbn [apply_call].
  - rewrite NewPage_eq. pose proof (FindFreeFrame_pool_counter s Hc) as H.
    destruct (FindFreeFrame s) as [[f|] s1|msg s1]; cbn [state_of] in H |- *; [|done..].
    cbv zeta. pose proof (pin_pool_counter _ f _ H) as Hpin.
    destruct (RecordAccess f (replacer_ s1)) as [r1|]; [|by pool_counter_fields].
    destruct Hpin as [H1 H2].
    destruct (SetEvictable f false r1) as [r2|]; by pool_counter_fields.
  - rewrite FetchPage_eq.
    assert (Hres : forall f, pool_counter (state_of (fetch_resident f s))).
    { intros f. rewrite fetch_resident_eq. pose proof (pin_pool_counter _ f _ Hc) as Hpin.
      destruct (RecordAccess f (replacer_ s)) as [r1|]; [|done].
      destruct Hpin as [H1 H2].
      destruct (SetEvictable f false r1) as [r2|]; by pool_counter_fields. }
    destruct (page_table_ s !! p) as [f|]; [done|].
    pose proof (FindFreeFrame_pool_counter s Hc) as H.
    destruct (FindFreeFrame s) as [[f|] s1|msg s1]; cbn [state_of] in H |- *; [|done..].
    cbv zeta. set (s2 := set_page_table _ s1).
    destruct (read_in_fields p f s2) as (_ & _ & _ & _ & Hr3 & _ & Hd3 & _).
    set (s3 := read_in p f s2) in *.
    change (replacer_ s2) with (replacer_ s1) in Hr3.
    change (deallocated_ s2) with (deallocated_ s1) in Hd3.
    assert (H3 : counter_off (Z.of_nat (length (deallocated_ s1))) (replacer_ s3))
      by (by rewrite Hr3).
    pose proof (pin_pool_counter _ f _ H3) as Hpin.
    destruct (RecordAccess f (replacer_ s3)) as [r1|];
      [|unfold pool_counter; cbn [state_of]; by rewrite Hd3].
    destruct Hpin as [H1 H2].
    destruct (SetEvictable f false r1) as [r2|]; pool_counter_fields; by rewrite Hd3.
  - rewrite UnpinPage_eq. destruct (page_table_ s !! p) as [f|]; [|done]. cbv zeta.
    destruct (_ <=? 0); [done|]. destruct (_ =? 0); [|by pool_counter_fields].
    destruct (SetEvictable f true (replacer_ s)) as [r|] eqn:Hr; pool_counter_fields; [|done].
    by apply (counter_off_SetEvictable _ _ _ _ _ Hc Hr).
  - rewrite FlushPage_eq. destruct (page_table_ s !! p) as [f|]; [|done].
    unfold pool_counter. cbn [state_of].
    by destruct (flushed_fields f s) as (_ & _ & _ & -> & _ & -> & _).
  - rewrite FlushAllPages_eq. unfold pool_counter. cbn [state_of].
    destruct (clear_all_fields (seqZ 0 (pool_size_ s))
      (all_written picks (seqZ 0 (pool_size_ s)) s))
      as (_ & _ & _ & -> & _ & _ & -> & _).
    by destruct (all_written_fields picks (seqZ 0 (pool_size_ s)) s)
      as (_ & _ & _ & _ & -> & _ & -> & _).
  - rewrite DeletePage_eq. destruct (page_table_ s !! p) as [f|]; [|done]. cbv zeta.
    destruct (negb _); [done|]. destruct (0 <? _); [done|].
    destruct (Remove f (replacer_ s)) as [r|] eqn:Hr; pool_counter_fields; [|done].
    rewrite length_app. simpl. replace (Z.of_nat (length (deallocated_ s) + 1))
      with (Z.of_nat (length (deallocated_ s)) + 1) by lia.
    by apply (counter_off_Remove _ _ _ _ Hc Hr).
Qed.

(** X19. After any sequence of calls on a new pool, what [Size] of its
    replacer returns is the number of evictable frames plus the number of
    pages deleted so far, modulo [2^64]: every [DeletePage] that removes
    a frame from the replacer leaves the counter of the replacer one too
    high, and no other call of the pool changes the difference. *)
Theorem replacer_size_counts_deleted (build : Build) (page_size : nat) (pool_size : Z)
    (disk_manager : Scheduler.DiskManager) (replacer_k : Z) (cs : list call) :
  let s := run cs (BufferPoolManager_new build page_size pool_size disk_manager replacer_k) in
  Size (replacer_ s)
  = to_size_t (evictable_count (replacer_ s) + Z.of_nat (length (deallocated_ s))).
Proof.
  intros s.
  assert (H0 : pool_counter
    (BufferPoolManager_new build page_size pool_size disk_manager replacer_k)).
  { unfold pool_counter. simpl. split; [simpl; by rewrite length_replicate|].
    rewrite evictable_count_eq. simpl.
    induction (Z.to_nat pool_size) as [|m IH]; [done|]. simpl. by rewrite filter_cons. }
  assert (H : forall cs s0, pool_counter s0 -> pool_counter (run cs s0)).
  { clear. induction cs as [|c cs IH]; intros s0 H0; [done|].
    apply (IH (apply_call s0 c)). by apply apply_call_pool_counter. }
  by destruct (H cs _ H0) as [_ ?].
Qed.
End PoolFacts.
